(* ===== verification/_CoqProject ===== *)
-Q . S2P
Prelude.v
Errs.v
Json.v
GoContext.v
AuthzPolicies.v
Authz.v
Model.v
Store.v
Queries.v
AuthzLoader.v
AuthzLoaderFacts.v
Batch.v
OData.v
ODataFacts.v
Frames.v
KeyAccess.v
Events.v
JobHandlers.v
Reconciler.v
JobFacts.v
JobOutcomes.v
EventFacts.v
Fsm.v
Lifecycle.v
VoteFacts.v
LifecycleFacts.v
Users.v
KeyConfigs.v
Labels.v
RegistryClient.v
Systems.v
SystemFacts.v
LinkFacts.v
KeyVersions.v
Keys.v
TenantConfig.v
Certificates.v
CertificateFacts.v
Keystores.v
KeystoreFacts.v
Groups.v
Tenants.v
Operator.v
WorkflowManager.v
WorkflowFacts.v
QueryFacts.v
Filters.v
Sanitise.v
ApiErrors.v
Requests.v
RequestFacts.v
KeyRequests.v
Presentation.v
Managers.v
Controllers.v
Tasks.v
ManagerFacts.v
TenantFacts.v
OperatorFacts.v
KeyFacts.v
ControllerFacts.v
AssignFacts.v
CreateFacts.v
CleanupFacts.v
TaskFacts.v
Scenario.v
Witnesses.v
Platform.v
JobWitnesses.v
TenantWitnesses.v
ApiWitnesses.v
TaskWitnesses.v
