(* ===== verification/Prelude.v ===== *)
(** * CMK: a verification of its managers, its approval workflows and its authorization

    CMK (openkcm/cmk) is the customer-managed-keys service: tenants manage keys, key
    configurations and connected systems through a REST API; every sensitive change
    (disabling or deleting a key, linking, unlinking or switching a system, changing
    the primary key of a configuration) goes through an approval workflow that
    several key administrators have to approve; every access is decided by role
    policies, per tenant; keys live in keystores behind plugins; and changes reach
    the connected systems through jobs that another process works off.  The
    development models these cores, with the parts they stand on, as pure functions
    translated from the Go sources under src/.

    ** How Go is rendered

    A function with effects is a [Comp S A]: from a state to the new state and
    either an error or a value; the state survives an error, as a mutated object
    does.  [errs.Wrap] is [wrapping], an inspected error is [attempt] or [try_], a
    loop over a slice is [for_each] or [fold_each], a nil dereference is the error
    [Panic], which only the places with a [recover] catch (the panic middleware and the
    task that assigns approvers).  Texts are treated byte by byte: [TrimSpace],
    [ToLower] and [EqualFold] know ASCII only, [AddDate] counts days of 24 hours.  A
    condition of a query with one of the words null, not_null, empty, not_empty or
    false_null as value means what the query builder makes of it ([eqField]), not a
    comparison.  Strings are strings, UUIDs are [N], Go ints
    and times are [Z]; none of the modelled arithmetic leaves the 64-bit range (counts
    are bounded by the number of rows, day offsets by the configuration).  The tables
    of a tenant are the record [DB], with the public schema that all tenants share in
    [db_public]; a [World] also carries the clock, whether a transaction is open, the
    jobs handed to the job library, a log of the calls to other services, the cached
    provider configurations, and a schedule [w_faults] that says which of the coming
    database calls fail, so that a theorem over all worlds covers every possible
    failure.  A [Fleet] is the same for all tenants.  A Go map whose iteration order
    matters comes with an arbitrary order ([GoMaps]).

    ** Files

    - [Prelude]: scope and notations, the computation monad with its inversion and
      preservation lemmas, the hint database [cmk], lemmas on lists.
    - [Errs]: internal/errs (wrap.go, compare.go, mapper.go): error values,
      [errors.Is], the mapping of internal to exposed errors.  [Json]: documents and
      how [encoding/json] reads a struct.
    - [GoContext]: utils/context/context.go: the request context.
    - [AuthzPolicies]: the tables of internal/authz (api_policies.go,
      repo_business_policies.go, repo_internal_policies.go, policies.go,
      api_endpoint_mapping.go), row by row.
    - [Authz]: internal/authz (authorization_data.go, request.go, handler.go,
      check.go): authorization keys and decisions.
    - [AuthzLoader], [AuthzLoaderFacts]: internal/authz/loader, internal/authz/repo,
      internal/middleware/authz.go, and the tenant selection of
      internal/repo/sql/repo.go, on the database of all tenants ([Cluster]).
    - [Model]: internal/model: enums with their SQL codec, entities, hooks,
      descriptions; utils/identity.
    - [Store]: internal/repo/sql/repo.go: the operations of [repo.Repo] on one
      tenant; the interface [Resource] says per entity what the repository needs,
      [ResourceLaws] what it may rely on.
    - [Queries]: internal/repo/query.go and the conditions that
      internal/repo/sql/repo.go adds to a statement for a query, with what they select;
      [QueryFacts]: that the conditions on rows used by the models of the workflow and
      label managers are what the queries of their code select.  The other managers'
      conditions are translated directly.
    - [Batch]: the batch loop and pagination of internal/repo/repository.go.
    - [Frames]: the interface [FrameRule]: what a group of operations may touch, shown
      once and used for many relations.
    - [KeyAccess]: the access data of keys and keystores (internal/model/key.go,
      keystore.go).
    - [Events], [JobHandlers], [Reconciler]: internal/event-processor: sending events,
      the handlers of every type of job, resolution of tasks and dispatch.
      [JobFacts], [JobOutcomes] and [EventFacts] hold their theorems.
    - [Fsm]: the interface [FSM]/[FSMLaws] of the state-machine library
      looplab/fsm, which is not in the repository, and a concrete machine.
    - [Lifecycle]: internal/workflow: states, transitions, votes, actor checks,
      execution of the requested action.  [VoteFacts] and [LifecycleFacts] hold its
      theorems.
    - [Users]: internal/manager/user.go; [Groups]: internal/manager/group.go;
      [KeyConfigs]: internal/manager/keyconfiguration.go and tag.go.
    - [RegistryClient]: internal/clients/registry/systems; [Systems]:
      internal/manager/system.go and systeminformation.go, with the theorems in
      [SystemFacts] and [LinkFacts].
    - [KeyVersions], [Keys]: internal/manager/keyversion.go, importparams.go and
      key.go; [KeyFacts] holds the theorems.
    - [Certificates], [CertificateFacts]: internal/manager/certificate.go and
      internal/model/certificate.go.
    - [TenantConfig]: the workflow part of internal/manager/tenantconfigs.go;
      [Keystores], [KeystoreFacts]: its keystore part, keystorepool.go and
      providerconfigmanager.go.
    - [WorkflowManager]: internal/manager/workflow.go and
      internal/workflow/notification.go: creation, assignment of approvers, votes,
      transitions, expiry, listing, cleanup.  Its theorems are in [WorkflowFacts]
      (votes, quorum, rollback, choice of approvers), [AssignFacts], [CreateFacts]
      and [CleanupFacts].
    - [Managers], [ManagerFacts]: internal/manager/base.go: the managers put together;
      the interfaces [KeyServices], [Actions] and [LookupLaws] are met by the models
      of the managers that implement them.
    - [Labels]: internal/manager/key_label.go.  [Tenants], [TenantFacts]:
      internal/manager/tenant.go, internal/model/tenant*.go, and of internal/db and
      internal/multitenancy the schemas: names, migration up to the latest version, drop.
    - [Operator], [OperatorFacts]: internal/operator: the handlers of the tasks that
      create, block, unblock and terminate tenants, and the probe.
    - [OData], [ODataFacts]: utils/odata: the parser, the schemas and the builder of
      filters.  [Filters]: the filters of the lists of workflows and systems.
    - [Sanitise]: utils/sanitise and utils/tags, on trees of reflected values.
    - [ApiErrors]: internal/apierrors: every table of answers to errors.
    - [Requests], [RequestFacts]: internal/middleware, internal/handlers,
      internal/api/write and the chain that internal/daemon builds of them.
    - [KeyRequests]: what a request for a key describes
      (internal/api/transform/key); [Presentation]: what is shown of an entity
      (the ToAPI functions of internal/api/transform).
    - [Controllers], [ControllerFacts]: internal/controllers/cmk: the endpoints.
    - [Tasks], [TaskFacts]: internal/async, utils/async and internal/config/tasks.go:
      payloads, schedule, batches over the tenants, child tasks, the processors.
    - [Scenario] and [Platform]: concrete deployments on which the model runs;
      [Witnesses], [JobWitnesses], [TenantWitnesses], [ApiWitnesses] and
      [TaskWitnesses]: every property with hypotheses applied there.

    ** How the parts interact

    A request passes the middlewares ([serveRoute]): the signed client data is read and
    verified, the tenant of the path injected, the request validated, and the loader's
    authorization data decides ([AuthzMiddleware] over [CheckAuthz]).  The endpoint
    ([Controllers]) refuses direct changes for which the tenant requires a workflow,
    calls a manager, sanitises and presents what it returns; an error is answered from
    the tables ([answer]).  In the deployed service the managers work on a guarded
    repository that checks again per table ([AuthzRepo_*]); here they are modelled on the
    plain one ([Store]), and the guard by itself.  The workflow manager
    reads the tenant's configuration, the caller's groups and roles, and asks the
    identity management for the members of admin groups ([IDM]); it drives a
    [Lifecycle], which drives the state machine ([FSM]) and, on confirmation, the
    key, key-configuration and system managers ([Actions]).  The system manager marks
    a system PROCESSING, records an event and hands a job to the job library
    ([Orbital]); the reconciler confirms it, resolves its tasks and, when the library
    reports the end, runs the handler of its type in the tenant of the job
    ([onTenant]).  The key manager talks to keystore plugins through provider
    configurations, which the keystore manager builds from the tenant's keystore and
    certificates.  The operator creates and terminates tenants through the tenant and
    group managers.  The worker runs the periodic tasks for all tenants, and the tasks
    that the managers enqueue.  Services outside the repository enter as type classes: [FSM],
    [IDM], [UUIDParse], [UUIDString], [NewString], [NewUUID], [ParseTime], [Orbital],
    [Registry], [SystemService], [SystemInformation], [KeyManagements],
    [CertificateEnv], [PluginCatalog], [KeyEnv] (the status codes of the plugin SDK and
    the client of the task queue), [ManagerEnv], [Deployment], [OperatorEnv],
    [Migrations], [TenantEnums], [OAPIValidator], [ClientDataAuth], [RoleGetter],
    [Policy] (the HTML policy of the sanitiser), [TaskQueue], [TenantDirectory]; their
    laws, where a theorem needs any, are [FSMLaws], [UUIDLaws], [OrbitalLaws],
    [RoleGetterLaws] and [CertificateEnvLaws], which state documented behaviour of the
    libraries.

    ** What the theorems show

    - Approvals: a workflow waits for confirmation only with the required number of
      distinct approvals recorded; a vote changes exactly the voter's row; approve and
      reject decide exactly when the score is reached or out of reach; leaving the
      group never changes the score; approvers are exactly the members of the admin
      groups without the initiator, and enough of them.
    - Lifecycle: the code implements the transition graph, stores the state it
      reaches, runs the requested action exactly when confirmed, and never leaves a
      terminal state; only the initiator or an approver acts; runs are at most four
      transitions long.
    - Bookkeeping: at most one ongoing workflow per artifact; a failed transition
      leaves no trace; a confirmed, revoked or expired workflow releases its artifact
      (one that is rejected automatically after an approving vote does not); the
      cleanup terminates and deletes exactly the old finished workflows.
    - Systems and jobs: a link is all or nothing, and once accepted it is carried
      through to exactly the requested connection; when its job fails, canceling
      restores the tables.  The handlers of link, unlink and switch jobs implement a
      reference update, can be repeated, leave no trace when they fail, and never
      touch another tenant.
    - Keys: creation and deletion change exactly the key they are about and decide
      the primary key as stated; a primary key with connected systems is safe; a key
      that had to wait for its keystore never becomes primary.  Lookups leave the
      workflow tables alone, which is what the workflow manager's theorems need.
    - Keystores and certificates: a keystore goes from the pool to one tenant with the
      configuration it was created with, the pool is never filled beyond its size, a
      rotation stores a certificate that belongs to its key and retires the old one.
    - Authorization: exact characterisations of both kinds of decisions; grants never
      cross tenants; after a load the decision follows the tenant's groups; the
      repository runs only permitted operations; auditors, tenant administrators and
      key administrators are confined to their endpoints.
    - Configuration and groups: stored configurations stay valid, productive tenants
      cannot switch workflows off, the mandatory groups and admin groups survive every
      change.  Setting labels is an exact upsert, all or nothing.
    - Tenants: provisioning a tenant takes two runs where nothing fails, and is reported
      complete only when everything is there; a tenant is terminated only after it was
      offboarded; the schema of a deleted tenant is not always dropped.
    - Requests: a handler runs only for a verified caller with a role for the route; a
      direct request cannot go around a required workflow; a filter means exactly the
      comparisons it consists of, whatever their values, and the list of workflows runs
      exactly that query, whose SQL conditions and joins select the workflows that
      concern the caller; the answers to errors are exactly the entries of the tables;
      what the sanitiser reaches is clean afterwards.
    - Tasks: a periodic task reaches every selected tenant once; a child task runs
      without the rights of its task; a failed assignment of approvers ends the workflow
      and releases its artifact.

    ** Fuel

    Five loops are not structurally recursive.  [batch_loop] and [batch_fold] (the
    batch loop of internal/repo/repository.go) get one unit per row of the table and
    one more; [ProcessInBatch_one_pass] and [cleanup_exact] prove that this is enough.
    [chainCertificates] gets the length of the text and one more, and
    [chainCertificates_fuel] shows that more changes nothing.  [tenantBatches] gets one
    unit per tenant and one more, which [tenants_served_once] shows to be enough.
    [listPages] (the pages of the registry) takes its fuel as an argument, because the
    registry decides when pages end.

    ** What is not modelled

    The endpoints that show client certificates; the generated API types and router
    (code made from the API description, of which only the fields that are read occur);
    notifications and the task that sends them; the plugins, their wrappers and the
    clients of other services, which are calls over the network and enter as parameters;
    migrations down and of all tenants at once; audit and log output, headers and
    tracing, reading of the configuration, process setup, the command-line programs.
    The queue library decides when a task runs and is retried: the model of a task is one
    call.  A failed statement
    does not make the rest of its transaction fail, as it does in Postgres: a handler
    that ignores a database error inside a transaction goes on.  Mutexes are not
    modelled: the operations of one manager run one after the other.  The jobs and the
    log of a world survive a rollback, as calls to other services do.
*)
From stdpp Require Export base gmap strings list pretty.
From Stdlib Require Export ZArith Lia.

(** * Scope and notations *)

Declare Scope cmk_scope.
Delimit Scope cmk_scope with cmk.

(** Membership of a string in a [switch]-case list, as a boolean. *)
Definition mem (x : string) (l : list string) : bool := existsb (String.eqb x) l.
Notation "x ∈? l" := (mem x l) (at level 70, no associativity) : cmk_scope.
Notation "x ==s y" := (String.eqb x y) (at level 70, no associativity) : cmk_scope.
Open Scope cmk_scope.

(** * Computations

    A Go function with side effects is a function from the state to the new
    state and either an error or the value it returns.  The state survives an
    error, as a Go object mutated before an early return does. *)

Section Monad.
Context {E S : Type}.

Definition M (A : Type) : Type := S → S * (E + A).

#[global] Instance M_ret : MRet M := λ A a s, (s, inr a).
#[global] Instance M_bind : MBind M := λ A B f m s,
  match m s with
  | (s', inl e) => (s', inl e)
  | (s', inr a) => f a s'
  end.

Definition fail {A} (e : E) : M A := λ s, (s, inl e).
Definition get : M S := λ s, (s, inr s).
Definition gets {A} (f : S → A) : M A := λ s, (s, inr (f s)).
Definition modify (f : S → S) : M unit := λ s, (f s, inr tt).
Definition lift {A} (r : E + A) : M A := λ s, (s, r).

(** [if err != nil { return wrap(err) }] *)
Definition map_err {A} (f : E → E) (m : M A) : M A := λ s,
  match m s with
  | (s', inl e) => (s', inl (f e))
  | (s', inr a) => (s', inr a)
  end.

(** The [(value, err)] pair of a call whose error is inspected. *)
Definition attempt {A} (m : M A) : M (E + A) := λ s,
  let '(s', r) := m s in (s', inr r).

(** [for _, x := range l { ... return err ... }] *)
Fixpoint for_each {A} (f : A → M unit) (l : list A) : M unit :=
  match l with
  | [] => mret tt
  | x :: l' => f x ≫= λ _, for_each f l'
  end.

(** A loop that threads an accumulator through its body. *)
Fixpoint fold_each {A B} (f : B → A → M B) (b : B) (l : list A) : M B :=
  match l with
  | [] => mret b
  | x :: l' => f b x ≫= λ b', fold_each f b' l'
  end.
End Monad.
Arguments M : clear implicits.
#[global] Hint Mode MBind ! : typeclass_instances.

(** A computation on part [S] of a larger state [T]. *)
Definition zoom {E S T A} (view : T → S) (put : S → T → T) (m : M E S A) : M E T A := λ t,
  let '(s', r) := m (view t) in (put s' t, r).

(** ** Inversion of computations *)

Lemma bind_ok {E S A B} (m : M E S A) (f : A → M E S B) s s' b :
  (m ≫= f) s = (s', inr b) ↔ ∃ s1 a, m s = (s1, inr a) ∧ f a s1 = (s', inr b).
Proof. unfold mbind, M_bind. destruct (m s) as [s1 [e|a]]; naive_solver. Qed.

Lemma bind_run {E S A B} (m : M E S A) (f : A → M E S B) s s1 a :
  m s = (s1, inr a) → (m ≫= f) s = f a s1.
Proof. intros Hm. unfold mbind, M_bind. by rewrite Hm. Qed.

Lemma bind_err {E S A B} (m : M E S A) (f : A → M E S B) s s' e :
  (m ≫= f) s = (s', inl e) ↔
  m s = (s', inl e) ∨ ∃ s1 a, m s = (s1, inr a) ∧ f a s1 = (s', inl e).
Proof. unfold mbind, M_bind. destruct (m s) as [s1 [e1|a]]; naive_solver. Qed.

Lemma bind_inv {E S A B} (m : M E S A) (f : A → M E S B) s s' r :
  (m ≫= f) s = (s', r) →
  (∃ e, m s = (s', inl e) ∧ r = inl e) ∨ ∃ s1 a, m s = (s1, inr a) ∧ f a s1 = (s', r).
Proof. unfold mbind, M_bind. destruct (m s) as [s1 [e1|a]]; naive_solver. Qed.

Lemma map_err_ok {E S A} (f : E → E) (m : M E S A) s s' a :
  map_err f m s = (s', inr a) ↔ m s = (s', inr a).
Proof. unfold map_err. destruct (m s) as [? [?|?]]; naive_solver. Qed.

Lemma map_err_err {E S A} (f : E → E) (m : M E S A) s s' e :
  map_err f m s = (s', inl e) ↔ ∃ e', m s = (s', inl e') ∧ e = f e'.
Proof. unfold map_err. destruct (m s) as [? [?|?]]; naive_solver. Qed.

Lemma attempt_ok {E S A} (m : M E S A) s s' (r : E + A) :
  attempt m s = (s', inr r) ↔ m s = (s', r).
Proof. unfold attempt. destruct (m s). naive_solver. Qed.

Lemma map_err_result {E S A} (f : E → E) (m : M E S A) s s' r :
  map_err f m s = (s', r) → ∃ r', m s = (s', r') ∧ ∀ a, r = inr a → r' = inr a.
Proof. unfold map_err. destruct (m s) as [s1 [e|a]]; intros [= <- <-]; eexists; naive_solver. Qed.

(** [inv_M] takes apart every successful run in the context. *)
Ltac inv_M_step :=
  match goal with
  | H : (_ ≫= _) _ = (_, inr _) |- _ => apply bind_ok in H as (?&?&?&H)
  | H : map_err _ _ _ = (_, inr _) |- _ => apply map_err_ok in H
  | H : attempt _ _ = (_, inr _) |- _ => apply attempt_ok in H
  | H : mret _ _ = (_, _) |- _ => unfold mret, M_ret in H
  | H : gets _ _ = (_, _) |- _ => unfold gets in H
  | H : get _ = (_, _) |- _ => unfold get in H
  | H : modify _ _ = (_, _) |- _ => unfold modify in H
  | H : lift _ _ = (_, _) |- _ => unfold lift in H
  | H : fail _ _ = (_, inr _) |- _ => discriminate H
  | H : (_, _) = (_, _) |- _ => injection H as ?; subst
  | H : inr _ = inr _ |- _ => injection H as ?; subst
  | H : inl _ = inl _ |- _ => injection H as ?; subst
  | H : inl _ = inr _ |- _ => discriminate H
  | H : inr _ = inl _ |- _ => discriminate H
  end.
Ltac inv_M := repeat inv_M_step.

(** ** What a computation does to the state, whatever it returns *)

Definition preserves {E S A} (R : S → S → Prop) (m : M E S A) : Prop :=
  ∀ s, R s (m s).1.

Section Preserves.
Context {E S : Type} (R : S → S → Prop) `{!PreOrder R}.

Lemma preserves_ret {A} (a : A) : preserves R (mret a : M E S A).
Proof. intros s. reflexivity. Qed.
Lemma preserves_fail {A} (e : E) : preserves R (fail e : M E S A).
Proof. intros s. reflexivity. Qed.
Lemma preserves_get : preserves R (get : M E S S).
Proof. intros s. reflexivity. Qed.
Lemma preserves_gets {A} (f : S → A) : preserves R (gets f : M E S A).
Proof. intros s. reflexivity. Qed.
Lemma preserves_lift {A} (r : E + A) : preserves R (lift r : M E S A).
Proof. intros s. reflexivity. Qed.
Lemma preserves_bind {A B} (m : M E S A) (f : A → M E S B) :
  preserves R m → (∀ a, preserves R (f a)) → preserves R (m ≫= f).
Proof.
  intros Hm Hf s. unfold mbind, M_bind. specialize (Hm s).
  destruct (m s) as [s1 [e|a]]; simpl in *; [done|].
  etransitivity; [exact Hm|]. apply Hf.
Qed.
Lemma preserves_map_err {A} (f : E → E) (m : M E S A) :
  preserves R m → preserves R (map_err f m).
Proof. intros Hm s. unfold map_err. specialize (Hm s). by destruct (m s) as [? [?|?]]. Qed.
Lemma preserves_attempt {A} (m : M E S A) :
  preserves R m → preserves R (attempt m).
Proof. intros Hm s. unfold attempt. specialize (Hm s). by destruct (m s). Qed.
Lemma preserves_for_each {A} (f : A → M E S unit) l :
  (∀ x, preserves R (f x)) → preserves R (for_each f l).
Proof.
  intros Hf. induction l as [|x l IH]; simpl; [apply preserves_ret|].
  by apply preserves_bind.
Qed.
Lemma preserves_fold_each {A B} (f : B → A → M E S B) b l :
  (∀ b x, preserves R (f b x)) → preserves R (fold_each f b l).
Proof.
  intros Hf. revert b. induction l as [|x l IH]; intros b; simpl; [apply preserves_ret|].
  by apply preserves_bind.
Qed.

Lemma preserves_run {A} (m : M E S A) s s' r : preserves R m → m s = (s', r) → R s s'.
Proof. intros Hm H. specialize (Hm s). by rewrite H in Hm. Qed.
End Preserves.

Create HintDb cmk.
Create Rewrite HintDb cmk.
#[export] Hint Resolve preserves_ret preserves_fail preserves_get preserves_gets
  preserves_lift preserves_bind preserves_map_err preserves_attempt
  preserves_for_each preserves_fold_each : cmk.

(** ** Booleans of the source as propositions *)

Lemma mem_elem x l : (x ∈? l) = true ↔ x ∈ l.
Proof.
  unfold mem. rewrite existsb_exists. setoid_rewrite String.eqb_eq.
  setoid_rewrite <-list_elem_of_In. naive_solver.
Qed.
Lemma mem_not_elem x l : (x ∈? l) = false ↔ x ∉ l.
Proof. rewrite <-mem_elem. by destruct (x ∈? l). Qed.

(** A statement about every element of a concrete list, by evaluation. *)
Lemma forallb_elem {A} (p : A → bool) (l : list A) :
  forallb p l = true → ∀ x, x ∈ l → p x = true.
Proof. rewrite forallb_forall. setoid_rewrite list_elem_of_In. auto. Qed.

Lemma filter_nonempty {A} (p : A → bool) l :
  (0 <? Z.of_nat (length (List.filter p l)))%Z = true ↔ ∃ x, x ∈ l ∧ p x = true.
Proof.
  rewrite Z.ltb_lt. destruct (List.filter p l) as [|y r] eqn:Hf; simpl.
  - split; [lia|]. intros (x & Hx%list_elem_of_In & Hp).
    assert (In x (List.filter p l)) as Hin by (by apply filter_In). by rewrite Hf in Hin.
  - split; [intros _|lia]. exists y. rewrite list_elem_of_In. apply filter_In. rewrite Hf. by left.
Qed.

Lemma filter_none {A} (p : A → bool) l : (∀ x, x ∈ l → p x = false) → List.filter p l = [].
Proof.
  induction l as [|x l IH]; intros Hl; [done|]. simpl. rewrite Hl by (by left).
  apply IH. intros y Hy. apply Hl. by right.
Qed.

(** A column with unique values identifies the row. *)
Lemma NoDup_key {A B} (f : A → B) l x y : NoDup (f <$> l) → x ∈ l → y ∈ l → f x = f y → x = y.
Proof.
  induction l as [|z l IH]; [by intros _ ?%not_elem_of_nil|].
  simpl. intros [Hn Hd]%NoDup_cons [->|Hx]%elem_of_cons [->|Hy]%elem_of_cons Heq; [done|..].
  - destruct Hn. rewrite Heq. by apply list_elem_of_fmap_2.
  - destruct Hn. rewrite <-Heq. by apply list_elem_of_fmap_2.
  - by apply IH.
Qed.

Ltac sum_cases :=
  repeat match goal with
  | H : context [match ?x with inl _ => _ | inr _ => _ end] |- _ =>
      let E := fresh "E" in destruct x eqn:E; try done
  end.

(** * Go maps *)

(** Iteration order of Go maps. *)
Class GoMaps := {
  range : ∀ {V : Type}, gmap string V → list (string * V);
  range_perm {V : Type} (m : gmap string V) : range m ≡ₚ map_to_list m }.

(** * Running the model on concrete data *)

Ltac evaluate := vm_compute; reflexivity.
(** A decidable statement about concrete data. *)
Ltac decided := apply (bool_decide_unpack _); vm_compute; exact I.

Lemma ran {S R} (x : S * R) (r : R) : x.2 = r → x = (x.1, r).
Proof. intros <-. apply surjective_pairing. Qed.
