(* ===== verification/Errs.v ===== *)
(** Errors: Go error values with [errors.Is], the wrappers of
    internal/errs/wrap.go and compare.go, and the error mapper of
    internal/errs/mapper.go that turns an internal error chain into the error
    a client sees. *)
From S2P Require Import Prelude.

(** * Error values

    An [error] keeps what [errors.Is] and [Error()] observe: the package
    variable an error value is stored in (two [errors.New] values are equal only
    when they are the same variable), the errors it wraps and its text. *)
Inductive error : Type :=
| New (name msg : string)                  (* var name = errors.New(msg) *)
| Global (name : string) (e : error)       (* var name = <wrapping error> *)
| Errorf_ww (base ext : error)             (* fmt.Errorf("%w: %w", base, ext) *)
| Errorf_ws (base : error) (str : string)  (* fmt.Errorf("%w: %s", base, str) *)
| Errorf_w_s (base : error) (str : string) (* fmt.Errorf("%w %s", base, str) *)
| Join (a b : error)                       (* errors.Join(a, b) *)
| Typed (msg : string) (unwrap : error)    (* a struct with Error() and Unwrap() *)
| InsufficientApproversError (Required Actual : Z) (unwrap : error)
    (* the struct of internal/workflow/errors.go and the sentinel it unwraps to *)
| GRPC (Code BaseMessage Reason : string) (Metadata : gmap string string)
    (* the struct GRPCError of grpc.go *)
| External (msg : string)                  (* an error of a package outside the repository *)
| Panic (msg : string).                    (* not an error value: the goroutine panics *)

Definition newline : string := String (Ascii.ascii_of_nat 10) EmptyString.

(** The package variable an error value is, when it is one. *)
Definition name_of (e : error) : option string :=
  match e with
  | New n _ | Global n _ => Some n
  | _ => None
  end.

#[export] Instance error_eq_dec : EqDecision error.
Proof. solve_decision. Defined.

(** [errors.Is(err, target)] for a [target] that is a package variable: walk the
    [Unwrap] tree of [err] looking for the variable itself. *)
Fixpoint Is (err : error) (target : string) : bool :=
  match err with
  | New n _ => n ==s target
  | Global n e => (n ==s target) || Is e target
  | Errorf_ww a b | Join a b => Is a target || Is b target
  | Errorf_ws a _ | Errorf_w_s a _ | Typed _ a | InsufficientApproversError _ _ a => Is a target
  | GRPC _ _ _ _ | External _ | Panic _ => false
  end.

(** [err.Error()] *)
Fixpoint Error (err : error) : string :=
  match err with
  | New _ m => m
  | Global _ e => Error e
  | Errorf_ww a b => Error a +:+ ": " +:+ Error b
  | Errorf_ws a s => Error a +:+ ": " +:+ s
  | Errorf_w_s a s => Error a +:+ " " +:+ s
  | Join a b => Error a +:+ newline +:+ Error b
  | Typed m _ => m
  | InsufficientApproversError required actual _ =>
      "insufficient eligible approvers in admin group: required: " +:+ pretty required +:+
      ", actual: " +:+ pretty actual
  | GRPC _ base reason _ => base +:+ ": " +:+ reason
  | External m | Panic m => m
  end.

(** [errors.As(err, &e)] for the two structs whose fields the code reads: the first
    one on the way through the [Unwrap] tree. *)
Fixpoint errors_As {A} (pick : error → option A) (err : error) : option A :=
  match pick err with
  | Some a => Some a
  | None =>
      match err with
      | Errorf_ww a b | Join a b =>
          match errors_As pick a with Some x => Some x | None => errors_As pick b end
      | Global _ a | Errorf_ws a _ | Errorf_w_s a _ | Typed _ a
      | InsufficientApproversError _ _ a => errors_As pick a
      | New _ _ | GRPC _ _ _ _ | External _ | Panic _ => None
      end
  end.

Definition pickGRPC (err : error) : option (string * gmap string string) :=
  match err with GRPC _ _ reason metadata => Some (reason, metadata) | _ => None end.

Definition isGRPC (err : error) : bool := bool_decide (is_Some (errors_As pickGRPC err)).

(** [errors.Is(err, target)].  The method [Is] of [GRPCError] accepts every target
    that has a [GRPCError] in its tree; the struct is not comparable, so this is the only way
    one is recognised. *)
Definition errors_Is (err target : error) : bool :=
  (isGRPC target && isGRPC err) ||
  match name_of target with
  | Some n => Is err n
  | None => false
  end.

(** * internal/errs/wrap.go, compare.go *)

Definition Wrap (base : error) (ext : option error) : error :=
  match ext with
  | None => base
  | Some e => Errorf_ww base e
  end.

Definition Wrapf (base : error) (str : string) : error := Errorf_ws base str.

Fixpoint IsAnyError (err : error) (targets : list error) : bool :=
  match targets with
  | [] => false
  | target :: rest => if errors_Is err target then true else IsAnyError err rest
  end.

(** The wrapper used on an early return [return errs.Wrap(base, err)]; a panic
    passes through it. *)
Definition wrapping (base : error) (e : error) : error :=
  match e with
  | Panic _ => e
  | _ => Wrap base (Some e)
  end.

(** An error value, not a panic. *)
Definition is_error (e : error) : bool := match e with Panic _ => false | _ => true end.

Abbreviation Comp := (M error).

(** [(value, err) := f()] where a panic is not caught. *)
Definition try_ {S A} (m : Comp S A) : Comp S (error + A) := λ s,
  match m s with
  | (s', inl (Panic p)) => (s', inl (Panic p))
  | (s', r) => (s', inr r)
  end.

Definition nilDereference : error := Panic "invalid memory address or nil pointer dereference".
Definition indexOutOfRange : error := Panic "index out of range".

(** [err := f(); if err != nil { log(err) }] *)
Definition logged {S} (m : Comp S unit) : Comp S unit :=
  _ ← try_ m; mret tt.

(** github.com/avast/retry-go: run [f], and again, at most [n] times more, while it
    fails with an error that [retryIf] accepts; the last error is returned.  Waiting
    is not modelled. *)
Fixpoint retry_Do {S A} (retryIf : error → bool) (n : nat) (f : Comp S A) : Comp S A :=
  match n with
  | O => f
  | Datatypes.S n =>
      r ← try_ f;
      match r with
      | inr a => mret a
      | inl err => if retryIf err then retry_Do retryIf n f else fail err
      end
  end.

(** * internal/errs/mapper.go *)

Section Mapper.
Context {T Ctx : Type}.
(** The methods of the [Error[T]] constraint. *)
Variable SetContext : T → Ctx → T.
Variable DefaultError : T.

Record ExposedErrors := mkExposed {
  InternalErrorChain : list error;
  ExposedError : T;
  ContextGetter : option (error → Ctx) }.

Record ErrorMapper := mkMapper {
  Errors : list ExposedErrors;
  PriorityErrors : list ExposedErrors }.

Definition NewMapper (errors priorityErrors : list ExposedErrors) : ErrorMapper :=
  {| Errors := errors; PriorityErrors := priorityErrors |}.

Fixpoint countMatchingErrors (err : error) (candidates : list error) : nat :=
  match candidates with
  | [] => 0
  | c :: cs => (if errors_Is err c then 1 else 0) + countMatchingErrors err cs
  end.

Fixpoint containsAsPriority (err : error) (ps : list ExposedErrors) : option T :=
  match ps with
  | [] => None
  | p :: ps' =>
      if 0 <? countMatchingErrors err (InternalErrorChain p)
      then Some (ExposedError p) else containsAsPriority err ps'
  end.

(** One iteration of the loop of [getBestMatches] on [(minCount, result)]. *)
Definition bestMatchStep (err : error) (acc : nat * list ExposedErrors)
    (mErr : ExposedErrors) : nat * list ExposedErrors :=
  let '(minCount, result) := acc in
  let count := countMatchingErrors err (InternalErrorChain mErr) in
  if count <? length (InternalErrorChain mErr) then (minCount, result)
  else if count =? minCount then (minCount, result ++ [mErr])
  else if minCount <? count then (count, [mErr])
  else (minCount, result).

Definition getBestMatches (m : ErrorMapper) (err : error) : list ExposedErrors :=
  (foldl (bestMatchStep err) (1, []) (Errors m)).2.

Definition Transform (m : ErrorMapper) (internalErr : error) : T :=
  match containsAsPriority internalErr (PriorityErrors m) with
  | Some err => err
  | None =>
      match getBestMatches m internalErr with
      | [] => DefaultError
      | selected :: _ =>
          match ContextGetter selected with
          | Some getter => SetContext (ExposedError selected) (getter internalErr)
          | None => ExposedError selected
          end
      end
  end.
End Mapper.

(** * Inspected errors *)

Lemma try_inv {S A} (m : Comp S A) s s' r :
  try_ m s = (s', r) →
  (∃ r', r = inr r' ∧ m s = (s', r')) ∨ (∃ p, r = inl (Panic p) ∧ m s = (s', inl (Panic p))).
Proof. unfold try_. destruct (m s) as [s1 [[]|a]]; intros [= <- <-]; eauto. Qed.

Lemma try_ok {S A} (m : Comp S A) s s' r : try_ m s = (s', inr r) → m s = (s', r).
Proof. intros [(r' & [= ->] & H)|(p & [=] & _)]%try_inv. done. Qed.

Section PreservesTry.
Context {S : Type} (R : S → S → Prop) `{!PreOrder R}.
Lemma preserves_try {A} (m : Comp S A) : preserves R m → preserves R (try_ m).
Proof. intros Hm s. unfold try_. specialize (Hm s). by destruct (m s) as [? [[]|?]]. Qed.
Lemma preserves_logged (m : Comp S unit) : preserves R m → preserves R (logged m).
Proof.
  intros Hm. apply preserves_bind; [done|by apply preserves_try|intros _; apply preserves_ret, _].
Qed.
End PreservesTry.
#[export] Hint Resolve preserves_try preserves_logged : cmk.

(** Take a computation apart to show what it leaves alone. *)
Ltac preserve_step :=
  match goal with
  | |- preserves _ (mbind _ _) => apply preserves_bind; [apply _| |intros ?]
  | |- preserves _ (mret _) => apply preserves_ret, _
  | |- preserves _ (fail _) => apply preserves_fail, _
  | |- preserves _ (lift _) => apply preserves_lift, _
  | |- preserves _ (gets _) => apply preserves_gets, _
  | |- preserves _ get => apply preserves_get, _
  | |- preserves _ (map_err _ _) => apply preserves_map_err
  | |- preserves _ (attempt _) => apply preserves_attempt
  | |- preserves _ (try_ _) => apply preserves_try
  | |- preserves _ (logged _) => apply preserves_logged; [apply _|]
  | |- preserves _ (for_each _ _) => apply preserves_for_each; [apply _|intros ?]
  | |- preserves _ (match _ with _ => _ end) => case_match
  | |- preserves _ (let '_ := _ in _) => case_match
  | |- preserves _ _ => progress cbv zeta
  end.
Ltac preserve := repeat preserve_step; eauto with cmk.

(** * Laws of [errors.Is] and the wrappers *)

Lemma Is_wrapping base e t :
  is_error e = true → Is (wrapping base e) t = Is base t || Is e t.
Proof. by destruct e. Qed.

Lemma Is_Wrap_base base ext t : Is base t = true → Is (Wrap base ext) t = true.
Proof. intros H. destruct ext; simpl; by rewrite ?H. Qed.

Lemma Is_Wrap_ext base e t : Is e t = true → Is (Wrap base (Some e)) t = true.
Proof. simpl. intros ->. apply orb_true_r. Qed.

Lemma isGRPC_wrapping base e :
  is_error e = true → isGRPC (wrapping base e) = isGRPC base || isGRPC e.
Proof.
  intros He. unfold isGRPC.
  assert (errors_As pickGRPC (wrapping base e) =
    match errors_As pickGRPC base with Some x => Some x | None => errors_As pickGRPC e end) as ->
    by (by destruct e).
  by destruct (errors_As pickGRPC base), (errors_As pickGRPC e).
Qed.

Lemma errors_Is_wrapping base e t :
  is_error e = true → errors_Is (wrapping base e) t = errors_Is base t || errors_Is e t.
Proof.
  intros He. unfold errors_Is. rewrite isGRPC_wrapping by done.
  destruct (name_of t) as [n|]; [rewrite Is_wrapping by done|];
    destruct (isGRPC t), (isGRPC base), (isGRPC e); simpl; auto using orb_assoc, orb_comm.
Qed.

Lemma IsAnyError_spec err targets :
  IsAnyError err targets = true ↔ ∃ t, t ∈ targets ∧ errors_Is err t = true.
Proof.
  induction targets as [|t ts IH]; simpl; [set_solver|].
  destruct (errors_Is err t) eqn:E; [|rewrite IH]; split.
  - intros _. exists t. set_solver.
  - done.
  - intros (t' & Ht & H'). exists t'. set_solver.
  - intros (t' & Ht & H'). apply elem_of_cons in Ht as [->|Ht]; [congruence|eauto].
Qed.

#[export] Hint Rewrite @Is_wrapping @errors_Is_wrapping using done : cmk.

(** * The mapper picks the best match *)

Section MapperFacts.
Context {T Ctx : Type} (SetContext : T → Ctx → T) (DefaultError : T).
Implicit Types (x y : @ExposedErrors T Ctx) (l : list (@ExposedErrors T Ctx)).

(** Every error of the entry's chain occurs in [err]. *)
Definition full (err : error) x : bool :=
  length (InternalErrorChain x) <=? countMatchingErrors err (InternalErrorChain x).
Definition chain_len x : nat := length (InternalErrorChain x).
Definition max_len (err : error) l : nat :=
  foldr (λ x m, if full err x then chain_len x `max` m else m) 1 l.

Lemma countMatchingErrors_le err cs : countMatchingErrors err cs ≤ length cs.
Proof. induction cs as [|c cs IH]; simpl; [lia|]. destruct (errors_Is err c); lia. Qed.

Lemma full_spec err x :
  full err x = true ↔ Forall (λ c, errors_Is err c = true) (InternalErrorChain x).
Proof.
  unfold full. rewrite Nat.leb_le. generalize (InternalErrorChain x) as cs.
  induction cs as [|c cs IH]; simpl; [by split; [constructor|lia]|].
  rewrite Forall_cons, <-IH. pose proof (countMatchingErrors_le err cs).
  destruct (errors_Is err c); split; intros; [split; [done|lia]|lia|lia|naive_solver].
Qed.

Lemma full_count err x :
  full err x = true → countMatchingErrors err (InternalErrorChain x) = chain_len x.
Proof.
  unfold full. rewrite Nat.leb_le. unfold chain_len.
  pose proof (countMatchingErrors_le err (InternalErrorChain x)). lia.
Qed.

Definition longest (err : error) (n : nat) x : Prop := full err x = true ∧ chain_len x = n.
#[global] Instance longest_dec err n x : Decision (longest err n x).
Proof. apply _. Defined.

Lemma max_len_app err l x :
  max_len err (l ++ [x]) =
    if full err x then chain_len x `max` max_len err l else max_len err l.
Proof.
  induction l as [|y l IH]; simpl; [destruct (full err x); lia|].
  rewrite IH. destruct (full err x), (full err y); lia.
Qed.

Lemma max_len_bound err l x : x ∈ l → full err x = true → chain_len x ≤ max_len err l.
Proof.
  induction l as [|y l IH]; [by intros ?%not_elem_of_nil|].
  intros [->|Hx]%elem_of_cons Hf; simpl; [rewrite Hf; lia|].
  specialize (IH Hx Hf). destruct (full err y); lia.
Qed.

Lemma longest_none err l n : max_len err l < n → filter (longest err n) l = [].
Proof.
  intros Hn.
  induction l as [|y l IH]; [done|].
  rewrite filter_cons. simpl in Hn. destruct (decide (longest err n y)) as [[Hf Hl]|].
  - rewrite Hf in Hn. lia.
  - apply IH. destruct (full err y); lia.
Qed.

(** The loop keeps, at every iteration, the maximal length seen so far and the
    entries that reach it, in order. *)
Lemma bestMatch_loop err l :
  foldl (bestMatchStep err) (1, []) l =
    (max_len err l, filter (longest err (max_len err l)) l).
Proof.
  induction l as [|x l IH] using rev_ind; [done|].
  rewrite foldl_app, IH. simpl. unfold bestMatchStep. rewrite max_len_app, filter_app.
  destruct (full err x) eqn:Hf.
  - rewrite (full_count _ _ Hf). unfold chain_len.
    rewrite Nat.ltb_irrefl. fold (chain_len x).
    destruct (Nat.eqb_spec (chain_len x) (max_len err l)) as [Heq|Hne].
    + rewrite Nat.max_l by lia. rewrite Heq. f_equal. f_equal.
      rewrite filter_cons, decide_True by (split; [done|lia]). done.
    + destruct (Nat.ltb_spec (max_len err l) (chain_len x)).
      * rewrite Nat.max_l by lia. rewrite longest_none by lia.
        rewrite filter_cons, decide_True by (by split). done.
      * rewrite Nat.max_r by lia.
        rewrite filter_cons, decide_False by (unfold longest; lia).
        by rewrite filter_nil, app_nil_r.
  - pose proof Hf as Hlt. unfold full in Hlt. apply Nat.leb_gt, Nat.ltb_lt in Hlt as ->.
    rewrite filter_cons, decide_False by (intros [? _]; congruence).
    by rewrite filter_nil, app_nil_r.
Qed.

Lemma getBestMatches_longest m err :
  getBestMatches m err = filter (longest err (max_len err (Errors m))) (Errors m).
Proof. unfold getBestMatches. by rewrite bestMatch_loop. Qed.

Lemma getBestMatches_elem m err x r : getBestMatches m err = x :: r → x ∈ Errors m.
Proof.
  rewrite getBestMatches_longest. intros Hb.
  apply (list_elem_of_filter (longest err (max_len err (Errors m)))). rewrite Hb.
  apply list_elem_of_here.
Qed.

(** The first element of a filtered list, with the part it skips. *)
Lemma filter_head_split (P : @ExposedErrors T Ctx → Prop) `{!∀ x, Decision (P x)} l x r :
  filter P l = x :: r →
  ∃ pre post, l = pre ++ x :: post ∧ P x ∧ Forall (λ y, ¬ P y) pre.
Proof.
  induction l as [|y l IH]; [done|]. rewrite filter_cons.
  destruct (decide (P y)) as [Hy|Hy].
  - intros [= -> _]. exists [], l. by repeat split.
  - intros (pre & post & -> & Hx & Hpre)%IH. exists (y :: pre), post. auto.
Qed.

Lemma max_len_pos err l : 1 ≤ max_len err l.
Proof. induction l as [|y l IH]; simpl; [lia|]. destruct (full err y); lia. Qed.

Lemma max_len_attained err l :
  max_len err l = 1 ∨ ∃ x, x ∈ l ∧ longest err (max_len err l) x.
Proof.
  induction l as [|y l IH]; [by left|]. simpl. unfold longest.
  destruct (full err y) eqn:Hf; [|set_solver].
  destruct (Nat.max_spec (chain_len y) (max_len err l)) as [[Hlt ->]|[Hle ->]].
  - destruct IH as [IH|(x & Hx & Hl)]; [by left|right]. exists x. set_solver.
  - right. exists y. set_solver.
Qed.

Lemma longest_exists err l x :
  x ∈ l → full err x = true → InternalErrorChain x ≠ [] →
  ∃ y, y ∈ l ∧ longest err (max_len err l) y.
Proof.
  intros Hx Hf Hne. destruct (max_len_attained err l) as [H1|]; [|done].
  exists x. split; [done|]. split; [done|].
  pose proof (max_len_bound err l x Hx Hf). rewrite H1 in *.
  unfold chain_len in *. destruct (InternalErrorChain x); [done|simpl in *; lia].
Qed.

(** What the mapper exposes for a selected entry. *)
Definition expose (x : @ExposedErrors T Ctx) (err : error) : T :=
  match ContextGetter x with
  | Some getter => SetContext (ExposedError x) (getter err)
  | None => ExposedError x
  end.

Lemma containsAsPriority_first err pre p post :
  Forall (λ y, countMatchingErrors err (InternalErrorChain y) = 0) pre →
  0 < countMatchingErrors err (InternalErrorChain p) →
  containsAsPriority err (pre ++ p :: post) = Some (ExposedError p).
Proof.
  intros Hpre Hp. induction Hpre as [|y pre Hy _ IH]; simpl.
  - by apply Nat.ltb_lt in Hp as ->.
  - by rewrite Hy.
Qed.

Lemma containsAsPriority_none err l :
  Forall (λ y, countMatchingErrors err (InternalErrorChain y) = 0) l →
  containsAsPriority err l = None.
Proof. induction 1 as [|y l Hy _ IH]; simpl; [done|]. by rewrite Hy. Qed.

(** An error that shares at least one sentinel with a priority entry is
    exposed as the first such priority entry, whatever the ordinary table
    holds. *)
Theorem Transform_priority m err pre p post :
  PriorityErrors m = pre ++ p :: post →
  Forall (λ y, countMatchingErrors err (InternalErrorChain y) = 0) pre →
  0 < countMatchingErrors err (InternalErrorChain p) →
  Transform SetContext DefaultError m err = ExposedError p.
Proof.
  intros Hm Hpre Hp. unfold Transform.
  by rewrite Hm, (containsAsPriority_first _ _ _ _ Hpre Hp).
Qed.

(** When no priority entry matches, the mapper exposes the entry whose
    whole sentinel chain occurs in the error and is longest, the earliest one
    on a tie, and the default error exactly when no non-empty chain is
    contained in the error. *)
Theorem Transform_best_match m err :
  Forall (λ y, countMatchingErrors err (InternalErrorChain y) = 0) (PriorityErrors m) →
  (Transform SetContext DefaultError m err = DefaultError ∧
    ∀ x, x ∈ Errors m →
      Forall (λ c, errors_Is err c = true) (InternalErrorChain x) →
      InternalErrorChain x = []) ∨
  (∃ pre x post,
    Errors m = pre ++ x :: post ∧
    Transform SetContext DefaultError m err = expose x err ∧
    Forall (λ c, errors_Is err c = true) (InternalErrorChain x) ∧
    InternalErrorChain x ≠ [] ∧
    (∀ y, y ∈ pre → Forall (λ c, errors_Is err c = true) (InternalErrorChain y) →
      length (InternalErrorChain y) < length (InternalErrorChain x)) ∧
    (∀ y, y ∈ post → Forall (λ c, errors_Is err c = true) (InternalErrorChain y) →
      length (InternalErrorChain y) ≤ length (InternalErrorChain x))).
Proof.
  intros Hp%containsAsPriority_none. unfold Transform. rewrite Hp, getBestMatches_longest.
  destruct (filter _ (Errors m)) as [|x r] eqn:Hfl.
  - left. split; [done|]. intros x Hx Hf%full_spec.
    destruct (InternalErrorChain x) eqn:Hc; [done|exfalso].
    destruct (longest_exists err (Errors m) x Hx Hf) as (y & Hy & Hl); [by rewrite Hc|].
    assert (y ∈ filter (longest err (max_len err (Errors m))) (Errors m)) as Hin
      by (by apply list_elem_of_filter).
    rewrite Hfl in Hin. by apply not_elem_of_nil in Hin.
  - right. destruct (filter_head_split _ _ _ _ Hfl) as (pre & post & Hm & [Hf Hl] & Hpre).
    exists pre, x, post. rewrite <-full_spec.
    assert (∀ y, y ∈ Errors m → Forall (λ c, errors_Is err c = true) (InternalErrorChain y) →
      length (InternalErrorChain y) ≤ length (InternalErrorChain x)) as Hmax.
    { intros y Hy Hfy%full_spec. pose proof (max_len_bound _ _ _ Hy Hfy).
      unfold chain_len in *. lia. }
    split_and!; [done|done|done| |..].
    + intros Hnil. pose proof (max_len_pos err (Errors m)).
      unfold chain_len in Hl. rewrite Hnil in Hl. simpl in Hl. lia.
    + intros y Hy Hfy. rewrite Forall_forall in Hpre. specialize (Hpre y Hy).
      assert (y ∈ Errors m) as Hy' by (rewrite Hm; set_solver).
      specialize (Hmax y Hy' Hfy).
      apply full_spec in Hfy. unfold longest, chain_len in *.
      destruct (decide (length (InternalErrorChain y) = max_len err (Errors m))); [naive_solver|lia].
    + intros y Hy. apply Hmax. rewrite Hm. set_solver.
Qed.
End MapperFacts.
