(* ===== verification/Json.v ===== *)
(** Documents of [jsonb] columns and job payloads, and how [encoding/json] reads a
    struct from one: member names are compared without case, unknown members are
    ignored, [null] leaves a field as it is, and a value of another type is an
    error. *)
From S2P Require Import Prelude Errs.

Inductive JSON :=
| JNull
| JBool (b : bool)
| JInt (n : Z)
| JFloat
| JString (s : string)
| JArray (l : list JSON)
| JObject (l : list (string * JSON)).

(** Equality of documents that were written the same way (members in the same order;
    the numbers that are not integers are not told apart). *)
Fixpoint json_eqb (a b : JSON) : bool :=
  let fix list_eqb (l m : list JSON) : bool :=
    match l, m with
    | [], [] => true
    | x :: l', y :: m' => json_eqb x y && list_eqb l' m'
    | _, _ => false
    end in
  let fix members_eqb (l m : list (string * JSON)) : bool :=
    match l, m with
    | [], [] => true
    | (k, x) :: l', (k', y) :: m' => (k ==s k') && json_eqb x y && members_eqb l' m'
    | _, _ => false
    end in
  match a, b with
  | JNull, JNull | JFloat, JFloat => true
  | JBool x, JBool y => Bool.eqb x y
  | JInt x, JInt y => Z.eqb x y
  | JString x, JString y => x ==s y
  | JArray l, JArray m => list_eqb l m
  | JObject l, JObject m => members_eqb l m
  | _, _ => false
  end.

(** * Strings *)

Definition lower (c : Ascii.ascii) : Ascii.ascii :=
  let n := Ascii.nat_of_ascii c in
  if (65 <=? n) && (n <=? 90) then Ascii.ascii_of_nat (n + 32) else c.
(** [strings.ToLower] on ASCII text. *)
Definition toLower (s : string) : string :=
  String.string_of_list_ascii (lower <$> String.list_ascii_of_string s).
(** [strings.EqualFold] on ASCII names. *)
Definition EqualFold (s t : string) : bool := toLower s ==s toLower t.

(** [strings.TrimSpace] on ASCII text. *)
Definition isSpace (c : Ascii.ascii) : bool :=
  let n := Ascii.nat_of_ascii c in ((9 <=? n) && (n <=? 13)) || (n =? 32).
Fixpoint dropSpace (l : list Ascii.ascii) : list Ascii.ascii :=
  match l with
  | [] => []
  | c :: l' => if isSpace c then dropSpace l' else l
  end.
Definition TrimSpace (s : string) : string :=
  String.string_of_list_ascii (reverse (dropSpace (reverse (dropSpace (String.list_ascii_of_string s))))).

(** * Reading a struct *)

Definition jsonTypeError : error := External "json: cannot unmarshal value into Go value".

Section Decode.
Context {T : Type}.

Definition bool_member (v : JSON) (set : bool → T) (c : T) : error + T :=
  match v with JBool b => inr (set b) | JNull => inr c | _ => inl jsonTypeError end.
Definition int_member (v : JSON) (set : Z → T) (c : T) : error + T :=
  match v with JInt n => inr (set n) | JNull => inr c | _ => inl jsonTypeError end.
Definition string_member (v : JSON) (set : string → T) (c : T) : error + T :=
  match v with JString s => inr (set s) | JNull => inr c | _ => inl jsonTypeError end.

(** The struct is filled member by member, in the order of the document. *)
Fixpoint decode_members (member : T → string * JSON → error + T) (c : T) (l : list (string * JSON)) :
    error + T :=
  match l with
  | [] => inr c
  | kv :: l' => match member c kv with inl e => inl e | inr c => decode_members member c l' end
  end.

Definition decode_struct (member : T → string * JSON → error + T) (zero : T) (v : JSON) : error + T :=
  match v with
  | JNull => inr zero
  | JObject l => decode_members member zero l
  | _ => inl jsonTypeError
  end.
End Decode.

(** The member of a document that SQL reads with [->>]. *)
Definition json_text (name : string) (v : JSON) : option string :=
  match v with
  | JObject l =>
      match find (λ kv, kv.1 ==s name) l with
      | Some (_, JString s) => Some s
      | _ => None
      end
  | _ => None
  end.
