(* ===== verification/GoContext.v ===== *)
(** The request context: the values that utils/context/context.go stores in and
    extracts from a Go [context.Context]: tenant, request id, user type, business
    user data, internal role. *)
From S2P Require Import Prelude Errs.

(** internal/constants/clientdata.go *)
Definition BusinessUser : string := "Business".
Definition InternalUser : string := "Internal".

Definition ErrTenantInvalid := New "context.ErrTenantInvalid" "invalid tenant or tenant not found".
Definition ErrExtractTenantID :=
  New "context.ErrExtractTenantID" "could not extract tenant ID from context".
Definition ErrGetRequestID := New "context.ErrGetRequestID" "no requestID found in context".
Definition ErrExtractBusinessUserData :=
  New "context.ErrExtractBusinessUserData" "could not extract business data from context".
Definition ErrExtractBusinessUserDataAuthContext :=
  New "context.ErrExtractBusinessUserDataAuthContext"
    "could not extract field from business data auth context".
Definition ErrExtractUserType :=
  New "context.ErrExtractUserType" "could not extract user type from context".
Definition ErrInvalidUserType := New "context.ErrInvalidUserType" "invalid user type".

(** The fields of [auth.ClientData] that the repository reads. *)
Record ClientData := mkClientData {
  Identifier : string;
  Email : string;
  FamilyName : string;
  GivenName : string;
  ClientGroups : list string;
  AuthContext : gmap string string }.

(** [context.Value] per key; [None] is an absent key. *)
Record Ctx := mkCtx {
  ctx_tenant : option string;
  ctx_requestID : option string;
  ctx_userType : option string;
  ctx_businessUserData : option ClientData;
  ctx_internalUserData : option string }.

Definition Background : Ctx := mkCtx None None None None None.

(** [v, ok := ctx.Value(k).(string); !ok || v == ""] *)
Definition nonempty (v : option string) : option string :=
  match v with
  | Some s => if s ==s "" then None else Some s
  | None => None
  end.

Definition ExtractTenantID (ctx : Ctx) : error + string :=
  match nonempty (ctx_tenant ctx) with
  | Some t => inr t
  | None => inl (Wrap ErrExtractTenantID (Some ErrTenantInvalid))
  end.

Definition CreateTenantContext (ctx : Ctx) (tenantSchema : string) : Ctx :=
  mkCtx (Some tenantSchema) (ctx_requestID ctx) (ctx_userType ctx)
    (ctx_businessUserData ctx) (ctx_internalUserData ctx).

(** [newID] is the value of [uuid.NewString()]. *)
Definition InjectRequestID (newID : string) (ctx : Ctx) (requestID : string) : Ctx :=
  let requestID := if requestID ==s "" then newID else requestID in
  mkCtx (ctx_tenant ctx) (Some requestID) (ctx_userType ctx)
    (ctx_businessUserData ctx) (ctx_internalUserData ctx).

Definition GetRequestID (ctx : Ctx) : error + string :=
  match nonempty (ctx_requestID ctx) with
  | Some r => inr r
  | None => inl ErrGetRequestID
  end.

Definition ExtractUserType (ctx : Ctx) : error + string :=
  match nonempty (ctx_userType ctx) with
  | Some t => inr t
  | None => inl ErrExtractUserType
  end.

(** Only the configured fields of the auth context are kept. *)
Definition filterAuthContext (fields : list string) (m : gmap string string) : gmap string string :=
  foldl (λ acc field,
    match m !! field with
    | Some value => <[field := value]> acc
    | None => acc
    end) ∅ fields.

Definition InjectBusinessUserData (ctx : Ctx) (d : ClientData) (authContextFields : list string) : Ctx :=
  let d' := mkClientData (Identifier d) (Email d) (FamilyName d) (GivenName d) (ClientGroups d)
              (filterAuthContext authContextFields (AuthContext d)) in
  mkCtx (ctx_tenant ctx) (ctx_requestID ctx) (Some BusinessUser) (Some d')
    (ctx_internalUserData ctx).

Definition ExtractBusinessUserData (ctx : Ctx) : error + ClientData :=
  match ctx_businessUserData ctx with
  | Some d => inr d
  | None => inl ErrExtractBusinessUserData
  end.

Definition ExtractBusinessUserDataIdentifier (ctx : Ctx) : error + string :=
  match ExtractBusinessUserData ctx with
  | inl e => inl e
  | inr d => inr (Identifier d)
  end.

Definition ExtractBusinessUserDataGroups (ctx : Ctx) : error + list string :=
  match ExtractBusinessUserData ctx with
  | inl e => inl e
  | inr d => inr (ClientGroups d)
  end.

Definition ExtractBusinessUserDataGroupsString (ctx : Ctx) : error + list string :=
  match ExtractBusinessUserData ctx with
  | inl e => inl e
  | inr d => inr (ClientGroups d)
  end.

Definition ExtractBusinessUserDataAuthContextField (ctx : Ctx) (field : string) : error + string :=
  match ExtractBusinessUserData ctx with
  | inl _ => inl ErrExtractBusinessUserDataAuthContext
  | inr d =>
      match nonempty (AuthContext d !! field) with
      | Some v => inr v
      | None => inl ErrExtractBusinessUserDataAuthContext
      end
  end.

Definition ExtractBusinessUserDataIssuer (ctx : Ctx) : error + string :=
  ExtractBusinessUserDataAuthContextField ctx "issuer".

Definition ExtractBusinessUserDataAuthContext (ctx : Ctx) : error + gmap string string :=
  match ExtractBusinessUserData ctx with
  | inl e => inl e
  | inr d => inr (AuthContext d)
  end.

Definition InjectInternalUserData (newID : string) (ctx : Ctx) (role : string) : error + Ctx :=
  match ctx_userType ctx with
  | Some t =>
      if negb (t ==s InternalUser) then inl ErrInvalidUserType
      else
        let ctx := InjectRequestID newID ctx newID in
        inr (mkCtx (ctx_tenant ctx) (ctx_requestID ctx) (Some InternalUser)
               (ctx_businessUserData ctx) (Some role))
  | None =>
      let ctx := InjectRequestID newID ctx newID in
      inr (mkCtx (ctx_tenant ctx) (ctx_requestID ctx) (Some InternalUser)
             (ctx_businessUserData ctx) (Some role))
  end.

Definition ExtractInternalRole (ctx : Ctx) : error + string :=
  match ExtractUserType ctx with
  | inl e => inl e
  | inr userType =>
      if negb (userType ==s InternalUser) then inl ErrInvalidUserType
      else
        match nonempty (ctx_internalUserData ctx) with
        | Some r => inr r
        | None => inl ErrExtractBusinessUserData
        end
  end.

Definition ExtractUserIdentifier (ctx : Ctx) : error + string :=
  match ExtractBusinessUserData ctx with
  | inr d => inr (Identifier d)
  | inl _ => ExtractInternalRole ctx
  end.

Definition BusinessToInternalContext (newID : string) (ctx : Ctx) (role : string) : error + Ctx :=
  if match ctx_userType ctx with Some t => negb (t ==s BusinessUser) | None => false end
  then inl ErrInvalidUserType
  else
    match ExtractTenantID ctx with
    | inl e => inl e
    | inr tenantID =>
        match InjectInternalUserData newID (CreateTenantContext Background tenantID) role with
        | inl e => inl e
        | inr internalCtx =>
            match GetRequestID ctx with
            | inr requestID => inr (InjectRequestID newID internalCtx requestID)
            | inl _ => inr internalCtx
            end
        end
    end.

(** * Facts *)

Lemma nonempty_Some v s : nonempty v = Some s ↔ v = Some s ∧ s ≠ "".
Proof.
  unfold nonempty. destruct v as [t|]; [|naive_solver].
  destruct (String.eqb_spec t ""); naive_solver.
Qed.

Lemma ExtractTenantID_ok ctx t :
  ExtractTenantID ctx = inr t ↔ ctx_tenant ctx = Some t ∧ t ≠ "".
Proof.
  unfold ExtractTenantID. rewrite <-nonempty_Some.
  destruct (nonempty (ctx_tenant ctx)); naive_solver.
Qed.

Lemma ExtractUserType_ok ctx t :
  ExtractUserType ctx = inr t ↔ ctx_userType ctx = Some t ∧ t ≠ "".
Proof.
  unfold ExtractUserType. rewrite <-nonempty_Some.
  destruct (nonempty (ctx_userType ctx)); naive_solver.
Qed.

Lemma GetRequestID_ok ctx r :
  GetRequestID ctx = inr r ↔ ctx_requestID ctx = Some r ∧ r ≠ "".
Proof.
  unfold GetRequestID. rewrite <-nonempty_Some.
  destruct (nonempty (ctx_requestID ctx)); naive_solver.
Qed.

Lemma ExtractInternalRole_ok ctx r :
  ExtractInternalRole ctx = inr r →
  ctx_userType ctx = Some InternalUser ∧ ctx_internalUserData ctx = Some r ∧ r ≠ "".
Proof.
  unfold ExtractInternalRole. destruct (ExtractUserType ctx) as [|t] eqn:Ht; [done|].
  apply ExtractUserType_ok in Ht as [Ht _].
  destruct (String.eqb_spec t InternalUser) as [->|]; [simpl|done].
  destruct (nonempty (ctx_internalUserData ctx)) eqn:Hn; [|done].
  apply nonempty_Some in Hn as []. naive_solver.
Qed.

(** A business request context never becomes an internal one by injecting
    an internal role, and converting it explicitly drops the business user's
    data, keeps the tenant and the request id, and carries exactly the requested
    role. *)
Theorem BusinessToInternalContext_sound newID ctx role ctx' :
  BusinessToInternalContext newID ctx role = inr ctx' →
  newID ≠ "" →
  ctx_businessUserData ctx' = None ∧
  ctx_userType ctx' = Some InternalUser ∧
  ctx_internalUserData ctx' = Some role ∧
  ExtractTenantID ctx' = ExtractTenantID ctx ∧
  (∀ r, GetRequestID ctx = inr r → GetRequestID ctx' = inr r) ∧
  (∃ r, GetRequestID ctx' = inr r) ∧
  (ctx_userType ctx = Some BusinessUser → InjectInternalUserData newID ctx role = inl ErrInvalidUserType).
Proof.
  unfold BusinessToInternalContext. intros H Hid.
  destruct (match ctx_userType ctx with Some t => _ | None => _ end); [done|].
  destruct (ExtractTenantID ctx) as [|t] eqn:Ht; [done|].
  assert ((newID ==s "") = false) as Hnb by (by apply String.eqb_neq).
  unfold InjectInternalUserData in H. simpl in H. rewrite Hnb in H.
  assert (ctx_userType ctx = Some BusinessUser →
    InjectInternalUserData newID ctx role = inl ErrInvalidUserType) as Hinj.
  { intros Hu. unfold InjectInternalUserData. by rewrite Hu. }
  assert (∀ c, ctx_tenant c = Some t → ExtractTenantID c = inr t) as Htenant.
  { intros c Hc. apply ExtractTenantID_ok in Ht as []. by apply ExtractTenantID_ok. }
  destruct (GetRequestID ctx) as [|r] eqn:Hreq; injection H as <-; unfold InjectRequestID; simpl.
  - split_and!; try done; [by apply Htenant|].
    exists newID. by apply GetRequestID_ok.
  - apply GetRequestID_ok in Hreq as [_ Hr].
    pose proof Hr as Hrb. apply String.eqb_neq in Hrb. rewrite Hrb.
    split_and!; try done; [by apply Htenant|..].
    + intros r' Heq. injection Heq as <-. by apply GetRequestID_ok.
    + exists r. by apply GetRequestID_ok.
Qed.
