(* ===== verification/AuthzPolicies.v ===== *)
(** The authorization tables of internal/authz: resource types, actions, roles
    and policy identifiers (policies.go, internal/constants/auth.go), the business
    and internal policies of the repository layer, the policies of the API layer
    and the endpoint restrictions. *)
From S2P Require Import Prelude.

(** * Types of internal/authz/policies.go

    [RepoAction], [RepoResourceType], [APIAction], [APIResourceType],
    [BusinessRole], [InternalRole] and [PolicyID] are Go string types. *)

Record Resource := mkResource {
  Type_ : string;
  Actions : list string }.

Record Policy := mkPolicy {
  PolicyID : string;
  ResourceTypes : list Resource }.

(** A Go map from roles to policies, as the list of its entries. *)
Definition RolePolicies : Type := list (string * list Policy).

(** ** internal/constants/table-names.go *)

Definition publicTablePreFix : string := "public.".
Definition CertificateTable : string := "certificates".
Definition EventTable : string := "events".
Definition GroupTable : string := "groups".
Definition ImportparamTable : string := "import_params".
Definition KeyTable : string := "keys".
Definition KeyconfigurationTable : string := "key_configurations".
Definition KeystoreTable : string := publicTablePreFix +:+ "keystore_pool".
Definition KeyVersionTable : string := "key_versions".
Definition KeyLabelTable : string := "key_labels".
Definition SystemTable : string := "systems".
Definition SystemPropertyTable : string := "systems_properties".
Definition TagTable : string := "tags".
Definition TenantTable : string := publicTablePreFix +:+ "tenants".
Definition TenantconfigTable : string := "tenant_configs".
Definition WorkflowTable : string := "workflows".
Definition WorkflowApproverTable : string := "workflow_approvers".

(** ** internal/constants/auth.go *)

Definition TenantAdminGroup : string := "TenantAdministrator".
Definition TenantAuditorGroup : string := "TenantAuditor".
Definition KeyAdminRole : string := "KEY_ADMINISTRATOR".
Definition TenantAdminRole : string := "TENANT_ADMINISTRATOR".
Definition TenantAuditorRole : string := "TENANT_AUDITOR".
Definition InternalRequestingHandlingRole : string := "INTERNAL_REQUEST_HANDLING".
Definition InternalBusinessAuthzRole : string := "INTERNAL_BUSINESS_AUTH".
Definition InternalTenantProvisioningRole : string := "INTERNAL_TENANT_PROVISIONING".
Definition InternalTenantCLIRole : string := "INTERNAL_TENANT_CLI".
Definition InternalEventReconcilerRole : string := "INTERNAL_EVENT_RECONCILER".
Definition InternalTaskProcessingRole : string := "INTERNAL_TASK_PROCESSING".
Definition InternalTaskCertRotationRole : string := "INTERNAL_TASK_CERT_ROTATION".
Definition InternalTaskWorkflowApproversRole : string := "INTERNAL_TASK_WORKFLOW_APPROVERS".
Definition InternalTaskWorkflowCleanupRole : string := "INTERNAL_TASK_WORKFLOW_CLEANUP".
Definition InternalTaskWorkflowExpirationRole : string := "INTERNAL_TASK_WORKFLOW_EXPIRATION".
Definition InternalTaskHYOKSyncRole : string := "INTERNAL_TASK_HYOK_SYNC".
Definition InternalTaskPendingStateSyncRole : string := "INTERNAL_TASK_PENDING_STATE_SYNC".
Definition InternalTaskKeystorePoolRole : string := "INTERNAL_TASK_KEYSTORE_POOL".
Definition InternalTaskSystemRefreshRole : string := "INTERNAL_TASK_SYSTEM_REFRESH".
Definition InternalTaskTenantRefreshRole : string := "INTERNAL_TASK_TENANT_REFRESH".
Definition InternalTaskSendNotificationRole : string := "INTERNAL_TASK_SEND_NOTIFICATION".
Definition AuditorPolicy : string := "AuditorPolicy".
Definition KeyAdminPolicy : string := "KeyAdminPolicy".
Definition TenantAdminPolicy : string := "TenantAdminPolicy".
Definition InternalTenantCLIPolicy : string := "InternalTenantCLI".
Definition InternalBusinessAuthzPolicy : string := "InternalBusinessAuthz".
Definition InternalEventReconcilerPolicy : string := "InternalEventReconciler".
Definition InternalTenantProvisioningPolicy : string := "InternalTenantProvisioning".
Definition InternalTaskProcessingPolicy : string := "InternalTaskProcessing".
Definition InternalTaskCertRotationPolicy : string := "InternalTaskCertRotation".
Definition InternalTaskWorkflowApproversPolicy : string := "InternalTaskWorkflowApprovers".
Definition InternalTaskHYOKSyncPolicy : string := "InternalTaskHYOKSync".
Definition InternalTaskPendingStateSyncPolicy : string := "InternalTaskPendingStateSync".
Definition InternalTaskKeystorePoolPolicy : string := "InternalTaskKeystorePool".
Definition InternalTaskSystemRefreshPolicy : string := "InternalTaskSystemRefresh".
Definition InternalTaskTenantRefreshPolicy : string := "InternalTaskTenantRefresh".
Definition InternalTaskWorkflowCleanupPolicy : string := "InternalTaskWorkflowCleanup".
Definition InternalTaskWorkflowExpirationPolicy : string := "InternalTaskWorkflowExpiration".

(** ** Resource types and actions, internal/authz/policies.go *)

Definition RepoResourceTypeCertificate : string := CertificateTable.
Definition RepoResourceTypeEvent : string := EventTable.
Definition RepoResourceTypeGroup : string := GroupTable.
Definition RepoResourceTypeImportparam : string := ImportparamTable.
Definition RepoResourceTypeKey : string := KeyTable.
Definition RepoResourceTypeKeyconfiguration : string := KeyconfigurationTable.
Definition RepoResourceTypeKeystore : string := KeystoreTable.
Definition RepoResourceTypeKeyversion : string := KeyVersionTable.
Definition RepoResourceTypeKeyLabel : string := KeyLabelTable.
Definition RepoResourceTypeSystem : string := SystemTable.
Definition RepoResourceTypeSystemProperty : string := SystemPropertyTable.
Definition RepoResourceTypeTag : string := TagTable.
Definition RepoResourceTypeTenant : string := TenantTable.
Definition RepoResourceTypeTenantconfig : string := TenantconfigTable.
Definition RepoResourceTypeWorkflow : string := WorkflowTable.
Definition RepoResourceTypeWorkflowApprover : string := WorkflowApproverTable.
Definition RepoActionList : string := "list".
Definition RepoActionFirst : string := "first".
Definition RepoActionCount : string := "count".
Definition RepoActionCreate : string := "create".
Definition RepoActionUpdate : string := "update".
Definition RepoActionDelete : string := "delete".
Definition APIResourceTypeKeyConfiguration : string := "KeyConfiguration".
Definition APIResourceTypeKey : string := "Key".
Definition APIResourceTypeSystem : string := "System".
Definition APIResourceTypeWorkFlow : string := "Workflow".
Definition APIResourceTypeUserGroup : string := "UserGroup".
Definition APIResourceTypeTenant : string := "Tenant".
Definition APIResourceTypeTenantSettings : string := "TenantSettings".
Definition APIResourceTypeEvent : string := "Event".
Definition APIResourceTypeImportParams : string := "ImportParams".
Definition APIResourceTypeKeyStoreConfig : string := "KeyStoreConfig".
Definition APIActionRead : string := "read".
Definition APIActionCreate : string := "create".
Definition APIActionUpdate : string := "update".
Definition APIActionDelete : string := "delete".
Definition APIActionKeyRotate : string := "KeyRotate".
Definition APIActionSystemModifyLink : string := "ModifySystemLink".

Definition repoActionList : list string :=
  [RepoActionList; RepoActionFirst; RepoActionCount; RepoActionCreate; RepoActionUpdate; RepoActionDelete].

Definition RepoResourceTypeActions : list (string * list string) :=
  [(RepoResourceTypeCertificate, repoActionList);
   (RepoResourceTypeEvent, repoActionList);
   (RepoResourceTypeGroup, repoActionList);
   (RepoResourceTypeImportparam, repoActionList);
   (RepoResourceTypeKey, repoActionList);
   (RepoResourceTypeKeyconfiguration, repoActionList);
   (RepoResourceTypeKeystore, repoActionList);
   (RepoResourceTypeKeyversion, repoActionList);
   (RepoResourceTypeKeyLabel, repoActionList);
   (RepoResourceTypeSystem, repoActionList);
   (RepoResourceTypeSystemProperty, repoActionList);
   (RepoResourceTypeTag, repoActionList);
   (RepoResourceTypeTenant, repoActionList);
   (RepoResourceTypeTenantconfig, repoActionList);
   (RepoResourceTypeWorkflow, repoActionList);
   (RepoResourceTypeWorkflowApprover, repoActionList)].

Definition APIResourceTypeActions : list (string * list string) :=
  [(APIResourceTypeKeyConfiguration, [APIActionRead; APIActionCreate; APIActionDelete; APIActionUpdate]);
   (APIResourceTypeKey, [APIActionRead; APIActionCreate; APIActionDelete; APIActionUpdate; APIActionKeyRotate]);
   (APIResourceTypeSystem, [APIActionRead; APIActionSystemModifyLink]);
   (APIResourceTypeWorkFlow, [APIActionRead; APIActionCreate; APIActionDelete; APIActionUpdate]);
   (APIResourceTypeTenantSettings, [APIActionRead; APIActionUpdate]);
   (APIResourceTypeUserGroup, [APIActionRead; APIActionCreate; APIActionDelete; APIActionUpdate]);
   (APIResourceTypeTenant, [APIActionRead; APIActionUpdate])].

(** * API policies, internal/authz/api_policies.go *)

Definition APIPolicies_TenantAuditorRole : list Policy :=
  [mkPolicy AuditorPolicy
     [mkResource APIResourceTypeKeyConfiguration [APIActionRead];
      mkResource APIResourceTypeKey [APIActionRead];
      mkResource APIResourceTypeSystem [APIActionRead];
      mkResource APIResourceTypeWorkFlow [APIActionRead];
      mkResource APIResourceTypeTenantSettings [APIActionRead];
      mkResource APIResourceTypeUserGroup [APIActionRead];
      mkResource APIResourceTypeTenant [APIActionRead]]].

Definition APIPolicies_KeyAdminRole : list Policy :=
  [mkPolicy KeyAdminPolicy
     [mkResource APIResourceTypeKeyConfiguration [APIActionRead; APIActionCreate; APIActionDelete; APIActionUpdate];
      mkResource APIResourceTypeKey [APIActionRead; APIActionCreate; APIActionDelete; APIActionUpdate; APIActionKeyRotate];
      mkResource APIResourceTypeUserGroup [APIActionRead];
      mkResource APIResourceTypeSystem [APIActionSystemModifyLink; APIActionRead; APIActionUpdate];
      mkResource APIResourceTypeWorkFlow [APIActionRead; APIActionCreate; APIActionDelete; APIActionUpdate];
      mkResource APIResourceTypeTenantSettings [APIActionRead]]].

Definition APIPolicies_TenantAdminRole : list Policy :=
  [mkPolicy TenantAdminPolicy
     [mkResource APIResourceTypeTenant [APIActionRead; APIActionUpdate];
      mkResource APIResourceTypeUserGroup [APIActionRead; APIActionCreate; APIActionDelete; APIActionUpdate];
      mkResource APIResourceTypeTenantSettings [APIActionRead; APIActionUpdate]]].

Definition APIPolicies : RolePolicies :=
  [(TenantAuditorRole, APIPolicies_TenantAuditorRole);
   (KeyAdminRole, APIPolicies_KeyAdminRole);
   (TenantAdminRole, APIPolicies_TenantAdminRole)].

(** * Repository policies of business roles, internal/authz/repo_business_policies.go *)

Definition RepoBusinessPolicies_TenantAuditorRole : list Policy :=
  [mkPolicy AuditorPolicy
     [mkResource RepoResourceTypeCertificate [RepoActionList; RepoActionFirst; RepoActionCount];
      mkResource RepoResourceTypeEvent [RepoActionList; RepoActionFirst; RepoActionCount];
      mkResource RepoResourceTypeGroup [RepoActionList; RepoActionFirst; RepoActionCount];
      mkResource RepoResourceTypeImportparam [RepoActionList; RepoActionFirst; RepoActionCount];
      mkResource RepoResourceTypeKey [RepoActionList; RepoActionFirst; RepoActionCount];
      mkResource RepoResourceTypeKeyconfiguration [RepoActionList; RepoActionFirst; RepoActionCount];
      mkResource RepoResourceTypeKeystore [RepoActionList; RepoActionFirst; RepoActionCount];
      mkResource RepoResourceTypeKeyversion [RepoActionList; RepoActionFirst; RepoActionCount];
      mkResource RepoResourceTypeKeyLabel [RepoActionList; RepoActionFirst; RepoActionCount];
      mkResource RepoResourceTypeSystem [RepoActionList; RepoActionFirst; RepoActionCount];
      mkResource RepoResourceTypeSystemProperty [RepoActionList; RepoActionFirst; RepoActionCount];
      mkResource RepoResourceTypeTag [RepoActionList; RepoActionFirst; RepoActionCount];
      mkResource RepoResourceTypeTenant [RepoActionList; RepoActionFirst; RepoActionCount];
      mkResource RepoResourceTypeTenantconfig [RepoActionList; RepoActionFirst; RepoActionCount];
      mkResource RepoResourceTypeWorkflow [RepoActionList; RepoActionFirst; RepoActionCount];
      mkResource RepoResourceTypeWorkflowApprover [RepoActionList; RepoActionFirst; RepoActionCount]]].

Definition RepoBusinessPolicies_KeyAdminRole : list Policy :=
  [mkPolicy KeyAdminPolicy
     [mkResource RepoResourceTypeCertificate [RepoActionList; RepoActionFirst; RepoActionCount; RepoActionCreate; RepoActionUpdate; RepoActionDelete];
      mkResource RepoResourceTypeEvent [RepoActionList; RepoActionFirst; RepoActionCount; RepoActionCreate; RepoActionUpdate; RepoActionDelete];
      mkResource RepoResourceTypeGroup [RepoActionList; RepoActionFirst; RepoActionCount];
      mkResource RepoResourceTypeImportparam [RepoActionList; RepoActionFirst; RepoActionCount; RepoActionCreate; RepoActionUpdate; RepoActionDelete];
      mkResource RepoResourceTypeKey [RepoActionList; RepoActionFirst; RepoActionCount; RepoActionCreate; RepoActionUpdate; RepoActionDelete];
      mkResource RepoResourceTypeKeyconfiguration [RepoActionList; RepoActionFirst; RepoActionCount; RepoActionCreate; RepoActionUpdate; RepoActionDelete];
      mkResource RepoResourceTypeKeystore [RepoActionList; RepoActionFirst; RepoActionCount; RepoActionCreate; RepoActionUpdate; RepoActionDelete];
      mkResource RepoResourceTypeKeyversion [RepoActionList; RepoActionFirst; RepoActionCount; RepoActionCreate; RepoActionUpdate; RepoActionDelete];
      mkResource RepoResourceTypeKeyLabel [RepoActionList; RepoActionFirst; RepoActionCount; RepoActionCreate; RepoActionUpdate; RepoActionDelete];
      mkResource RepoResourceTypeSystem [RepoActionList; RepoActionFirst; RepoActionCount; RepoActionCreate; RepoActionUpdate; RepoActionDelete];
      mkResource RepoResourceTypeSystemProperty [RepoActionList; RepoActionFirst; RepoActionCount; RepoActionCreate; RepoActionUpdate; RepoActionDelete];
      mkResource RepoResourceTypeTag [RepoActionList; RepoActionFirst; RepoActionCount; RepoActionCreate; RepoActionUpdate; RepoActionDelete];
      mkResource RepoResourceTypeTenant [RepoActionList; RepoActionFirst; RepoActionCount];
      mkResource RepoResourceTypeTenantconfig [RepoActionList; RepoActionFirst; RepoActionCount; RepoActionCreate; RepoActionUpdate];
      mkResource RepoResourceTypeWorkflow [RepoActionList; RepoActionFirst; RepoActionCount; RepoActionCreate; RepoActionUpdate; RepoActionDelete];
      mkResource RepoResourceTypeWorkflowApprover [RepoActionList; RepoActionFirst; RepoActionCount; RepoActionCreate; RepoActionUpdate; RepoActionDelete]]].

Definition RepoBusinessPolicies_TenantAdminRole : list Policy :=
  [mkPolicy TenantAdminPolicy
     [mkResource RepoResourceTypeGroup [RepoActionList; RepoActionFirst; RepoActionCount; RepoActionCreate; RepoActionUpdate; RepoActionDelete];
      mkResource RepoResourceTypeKeyconfiguration [RepoActionFirst];
      mkResource RepoResourceTypeTenant [RepoActionList; RepoActionFirst; RepoActionCount; RepoActionCreate; RepoActionUpdate; RepoActionDelete];
      mkResource RepoResourceTypeTenantconfig [RepoActionList; RepoActionFirst; RepoActionCount; RepoActionCreate; RepoActionUpdate; RepoActionDelete]]].

Definition RepoBusinessPolicies : RolePolicies :=
  [(TenantAuditorRole, RepoBusinessPolicies_TenantAuditorRole);
   (KeyAdminRole, RepoBusinessPolicies_KeyAdminRole);
   (TenantAdminRole, RepoBusinessPolicies_TenantAdminRole)].

(** * Repository policies of internal roles, internal/authz/repo_internal_policies.go *)

Definition RepoInternalPolicies_InternalBusinessAuthzRole : list Policy :=
  [mkPolicy InternalBusinessAuthzPolicy
     [mkResource RepoResourceTypeGroup [RepoActionList; RepoActionCount];
      mkResource RepoResourceTypeKeyconfiguration [RepoActionCount]]].

Definition RepoInternalPolicies_InternalTenantCLIRole : list Policy :=
  [mkPolicy InternalTenantCLIPolicy
     [mkResource RepoResourceTypeTenant [RepoActionList; RepoActionFirst; RepoActionCreate; RepoActionDelete; RepoActionUpdate];
      mkResource RepoResourceTypeGroup [RepoActionCreate]]].

Definition RepoInternalPolicies_InternalEventReconcilerRole : list Policy :=
  [mkPolicy InternalEventReconcilerPolicy
     [mkResource RepoResourceTypeTenant [RepoActionFirst];
      mkResource RepoResourceTypeKey [RepoActionFirst; RepoActionList; RepoActionUpdate];
      mkResource RepoResourceTypeSystem [RepoActionFirst; RepoActionCount; RepoActionList; RepoActionUpdate];
      mkResource RepoResourceTypeCertificate [RepoActionFirst];
      mkResource RepoResourceTypeTenantconfig [RepoActionFirst; RepoActionUpdate; RepoActionCreate];
      mkResource RepoResourceTypeEvent [RepoActionUpdate; RepoActionDelete];
      mkResource RepoResourceTypeKeyversion [RepoActionFirst]]].

Definition RepoInternalPolicies_InternalTenantProvisioningRole : list Policy :=
  [mkPolicy InternalTenantProvisioningPolicy
     [mkResource RepoResourceTypeTenant [RepoActionCreate; RepoActionUpdate; RepoActionDelete];
      mkResource RepoResourceTypeGroup [RepoActionFirst; RepoActionCreate];
      mkResource RepoResourceTypeSystem [RepoActionCount; RepoActionList; RepoActionFirst; RepoActionUpdate];
      mkResource RepoResourceTypeKey [RepoActionCount; RepoActionList; RepoActionUpdate];
      mkResource RepoResourceTypeKeyconfiguration [RepoActionCount; RepoActionFirst; RepoActionList]]].

Definition RepoInternalPolicies_InternalTaskProcessingRole : list Policy :=
  [mkPolicy InternalTaskProcessingPolicy
     [mkResource RepoResourceTypeTenant [RepoActionCount; RepoActionList]]].

Definition RepoInternalPolicies_InternalTaskCertRotationRole : list Policy :=
  [mkPolicy InternalTaskCertRotationPolicy
     [mkResource RepoResourceTypeCertificate [RepoActionList; RepoActionFirst; RepoActionCreate; RepoActionCount; RepoActionUpdate]]].

Definition RepoInternalPolicies_InternalTaskWorkflowApproversRole : list Policy :=
  [mkPolicy InternalTaskWorkflowApproversPolicy
     [mkResource RepoResourceTypeTenant [RepoActionFirst];
      mkResource RepoResourceTypeTenantconfig [RepoActionFirst];
      mkResource RepoResourceTypeWorkflow [RepoActionUpdate; RepoActionFirst; RepoActionUpdate; RepoActionCreate];
      mkResource RepoResourceTypeWorkflowApprover [RepoActionCreate; RepoActionUpdate; RepoActionCount; RepoActionList];
      mkResource RepoResourceTypeKey [RepoActionFirst; RepoActionUpdate];
      mkResource RepoResourceTypeKeyversion [RepoActionFirst];
      mkResource RepoResourceTypeGroup [RepoActionCount; RepoActionList];
      mkResource RepoResourceTypeKeyconfiguration [RepoActionFirst; RepoActionList; RepoActionCount];
      mkResource RepoResourceTypeSystem [RepoActionCount; RepoActionList; RepoActionFirst; RepoActionUpdate];
      mkResource RepoResourceTypeSystemProperty [RepoActionCount; RepoActionList];
      mkResource RepoResourceTypeEvent [RepoActionFirst; RepoActionList; RepoActionCount]]].

Definition RepoInternalPolicies_InternalTaskHYOKSyncRole : list Policy :=
  [mkPolicy InternalTaskHYOKSyncPolicy
     [mkResource RepoResourceTypeKey [RepoActionCount; RepoActionList; RepoActionUpdate; RepoActionFirst];
      mkResource RepoResourceTypeKeyversion [RepoActionCreate; RepoActionCount; RepoActionList; RepoActionUpdate; RepoActionFirst];
      mkResource RepoResourceTypeCertificate [RepoActionFirst; RepoActionCount; RepoActionCreate; RepoActionUpdate];
      mkResource RepoResourceTypeKeyconfiguration [RepoActionFirst]]].

Definition RepoInternalPolicies_InternalTaskPendingStateSyncRole : list Policy :=
  [mkPolicy InternalTaskPendingStateSyncPolicy
     [mkResource RepoResourceTypeKey [RepoActionFirst; RepoActionCount; RepoActionList; RepoActionUpdate; RepoActionCreate];
      mkResource RepoResourceTypeKeyversion [RepoActionFirst];
      mkResource RepoResourceTypeKeyconfiguration [RepoActionFirst; RepoActionUpdate];
      mkResource RepoResourceTypeCertificate [RepoActionFirst; RepoActionCount; RepoActionCreate; RepoActionUpdate];
      mkResource RepoResourceTypeTenantconfig [RepoActionFirst; RepoActionDelete; RepoActionCreate];
      mkResource RepoResourceTypeKeystore [RepoActionFirst; RepoActionDelete]]].

Definition RepoInternalPolicies_InternalTaskKeystorePoolRole : list Policy :=
  [mkPolicy InternalTaskKeystorePoolPolicy
     [mkResource RepoResourceTypeKeystore [RepoActionCount; RepoActionCreate]]].

Definition RepoInternalPolicies_InternalTaskSystemRefreshRole : list Policy :=
  [mkPolicy InternalTaskSystemRefreshPolicy
     [mkResource RepoResourceTypeKeyconfiguration [RepoActionList; RepoActionCount];
      mkResource RepoResourceTypeSystem [RepoActionCount; RepoActionList];
      mkResource RepoResourceTypeSystemProperty [RepoActionCount; RepoActionList; RepoActionUpdate];
      mkResource RepoResourceTypeEvent [RepoActionCount; RepoActionList]]].

Definition RepoInternalPolicies_InternalTaskTenantRefreshRole : list Policy :=
  [mkPolicy InternalTaskTenantRefreshPolicy
     [mkResource RepoResourceTypeTenant [RepoActionUpdate]]].

Definition RepoInternalPolicies_InternalTaskWorkflowCleanupRole : list Policy :=
  [mkPolicy InternalTaskWorkflowCleanupPolicy
     [mkResource RepoResourceTypeTenantconfig [RepoActionFirst; RepoActionUpdate; RepoActionCreate];
      mkResource RepoResourceTypeTenant [RepoActionFirst];
      mkResource RepoResourceTypeWorkflow [RepoActionList; RepoActionCount; RepoActionDelete]]].

Definition RepoInternalPolicies_InternalTaskWorkflowExpirationRole : list Policy :=
  [mkPolicy InternalTaskWorkflowExpirationPolicy
     [mkResource RepoResourceTypeWorkflow [RepoActionFirst; RepoActionList; RepoActionCount; RepoActionUpdate];
      mkResource RepoResourceTypeSystem [RepoActionUpdate]]].

Definition RepoInternalPolicies : RolePolicies :=
  [(InternalBusinessAuthzRole, RepoInternalPolicies_InternalBusinessAuthzRole);
   (InternalTenantCLIRole, RepoInternalPolicies_InternalTenantCLIRole);
   (InternalEventReconcilerRole, RepoInternalPolicies_InternalEventReconcilerRole);
   (InternalTenantProvisioningRole, RepoInternalPolicies_InternalTenantProvisioningRole);
   (InternalTaskProcessingRole, RepoInternalPolicies_InternalTaskProcessingRole);
   (InternalTaskCertRotationRole, RepoInternalPolicies_InternalTaskCertRotationRole);
   (InternalTaskWorkflowApproversRole, RepoInternalPolicies_InternalTaskWorkflowApproversRole);
   (InternalTaskHYOKSyncRole, RepoInternalPolicies_InternalTaskHYOKSyncRole);
   (InternalTaskPendingStateSyncRole, RepoInternalPolicies_InternalTaskPendingStateSyncRole);
   (InternalTaskKeystorePoolRole, RepoInternalPolicies_InternalTaskKeystorePoolRole);
   (InternalTaskSystemRefreshRole, RepoInternalPolicies_InternalTaskSystemRefreshRole);
   (InternalTaskTenantRefreshRole, RepoInternalPolicies_InternalTaskTenantRefreshRole);
   (InternalTaskWorkflowCleanupRole, RepoInternalPolicies_InternalTaskWorkflowCleanupRole);
   (InternalTaskWorkflowExpirationRole, RepoInternalPolicies_InternalTaskWorkflowExpirationRole)].

(** * Endpoints, internal/authz/api_endpoint_mapping.go *)

Definition AllowListByAPI : list string :=
  ["GET /tenants"; "GET /tenants/{tenantID}"; "GET /userInfo"; "GET /swagger"].

Record Restricted := mkRestricted {
  APIResourceTypeName : string;
  APIAction : string }.

Definition Restrictions_Keys : list (string * Restricted) :=
  [("GET /keys", mkRestricted APIResourceTypeKey APIActionRead);
   ("POST /keys", mkRestricted APIResourceTypeKey APIActionCreate);
   ("GET /keys/{keyID}", mkRestricted APIResourceTypeKey APIActionRead);
   ("PATCH /keys/{keyID}", mkRestricted APIResourceTypeKey APIActionUpdate);
   ("DELETE /keys/{keyID}", mkRestricted APIResourceTypeKey APIActionDelete);
   ("GET /keys/{keyID}/importParams", mkRestricted APIResourceTypeKey APIActionRead);
   ("POST /keys/{keyID}/importKeyMaterial", mkRestricted APIResourceTypeKey APIActionUpdate);
   ("GET /keys/{keyID}/versions", mkRestricted APIResourceTypeKey APIActionRead);
   ("POST /keys/{keyID}/versions", mkRestricted APIResourceTypeKey APIActionCreate);
   ("GET /keys/{keyID}/versions/{version}", mkRestricted APIResourceTypeKey APIActionRead);
   ("GET /key/{keyID}/labels", mkRestricted APIResourceTypeKey APIActionRead);
   ("POST /key/{keyID}/labels", mkRestricted APIResourceTypeKey APIActionCreate);
   ("DELETE /key/{keyID}/label/{labelName}", mkRestricted APIResourceTypeKey APIActionDelete)].

Definition Restrictions_KeyConfigurations : list (string * Restricted) :=
  [("GET /keyConfigurations", mkRestricted APIResourceTypeKeyConfiguration APIActionRead);
   ("POST /keyConfigurations", mkRestricted APIResourceTypeKeyConfiguration APIActionCreate);
   ("GET /keyConfigurations/{keyConfigurationID}", mkRestricted APIResourceTypeKeyConfiguration APIActionRead);
   ("PATCH /keyConfigurations/{keyConfigurationID}", mkRestricted APIResourceTypeKeyConfiguration APIActionUpdate);
   ("DELETE /keyConfigurations/{keyConfigurationID}", mkRestricted APIResourceTypeKeyConfiguration APIActionDelete);
   ("GET /keyConfigurations/{keyConfigurationID}/tags", mkRestricted APIResourceTypeKeyConfiguration APIActionRead);
   ("PUT /keyConfigurations/{keyConfigurationID}/tags", mkRestricted APIResourceTypeKeyConfiguration APIActionUpdate);
   ("GET /keyConfigurations/{keyConfigurationID}/certificates", mkRestricted APIResourceTypeKeyConfiguration APIActionRead)].

Definition Restrictions_Systems : list (string * Restricted) :=
  [("GET /systems", mkRestricted APIResourceTypeSystem APIActionRead);
   ("GET /systems/filterOptions", mkRestricted APIResourceTypeSystem APIActionRead);
   ("GET /systems/{systemID}", mkRestricted APIResourceTypeSystem APIActionRead);
   ("PATCH /systems/{systemID}/link", mkRestricted APIResourceTypeSystem APIActionSystemModifyLink);
   ("DELETE /systems/{systemID}/link", mkRestricted APIResourceTypeSystem APIActionSystemModifyLink);
   ("POST /systems/{systemID}/recoveryActions", mkRestricted APIResourceTypeSystem APIActionSystemModifyLink);
   ("GET /systems/{systemID}/recoveryActions", mkRestricted APIResourceTypeSystem APIActionSystemModifyLink)].

Definition Restrictions_Workflows : list (string * Restricted) :=
  [("POST /workflows", mkRestricted APIResourceTypeWorkFlow APIActionCreate);
   ("GET /workflows", mkRestricted APIResourceTypeWorkFlow APIActionRead);
   ("POST /workflows/check", mkRestricted APIResourceTypeWorkFlow APIActionUpdate);
   ("GET /workflows/{workflowID}", mkRestricted APIResourceTypeWorkFlow APIActionRead);
   ("GET /workflows/{workflowID}/approvers", mkRestricted APIResourceTypeWorkFlow APIActionRead);
   ("POST /workflows/{workflowID}/approvers", mkRestricted APIResourceTypeWorkFlow APIActionCreate);
   ("POST /workflows/{workflowID}/state", mkRestricted APIResourceTypeWorkFlow APIActionUpdate)].

Definition Restrictions_Groups : list (string * Restricted) :=
  [("GET /groups", mkRestricted APIResourceTypeUserGroup APIActionRead);
   ("POST /groups", mkRestricted APIResourceTypeUserGroup APIActionCreate);
   ("POST /groups/iamCheck", mkRestricted APIResourceTypeUserGroup APIActionRead);
   ("GET /groups/{groupID}", mkRestricted APIResourceTypeUserGroup APIActionRead);
   ("PATCH /groups/{groupID}", mkRestricted APIResourceTypeUserGroup APIActionUpdate);
   ("DELETE /groups/{groupID}", mkRestricted APIResourceTypeUserGroup APIActionDelete)].

Definition Restrictions_Tenant : list (string * Restricted) :=
  [("GET /tenantConfigurations/keystores", mkRestricted APIResourceTypeTenantSettings APIActionRead);
   ("GET /tenantConfigurations/workflow", mkRestricted APIResourceTypeTenantSettings APIActionRead);
   ("PATCH /tenantConfigurations/workflow", mkRestricted APIResourceTypeTenantSettings APIActionUpdate);
   ("GET /tenantInfo", mkRestricted APIResourceTypeTenant APIActionRead)].

Definition RestrictionsByAPI : list (string * Restricted) :=
  Restrictions_Keys ++ Restrictions_KeyConfigurations ++ Restrictions_Systems ++ Restrictions_Workflows ++ Restrictions_Groups ++ Restrictions_Tenant.
