(* ===== verification/Authz.v ===== *)
(** Authorization decisions: the authorization data, requests and handler of
    internal/authz (authorization_data.go, request.go, handler.go, check.go).
    Roles, resource types and actions are strings, as in the source; the tables
    themselves are in [AuthzPolicies].  Audit logging of decisions
    ([LogDecision]) has no influence on the result and is left out. *)
From S2P Require Import Prelude Errs GoContext AuthzPolicies.

Definition ErrAuthzDecision := New "authz.ErrAuthzDecision" "error making authorization decision".
Definition ErrAuthzUnauthorized := New "authz.ErrAuthzUnauthorized" "action authorized".
Definition ErrExtractBusinessUserData :=
  New "authz.ErrExtractBusinessUserData" "error extracting client data from context".
Definition ErrExtractInternalUserData :=
  New "authz.ErrExtractInternalUserData" "error extracting internal data from context".
Definition ErrInvalidRequest := New "authz.ErrInvalidRequest" "invalid request".
Definition ErrAuthorizationDecision :=
  New "authz.ErrAuthorizationDecision" "authorization decision error".
Definition ErrAuthorizationDenied := New "authz.ErrAuthorizationDenied" "authorization denied".
Definition ErrCreateAuthzRequest :=
  New "authz.ErrCreateAuthzRequest" "error creating authorization request".
Definition ErrAuthzExtractTenantID :=
  New "authz.ErrExtractTenantID" "error extracting tenant ID from context".
Definition ErrResourceTypeInvalid := New "authz.ErrResourceTypeInvalid" "resource type is invalid".
Definition ErrActionInvalidForResource :=
  New "authz.ErrActionInvalidForResource" "action is invalid for resource type".
Definition ErrInvalidRole := New "authz.ErrInvalidRole" "invalid role".
Definition ErrEmptyRequest := New "authz.ErrEmptyRequest" "empty request".
Definition ErrWrongTenantID := New "authz.ErrWrongTenantID" "wrong tenant ID in request".
Definition ErrNoAuthzForUserType := New "authz.ErrNoAuthzForUserType" "incompatible user type".
Definition ErrValidation := New "authz.ErrValidation" "validation failed".
Definition ErrUserEmpty := New "authz.ErrUserEmpty" "user is empty".

(** * Authorization data *)

(** [BusinessUserCheck] is the pair of tenant id and group; [AuthorizationKey]
    adds the resource type and the action. *)
Definition BusinessUserCheck : Type := string * string.
Definition InternalUserCheck : Type := string.
Definition AuthorizationKey (User : Type) : Type := User * (string * string).

Record BusinessUserRecord := mkBusinessUser {
  bu_TenantID : string;
  bu_Groups : list string }.

Record BusinessUserAuthzData := mkBusinessData {
  b_RolePolicies : RolePolicies;
  b_AuthzKeys : gset (string * string * (string * string)) }.

Record InternalUserAuthzData := mkInternalData {
  i_RolePolicies : RolePolicies;
  i_AuthzKeys : gset (string * (string * string)) }.

Definition NewBusinessUserAuthzData (rolePolicies : RolePolicies) : BusinessUserAuthzData :=
  mkBusinessData rolePolicies ∅.

Definition InitialiseAuthzKeys (l : BusinessUserAuthzData) : BusinessUserAuthzData :=
  mkBusinessData (b_RolePolicies l) ∅.

(** [m[role]] for a map given by its entries. *)
Fixpoint assoc {A} (k : string) (m : list (string * A)) : option A :=
  match m with
  | [] => None
  | (k', a) :: m' => if k ==s k' then Some a else assoc k m'
  end.

(** The keys the three inner loops of [AddUser] insert for one policy list. *)
Definition grants (policies : list Policy) : list (string * string) :=
  policies ≫= λ policy, ResourceTypes policy ≫= λ resource,
    (λ action, (Type_ resource, action)) <$> Actions resource.

Definition businessKeys (policies : list Policy) (u : BusinessUserRecord) :
    list (string * string * (string * string)) :=
  policies ≫= λ policy, ResourceTypes policy ≫= λ resource,
    Actions resource ≫= λ action,
      (λ group, (bu_TenantID u, group, (Type_ resource, action))) <$> bu_Groups u.

(** One iteration of the outer loop of [AddUser]. *)
Definition addRole (entry : string * BusinessUserRecord) : Comp BusinessUserAuthzData unit := λ l,
  let '(role, tenantAuth) := entry in
  match assoc role (b_RolePolicies l) with
  | None => (l, inl (Wrap ErrValidation (Some ErrInvalidRole)))
  | Some policies =>
      (mkBusinessData (b_RolePolicies l)
         (list_to_set (businessKeys policies tenantAuth) ∪ b_AuthzKeys l), inr tt)
  end.

(** [AddUser] ranges over a Go map; [user] lists its entries in iteration order.
    An unknown role stops the loop with the keys inserted so far kept. *)
Definition AddUser (user : list (string * BusinessUserRecord)) :
    Comp BusinessUserAuthzData unit :=
  for_each addRole user.

Definition internalKeys (role : string) (policies : list Policy) :
    list (string * (string * string)) :=
  policies ≫= λ policy, ResourceTypes policy ≫= λ resource,
    (λ action, (role, (Type_ resource, action))) <$> Actions resource.

Definition NewInternalUserAuthzData (rolePolicies : RolePolicies) : InternalUserAuthzData :=
  mkInternalData rolePolicies
    (list_to_set (rolePolicies ≫= λ '(role, policies), internalKeys role policies)).

(** * Requests *)

Record BusinessUserRequest := mkBusinessRequest {
  br_TenantID : string;
  br_UserName : string;
  br_Groups : list string }.

Definition BusinessUserRequest_IsEmpty (u : BusinessUserRequest) : bool :=
  (br_UserName u ==s "") || bool_decide (length (br_Groups u) = 0).

Definition InternalUserRequest_IsEmpty (role : string) : bool := role ==s "".

Definition InternalUserRequest_IsValidContext (ctx : Ctx) : option error :=
  match ExtractUserType ctx with
  | inl e => Some e
  | inr userType => if negb (userType ==s InternalUser) then Some ErrNoAuthzForUserType else None
  end.

Definition BusinessUserRequest_IsValidContext (r : BusinessUserRequest) (ctx : Ctx) : option error :=
  match ExtractTenantID ctx with
  | inl e => Some e
  | inr tenant =>
      if negb (br_TenantID r ==s tenant) then Some ErrWrongTenantID
      else
        match ExtractUserType ctx with
        | inl e => Some e
        | inr userType =>
            if negb (userType ==s BusinessUser) then Some ErrNoAuthzForUserType else None
        end
  end.

Record Request (User : Type) := mkRequest {
  req_ID : string;
  req_User : User;
  req_ResourceTypeName : string;
  req_Action : string }.
Arguments mkRequest {User} _ _ _ _.
Arguments req_ID {User} _.
Arguments req_User {User} _.
Arguments req_ResourceTypeName {User} _.
Arguments req_Action {User} _.

(** [Request.IsValidContext] for a user type with its two methods. *)
Definition Request_IsValidContext {User} (isEmpty : User → bool)
    (isValidContext : User → Ctx → option error) (r : Request User) (ctx : Ctx) : option error :=
  if isEmpty (req_User r) then Some ErrEmptyRequest
  else isValidContext (req_User r) ctx.

Definition NewRequest {User} (isEmpty : User → bool) (ctx : Ctx) (user : User)
    (resourceTypeName action : string) : error + Request User :=
  if isEmpty user then inl (Wrap ErrValidation (Some ErrUserEmpty))
  else
    match GetRequestID ctx with
    | inl e => inl e
    | inr id => inr (mkRequest id user resourceTypeName action)
    end.

(** * Handler *)

Record Handler := mkHandler {
  h_Internal : InternalUserAuthzData;
  h_Business : BusinessUserAuthzData;
  h_resourceActions : list (string * list string) }.

Definition NewAuthorizationHandler (internalUserPolicies businessUserPolicies : RolePolicies)
    (resourceActions : list (string * list string)) : Handler :=
  mkHandler (NewInternalUserAuthzData internalUserPolicies)
    (NewBusinessUserAuthzData businessUserPolicies) resourceActions.

Definition set_h_Business (b : BusinessUserAuthzData) (h : Handler) : Handler :=
  mkHandler (h_Internal h) b (h_resourceActions h).

Definition ResetBusinessUserData (h : Handler) : Handler :=
  set_h_Business (InitialiseAuthzKeys (h_Business h)) h.

Definition UpdateBusinessUserData (user : list (string * BusinessUserRecord)) :
    Comp Handler unit :=
  zoom h_Business set_h_Business (AddUser user).

Definition isValidResourceAction (h : Handler) (resource action : string) : option error :=
  match assoc resource (h_resourceActions h) with
  | None => Some (Wrapf ErrResourceTypeInvalid resource)
  | Some actions =>
      if negb (action ∈? actions) then Some (Wrapf ErrActionInvalidForResource action) else None
  end.

(** The group loop of [IsBusinessUserAllowed]. *)
Fixpoint anyGroupAllowed (h : Handler) (tenant resource action : string) (groups : list string) : bool :=
  match groups with
  | [] => false
  | group :: rest =>
      if bool_decide ((tenant, group, (resource, action)) ∈ b_AuthzKeys (h_Business h))
      then true else anyGroupAllowed h tenant resource action rest
  end.

Definition IsBusinessUserAllowed (h : Handler) (ctx : Ctx) (request : Request BusinessUserRequest) :
    error + bool :=
  match Request_IsValidContext BusinessUserRequest_IsEmpty BusinessUserRequest_IsValidContext
          request ctx with
  | Some err => inl (Wrap ErrInvalidRequest (Some err))
  | None =>
      match isValidResourceAction h (req_ResourceTypeName request) (req_Action request) with
      | Some _ => inl (Wrap ErrInvalidRequest (Some ErrInvalidRequest))
      | None =>
          if anyGroupAllowed h (br_TenantID (req_User request)) (req_ResourceTypeName request)
               (req_Action request) (br_Groups (req_User request))
          then inr true
          else inl (Wrap ErrAuthorizationDecision (Some ErrAuthorizationDenied))
      end
  end.

Definition IsInternalUserAllowed (h : Handler) (ctx : Ctx) (request : Request string) :
    error + bool :=
  match Request_IsValidContext InternalUserRequest_IsEmpty
          (λ _, InternalUserRequest_IsValidContext) request ctx with
  | Some err => inl (Wrap ErrInvalidRequest (Some err))
  | None =>
      match isValidResourceAction h (req_ResourceTypeName request) (req_Action request) with
      | Some _ => inl (Wrap ErrInvalidRequest (Some ErrInvalidRequest))
      | None =>
          if bool_decide ((req_User request, (req_ResourceTypeName request, req_Action request))
                            ∈ i_AuthzKeys (h_Internal h))
          then inr true
          else inl (Wrap ErrAuthorizationDecision (Some ErrAuthorizationDenied))
      end
  end.

(** * internal/authz/check.go *)

Definition checkBusinessUserAuthz (ctx : Ctx) (h : Handler) (resourceType action : string) :
    error + bool :=
  match ExtractTenantID ctx with
  | inl err => inl (Wrap ErrAuthzExtractTenantID (Some err))
  | inr tenant =>
      match ExtractBusinessUserDataIdentifier ctx with
      | inl err => inl (Wrap ErrExtractBusinessUserData (Some err))
      | inr identifier =>
          match ExtractBusinessUserDataGroups ctx with
          | inl err => inl (Wrap ErrExtractBusinessUserData (Some err))
          | inr groups =>
              let user := mkBusinessRequest tenant identifier groups in
              match NewRequest BusinessUserRequest_IsEmpty ctx user resourceType action with
              | inl err => inl (Wrap ErrCreateAuthzRequest (Some err))
              | inr authzRequest =>
                  match IsBusinessUserAllowed h ctx authzRequest with
                  | inl err => inl (Wrap ErrAuthzDecision (Some err))
                  | inr allowed => inr allowed
                  end
              end
          end
      end
  end.

Definition checkInternalUserAuthz (ctx : Ctx) (h : Handler) (resourceType action : string) :
    error + bool :=
  match ExtractInternalRole ctx with
  | inl err => inl (Wrap ErrExtractInternalUserData (Some err))
  | inr role =>
      match NewRequest InternalUserRequest_IsEmpty ctx role resourceType action with
      | inl err => inl (Wrap ErrCreateAuthzRequest (Some err))
      | inr authzRequest =>
          match IsInternalUserAllowed h ctx authzRequest with
          | inl err => inl (Wrap ErrAuthzDecision (Some err))
          | inr allowed => inr allowed
          end
      end
  end.

Definition CheckAuthz (ctx : Ctx) (h : Handler) (resourceType action : string) : error + bool :=
  match ExtractUserType ctx with
  | inl err => inl (Wrap ErrAuthzDecision (Some err))
  | inr userType =>
      let decision :=
        if userType ==s BusinessUser then
          match checkBusinessUserAuthz ctx h resourceType action with
          | inl err => inl (Wrap ErrAuthzDecision (Some err))
          | inr allowed => inr allowed
          end
        else if userType ==s InternalUser then
          match checkInternalUserAuthz ctx h resourceType action with
          | inl err => inl (Wrap ErrAuthzDecision (Some err))
          | inr allowed => inr allowed
          end
        else inl (Wrap ErrAuthzDecision (Some ErrNoAuthzForUserType)) in
      match decision with
      | inl err => inl err
      | inr allowed =>
          if negb allowed then inl (Wrap ErrAuthzDecision (Some ErrAuthzUnauthorized))
          else inr allowed
      end
  end.

Definition CheckInternalUserRole (ctx : Ctx) (role : string) : option error :=
  match ExtractInternalRole ctx with
  | inl err => Some (Wrap ErrExtractInternalUserData (Some err))
  | inr ctxRole => if negb (ctxRole ==s role) then Some ErrAuthzUnauthorized else None
  end.

Definition CheckInternalUserRoles (ctx : Ctx) (allowedRoles : list string) : option error :=
  match ExtractInternalRole ctx with
  | inl err => Some (Wrap ErrExtractInternalUserData (Some err))
  | inr ctxRole => if negb (ctxRole ∈? allowedRoles) then Some ErrAuthzUnauthorized else None
  end.

(** * What the authorization data contains *)

Lemma elem_of_grants ps r a :
  (r, a) ∈ grants ps ↔
  ∃ p res, p ∈ ps ∧ res ∈ ResourceTypes p ∧ Type_ res = r ∧ a ∈ Actions res.
Proof.
  unfold grants. rewrite list_elem_of_bind. setoid_rewrite list_elem_of_bind.
  setoid_rewrite list_elem_of_fmap. naive_solver.
Qed.

Lemma elem_of_businessKeys ps u t g r a :
  (t, g, (r, a)) ∈ businessKeys ps u ↔
  t = bu_TenantID u ∧ g ∈ bu_Groups u ∧ (r, a) ∈ grants ps.
Proof.
  rewrite elem_of_grants. unfold businessKeys. rewrite list_elem_of_bind.
  setoid_rewrite list_elem_of_bind. setoid_rewrite list_elem_of_bind.
  setoid_rewrite list_elem_of_fmap. naive_solver.
Qed.

Lemma elem_of_internalKeys role ps role' r a :
  (role', (r, a)) ∈ internalKeys role ps ↔ role' = role ∧ (r, a) ∈ grants ps.
Proof.
  rewrite elem_of_grants. unfold internalKeys. rewrite list_elem_of_bind.
  setoid_rewrite list_elem_of_bind. setoid_rewrite list_elem_of_fmap. naive_solver.
Qed.

Lemma assoc_elem {A} k (m : list (string * A)) v : assoc k m = Some v → (k, v) ∈ m.
Proof.
  induction m as [|[k' v'] m IH]; simpl; [done|].
  destruct (String.eqb_spec k k') as [->|]; [|set_solver].
  intros [= ->]. by left.
Qed.

Lemma AddUser_cons role u user l :
  AddUser ((role, u) :: user) l =
  match assoc role (b_RolePolicies l) with
  | None => (l, inl (Wrap ErrValidation (Some ErrInvalidRole)))
  | Some ps =>
      AddUser user (mkBusinessData (b_RolePolicies l)
        (list_to_set (businessKeys ps u) ∪ b_AuthzKeys l))
  end.
Proof. unfold AddUser. simpl. unfold mbind, M_bind, addRole. by destruct (assoc _ _). Qed.

Lemma AddUser_policies user l : b_RolePolicies (AddUser user l).1 = b_RolePolicies l.
Proof.
  revert l. induction user as [|[role u] user IH]; intros l; [done|].
  rewrite AddUser_cons. destruct (assoc role (b_RolePolicies l)); [|done]. by rewrite IH.
Qed.

(** Keys only enter through a role of the policies, for the tenant and groups the
    role was given with. *)
Lemma AddUser_sound user l t g r a :
  (t, g, (r, a)) ∈ b_AuthzKeys (AddUser user l).1 →
  (t, g, (r, a)) ∈ b_AuthzKeys l ∨
  ∃ role u ps, (role, u) ∈ user ∧ assoc role (b_RolePolicies l) = Some ps ∧
    t = bu_TenantID u ∧ g ∈ bu_Groups u ∧ (r, a) ∈ grants ps.
Proof.
  revert l. induction user as [|[role u] user IH]; intros l; [by left|].
  rewrite AddUser_cons. destruct (assoc role (b_RolePolicies l)) as [ps|] eqn:Hps; [|by left].
  intros [H|(role' & u' & ps' & Hin & Hps' & Hrest)]%IH.
  - simpl in H. apply elem_of_union in H as [H|H]; [|by left].
    apply elem_of_list_to_set, elem_of_businessKeys in H. right.
    exists role, u, ps. set_solver.
  - right. exists role', u', ps'. simpl in Hps'. set_solver.
Qed.

Lemma AddUser_mono user l : b_AuthzKeys l ⊆ b_AuthzKeys (AddUser user l).1.
Proof.
  revert l. induction user as [|[role u] user IH]; intros l; [done|].
  rewrite AddUser_cons. destruct (assoc role (b_RolePolicies l)) as [ps|] eqn:Hps; [|done].
  etransitivity; [|apply IH]. simpl. set_solver.
Qed.

Lemma AddUser_complete user l l' role u ps g r a :
  AddUser user l = (l', inr tt) →
  (role, u) ∈ user → assoc role (b_RolePolicies l) = Some ps →
  g ∈ bu_Groups u → (r, a) ∈ grants ps →
  (bu_TenantID u, g, (r, a)) ∈ b_AuthzKeys l'.
Proof.
  revert l. induction user as [|[role' u'] user IH]; intros l; [by intros _ ?%not_elem_of_nil|].
  rewrite AddUser_cons. destruct (assoc role' (b_RolePolicies l)) as [ps'|] eqn:Hps'; [|done].
  intros Hrun [[= <- <-]|Hin]%elem_of_cons Hps Hg Hra; [|by eapply IH].
  pose proof (AddUser_mono user (mkBusinessData (b_RolePolicies l)
      (list_to_set (businessKeys ps' u) ∪ b_AuthzKeys l))) as Hmono.
  rewrite Hrun in Hmono. apply Hmono. simpl. apply elem_of_union. left.
  apply elem_of_list_to_set, elem_of_businessKeys. naive_solver.
Qed.

(** * Decisions *)

Lemma anyGroupAllowed_spec h t r a groups :
  anyGroupAllowed h t r a groups = true ↔
  ∃ g, g ∈ groups ∧ (t, g, (r, a)) ∈ b_AuthzKeys (h_Business h).
Proof.
  induction groups as [|g gs IH]; simpl; [set_solver|].
  case_bool_decide; [set_solver|]. rewrite IH. set_solver.
Qed.

Lemma isValidResourceAction_spec h r a :
  isValidResourceAction h r a = None ↔
  ∃ acts, assoc r (h_resourceActions h) = Some acts ∧ a ∈ acts.
Proof.
  unfold isValidResourceAction. destruct (assoc r _) as [acts|]; [|naive_solver].
  destruct (a ∈? acts) eqn:Hm; simpl.
  - apply mem_elem in Hm. naive_solver.
  - apply mem_not_elem in Hm. naive_solver.
Qed.

Lemma CheckAuthz_total ctx h r a :
  CheckAuthz ctx h r a = inr true ∨ ∃ e, CheckAuthz ctx h r a = inl e.
Proof.
  unfold CheckAuthz. destruct (ExtractUserType ctx); [by right; eexists|].
  match goal with |- context [match ?d with inl _ => _ | inr _ => _ end] => destruct d as [|[]] end;
    eauto.
Qed.

(** An internal caller passes [CheckAuthz] exactly when the context carries a
    non-empty internal role and request id, the action exists for the resource
    type, and a policy of that very role grants it; business policies and loaded
    business groups play no part. *)
Theorem CheckAuthz_internal_iff ctx ipol h r a :
  h_Internal h = NewInternalUserAuthzData ipol →
  ctx_userType ctx = Some InternalUser →
  CheckAuthz ctx h r a = inr true ↔
  ∃ role ps acts id,
    ctx_internalUserData ctx = Some role ∧ role ≠ "" ∧
    ctx_requestID ctx = Some id ∧ id ≠ "" ∧
    assoc r (h_resourceActions h) = Some acts ∧ a ∈ acts ∧
    (role, ps) ∈ ipol ∧ (r, a) ∈ grants ps.
Proof.
  intros Hi Hu. unfold CheckAuthz, checkInternalUserAuthz.
  assert (ExtractUserType ctx = inr InternalUser) as Ht by (by apply ExtractUserType_ok).
  rewrite Ht. simpl. unfold ExtractInternalRole. rewrite Ht. simpl.
  destruct (nonempty (ctx_internalUserData ctx)) as [role|] eqn:Hrole.
  2:{ split; [done|]. intros (role & ps & acts & id & Hr & Hne & _).
      pose proof (proj2 (nonempty_Some _ _) (conj Hr Hne)). congruence. }
  apply nonempty_Some in Hrole as [Hr Hne].
  unfold NewRequest, InternalUserRequest_IsEmpty, IsInternalUserAllowed, Request_IsValidContext,
    InternalUserRequest_IsValidContext. apply String.eqb_neq in Hne as Hneb. rewrite Hneb.
  destruct (GetRequestID ctx) as [|id] eqn:Hid.
  { split; [done|]. intros (role' & ps & acts & id & _ & _ & Hi1 & Hi2 & _).
    pose proof (proj2 (GetRequestID_ok _ _) (conj Hi1 Hi2)). congruence. }
  apply GetRequestID_ok in Hid as [Hi1 Hi2]. simpl.
  unfold InternalUserRequest_IsEmpty. rewrite Hneb, Ht. simpl.
  destruct (isValidResourceAction h r a) eqn:Hv.
  { split; [done|]. intros (role' & ps & acts & id' & _ & _ & _ & _ & Ha1 & Ha2 & _).
    assert (isValidResourceAction h r a = None) by (apply isValidResourceAction_spec; eauto).
    congruence. }
  apply isValidResourceAction_spec in Hv as (acts & Ha1 & Ha2).
  rewrite Hi. simpl.
  assert ((role, (r, a)) ∈ (list_to_set (ipol ≫= λ '(role0, policies), internalKeys role0 policies)
     : gset (string * (string * string))) ↔ ∃ ps, (role, ps) ∈ ipol ∧ (r, a) ∈ grants ps) as Hkeys.
  { rewrite elem_of_list_to_set, list_elem_of_bind. split.
    - intros ([ro ps] & [-> Hg]%elem_of_internalKeys & Hin). eauto.
    - intros (ps & Hin & Hg). exists (role, ps). by rewrite elem_of_internalKeys. }
  case_bool_decide as Hk; rewrite Hkeys in Hk; split; try done.
  - intros _. destruct Hk as (ps & ? & ?). exists role, ps, acts, id. auto 10.
  - intros (role' & ps & _ & _ & Hr' & _ & _ & _ & _ & _ & Hp & Hg).
    assert (role' = role) as -> by congruence. destruct Hk. eauto.
Qed.

Lemma business_allowed_iff ctx h r a :
  ctx_userType ctx = Some BusinessUser →
  CheckAuthz ctx h r a = inr true ↔
  ∃ t d id acts g,
    ctx_tenant ctx = Some t ∧ t ≠ "" ∧
    ctx_businessUserData ctx = Some d ∧ Identifier d ≠ "" ∧
    ctx_requestID ctx = Some id ∧ id ≠ "" ∧
    assoc r (h_resourceActions h) = Some acts ∧ a ∈ acts ∧
    g ∈ ClientGroups d ∧ (t, g, (r, a)) ∈ b_AuthzKeys (h_Business h).
Proof.
  intros Hu. unfold CheckAuthz, checkBusinessUserAuthz.
  assert (ExtractUserType ctx = inr BusinessUser) as Hut by (by apply ExtractUserType_ok).
  rewrite Hut. simpl.
  destruct (ExtractTenantID ctx) as [|t] eqn:Ht.
  { split; [done|]. intros (t & d & id & acts & g & Ht1 & Ht2 & _).
    pose proof (proj2 (ExtractTenantID_ok _ _) (conj Ht1 Ht2)). congruence. }
  pose proof (proj1 (ExtractTenantID_ok _ _) Ht) as [Ht1 Ht2].
  unfold ExtractBusinessUserDataIdentifier, ExtractBusinessUserDataGroups, ExtractBusinessUserData.
  destruct (ctx_businessUserData ctx) as [d|]; [|naive_solver].
  unfold NewRequest. destruct (BusinessUserRequest_IsEmpty _) eqn:Hem.
  { split; [done|]. intros (t' & d' & id & acts & g & _ & _ & Hd & Hi & _ & _ & _ & _ & Hg & _).
    unfold BusinessUserRequest_IsEmpty in Hem. simpl in Hem. simplify_eq.
    apply orb_true_iff in Hem as [Hem|Hem].
    - by apply String.eqb_eq in Hem.
    - apply bool_decide_eq_true, length_zero_iff_nil in Hem. rewrite Hem in Hg. set_solver. }
  destruct (GetRequestID ctx) as [|id] eqn:Hid.
  { split; [done|]. intros (t' & d' & id & acts & g & _ & _ & _ & _ & Hi1 & Hi2 & _).
    pose proof (proj2 (GetRequestID_ok _ _) (conj Hi1 Hi2)). congruence. }
  apply GetRequestID_ok in Hid as [Hi1 Hi2].
  unfold IsBusinessUserAllowed, Request_IsValidContext, BusinessUserRequest_IsValidContext.
  simpl. rewrite Hem, Ht, String.eqb_refl, Hut. simpl.
  destruct (isValidResourceAction h r a) eqn:Hv.
  { split; [done|]. intros (t' & d' & id' & acts & g & _ & _ & _ & _ & _ & _ & Ha1 & Ha2 & _).
    assert (isValidResourceAction h r a = None) by (apply isValidResourceAction_spec; eauto).
    congruence. }
  apply isValidResourceAction_spec in Hv as (acts & Ha1 & Ha2).
  assert (Identifier d ≠ "") as Hidn.
  { intros Hd. unfold BusinessUserRequest_IsEmpty in Hem. simpl in Hem. by rewrite Hd in Hem. }
  destruct (anyGroupAllowed h t r a (ClientGroups d)) eqn:Hany; simpl; split; try done.
  - intros _. apply anyGroupAllowed_spec in Hany as (g & ? & ?). exists t, d, id, acts, g. auto 12.
  - intros (t' & d' & id' & acts' & g & Ht' & _ & Hd & _ & _ & _ & _ & _ & Hg & Hk).
    simplify_eq. assert (anyGroupAllowed h t r a (ClientGroups d') = true); [|congruence].
    apply anyGroupAllowed_spec. eauto.
Qed.

(** A business caller passes [CheckAuthz] exactly when tenant, request id and
    user identifier are present, the action exists for the resource type, and one
    of the caller's groups holds the grant under the tenant of the request; a
    grant stored for another tenant never helps. *)
Theorem CheckAuthz_business_iff ctx h r a :
  ctx_userType ctx = Some BusinessUser →
  CheckAuthz ctx h r a = inr true ↔
  ∃ t d id acts g,
    ctx_tenant ctx = Some t ∧ t ≠ "" ∧
    ctx_businessUserData ctx = Some d ∧ Identifier d ≠ "" ∧
    ctx_requestID ctx = Some id ∧ id ≠ "" ∧
    assoc r (h_resourceActions h) = Some acts ∧ a ∈ acts ∧
    g ∈ ClientGroups d ∧ (t, g, (r, a)) ∈ b_AuthzKeys (h_Business h).
Proof. apply business_allowed_iff. Qed.
