(* ===== verification/Model.v ===== *)
(** The data model: the workflow enumerations with their SQL conversions, the
    entities of internal/model that the approval workflow and the authorization
    loader read and write, and the human-readable workflow description
    (internal/model/workflow.go, workflow_approver_group.go, group.go, key.go,
    keyconfiguration.go, system.go, tenantconfigs.go, utils/enums/enums.go). *)
From S2P Require Import Prelude Errs Json.

(** * Identifiers

    A [uuid.UUID] is its 128-bit value; [uuid.Nil] is zero. *)
Abbreviation uuid := N.
Definition uuid_Nil : uuid := 0%N.

(** [uuid.Parse] and [UUID.String] of github.com/google/uuid: what is printed is read
    back, and nothing prints as the empty string. *)
Class UUIDParse := uuid_Parse : string → error + uuid.
Class UUIDString := uuid_String : uuid → string.
Class UUIDLaws `{!UUIDParse, !UUIDString} := {
  uuid_Parse_String u : uuid_Parse (uuid_String u) = inr u;
  uuid_String_nonempty u : uuid_String u ≠ "" }.

(** [ptr.IsNotNilUUID] *)
Definition IsNotNilUUID (ptr : option uuid) : bool :=
  match ptr with Some u => negb (N.eqb u uuid_Nil) | None => false end.

(** * Workflow enumerations (Go string types) *)

Definition WorkflowState : Type := string.
Definition WorkflowArtifactType : Type := string.
Definition WorkflowActionType : Type := string.
Definition WorkflowParametersResourceType : Type := string.

Definition WorkflowStateInitial : string := "INITIAL".
Definition WorkflowStateRevoked : string := "REVOKED".
Definition WorkflowStateRejected : string := "REJECTED".
Definition WorkflowStateExpired : string := "EXPIRED".
Definition WorkflowStateWaitApproval : string := "WAIT_APPROVAL".
Definition WorkflowStateWaitConfirmation : string := "WAIT_CONFIRMATION".
Definition WorkflowStateExecuting : string := "EXECUTING".
Definition WorkflowStateSuccessful : string := "SUCCESSFUL".
Definition WorkflowStateFailed : string := "FAILED".

Definition WorkflowArtifactTypeKey : string := "KEY".
Definition WorkflowArtifactTypeKeyConfiguration : string := "KEY_CONFIGURATION".
Definition WorkflowArtifactTypeSystem : string := "SYSTEM".

Definition WorkflowActionTypeUpdateState : string := "UPDATE_STATE".
Definition WorkflowActionTypeUpdatePrimary : string := "UPDATE_PRIMARY".
Definition WorkflowActionTypeLink : string := "LINK".
Definition WorkflowActionTypeUnlink : string := "UNLINK".
Definition WorkflowActionTypeSwitch : string := "SWITCH".
Definition WorkflowActionTypeDelete : string := "DELETE".

Definition WorkflowParametersResourceTypeKey : string := "KEY".
Definition WorkflowParametersResourceTypeKeyConfiguration : string := "KEY_CONFIGURATION".

Definition WorkflowNonTerminalStates : list string :=
  [WorkflowStateInitial; WorkflowStateWaitApproval; WorkflowStateWaitConfirmation;
   WorkflowStateExecuting].

Definition WorkflowTerminalStates : list string :=
  [WorkflowStateRevoked; WorkflowStateRejected; WorkflowStateExpired;
   WorkflowStateSuccessful; WorkflowStateFailed].

Definition WorkflowState_Valid (s : string) : bool :=
  s ∈? [WorkflowStateInitial; WorkflowStateRevoked; WorkflowStateRejected; WorkflowStateExpired;
        WorkflowStateWaitApproval; WorkflowStateWaitConfirmation; WorkflowStateExecuting;
        WorkflowStateSuccessful; WorkflowStateFailed].

Definition WorkflowArtifactType_Valid (t : string) : bool :=
  t ∈? [WorkflowArtifactTypeKey; WorkflowArtifactTypeKeyConfiguration; WorkflowArtifactTypeSystem].

Definition WorkflowActionType_Valid (t : string) : bool :=
  t ∈? [WorkflowActionTypeUpdateState; WorkflowActionTypeUpdatePrimary; WorkflowActionTypeLink;
        WorkflowActionTypeUnlink; WorkflowActionTypeSwitch; WorkflowActionTypeDelete].

Definition WorkflowParametersResourceType_Valid (t : string) : bool :=
  t ∈? [WorkflowParametersResourceTypeKey; WorkflowParametersResourceTypeKeyConfiguration].

Definition ErrModelValidation := New "model.ErrValidation" "validation failed".
Definition ErrInvalidWorkflowState :=
  Global "model.ErrInvalidWorkflowState" (Errorf_ws ErrModelValidation "invalid workflow state").
Definition ErrInvalidWorkflowArtifactType :=
  Global "model.ErrInvalidWorkflowArtifactType"
    (Errorf_ws ErrModelValidation "invalid workflow artifact type").
Definition ErrInvalidWorkflowActionType :=
  Global "model.ErrInvalidWorkflowActionType"
    (Errorf_ws ErrModelValidation "invalid workflow action type").
Definition ErrInvalidWorkflowParametersResourceType :=
  Global "model.ErrInvalidWorkflowParametersResourceType"
    (Errorf_ws ErrModelValidation "invalid workflow parameters resource type").

(** * utils/enums/enums.go *)

Definition ErrUnexpectedScanType := New "enums.ErrUnexpectedScanType" "unexpected scan type".

(** The dynamic type of a database value handed to [Scan]. *)
Inductive SqlValue :=
| SqlNil
| SqlString (s : string)
| SqlBytes (s : string)
| SqlOther (typeName : string).

(** The text of [%q] on a string that needs no escaping. *)
Definition quoted (s : string) : string :=
  String (Ascii.ascii_of_nat 34) (s +:+ String (Ascii.ascii_of_nat 34) "").

Definition Value (Valid : string → bool) (invalidErr : error) (v : string) : error + SqlValue :=
  if v ==s "" then inr SqlNil
  else if negb (Valid v) then inl (Errorf_ws invalidErr (quoted v))
  else inr (SqlString v).

(** [Scan] assigns [*out]; the previous value stays on an error. *)
Definition Scan (Valid : string → bool) (invalidErr : error) (src : SqlValue) (out : string) :
    string * option error :=
  let scanned (sv : string) :=
    if negb (Valid sv) then (out, Some (Errorf_ws invalidErr (quoted sv))) else (sv, None) in
  match src with
  | SqlNil => ("", None)
  | SqlString v => scanned v
  | SqlBytes v => scanned v
  | SqlOther t =>
      (out, Some (Errorf_ws ErrUnexpectedScanType ("expected string or []byte, got " +:+ t)))
  end.

Definition WorkflowState_Value := Value WorkflowState_Valid ErrInvalidWorkflowState.
Definition WorkflowState_Scan := Scan WorkflowState_Valid ErrInvalidWorkflowState.
Definition WorkflowArtifactType_Value :=
  Value WorkflowArtifactType_Valid ErrInvalidWorkflowArtifactType.
Definition WorkflowArtifactType_Scan :=
  Scan WorkflowArtifactType_Valid ErrInvalidWorkflowArtifactType.
Definition WorkflowActionType_Value := Value WorkflowActionType_Valid ErrInvalidWorkflowActionType.
Definition WorkflowActionType_Scan := Scan WorkflowActionType_Valid ErrInvalidWorkflowActionType.
Definition WorkflowParametersResourceType_Value :=
  Value WorkflowParametersResourceType_Valid ErrInvalidWorkflowParametersResourceType.
Definition WorkflowParametersResourceType_Scan :=
  Scan WorkflowParametersResourceType_Valid ErrInvalidWorkflowParametersResourceType.

(** * Entities

    [sql.NullBool] is an option; a nullable pointer is an option.  A record has the
    columns that the modelled operations read or write; left out are the workflow of
    an approver, the update times, and of keys, systems, key configurations and
    tenants the descriptive columns and associations (algorithm, provider, region of
    a key, versions, labels, tags, access data, schema and domain of a tenant). *)

Record WorkflowApprover := mkApprover {
  wa_WorkflowID : uuid;
  wa_UserID : string;
  wa_userName : string;
  wa_Approved : option bool }.

Record Workflow := mkWorkflow {
  wf_CreatedAt : Z;
  wf_ID : uuid;
  wf_State : string;
  wf_InitiatorID : string;
  wf_initiatorName : string;
  wf_Approvers : list WorkflowApprover;
  wf_ApproverGroupIDs : option string;
  wf_ArtifactType : string;
  wf_ArtifactID : uuid;
  wf_ArtifactName : option string;
  wf_ActionType : string;
  wf_Parameters : string;
  wf_ParametersResourceName : option string;
  wf_ParametersResourceType : option string;
  wf_FailureReason : string;
  wf_ExpiryDate : option Z;
  wf_MinimumApprovalCount : Z }.

Record WorkflowApproverGroup := mkApproverGroup {
  wag_ID : uuid;
  wag_WorkflowID : uuid;
  wag_GroupID : uuid }.

Record Group := mkGroup {
  g_ID : uuid;
  g_Name : string;
  g_Description : string;
  g_Role : string;
  g_IAMIdentifier : string }.

Definition KeyStateENABLED : string := "ENABLED".
Definition KeyStateDISABLED : string := "DISABLED".
Definition KeyStateDELETED : string := "DELETED".
Definition KeyStateDETACHED : string := "DETACHED".
Definition KeyStateDETACHING : string := "DETACHING".
Definition KeyStateERROR : string := "ERROR".
Definition KeyStateFORBIDDEN : string := "FORBIDDEN".
Definition KeyStatePENDINGCREATION : string := "PENDING_CREATION".
Definition KeyStatePENDINGDELETION : string := "PENDING_DELETION".
Definition KeyStatePENDINGIMPORT : string := "PENDING_IMPORT".
Definition KeyStateUNKNOWN : string := "UNKNOWN".
Definition KeyTypeBYOK : string := "BYOK".
Definition KeyTypeHYOK : string := "HYOK".
Definition KeyTypeSystemManaged : string := "SYSTEM_MANAGED".
Definition SystemStatusCONNECTED : string := "CONNECTED".
Definition SystemStatusDISCONNECTED : string := "DISCONNECTED".
Definition SystemStatusFAILED : string := "FAILED".
Definition SystemStatusPROCESSING : string := "PROCESSING".

Record KeyVersion := mkKeyVersion {
  kv_CreatedAt : Z;
  kv_ID : uuid;
  kv_NativeID : string;
  kv_KeyID : uuid;
  kv_RotatedAt : Z;
  kv_Status : string }.

Record ImportParams := mkImportParams {
  ip_KeyID : uuid;
  ip_WrappingAlg : string;
  ip_HashFunction : string;
  ip_PublicKeyPEM : string;
  ip_Expires : option Z;
  ip_ProviderParameters : JSON }.

(** [ImportParams.IsExpired] *)
Definition ImportParams_IsExpired (now : Z) (b : ImportParams) : bool :=
  match ip_Expires b with None => false | Some t => (t <? now)%Z end.

(** Key versions and import parameters are associations, present after a preload;
    [k_IsPrimary] and [k_EditableRegions] are not columns. *)
Record Key := mkKey {
  k_CreatedAt : Z;
  k_ID : uuid;
  k_KeyConfigurationID : uuid;
  k_Name : string;
  k_KeyType : string;
  k_Description : string;
  k_Algorithm : string;
  k_Provider : string;
  k_Region : string;
  k_State : string;
  k_KeyVersions : list KeyVersion;
  k_ImportParams : option ImportParams;
  k_NativeID : option string;
  k_ManagementAccessData : option JSON;
  k_CryptoAccessData : option JSON;
  k_UnderWorkflow : bool;
  k_ErrorDetail : option JSON;
  k_IsPrimary : bool;
  k_EditableRegions : gmap string bool }.

(** The admin group is an association; the totals are computed by a query. *)
Record KeyConfiguration := mkKeyConfiguration {
  kc_ID : uuid;
  kc_Name : string;
  kc_Description : string;
  kc_AdminGroupID : uuid;
  kc_AdminGroup : Group;
  kc_CreatorID : string;
  kc_PrimaryKeyID : option uuid;
  kc_TotalKeys : Z;
  kc_TotalSystems : Z }.

(** The properties are rows of their own table, written after a save of the system
    and deleted with it; the names of the key configurations and the error come from
    joins. *)
Record System := mkSystem {
  s_ID : uuid;
  s_Identifier : string;
  s_Region : string;
  s_Type : string;
  s_KeyConfigurationID : option uuid;
  s_TargetKeyConfigurationID : option uuid;
  s_KeyConfigurationName : option string;
  s_TargetKeyConfigurationName : option string;
  s_Properties : gmap string string;
  s_Status : string;
  s_UnderWorkflow : bool;
  s_ErrorCode : string;
  s_ErrorMessage : string }.

Record Tenant := mkTenant {
  t_SchemaName : string;
  t_DomainURL : string;
  t_ID : string;
  t_Name : string;
  t_Status : string;
  t_OwnerType : string;
  t_OwnerID : string;
  t_IssuerURL : string;
  t_Role : string }.

(** [model.Event]: what the last event sent for an item was, kept for a retry or a
    cancellation. *)
Record Event := mkEvent {
  e_Identifier : string;
  e_Type : string;
  e_Data : JSON;
  e_Status : string;
  e_ErrorCode : string;
  e_ErrorMessage : string;
  e_PreviousItemStatus : string }.

Record Tag := mkTag {
  tag_ID : uuid;
  tag_Values : JSON }.

(** Certificates; an identifier of a superseded certificate may be nil. *)
Record Certificate := mkCertificate {
  c_ID : uuid;
  c_Fingerprint : string;
  c_CommonName : string;
  c_State : string;
  c_Purpose : string;
  c_CreationDate : Z;
  c_ExpirationDate : Z;
  c_CertPEM : string;
  c_PrivateKeyPEM : string;
  c_AutoRotate : bool;
  c_SupersedesID : option uuid }.

Definition set_c_AutoRotate (b : bool) (c : Certificate) : Certificate :=
  mkCertificate (c_ID c) (c_Fingerprint c) (c_CommonName c) (c_State c) (c_Purpose c) (c_CreationDate c)
    (c_ExpirationDate c) (c_CertPEM c) (c_PrivateKeyPEM c) b (c_SupersedesID c).

(** An item of the keystore pool. *)
Record Keystore := mkKeystore {
  ks_CreatedAt : Z;
  ks_ID : uuid;
  ks_Provider : string;
  ks_Config : JSON }.

Record KeyLabel := mkKeyLabel {
  l_ID : uuid;
  l_Key : string;
  l_Value : string;
  l_ResourceID : uuid }.

Definition set_l_Value (v : string) (l : KeyLabel) : KeyLabel :=
  mkKeyLabel (l_ID l) (l_Key l) v (l_ResourceID l).

Record TenantConfig := mkTenantConfig {
  tc_Key : string;
  tc_Value : JSON }.

Record WorkflowConfig := mkWorkflowConfig {
  Enabled : bool;
  MinimumApprovals : Z;
  RetentionPeriodDays : Z;
  DefaultExpiryPeriodDays : Z;
  MaxExpiryPeriodDays : Z }.

(** [Group.BeforeSave]: the pattern [^[a-zA-Z0-9 _-]+$] and the length limits. *)
Definition ErrInvalidIAMIdentifier :=
  Global "model.ErrInvalidIAMIdentifier" (Errorf_ws ErrModelValidation "invalid group IAMIdentifier").
Definition ErrInvalidName :=
  Global "model.ErrInvalidName" (Errorf_ws ErrModelValidation "invalid group name").
Definition MaxIAMIdentifierLength : nat := 128.
Definition MaxNameLength : nat := 64.

Definition validTextChar (c : Ascii.ascii) : bool :=
  let n := Ascii.nat_of_ascii c in
  (97 <=? n) && (n <=? 122) || (65 <=? n) && (n <=? 90) || (48 <=? n) && (n <=? 57) ||
  (n =? 32) || (n =? 95) || (n =? 45).

Definition validText (s : string) : bool :=
  negb (s ==s "") && forallb validTextChar (String.list_ascii_of_string s).

Definition Group_BeforeSave (m : Group) : error + Group :=
  if negb (validText (g_IAMIdentifier m)) || (MaxIAMIdentifierLength <? String.length (g_IAMIdentifier m))
  then inl ErrInvalidIAMIdentifier
  else if negb (validText (g_Name m)) || (MaxNameLength <? String.length (g_Name m))
  then inl ErrInvalidName
  else inr m.

Definition KMS : string := "KMS".
Definition NewIAMIdentifier (name tenantID : string) : string :=
  KMS +:+ "_" +:+ name +:+ "_" +:+ tenantID.

(** Field updates of the shared objects. *)
Definition set_wf_State (st : string) (w : Workflow) : Workflow :=
  mkWorkflow (wf_CreatedAt w) (wf_ID w) st (wf_InitiatorID w) (wf_initiatorName w)
    (wf_Approvers w) (wf_ApproverGroupIDs w) (wf_ArtifactType w) (wf_ArtifactID w)
    (wf_ArtifactName w) (wf_ActionType w) (wf_Parameters w) (wf_ParametersResourceName w)
    (wf_ParametersResourceType w) (wf_FailureReason w) (wf_ExpiryDate w)
    (wf_MinimumApprovalCount w).
Definition set_wf_CreatedAt (t : Z) (w : Workflow) : Workflow :=
  mkWorkflow t (wf_ID w) (wf_State w) (wf_InitiatorID w) (wf_initiatorName w)
    (wf_Approvers w) (wf_ApproverGroupIDs w) (wf_ArtifactType w) (wf_ArtifactID w)
    (wf_ArtifactName w) (wf_ActionType w) (wf_Parameters w) (wf_ParametersResourceName w)
    (wf_ParametersResourceType w) (wf_FailureReason w) (wf_ExpiryDate w)
    (wf_MinimumApprovalCount w).
Definition set_wf_Approvers (l : list WorkflowApprover) (w : Workflow) : Workflow :=
  mkWorkflow (wf_CreatedAt w) (wf_ID w) (wf_State w) (wf_InitiatorID w) (wf_initiatorName w)
    l (wf_ApproverGroupIDs w) (wf_ArtifactType w) (wf_ArtifactID w)
    (wf_ArtifactName w) (wf_ActionType w) (wf_Parameters w) (wf_ParametersResourceName w)
    (wf_ParametersResourceType w) (wf_FailureReason w) (wf_ExpiryDate w)
    (wf_MinimumApprovalCount w).
Definition set_wf_FailureReason (r : string) (w : Workflow) : Workflow :=
  mkWorkflow (wf_CreatedAt w) (wf_ID w) (wf_State w) (wf_InitiatorID w) (wf_initiatorName w)
    (wf_Approvers w) (wf_ApproverGroupIDs w) (wf_ArtifactType w) (wf_ArtifactID w)
    (wf_ArtifactName w) (wf_ActionType w) (wf_Parameters w) (wf_ParametersResourceName w)
    (wf_ParametersResourceType w) r (wf_ExpiryDate w) (wf_MinimumApprovalCount w).
Definition set_wf_MinimumApprovalCount (n : Z) (w : Workflow) : Workflow :=
  mkWorkflow (wf_CreatedAt w) (wf_ID w) (wf_State w) (wf_InitiatorID w) (wf_initiatorName w)
    (wf_Approvers w) (wf_ApproverGroupIDs w) (wf_ArtifactType w) (wf_ArtifactID w)
    (wf_ArtifactName w) (wf_ActionType w) (wf_Parameters w) (wf_ParametersResourceName w)
    (wf_ParametersResourceType w) (wf_FailureReason w) (wf_ExpiryDate w) n.
Definition set_wf_ArtifactName (n : option string) (w : Workflow) : Workflow :=
  mkWorkflow (wf_CreatedAt w) (wf_ID w) (wf_State w) (wf_InitiatorID w) (wf_initiatorName w)
    (wf_Approvers w) (wf_ApproverGroupIDs w) (wf_ArtifactType w) (wf_ArtifactID w)
    n (wf_ActionType w) (wf_Parameters w) (wf_ParametersResourceName w)
    (wf_ParametersResourceType w) (wf_FailureReason w) (wf_ExpiryDate w)
    (wf_MinimumApprovalCount w).
Definition set_wf_ParametersResource (t n : option string) (w : Workflow) : Workflow :=
  mkWorkflow (wf_CreatedAt w) (wf_ID w) (wf_State w) (wf_InitiatorID w) (wf_initiatorName w)
    (wf_Approvers w) (wf_ApproverGroupIDs w) (wf_ArtifactType w) (wf_ArtifactID w)
    (wf_ArtifactName w) (wf_ActionType w) (wf_Parameters w) n t (wf_FailureReason w)
    (wf_ExpiryDate w) (wf_MinimumApprovalCount w).
Definition set_wf_initiatorName (n : string) (w : Workflow) : Workflow :=
  mkWorkflow (wf_CreatedAt w) (wf_ID w) (wf_State w) (wf_InitiatorID w) n
    (wf_Approvers w) (wf_ApproverGroupIDs w) (wf_ArtifactType w) (wf_ArtifactID w)
    (wf_ArtifactName w) (wf_ActionType w) (wf_Parameters w) (wf_ParametersResourceName w)
    (wf_ParametersResourceType w) (wf_FailureReason w) (wf_ExpiryDate w)
    (wf_MinimumApprovalCount w).
Definition set_wf_ExpiryDate (d : option Z) (w : Workflow) : Workflow :=
  mkWorkflow (wf_CreatedAt w) (wf_ID w) (wf_State w) (wf_InitiatorID w) (wf_initiatorName w)
    (wf_Approvers w) (wf_ApproverGroupIDs w) (wf_ArtifactType w) (wf_ArtifactID w)
    (wf_ArtifactName w) (wf_ActionType w) (wf_Parameters w) (wf_ParametersResourceName w)
    (wf_ParametersResourceType w) (wf_FailureReason w) d (wf_MinimumApprovalCount w).
Definition set_wa_Approved (v : option bool) (a : WorkflowApprover) : WorkflowApprover :=
  mkApprover (wa_WorkflowID a) (wa_UserID a) (wa_userName a) v.
Definition set_wa_WorkflowID (i : uuid) (a : WorkflowApprover) : WorkflowApprover :=
  mkApprover i (wa_UserID a) (wa_userName a) (wa_Approved a).
Definition set_kc_Name (x : string) (k : KeyConfiguration) : KeyConfiguration :=
  mkKeyConfiguration (kc_ID k) x (kc_Description k) (kc_AdminGroupID k) (kc_AdminGroup k)
    (kc_CreatorID k) (kc_PrimaryKeyID k) (kc_TotalKeys k) (kc_TotalSystems k).
Definition set_kc_Description (x : string) (k : KeyConfiguration) : KeyConfiguration :=
  mkKeyConfiguration (kc_ID k) (kc_Name k) x (kc_AdminGroupID k) (kc_AdminGroup k)
    (kc_CreatorID k) (kc_PrimaryKeyID k) (kc_TotalKeys k) (kc_TotalSystems k).
Definition set_kc_AdminGroup (x : Group) (k : KeyConfiguration) : KeyConfiguration :=
  mkKeyConfiguration (kc_ID k) (kc_Name k) (kc_Description k) (kc_AdminGroupID k) x
    (kc_CreatorID k) (kc_PrimaryKeyID k) (kc_TotalKeys k) (kc_TotalSystems k).
Definition set_kc_PrimaryKeyID (x : option uuid) (k : KeyConfiguration) : KeyConfiguration :=
  mkKeyConfiguration (kc_ID k) (kc_Name k) (kc_Description k) (kc_AdminGroupID k)
    (kc_AdminGroup k) (kc_CreatorID k) x (kc_TotalKeys k) (kc_TotalSystems k).
Definition set_k_CreatedAt (x : Z) (k : Key) : Key :=
  mkKey x (k_ID k) (k_KeyConfigurationID k) (k_Name k) (k_KeyType k) (k_Description k)
    (k_Algorithm k) (k_Provider k) (k_Region k) (k_State k) (k_KeyVersions k) (k_ImportParams k)
    (k_NativeID k) (k_ManagementAccessData k) (k_CryptoAccessData k) (k_UnderWorkflow k)
    (k_ErrorDetail k) (k_IsPrimary k) (k_EditableRegions k).
Definition set_k_Name (x : string) (k : Key) : Key :=
  mkKey (k_CreatedAt k) (k_ID k) (k_KeyConfigurationID k) x (k_KeyType k) (k_Description k)
    (k_Algorithm k) (k_Provider k) (k_Region k) (k_State k) (k_KeyVersions k) (k_ImportParams k)
    (k_NativeID k) (k_ManagementAccessData k) (k_CryptoAccessData k) (k_UnderWorkflow k)
    (k_ErrorDetail k) (k_IsPrimary k) (k_EditableRegions k).
Definition set_k_Description (x : string) (k : Key) : Key :=
  mkKey (k_CreatedAt k) (k_ID k) (k_KeyConfigurationID k) (k_Name k) (k_KeyType k) x
    (k_Algorithm k) (k_Provider k) (k_Region k) (k_State k) (k_KeyVersions k) (k_ImportParams k)
    (k_NativeID k) (k_ManagementAccessData k) (k_CryptoAccessData k) (k_UnderWorkflow k)
    (k_ErrorDetail k) (k_IsPrimary k) (k_EditableRegions k).
Definition set_k_Algorithm (x : string) (k : Key) : Key :=
  mkKey (k_CreatedAt k) (k_ID k) (k_KeyConfigurationID k) (k_Name k) (k_KeyType k)
    (k_Description k) x (k_Provider k) (k_Region k) (k_State k) (k_KeyVersions k)
    (k_ImportParams k) (k_NativeID k) (k_ManagementAccessData k) (k_CryptoAccessData k)
    (k_UnderWorkflow k) (k_ErrorDetail k) (k_IsPrimary k) (k_EditableRegions k).
Definition set_k_State (x : string) (k : Key) : Key :=
  mkKey (k_CreatedAt k) (k_ID k) (k_KeyConfigurationID k) (k_Name k) (k_KeyType k)
    (k_Description k) (k_Algorithm k) (k_Provider k) (k_Region k) x (k_KeyVersions k)
    (k_ImportParams k) (k_NativeID k) (k_ManagementAccessData k) (k_CryptoAccessData k)
    (k_UnderWorkflow k) (k_ErrorDetail k) (k_IsPrimary k) (k_EditableRegions k).
Definition set_k_ImportParams (x : option ImportParams) (k : Key) : Key :=
  mkKey (k_CreatedAt k) (k_ID k) (k_KeyConfigurationID k) (k_Name k) (k_KeyType k)
    (k_Description k) (k_Algorithm k) (k_Provider k) (k_Region k) (k_State k) (k_KeyVersions k) x
    (k_NativeID k) (k_ManagementAccessData k) (k_CryptoAccessData k) (k_UnderWorkflow k)
    (k_ErrorDetail k) (k_IsPrimary k) (k_EditableRegions k).
Definition set_k_NativeID (x : option string) (k : Key) : Key :=
  mkKey (k_CreatedAt k) (k_ID k) (k_KeyConfigurationID k) (k_Name k) (k_KeyType k)
    (k_Description k) (k_Algorithm k) (k_Provider k) (k_Region k) (k_State k) (k_KeyVersions k)
    (k_ImportParams k) x (k_ManagementAccessData k) (k_CryptoAccessData k) (k_UnderWorkflow k)
    (k_ErrorDetail k) (k_IsPrimary k) (k_EditableRegions k).
Definition set_k_CryptoAccessData (x : option JSON) (k : Key) : Key :=
  mkKey (k_CreatedAt k) (k_ID k) (k_KeyConfigurationID k) (k_Name k) (k_KeyType k)
    (k_Description k) (k_Algorithm k) (k_Provider k) (k_Region k) (k_State k) (k_KeyVersions k)
    (k_ImportParams k) (k_NativeID k) (k_ManagementAccessData k) x (k_UnderWorkflow k)
    (k_ErrorDetail k) (k_IsPrimary k) (k_EditableRegions k).
Definition set_k_UnderWorkflow (x : bool) (k : Key) : Key :=
  mkKey (k_CreatedAt k) (k_ID k) (k_KeyConfigurationID k) (k_Name k) (k_KeyType k)
    (k_Description k) (k_Algorithm k) (k_Provider k) (k_Region k) (k_State k) (k_KeyVersions k)
    (k_ImportParams k) (k_NativeID k) (k_ManagementAccessData k) (k_CryptoAccessData k) x
    (k_ErrorDetail k) (k_IsPrimary k) (k_EditableRegions k).
Definition set_k_ErrorDetail (x : option JSON) (k : Key) : Key :=
  mkKey (k_CreatedAt k) (k_ID k) (k_KeyConfigurationID k) (k_Name k) (k_KeyType k)
    (k_Description k) (k_Algorithm k) (k_Provider k) (k_Region k) (k_State k) (k_KeyVersions k)
    (k_ImportParams k) (k_NativeID k) (k_ManagementAccessData k) (k_CryptoAccessData k)
    (k_UnderWorkflow k) x (k_IsPrimary k) (k_EditableRegions k).
Definition set_k_IsPrimary (x : bool) (k : Key) : Key :=
  mkKey (k_CreatedAt k) (k_ID k) (k_KeyConfigurationID k) (k_Name k) (k_KeyType k)
    (k_Description k) (k_Algorithm k) (k_Provider k) (k_Region k) (k_State k) (k_KeyVersions k)
    (k_ImportParams k) (k_NativeID k) (k_ManagementAccessData k) (k_CryptoAccessData k)
    (k_UnderWorkflow k) (k_ErrorDetail k) x (k_EditableRegions k).
Definition set_k_EditableRegions (x : gmap string bool) (k : Key) : Key :=
  mkKey (k_CreatedAt k) (k_ID k) (k_KeyConfigurationID k) (k_Name k) (k_KeyType k)
    (k_Description k) (k_Algorithm k) (k_Provider k) (k_Region k) (k_State k) (k_KeyVersions k)
    (k_ImportParams k) (k_NativeID k) (k_ManagementAccessData k) (k_CryptoAccessData k)
    (k_UnderWorkflow k) (k_ErrorDetail k) (k_IsPrimary k) x.
Definition set_s_KeyConfigurationID (x : option uuid) (s : System) : System :=
  mkSystem (s_ID s) (s_Identifier s) (s_Region s) (s_Type s) x (s_TargetKeyConfigurationID s)
    (s_KeyConfigurationName s) (s_TargetKeyConfigurationName s) (s_Properties s) (s_Status s)
    (s_UnderWorkflow s) (s_ErrorCode s) (s_ErrorMessage s).
Definition set_s_TargetKeyConfigurationID (x : option uuid) (s : System) : System :=
  mkSystem (s_ID s) (s_Identifier s) (s_Region s) (s_Type s) (s_KeyConfigurationID s) x
    (s_KeyConfigurationName s) (s_TargetKeyConfigurationName s) (s_Properties s) (s_Status s)
    (s_UnderWorkflow s) (s_ErrorCode s) (s_ErrorMessage s).
Definition set_s_Properties (x : gmap string string) (s : System) : System :=
  mkSystem (s_ID s) (s_Identifier s) (s_Region s) (s_Type s) (s_KeyConfigurationID s)
    (s_TargetKeyConfigurationID s) (s_KeyConfigurationName s) (s_TargetKeyConfigurationName s) x
    (s_Status s) (s_UnderWorkflow s) (s_ErrorCode s) (s_ErrorMessage s).
Definition set_s_Status (x : string) (s : System) : System :=
  mkSystem (s_ID s) (s_Identifier s) (s_Region s) (s_Type s) (s_KeyConfigurationID s)
    (s_TargetKeyConfigurationID s) (s_KeyConfigurationName s) (s_TargetKeyConfigurationName s)
    (s_Properties s) x (s_UnderWorkflow s) (s_ErrorCode s) (s_ErrorMessage s).
Definition set_s_UnderWorkflow (x : bool) (s : System) : System :=
  mkSystem (s_ID s) (s_Identifier s) (s_Region s) (s_Type s) (s_KeyConfigurationID s)
    (s_TargetKeyConfigurationID s) (s_KeyConfigurationName s) (s_TargetKeyConfigurationName s)
    (s_Properties s) (s_Status s) x (s_ErrorCode s) (s_ErrorMessage s).

(** Structs with only the identifier set, as they are passed to the repository. *)
Definition Group_zero : Group := mkGroup 0 "" "" "" "".
Definition Key_ofID (id : uuid) : Key :=
  mkKey 0 id 0 "" "" "" "" "" "" "" [] None None None None false None false ∅.
Definition System_ofID (id : uuid) : System :=
  mkSystem id "" "" "" None None None None ∅ "" false "" "".
(** [&model.KeyConfiguration{ID: id}] *)
Definition KeyConfiguration_ofID (id : uuid) : KeyConfiguration :=
  mkKeyConfiguration id "" "" 0 Group_zero "" None 0 0.
Definition Event_ofID (identifier : string) : Event := mkEvent identifier "" JNull "" "" "" "".

#[export] Instance WorkflowApprover_eq_dec : EqDecision WorkflowApprover.
Proof. solve_decision. Defined.
#[export] Instance Workflow_eq_dec : EqDecision Workflow.
Proof. solve_decision. Defined.
#[export] Instance Group_eq_dec : EqDecision Group.
Proof. solve_decision. Defined.

(** [slices.Contains(model.WorkflowTerminalStates, w.State)] *)
Definition is_terminal (st : string) : bool := st ∈? WorkflowTerminalStates.

(** * utils/identity/main.go and the workflow description

    The identity-management plugin is outside the repository: [GetUser] is its
    lookup of a user's e-mail, [isNotFound] whether an error of it converts to
    the gRPC status [NotFound]. *)
Definition UnknownUserName : string := "UNKNOWN".

Section Description.
Variable GetUser : string → error + string.
Variable isNotFound : error → bool.
(** [ExtractBusinessUserDataAuthContext(ctx)], which fails without business data. *)
Variable authContextErr : option error.

Definition GetUserName (id : string) : error + string :=
  match authContextErr with
  | Some err => inl err
  | None =>
      match GetUser id with
      | inl err => if isNotFound err then inr UnknownUserName else inl err
      | inr email => inr email
      end
  end.

(** [GetInitiatorName] caches the name in the workflow object. *)
Definition GetInitiatorName : Comp Workflow string := λ w,
  if negb (wf_initiatorName w ==s "") then (w, inr (wf_initiatorName w))
  else
    match GetUserName (wf_InitiatorID w) with
    | inl err => (w, inl err)
    | inr name => (set_wf_initiatorName name w, inr name)
    end.

Definition Approver_GetUserName : Comp WorkflowApprover string := λ a,
  if negb (wa_userName a ==s "") then (a, inr (wa_userName a))
  else
    match GetUserName (wa_UserID a) with
    | inl err => (a, inl err)
    | inr name => (mkApprover (wa_WorkflowID a) (wa_UserID a) name (wa_Approved a), inr name)
    end.

Definition GetArtifactName (m : Workflow) : string :=
  match wf_ArtifactName m with Some n => n | None => "" end.
Definition getParametersResourceType (m : Workflow) : string :=
  match wf_ParametersResourceType m with Some n => n | None => "" end.
Definition getParametersResourceName (m : Workflow) : string :=
  match wf_ParametersResourceName m with Some n => n | None => "" end.

Definition requestedApproval (initiatorName : string) (m : Workflow) : string :=
  initiatorName +:+ " requested approval to " +:+ wf_ActionType m +:+ " " +:+ wf_ArtifactType m +:+
  (if negb (GetArtifactName m ==s "") then ": '" +:+ GetArtifactName m +:+ "'" else "").

Definition buildSystemDescription (m : Workflow) : error + string :=
  match (GetInitiatorName m).2 with
  | inl err => inl err
  | inr initiatorName =>
      inr (requestedApproval initiatorName m +:+
        (if negb (wf_Parameters m ==s "") then
           if negb (getParametersResourceType m ==s "") && negb (getParametersResourceName m ==s "")
           then " to " +:+ getParametersResourceType m +:+ ": '" +:+ getParametersResourceName m +:+ "'"
           else ""
         else ""))
  end.

Definition buildDefaultDescription (m : Workflow) : error + string :=
  match (GetInitiatorName m).2 with
  | inl err => inl err
  | inr initiatorName =>
      inr (requestedApproval initiatorName m +:+
        (if negb (wf_Parameters m ==s "") then " with parameters: " +:+ wf_Parameters m else ""))
  end.

Definition Description (m : Workflow) : error + string :=
  let built := if wf_ArtifactType m ==s WorkflowArtifactTypeSystem
               then buildSystemDescription m else buildDefaultDescription m in
  match built with
  | inl err => inl err
  | inr description => inr (description +:+ ".")
  end.
End Description.

(** * Enumerations survive the database *)

(** A workflow enumeration written to the database by [Value] is read back by
    [Scan] unchanged, and [Scan] only ever accepts values that [Value] can write:
    an invalid string is refused in both directions and leaves the target
    untouched. *)
Theorem enum_roundtrip (Valid : string → bool) e v out :
  match Value Valid e v with
  | inr x => Scan Valid e x out = (v, None)
  | inl err =>
      errors_Is err e = errors_Is e e ∧ Valid v = false ∧ v ≠ "" ∧
      (Scan Valid e (SqlString v) out).1 = out ∧ (Scan Valid e (SqlBytes v) out).1 = out ∧
      (Scan Valid e (SqlString v) out).2 ≠ None
  end.
Proof.
  unfold Value. destruct (String.eqb_spec v "") as [->|Hne]; [done|].
  destruct (Valid v) eqn:Hv; simpl; rewrite Hv; simpl; [done|..].
  split; [|done]. unfold errors_Is. by destruct (name_of e).
Qed.
