(* ===== verification/Store.v ===== *)
(** The repository as the managers see it: the tables of one tenant, the
    operations of the [repo.Repo] interface with the behaviour of
    internal/repo/sql/repo.go (default page size, error wrapping, nested
    transactions) and the batch helpers of internal/repo/repository.go.

    A table is the list of its rows in the order the database returns them.  Any
    operation may fail: [faults] is the schedule of failures of the coming calls,
    so a theorem over all worlds covers every place where the database can break. *)
From S2P Require Import Prelude Errs Json Model.

Definition ErrNotFound := New "repo.ErrNotFound" "resource not found".
(** gorm's own error for a lookup that finds nothing. *)
Definition ErrRecordNotFound := New "gorm.ErrRecordNotFound" "record not found".
Definition ErrUniqueConstraint := New "repo.ErrUniqueConstraint" "unique constraint violation".
Definition ErrTransaction := New "repo.ErrTransaction" "failed to execute transaction".
Definition ErrUpdateResource := New "repo.ErrUpdateResource" "failed to update resource".
Definition ErrListingItems := New "repo.ErrListingItems" "couldn't list items".
Definition ErrCountingItem := New "repo.ErrCountingItem" "couldn't count total number of items for pagination".
Definition ErrCreateResource := New "repo.ErrCreateResource" "failed to create resource".
Definition ErrSetResource := New "repo.ErrSetResource" "failed to set resource".
Definition ErrDeleteResource := New "repo.ErrDeleteResource" "failed to delete resource".
Definition ErrGetResource := New "repo.ErrGetResource" "failed to get resource".
Definition ErrTenantNotFound := New "repo.ErrTenantNotFound" "tenant not found".
Definition ErrWithTenant := New "repo.ErrWithTenant" "failed to use tenant from context".
Definition DefaultLimit : Z := 100.
Definition UnderWorkflowField : string := "under_workflow".
Definition StatusField : string := "status".
Definition TargetKeyConfigIDField : string := "target_key_configuration_id".
(** [Select("*")] *)
Definition AllFields : string := "*".

(** * Tables *)

(** The tables that all tenants share. *)
Record Public := mkPublic {
  pub_tenants : list Tenant;
  pub_keystores : list Keystore }.

Record DB := mkDB {
  db_workflows : list Workflow;
  db_approvers : list WorkflowApprover;
  db_approverGroups : list WorkflowApproverGroup;
  db_groups : list Group;
  db_keys : list Key;
  db_systems : list System;
  db_keyConfigs : list KeyConfiguration;
  db_tenantConfigs : list TenantConfig;
  db_public : Public;
  db_events : list Event;
  db_keyVersions : list KeyVersion;
  db_importParams : list ImportParams;
  db_tags : list Tag;
  db_certificates : list Certificate;
  db_labels : list KeyLabel }.

Definition DB_empty : DB :=
  mkDB [] [] [] [] [] [] [] [] (mkPublic [] []) [] [] [] [] [] [].

Definition set_workflows (x : list Workflow) (d : DB) : DB :=
  mkDB x (db_approvers d) (db_approverGroups d) (db_groups d) (db_keys d) (db_systems d)
    (db_keyConfigs d) (db_tenantConfigs d) (db_public d) (db_events d) (db_keyVersions d)
    (db_importParams d) (db_tags d) (db_certificates d) (db_labels d).
Definition set_approvers (x : list WorkflowApprover) (d : DB) : DB :=
  mkDB (db_workflows d) x (db_approverGroups d) (db_groups d) (db_keys d) (db_systems d)
    (db_keyConfigs d) (db_tenantConfigs d) (db_public d) (db_events d) (db_keyVersions d)
    (db_importParams d) (db_tags d) (db_certificates d) (db_labels d).
Definition set_approverGroups (x : list WorkflowApproverGroup) (d : DB) : DB :=
  mkDB (db_workflows d) (db_approvers d) x (db_groups d) (db_keys d) (db_systems d)
    (db_keyConfigs d) (db_tenantConfigs d) (db_public d) (db_events d) (db_keyVersions d)
    (db_importParams d) (db_tags d) (db_certificates d) (db_labels d).
Definition set_groups (x : list Group) (d : DB) : DB :=
  mkDB (db_workflows d) (db_approvers d) (db_approverGroups d) x (db_keys d) (db_systems
    d) (db_keyConfigs d) (db_tenantConfigs d) (db_public d) (db_events d) (db_keyVersions d)
    (db_importParams d) (db_tags d) (db_certificates d) (db_labels d).
Definition set_keys (x : list Key) (d : DB) : DB :=
  mkDB (db_workflows d) (db_approvers d) (db_approverGroups d) (db_groups d) x (db_systems
    d) (db_keyConfigs d) (db_tenantConfigs d) (db_public d) (db_events d) (db_keyVersions d)
    (db_importParams d) (db_tags d) (db_certificates d) (db_labels d).
Definition set_systems (x : list System) (d : DB) : DB :=
  mkDB (db_workflows d) (db_approvers d) (db_approverGroups d) (db_groups d) (db_keys d) x
    (db_keyConfigs d) (db_tenantConfigs d) (db_public d) (db_events d) (db_keyVersions d)
    (db_importParams d) (db_tags d) (db_certificates d) (db_labels d).
Definition set_keyConfigs (x : list KeyConfiguration) (d : DB) : DB :=
  mkDB (db_workflows d) (db_approvers d) (db_approverGroups d) (db_groups d) (db_keys d)
    (db_systems d) x (db_tenantConfigs d) (db_public d) (db_events d) (db_keyVersions d)
    (db_importParams d) (db_tags d) (db_certificates d) (db_labels d).
Definition set_tenantConfigs (x : list TenantConfig) (d : DB) : DB :=
  mkDB (db_workflows d) (db_approvers d) (db_approverGroups d) (db_groups d) (db_keys d)
    (db_systems d) (db_keyConfigs d) x (db_public d) (db_events d) (db_keyVersions d)
    (db_importParams d) (db_tags d) (db_certificates d) (db_labels d).
Definition set_public (x : Public) (d : DB) : DB :=
  mkDB (db_workflows d) (db_approvers d) (db_approverGroups d) (db_groups d) (db_keys d)
    (db_systems d) (db_keyConfigs d) (db_tenantConfigs d) x (db_events d) (db_keyVersions d)
    (db_importParams d) (db_tags d) (db_certificates d) (db_labels d).
Definition set_events (x : list Event) (d : DB) : DB :=
  mkDB (db_workflows d) (db_approvers d) (db_approverGroups d) (db_groups d) (db_keys d)
    (db_systems d) (db_keyConfigs d) (db_tenantConfigs d) (db_public d) x (db_keyVersions d)
    (db_importParams d) (db_tags d) (db_certificates d) (db_labels d).
Definition set_keyVersions (x : list KeyVersion) (d : DB) : DB :=
  mkDB (db_workflows d) (db_approvers d) (db_approverGroups d) (db_groups d) (db_keys d)
    (db_systems d) (db_keyConfigs d) (db_tenantConfigs d) (db_public d) (db_events d) x
    (db_importParams d) (db_tags d) (db_certificates d) (db_labels d).
Definition set_importParams (x : list ImportParams) (d : DB) : DB :=
  mkDB (db_workflows d) (db_approvers d) (db_approverGroups d) (db_groups d) (db_keys d)
    (db_systems d) (db_keyConfigs d) (db_tenantConfigs d) (db_public d) (db_events d)
    (db_keyVersions d) x (db_tags d) (db_certificates d) (db_labels d).
Definition set_tags (x : list Tag) (d : DB) : DB :=
  mkDB (db_workflows d) (db_approvers d) (db_approverGroups d) (db_groups d) (db_keys d)
    (db_systems d) (db_keyConfigs d) (db_tenantConfigs d) (db_public d) (db_events d)
    (db_keyVersions d) (db_importParams d) x (db_certificates d) (db_labels d).
Definition set_certificates (x : list Certificate) (d : DB) : DB :=
  mkDB (db_workflows d) (db_approvers d) (db_approverGroups d) (db_groups d) (db_keys d)
    (db_systems d) (db_keyConfigs d) (db_tenantConfigs d) (db_public d) (db_events d)
    (db_keyVersions d) (db_importParams d) (db_tags d) x (db_labels d).
Definition set_labels (x : list KeyLabel) (d : DB) : DB :=
  mkDB (db_workflows d) (db_approvers d) (db_approverGroups d) (db_groups d) (db_keys d)
    (db_systems d) (db_keyConfigs d) (db_tenantConfigs d) (db_public d) (db_events d)
    (db_keyVersions d) (db_importParams d) (db_tags d) (db_certificates d) x.

Definition db_tenants (d : DB) : list Tenant := pub_tenants (db_public d).
Definition db_keystores (d : DB) : list Keystore := pub_keystores (db_public d).
Definition set_tenants (x : list Tenant) (d : DB) : DB := set_public (mkPublic x (db_keystores d)) d.
Definition set_keystores (x : list Keystore) (d : DB) : DB := set_public (mkPublic (db_tenants d) x) d.

(** * The world

    Beside the tenant's tables there are the clock, whether a transaction is open,
    the schedule of failures, and what lies outside the database and therefore
    outside its transactions: the jobs handed to the orbital library, the log of calls
    made to other services, newest first, and the provider configurations that the
    process has cached by keystore, provider and tenant, with their expiry. *)
Record Job := mkJob {
  job_ID : uuid;
  job_ExternalID : string;
  job_Type : string;
  job_Data : JSON;
  job_Status : string;
  job_ErrorMessage : string }.

Inductive Effect :=
| CertificateIssued (commonName : string) (localities : list string)
| TrustGranted (type subject region : string)
| KeystoreCreated (provider : string)
| RegistryKeyClaim (externalID region tenant : string) (claim : bool)
| RegistryStatus (externalID region type status : string)
| RegistryUnmap (externalID type tenant : string)
| RegistryUserGroups (tenant : string) (groups : list string)
| OIDCApply (tenant issuer jwksURI clientID : string) (audiences : list string)
    (properties : gmap string string)
| OIDCRemove (tenant : string)
| OIDCBlock (tenant : string)
| OIDCUnblock (tenant : string)
| KeystoreCall (call provider nativeID : string)
| AuditLog (kind : string) (args : list string)
| TaskEnqueued (type payload : string).

Record World := mkWorld {
  w_db : DB;
  w_now : Z;
  w_inTx : bool;
  w_faults : list (option error);
  w_jobs : list Job;
  w_log : list Effect;
  w_providers : gmap (string * string * string) (gmap string JSON * Z) }.

Definition set_db (d : DB) (w : World) : World :=
  mkWorld d (w_now w) (w_inTx w) (w_faults w) (w_jobs w) (w_log w) (w_providers w).
Definition set_faults (f : list (option error)) (w : World) : World :=
  mkWorld (w_db w) (w_now w) (w_inTx w) f (w_jobs w) (w_log w) (w_providers w).
Definition set_inTx (b : bool) (w : World) : World :=
  mkWorld (w_db w) (w_now w) b (w_faults w) (w_jobs w) (w_log w) (w_providers w).
Definition set_jobs (l : list Job) (w : World) : World :=
  mkWorld (w_db w) (w_now w) (w_inTx w) (w_faults w) l (w_log w) (w_providers w).
Definition set_log (l : list Effect) (w : World) : World :=
  mkWorld (w_db w) (w_now w) (w_inTx w) (w_faults w) (w_jobs w) l (w_providers w).
Definition set_providers (p : gmap (string * string * string) (gmap string JSON * Z)) (w : World) : World :=
  mkWorld (w_db w) (w_now w) (w_inTx w) (w_faults w) (w_jobs w) (w_log w) p.

(** What the repository needs to know of an entity: its table, its primary key and
    its other unique columns, the gorm hooks that run before a save, a create or a
    delete, the rows that a foreign key keeps from being deleted, and the update of a row by a patch ([fields] are the columns selected
    with [Query.Update]; with none, only non-zero values are written). *)
Class Resource (T : Type) := {
  TableName : string;
  rows : DB → list T;
  set_rows : list T → DB → DB;
  same_pk : T → T → bool;
  zero_pk : T → bool;
  unique_clash : T → T → bool;
  before_save : Z → T → error + T;
  before_create : Z → T → T;
  patch : list string → T → T → T;
  before_delete : T → DB → DB;
  referenced : T → DB → bool }.

Class ResourceLaws (T : Type) `{!Resource T} := {
  rows_set_rows l d : rows (set_rows l d) = l;
  set_rows_rows d : set_rows (rows d) d = d;
  set_rows_set_rows l l' d : set_rows l (set_rows l' d) = set_rows l d;
  same_pk_refl x : same_pk x x = true;
  same_pk_sym x y : same_pk x y = same_pk y x;
  patch_pk fs x y : same_pk x y = true → same_pk x (patch fs x y) = true }.

Definition nz_string (new old : string) : string := if new ==s "" then old else new.
Definition nz_Z (new old : Z) : Z := if Z.eqb new 0 then old else new.
Definition nz_N (new old : N) : N := if N.eqb new 0 then old else new.
(** A nil document is not written. *)
Definition nz_JSON (new old : JSON) : JSON := match new with JNull => old | _ => new end.
Definition nz_opt {A} (new old : option A) : option A :=
  match new with Some _ => new | None => old end.

Definition day : Z := 86400.
Definition DefaultExpiryPeriodDaysConst : Z := 7.

(** [Workflow.BeforeSave] *)
Definition Workflow_BeforeSave (now : Z) (m : Workflow) : Workflow :=
  match wf_ExpiryDate m with
  | None => set_wf_ExpiryDate (Some (now + DefaultExpiryPeriodDaysConst * day)%Z) m
  | Some _ => m
  end.

(** [AutoTimeModel.BeforeCreate]; the zero time is 0. *)
Definition Workflow_BeforeCreate (now : Z) (m : Workflow) : Workflow :=
  if Z.eqb (wf_CreatedAt m) 0 then set_wf_CreatedAt now m else m.

Definition patch_Workflow (new old : Workflow) : Workflow :=
  mkWorkflow (nz_Z (wf_CreatedAt new) (wf_CreatedAt old)) (wf_ID old)
    (nz_string (wf_State new) (wf_State old))
    (nz_string (wf_InitiatorID new) (wf_InitiatorID old))
    (wf_initiatorName old) (wf_Approvers old)
    (nz_opt (wf_ApproverGroupIDs new) (wf_ApproverGroupIDs old))
    (nz_string (wf_ArtifactType new) (wf_ArtifactType old))
    (if N.eqb (wf_ArtifactID new) 0 then wf_ArtifactID old else wf_ArtifactID new)
    (nz_opt (wf_ArtifactName new) (wf_ArtifactName old))
    (nz_string (wf_ActionType new) (wf_ActionType old))
    (nz_string (wf_Parameters new) (wf_Parameters old))
    (nz_opt (wf_ParametersResourceName new) (wf_ParametersResourceName old))
    (nz_opt (wf_ParametersResourceType new) (wf_ParametersResourceType old))
    (nz_string (wf_FailureReason new) (wf_FailureReason old))
    (nz_opt (wf_ExpiryDate new) (wf_ExpiryDate old))
    (nz_Z (wf_MinimumApprovalCount new) (wf_MinimumApprovalCount old)).

(** [Workflow.BeforeDelete] removes the workflow's approvers. *)
Definition Workflow_BeforeDelete (m : Workflow) (d : DB) : DB :=
  set_approvers (filter (λ a, wa_WorkflowID a ≠ wf_ID m) (db_approvers d)) d.

#[export] Instance Workflow_Resource : Resource Workflow := {
  TableName := "workflows";
  rows := db_workflows;
  set_rows := set_workflows;
  same_pk x y := N.eqb (wf_ID x) (wf_ID y);
  zero_pk x := N.eqb (wf_ID x) 0;
  unique_clash _ _ := false;
  before_save now x := inr (Workflow_BeforeSave now x);
  before_create := Workflow_BeforeCreate;
  patch _ := patch_Workflow;
  before_delete := Workflow_BeforeDelete;
  referenced _ _ := false }.

#[export] Instance WorkflowApprover_Resource : Resource WorkflowApprover := {
  TableName := "workflow_approvers";
  rows := db_approvers;
  set_rows := set_approvers;
  same_pk x y := N.eqb (wa_WorkflowID x) (wa_WorkflowID y) && (wa_UserID x ==s wa_UserID y);
  zero_pk x := N.eqb (wa_WorkflowID x) 0 && (wa_UserID x ==s "");
  unique_clash _ _ := false;
  before_save _ x := inr x;
  before_create _ x := x;
  patch _ new old := mkApprover (wa_WorkflowID old) (wa_UserID old) (wa_userName old)
                       (nz_opt (wa_Approved new) (wa_Approved old));
  before_delete _ d := d;
  referenced _ _ := false }.

#[export] Instance WorkflowApproverGroup_Resource : Resource WorkflowApproverGroup := {
  TableName := "workflow_approver_groups";
  rows := db_approverGroups;
  set_rows := set_approverGroups;
  same_pk x y := N.eqb (wag_ID x) (wag_ID y);
  zero_pk x := N.eqb (wag_ID x) 0;
  unique_clash _ _ := false;
  before_save _ x := inr x;
  before_create _ x := x;
  patch _ new old := mkApproverGroup (wag_ID old)
    (if N.eqb (wag_WorkflowID new) 0 then wag_WorkflowID old else wag_WorkflowID new)
    (if N.eqb (wag_GroupID new) 0 then wag_GroupID old else wag_GroupID new);
  before_delete _ d := d;
  referenced _ _ := false }.

#[export] Instance Group_Resource : Resource Group := {
  TableName := "groups";
  rows := db_groups;
  set_rows := set_groups;
  same_pk x y := N.eqb (g_ID x) (g_ID y);
  zero_pk x := N.eqb (g_ID x) 0;
  unique_clash x y := (g_Name x ==s g_Name y) || (g_IAMIdentifier x ==s g_IAMIdentifier y);
  before_save _ x := Group_BeforeSave x;
  before_create _ x := x;
  patch _ new old := mkGroup (g_ID old) (nz_string (g_Name new) (g_Name old))
    (nz_string (g_Description new) (g_Description old)) (nz_string (g_Role new) (g_Role old))
    (nz_string (g_IAMIdentifier new) (g_IAMIdentifier old));
  before_delete _ d := d;
  referenced _ _ := false }.

(** Non-zero columns of [new]. *)
Definition patch_Key (new old : Key) : Key :=
  mkKey (nz_Z (k_CreatedAt new) (k_CreatedAt old)) (k_ID old)
    (nz_N (k_KeyConfigurationID new) (k_KeyConfigurationID old))
    (nz_string (k_Name new) (k_Name old)) (nz_string (k_KeyType new) (k_KeyType old))
    (nz_string (k_Description new) (k_Description old))
    (nz_string (k_Algorithm new) (k_Algorithm old)) (nz_string (k_Provider new) (k_Provider old))
    (nz_string (k_Region new) (k_Region old)) (nz_string (k_State new) (k_State old))
    (k_KeyVersions old) (k_ImportParams old) (nz_opt (k_NativeID new) (k_NativeID old))
    (nz_opt (k_ManagementAccessData new) (k_ManagementAccessData old))
    (nz_opt (k_CryptoAccessData new) (k_CryptoAccessData old))
    (k_UnderWorkflow new || k_UnderWorkflow old) (nz_opt (k_ErrorDetail new) (k_ErrorDetail old))
    (k_IsPrimary old) (k_EditableRegions old).
(** All columns of [new]: [Query.UpdateAll]. *)
Definition overwrite_Key (new old : Key) : Key :=
  mkKey (k_CreatedAt new) (k_ID old) (k_KeyConfigurationID new) (k_Name new) (k_KeyType new)
    (k_Description new) (k_Algorithm new) (k_Provider new) (k_Region new) (k_State new)
    (k_KeyVersions old) (k_ImportParams old) (k_NativeID new) (k_ManagementAccessData new)
    (k_CryptoAccessData new) (k_UnderWorkflow new) (k_ErrorDetail new) (k_IsPrimary old)
    (k_EditableRegions old).
(** [AutoTimeModel.BeforeCreate]; the fields that are not columns are not stored. *)
Definition Key_BeforeCreate (now : Z) (m : Key) : Key :=
  mkKey (if Z.eqb (k_CreatedAt m) 0 then now else k_CreatedAt m) (k_ID m) (k_KeyConfigurationID m)
    (k_Name m) (k_KeyType m) (k_Description m) (k_Algorithm m) (k_Provider m) (k_Region m)
    (k_State m) [] None (k_NativeID m) (k_ManagementAccessData m) (k_CryptoAccessData m)
    (k_UnderWorkflow m) (k_ErrorDetail m) false ∅.

(** Import parameters and versions are deleted with their key (ON DELETE CASCADE). *)
Definition Key_cascade (m : Key) (d : DB) : DB :=
  set_importParams (filter (λ p, ip_KeyID p ≠ k_ID m) (db_importParams d))
    (set_keyVersions (filter (λ v, kv_KeyID v ≠ k_ID m) (db_keyVersions d)) d).

#[export] Instance Key_Resource : Resource Key := {
  TableName := "keys";
  rows := db_keys;
  set_rows := set_keys;
  same_pk x y := N.eqb (k_ID x) (k_ID y);
  zero_pk x := N.eqb (k_ID x) 0;
  unique_clash x y := N.eqb (k_KeyConfigurationID x) (k_KeyConfigurationID y) && (k_Name x ==s k_Name y);
  before_save _ x := inr x;
  before_create := Key_BeforeCreate;
  patch fields new old :=
    match fields with
    | [] => patch_Key new old
    | _ => if AllFields ∈? fields then overwrite_Key new old
           else if UnderWorkflowField ∈? fields then set_k_UnderWorkflow (k_UnderWorkflow new) old else old
    end;
  before_delete := Key_cascade;
  referenced x d := existsb (λ l, N.eqb (l_ResourceID l) (k_ID x)) (db_labels d) }.

(** Non-zero columns of [new]. *)
Definition patch_System (new old : System) : System :=
  mkSystem (s_ID old) (nz_string (s_Identifier new) (s_Identifier old))
    (nz_string (s_Region new) (s_Region old)) (nz_string (s_Type new) (s_Type old))
    (nz_opt (s_KeyConfigurationID new) (s_KeyConfigurationID old))
    (nz_opt (s_TargetKeyConfigurationID new) (s_TargetKeyConfigurationID old))
    (s_KeyConfigurationName old) (s_TargetKeyConfigurationName old)
    (s_Properties new ∪ s_Properties old) (nz_string (s_Status new) (s_Status old))
    (s_UnderWorkflow new || s_UnderWorkflow old) (s_ErrorCode old) (s_ErrorMessage old).
(** All columns of [new]: [Query.UpdateAll]. *)
Definition overwrite_System (new old : System) : System :=
  mkSystem (s_ID old) (s_Identifier new) (s_Region new) (s_Type new) (s_KeyConfigurationID new)
    (s_TargetKeyConfigurationID new) (s_KeyConfigurationName old)
    (s_TargetKeyConfigurationName old) (s_Properties new ∪ s_Properties old) (s_Status new)
    (s_UnderWorkflow new) (s_ErrorCode old) (s_ErrorMessage old).
(** The default of the status column; the fields that are not columns are not stored. *)
Definition System_BeforeCreate (m : System) : System :=
  mkSystem (s_ID m) (s_Identifier m) (s_Region m) (s_Type m) (s_KeyConfigurationID m)
    (s_TargetKeyConfigurationID m) None None (s_Properties m)
    (if s_Status m ==s "" then SystemStatusDISCONNECTED else s_Status m) (s_UnderWorkflow m) "" "".
(** The columns that [Query.Update] selects anywhere for a system. *)
Definition select_System (fields : list string) (new old : System) : System :=
  let x := if UnderWorkflowField ∈? fields then set_s_UnderWorkflow (s_UnderWorkflow new) old else old in
  let x := if StatusField ∈? fields then set_s_Status (s_Status new) x else x in
  if TargetKeyConfigIDField ∈? fields
  then set_s_TargetKeyConfigurationID (s_TargetKeyConfigurationID new) x else x.

#[export] Instance System_Resource : Resource System := {
  TableName := "systems";
  rows := db_systems;
  set_rows := set_systems;
  same_pk x y := N.eqb (s_ID x) (s_ID y);
  zero_pk x := N.eqb (s_ID x) 0;
  unique_clash x y := (s_Region x ==s s_Region y) && (s_Identifier x ==s s_Identifier y);
  before_save _ x := inr x;
  before_create _ := System_BeforeCreate;
  patch fields new old :=
    match fields with
    | [] => patch_System new old
    | _ => if AllFields ∈? fields then overwrite_System new old else select_System fields new old
    end;
  before_delete _ d := d;
  referenced _ _ := false }.

Definition patch_KeyConfiguration (new old : KeyConfiguration) : KeyConfiguration :=
  mkKeyConfiguration (kc_ID old) (nz_string (kc_Name new) (kc_Name old))
    (nz_string (kc_Description new) (kc_Description old))
    (nz_N (kc_AdminGroupID new) (kc_AdminGroupID old)) (kc_AdminGroup old)
    (nz_string (kc_CreatorID new) (kc_CreatorID old))
    (nz_opt (kc_PrimaryKeyID new) (kc_PrimaryKeyID old)) (kc_TotalKeys old) (kc_TotalSystems old).

(** The admin group and the totals are not columns of the table. *)
Definition KeyConfiguration_BeforeCreate (m : KeyConfiguration) : KeyConfiguration :=
  mkKeyConfiguration (kc_ID m) (kc_Name m) (kc_Description m) (kc_AdminGroupID m) Group_zero
    (kc_CreatorID m) (kc_PrimaryKeyID m) 0 0.

#[export] Instance KeyConfiguration_Resource : Resource KeyConfiguration := {
  TableName := "key_configurations";
  rows := db_keyConfigs;
  set_rows := set_keyConfigs;
  same_pk x y := N.eqb (kc_ID x) (kc_ID y);
  zero_pk x := N.eqb (kc_ID x) 0;
  unique_clash x y := kc_Name x ==s kc_Name y;
  before_save _ x := inr x;
  before_create _ := KeyConfiguration_BeforeCreate;
  patch _ := patch_KeyConfiguration;
  before_delete _ d := d;
  referenced _ _ := false }.

#[export] Instance TenantConfig_Resource : Resource TenantConfig := {
  TableName := "tenant_configs";
  rows := db_tenantConfigs;
  set_rows := set_tenantConfigs;
  same_pk x y := tc_Key x ==s tc_Key y;
  zero_pk x := tc_Key x ==s "";
  unique_clash _ _ := false;
  before_save _ x := inr x;
  before_create _ x := x;
  patch _ new old := mkTenantConfig (tc_Key old) (tc_Value new);
  before_delete _ d := d;
  referenced _ _ := false }.

(** The schema name can only be written on creation. *)
Definition patch_Tenant (new old : Tenant) : Tenant :=
  mkTenant (t_SchemaName old)
    (nz_string (t_DomainURL new) (t_DomainURL old)) (t_ID old)
    (nz_string (t_Name new) (t_Name old)) (nz_string (t_Status new) (t_Status old))
    (nz_string (t_OwnerType new) (t_OwnerType old)) (nz_string (t_OwnerID new) (t_OwnerID old))
    (nz_string (t_IssuerURL new) (t_IssuerURL old)) (nz_string (t_Role new) (t_Role old)).
Definition patch_Event (new old : Event) : Event :=
  mkEvent (e_Identifier old) (nz_string (e_Type new) (e_Type old)) (nz_JSON (e_Data new) (e_Data old))
    (nz_string (e_Status new) (e_Status old)) (nz_string (e_ErrorCode new) (e_ErrorCode old))
    (nz_string (e_ErrorMessage new) (e_ErrorMessage old))
    (nz_string (e_PreviousItemStatus new) (e_PreviousItemStatus old)).
Definition patch_KeyVersion (new old : KeyVersion) : KeyVersion :=
  mkKeyVersion (nz_Z (kv_CreatedAt new) (kv_CreatedAt old)) (kv_ID old)
    (nz_string (kv_NativeID new) (kv_NativeID old)) (nz_N (kv_KeyID new) (kv_KeyID old))
    (nz_Z (kv_RotatedAt new) (kv_RotatedAt old)) (nz_string (kv_Status new) (kv_Status old)).
(** The default of the status column. *)
Definition KeyVersion_BeforeCreate (now : Z) (m : KeyVersion) : KeyVersion :=
  mkKeyVersion (if Z.eqb (kv_CreatedAt m) 0 then now else kv_CreatedAt m) (kv_ID m) (kv_NativeID m)
    (kv_KeyID m) (kv_RotatedAt m) (if kv_Status m ==s "" then "UNKNOWN" else kv_Status m).
Definition patch_ImportParams (new old : ImportParams) : ImportParams :=
  mkImportParams (ip_KeyID old) (nz_string (ip_WrappingAlg new) (ip_WrappingAlg old))
    (nz_string (ip_HashFunction new) (ip_HashFunction old))
    (nz_string (ip_PublicKeyPEM new) (ip_PublicKeyPEM old)) (nz_opt (ip_Expires new) (ip_Expires old))
    (nz_JSON (ip_ProviderParameters new) (ip_ProviderParameters old)).
Definition patch_Tag (new old : Tag) : Tag :=
  mkTag (tag_ID old) (nz_JSON (tag_Values new) (tag_Values old)).

#[export] Instance Tenant_Resource : Resource Tenant := {
  TableName := "public.tenants";
  rows := db_tenants;
  set_rows := set_tenants;
  same_pk x y := t_ID x ==s t_ID y;
  zero_pk x := t_ID x ==s "";
  unique_clash x y := (t_DomainURL x ==s t_DomainURL y) || (t_SchemaName x ==s t_SchemaName y);
  before_save _ x := inr x;
  before_create _ x := x;
  patch _ := patch_Tenant;
  before_delete _ d := d;
  referenced _ _ := false }.

#[export] Instance Event_Resource : Resource Event := {
  TableName := "events";
  rows := db_events;
  set_rows := set_events;
  same_pk x y := e_Identifier x ==s e_Identifier y;
  zero_pk x := e_Identifier x ==s "";
  unique_clash _ _ := false;
  before_save _ x := inr x;
  before_create _ x := x;
  patch _ := patch_Event;
  before_delete _ d := d;
  referenced _ _ := false }.

#[export] Instance KeyVersion_Resource : Resource KeyVersion := {
  TableName := "key_versions";
  rows := db_keyVersions;
  set_rows := set_keyVersions;
  same_pk x y := N.eqb (kv_ID x) (kv_ID y);
  zero_pk x := N.eqb (kv_ID x) 0;
  unique_clash x y := N.eqb (kv_KeyID x) (kv_KeyID y) && (kv_NativeID x ==s kv_NativeID y);
  before_save _ x := inr x;
  before_create := KeyVersion_BeforeCreate;
  patch _ := patch_KeyVersion;
  before_delete _ d := d;
  referenced _ _ := false }.

#[export] Instance ImportParams_Resource : Resource ImportParams := {
  TableName := "import_params";
  rows := db_importParams;
  set_rows := set_importParams;
  same_pk x y := N.eqb (ip_KeyID x) (ip_KeyID y);
  zero_pk x := N.eqb (ip_KeyID x) 0;
  unique_clash _ _ := false;
  before_save _ x := inr x;
  before_create _ x := x;
  patch _ := patch_ImportParams;
  before_delete _ d := d;
  referenced _ _ := false }.

#[export] Instance Tag_Resource : Resource Tag := {
  TableName := "tags";
  rows := db_tags;
  set_rows := set_tags;
  same_pk x y := N.eqb (tag_ID x) (tag_ID y);
  zero_pk x := N.eqb (tag_ID x) 0;
  unique_clash _ _ := false;
  before_save _ x := inr x;
  before_create _ x := x;
  patch _ := patch_Tag;
  before_delete _ d := d;
  referenced _ _ := false }.

(** All columns.  On creation the default of [auto_rotate] replaces a zero value. *)
Definition overwrite_Certificate (new old : Certificate) : Certificate :=
  mkCertificate (c_ID old) (c_Fingerprint new) (c_CommonName new) (c_State new) (c_Purpose new)
    (c_CreationDate new) (c_ExpirationDate new) (c_CertPEM new) (c_PrivateKeyPEM new)
    (c_AutoRotate new) (c_SupersedesID new).
Definition patch_Certificate (new old : Certificate) : Certificate :=
  mkCertificate (c_ID old) (nz_string (c_Fingerprint new) (c_Fingerprint old))
    (nz_string (c_CommonName new) (c_CommonName old)) (nz_string (c_State new) (c_State old))
    (nz_string (c_Purpose new) (c_Purpose old)) (nz_Z (c_CreationDate new) (c_CreationDate old))
    (nz_Z (c_ExpirationDate new) (c_ExpirationDate old)) (nz_string (c_CertPEM new) (c_CertPEM old))
    (nz_string (c_PrivateKeyPEM new) (c_PrivateKeyPEM old)) (c_AutoRotate new || c_AutoRotate old)
    (nz_opt (c_SupersedesID new) (c_SupersedesID old)).

#[export] Instance Certificate_Resource : Resource Certificate := {
  TableName := "certificates";
  rows := db_certificates;
  set_rows := set_certificates;
  same_pk x y := N.eqb (c_ID x) (c_ID y);
  zero_pk x := N.eqb (c_ID x) 0;
  unique_clash _ _ := false;
  before_save _ x := inr x;
  before_create _ := set_c_AutoRotate true;
  patch fields := if AllFields ∈? fields then overwrite_Certificate else patch_Certificate;
  before_delete _ d := d;
  referenced _ _ := false }.

#[export] Instance Keystore_Resource : Resource Keystore := {
  TableName := "public.keystore_pool";
  rows := db_keystores;
  set_rows := set_keystores;
  same_pk x y := N.eqb (ks_ID x) (ks_ID y);
  zero_pk x := N.eqb (ks_ID x) 0;
  unique_clash x y := json_eqb (ks_Config x) (ks_Config y);
  before_save _ x := inr x;
  before_create now x :=
    mkKeystore (if Z.eqb (ks_CreatedAt x) 0 then now else ks_CreatedAt x) (ks_ID x) (ks_Provider x)
      (ks_Config x);
  patch _ new old := mkKeystore (nz_Z (ks_CreatedAt new) (ks_CreatedAt old)) (ks_ID old)
    (nz_string (ks_Provider new) (ks_Provider old)) (nz_JSON (ks_Config new) (ks_Config old));
  before_delete _ d := d;
  referenced _ _ := false }.

#[export] Instance KeyLabel_Resource : Resource KeyLabel := {
  TableName := "key_labels";
  rows := db_labels;
  set_rows := set_labels;
  same_pk x y := N.eqb (l_ID x) (l_ID y);
  zero_pk x := N.eqb (l_ID x) 0;
  unique_clash _ _ := false;
  before_save _ x := inr x;
  before_create _ x := x;
  patch fields new old :=
    if AllFields ∈? fields then mkKeyLabel (l_ID old) (l_Key new) (l_Value new) (l_ResourceID new)
    else mkKeyLabel (l_ID old) (nz_string (l_Key new) (l_Key old)) (nz_string (l_Value new) (l_Value old))
           (nz_N (l_ResourceID new) (l_ResourceID old));
  before_delete _ d := d;
  referenced _ _ := false }.

(** * Operations of [repo.Repo] *)

(** One call to the database: it fails when the schedule says so; outside a
    transaction [WithTenant] wraps the error. *)
Definition repo_err (w : World) (e : error) : error :=
  if w_inTx w then e else Wrap ErrTransaction (Some e).

Definition db_call {A} (f : Z → DB → DB * (error + A)) : Comp World A := λ w,
  let w' := set_faults (tail (w_faults w)) w in
  match head (w_faults w) with
  | Some (Some e) => (w', inl (repo_err w e))
  | _ =>
      match f (w_now w) (w_db w) with
      | (d, inl e) => (set_db d w', inl (repo_err w e))
      | (d, inr a) => (set_db d w', inr a)
      end
  end.

(** The part of [repo.Query] that selects rows; [q_limit] and [q_offset] are zero
    when not set. *)
Record Query (T : Type) := mkQuery {
  q_where : T → bool;
  q_limit : Z;
  q_offset : Z }.
Arguments mkQuery {T} _ _ _.
Arguments q_where {T} _ _.
Arguments q_limit {T} _.
Arguments q_offset {T} _.

Definition where_ {T} (p : T → bool) : Query T := mkQuery p 0 0.
Definition SetLimit {T} (n : Z) (q : Query T) : Query T := mkQuery (q_where q) n (q_offset q).
Definition SetOffset {T} (n : Z) (q : Query T) : Query T := mkQuery (q_where q) (q_limit q) n.

(** The condition [First] adds for the primary key of the resource it is given: none
    when the key is zero. *)
Definition byID (id pk : uuid) : bool := N.eqb id 0 || N.eqb pk id.

(** A condition on a string column.  [QueryFieldValue] is an alias of [string], so five
    values are never compared with: they ask whether the column is null or empty.  The
    last one compares it with a boolean, which the database refuses. *)
Definition Null : string := "null".
Definition NotNull : string := "not_null".
Definition NotEmpty : string := "not_empty".
Definition Empty : string := "empty".
Definition FalseNull : string := "false_null".
Definition reserved (value : string) : bool := value ∈? [Null; NotNull; NotEmpty; Empty; FalseNull].

(** [applyFieldEqualCondition] on a column that may be null *)
Definition eqNullable (value : string) (column : option string) : bool :=
  if value ==s Null then match column with None => true | Some _ => false end
  else if value ==s NotNull then match column with None => false | Some _ => true end
  else if value ==s NotEmpty then match column with None => false | Some c => negb (c ==s "") end
  else if value ==s Empty then match column with None => true | Some c => c ==s "" end
  else match column with None => false | Some c => c ==s value end.
Definition eqField (value column : string) : bool := eqNullable value (Some column).

Lemma eqField_plain value column : reserved value = false → eqField value column = (column ==s value).
Proof.
  unfold reserved. intros H%mem_not_elem. unfold eqField, eqNullable.
  by repeat (case_match; [exfalso; apply H; match goal with E : String.eqb _ _ = true |- _ =>
    apply String.eqb_eq in E as -> end; set_solver|]).
Qed.

Lemma eqField_eq value column : eqField value column = true → reserved value = false → column = value.
Proof. intros H Hv. rewrite eqField_plain in H by done. by apply String.eqb_eq. Qed.

(** Boolean selection, in row order. *)
Definition select {T} (p : T → bool) (l : list T) : list T := List.filter p l.

(** [applyPagination] *)
Definition applyPagination {T} (q : Query T) (l : list T) : list T :=
  let limit := if (q_limit q <=? 0)%Z then DefaultLimit else q_limit q in
  take (Z.to_nat limit) (drop (Z.to_nat (q_offset q)) l).

Section Operations.
Context {T : Type} `{!Resource T}.

Definition List_ (q : Query T) : Comp World (list T) :=
  db_call (λ _ d, (d, inr (applyPagination q (select (q_where q) (rows d))))).

Definition Count (q : Query T) : Comp World Z :=
  db_call (λ _ d, (d, inr (Z.of_nat (length (select (q_where q) (rows d)))))).

(** [First] fills the resource with the first matching row. *)
Definition First (p : T → bool) : Comp World T :=
  db_call (λ _ d,
    match select p (rows d) with
    | x :: _ => (d, inr x)
    | [] => (d, inl (Wrap ErrNotFound (Some ErrRecordNotFound)))
    end).

(** A row other than the one with [x]'s primary key has its unique columns. *)
Definition clashes (x : T) (l : list T) : bool :=
  existsb (λ y, negb (same_pk x y) && unique_clash x y) l.

Definition uniqueViolation : error :=
  Wrap ErrUniqueConstraint (Some (External "duplicated key not allowed")).

(** gorm refuses to update or delete without a condition. *)
Definition foreignKeyViolation : error := External "violates foreign key constraint".
Definition missingWhere : error := External "WHERE conditions required".

Definition Create (x : T) : Comp World T :=
  db_call (λ now d,
    match before_save now x with
    | inl e => (d, inl (Wrap ErrCreateResource (Some e)))
    | inr x =>
        let x := before_create now x in
        if existsb (same_pk x) (rows d) || clashes x (rows d)
        then (d, inl uniqueViolation)
        else (set_rows (rows d ++ [x]) d, inr x)
    end).

(** The table after the row with [x]'s primary key has been patched. *)
Definition patched (x : T) (fields : list string) (l : list T) : list T :=
  (λ y, if same_pk x y then patch fields x y else y) <$> l.

(** [Patch] updates the row with the resource's primary key; patching a row that
    is not there is not an error. *)
Definition Patch (x : T) (fields : list string) : Comp World bool :=
  map_err (wrapping ErrUpdateResource)
    (db_call (λ now d,
      match before_save now x with
      | inl e => (d, inl e)
      | inr x =>
          if zero_pk x then (d, inl missingWhere) else
          let l := patched x fields (rows d) in
          if existsb (λ y, same_pk x y && clashes y l) l
          then (d, inl uniqueViolation)
          else (set_rows l d, inr (existsb (same_pk x) (rows d)))
      end)).

(** [Set]: insert, or replace the row with the same primary key. *)
Definition Set_ (x : T) : Comp World unit :=
  db_call (λ now d,
    match before_save now x with
    | inl e => (d, inl (Wrap ErrSetResource (Some e)))
    | inr x =>
        if clashes x (rows d)
        then (d, inl (Wrap ErrSetResource (Some (External "duplicated key not allowed"))))
        else if existsb (same_pk x) (rows d)
        then (set_rows ((λ y, if same_pk x y then x else y) <$> rows d) d, inr tt)
        else (set_rows (rows d ++ [before_create now x]) d, inr tt)
    end).

Definition Delete (x : T) : Comp World bool :=
  db_call (λ _ d,
    if zero_pk x then (d, inl (Wrap ErrDeleteResource (Some missingWhere))) else
    if referenced x d then (d, inl (Wrap ErrDeleteResource (Some foreignKeyViolation))) else
    let d := before_delete x d in
    (set_rows (select (λ y, negb (same_pk x y)) (rows d)) d,
     inr (existsb (same_pk x) (rows d)))).

(** [Delete] of the zero value of an entity without hooks: the rows of the query. *)
Definition DeleteWhere (p : T → bool) : Comp World bool :=
  db_call (λ _ d, (set_rows (select (λ y, negb (p y)) (rows d)) d, inr (existsb p (rows d)))).
End Operations.

(** A statement that compares text columns with [values]. *)
Definition booleanComparison : error := External "cannot compare text with boolean".
Definition comparing {A} (base : error) (values : list string) (m : Comp World A) : Comp World A :=
  if FalseNull ∈? values then db_call (λ _ d, (d, inl (wrapping base booleanComparison))) else m.
#[export] Hint Extern 1 (preserves _ (comparing _ _ _)) => unfold comparing; case_match : cmk.

Lemma comparing_ok {A} base values (m : Comp World A) w w' a :
  comparing base values m w = (w', inr a) → m w = (w', inr a).
Proof.
  unfold comparing. case_match; [|done]. unfold db_call. by destruct (head (w_faults w)) as [[e|]|].
Qed.
Lemma comparing_plain {A} base values (m : Comp World A) :
  forallb (λ v, negb (reserved v)) values = true → comparing base values m = m.
Proof.
  intros H. unfold comparing. case_match eqn:Hm; [|done]. apply mem_elem in Hm.
  rewrite forallb_forall in H. by specialize (H FalseNull (proj1 (list_elem_of_In _ _) Hm)).
Qed.

(** [ResourceRepository.Transaction]: inside another transaction the function just
    runs; otherwise its database changes are undone when it fails.  The function
    may also work on objects outside the database ([view] and [put] give the
    database part of its state); those keep their assignments. *)
Definition TransactionOn {S A} (view : S → World) (put : World → S → S) (txFunc : Comp S A) :
    Comp S A := λ s,
  if w_inTx (view s) then txFunc s
  else
    match txFunc (put (set_inTx true (view s)) s) with
    | (s', inl e) =>
        (put (set_db (w_db (view s)) (set_inTx false (view s'))) s', inl (wrapping ErrTransaction e))
    | (s', inr a) => (put (set_inTx false (view s')) s', inr a)
    end.

Definition Transaction {A} (txFunc : Comp World A) : Comp World A :=
  TransactionOn id (λ w _, w) txFunc.

(** * Laws of the tables *)

Ltac solve_resource :=
  split; simpl; intros; rewrite ?N.eqb_refl, ?String.eqb_refl;
  first [done | match goal with d : DB |- _ => by destruct d end |
    match goal with d : DB |- _ => by destruct d as [???????? []] end | by rewrite String.eqb_sym | by rewrite N.eqb_sym | by rewrite N.eqb_sym, String.eqb_sym | idtac].

#[export] Instance Workflow_laws : ResourceLaws Workflow.
Proof. solve_resource. Qed.
#[export] Instance WorkflowApprover_laws : ResourceLaws WorkflowApprover.
Proof. solve_resource. Qed.
#[export] Instance WorkflowApproverGroup_laws : ResourceLaws WorkflowApproverGroup.
Proof. solve_resource. Qed.
#[export] Instance Group_laws : ResourceLaws Group.
Proof. solve_resource. Qed.
#[export] Instance Key_laws : ResourceLaws Key.
Proof.
  solve_resource. destruct fs as [|f fs]; [done|]. by destruct (mem AllFields (f :: fs)), (mem UnderWorkflowField (f :: fs)).
Qed.
#[export] Instance System_laws : ResourceLaws System.
Proof.
  solve_resource. destruct fs as [|f fs]; [done|]. destruct (mem AllFields (f :: fs)); [done|]. unfold select_System.
  by destruct (mem UnderWorkflowField (f :: fs)), (mem StatusField (f :: fs)), (mem TargetKeyConfigIDField (f :: fs)).
Qed.
#[export] Instance KeyConfiguration_laws : ResourceLaws KeyConfiguration.
Proof. solve_resource. Qed.
#[export] Instance TenantConfig_laws : ResourceLaws TenantConfig.
Proof. solve_resource. Qed.
#[export] Instance Tenant_laws : ResourceLaws Tenant.
Proof. solve_resource. Qed.
#[export] Instance Event_laws : ResourceLaws Event.
Proof. solve_resource. Qed.
#[export] Instance KeyVersion_laws : ResourceLaws KeyVersion.
Proof. solve_resource. Qed.
#[export] Instance ImportParams_laws : ResourceLaws ImportParams.
Proof. solve_resource. Qed.
#[export] Instance Tag_laws : ResourceLaws Tag.
Proof. solve_resource. Qed.
#[export] Instance Certificate_laws : ResourceLaws Certificate.
Proof. solve_resource. by destruct (mem AllFields fs). Qed.
#[export] Instance Keystore_laws : ResourceLaws Keystore.
Proof. solve_resource. Qed.
#[export] Instance KeyLabel_laws : ResourceLaws KeyLabel.
Proof. solve_resource. by destruct (mem AllFields fs). Qed.

(** * Laws of the operations *)

(** The transaction flag and the clock are never changed by a completed call. *)
Definition same_env (w w' : World) : Prop := w_inTx w' = w_inTx w ∧ w_now w' = w_now w.
#[export] Instance same_env_preorder : PreOrder same_env.
Proof. split; [done|]. intros ??? [] []. split; congruence. Qed.

(** A step that leaves the whole database as it is. *)
Definition same_db (w w' : World) : Prop := w_db w' = w_db w.
#[export] Instance same_db_preorder : PreOrder same_db.
Proof. split; [done|]. intros ???. unfold same_db. congruence. Qed.

(** A step after which the failure schedule is a suffix: a world without failures
    stays one. *)
Definition fewer_faults (w w' : World) : Prop := w_faults w' `suffix_of` w_faults w.
#[export] Instance fewer_faults_preorder : PreOrder fewer_faults.
Proof. split; [intros w; by exists []|]. intros x y z. unfold fewer_faults. intros; by etrans. Qed.

Lemma db_call_env {A} (f : Z → DB → DB * (error + A)) : preserves same_env (db_call f).
Proof.
  intros w. unfold db_call. destruct (head (w_faults w)) as [[e|]|]; [done|..];
    by destruct (f (w_now w) (w_db w)) as [? [?|?]].
Qed.

Lemma db_call_faults {A} (f : Z → DB → DB * (error + A)) : preserves fewer_faults (db_call f).
Proof.
  intros w. unfold db_call, fewer_faults.
  assert (tail (w_faults w) `suffix_of` w_faults w) as Hs
    by (destruct (w_faults w); simpl; [done|apply suffix_cons_r; done]).
  destruct (head (w_faults w)) as [[e|]|]; [done|..];
    by destruct (f (w_now w) (w_db w)) as [? [?|?]].
Qed.

Lemma db_call_read {A} (f : Z → DB → error + A) :
  preserves same_db (db_call (λ now d, (d, f now d))).
Proof.
  intros w. unfold db_call. destruct (head (w_faults w)) as [[e|]|]; [done|..];
    by destruct (f (w_now w) (w_db w)).
Qed.

Lemma Transaction_env {A} (m : Comp World A) :
  preserves same_env m → preserves same_env (Transaction m).
Proof.
  intros Hm w. unfold Transaction, TransactionOn, id. destruct (w_inTx w) eqn:Hx; [apply Hm|].
  specialize (Hm (set_inTx true w)).
  destruct (m (set_inTx true w)) as [w' [e|a]]; destruct Hm as [_ Hn]; split; simpl in *; congruence.
Qed.

Lemma Transaction_faults {A} (m : Comp World A) :
  preserves fewer_faults m → preserves fewer_faults (Transaction m).
Proof.
  intros Hm w. unfold Transaction, TransactionOn, id. destruct (w_inTx w) eqn:Hx; [apply Hm|].
  specialize (Hm (set_inTx true w)). by destruct (m (set_inTx true w)) as [w' [e|a]].
Qed.

(** A failed top-level transaction leaves the database as it found it. *)
Lemma Transaction_rollback {A} (m : Comp World A) w w' e :
  w_inTx w = false → Transaction m w = (w', inl e) → w_db w' = w_db w.
Proof.
  unfold Transaction, TransactionOn, id. intros ->. by destruct (m (set_inTx true w)) as [w1 [e1|a]]; intros [= <- <-].
Qed.

Lemma Transaction_commit {A} (m : Comp World A) w w' a :
  w_inTx w = false → Transaction m w = (w', inr a) →
  ∃ w1, m (set_inTx true w) = (w1, inr a) ∧ w' = set_inTx false w1.
Proof.
  unfold Transaction, TransactionOn, id. intros ->.
  destruct (m (set_inTx true w)) as [w1 [e1|a1]]; intros [= <- <-]. eauto.
Qed.

Section OperationFacts.
Context {T : Type} `{!Resource T}.

Lemma List_same_db (q : Query T) : preserves same_db (List_ q).
Proof. apply (db_call_read (λ _ d, inr (applyPagination q (select (q_where q) (rows d))))). Qed.
Lemma Count_same_db (q : Query T) : preserves same_db (Count q).
Proof. apply (db_call_read (λ _ d, inr (Z.of_nat (length (select (q_where q) (rows d)))))). Qed.
Lemma First_same_db (p : T → bool) : preserves same_db (First p).
Proof.
  intros w. unfold First, db_call. destruct (head (w_faults w)) as [[e|]|]; [done|..];
    by destruct (select p (rows (w_db w))).
Qed.
End OperationFacts.
Lemma comparing_same_db {A} base values (m : Comp World A) :
  preserves same_db m → preserves same_db (comparing base values m).
Proof.
  intros Hm. unfold comparing. case_match; [|done].
  apply (db_call_read (λ _ _, inl (wrapping base booleanComparison))).
Qed.
#[export] Hint Resolve List_same_db Count_same_db First_same_db : cmk.

(** What a successful write does. *)
Section Writes.
Context {T : Type} `{!Resource T}.

Lemma db_call_ok {A} (f : Z → DB → DB * (error + A)) w w' a :
  db_call f w = (w', inr a) → f (w_now w) (w_db w) = (w_db w', inr a).
Proof.
  unfold db_call. destruct (head (w_faults w)) as [[e|]|]; [done|..];
    destruct (f (w_now w) (w_db w)) as [d [e|b]]; intros [= <- <-]; done.
Qed.

Lemma List_ok (q : Query T) w w' l :
  List_ q w = (w', inr l) → l = applyPagination q (select (q_where q) (rows (w_db w))).
Proof. intros H%db_call_ok. by injection H as _ <-. Qed.

Lemma Create_ok (x : T) w w' y :
  Create x w = (w', inr y) →
  ∃ x', before_save (w_now w) x = inr x' ∧ y = before_create (w_now w) x' ∧
    existsb (same_pk y) (rows (w_db w)) = false ∧
    w_db w' = set_rows (rows (w_db w) ++ [y]) (w_db w).
Proof.
  intros H%db_call_ok. destruct (before_save (w_now w) x) as [e|x']; [done|].
  cbv zeta in H. destruct (existsb _ _) eqn:He; [discriminate H|].
  destruct (clashes _ _); [discriminate H|]. injection H as H1 <-. eauto 10.
Qed.

Lemma Patch_ok (x : T) fs w w' b :
  Patch x fs w = (w', inr b) →
  ∃ x', before_save (w_now w) x = inr x' ∧
    w_db w' = set_rows (patched x' fs (rows (w_db w))) (w_db w) ∧
    b = existsb (same_pk x') (rows (w_db w)).
Proof.
  intros H%map_err_ok%db_call_ok. destruct (before_save (w_now w) x) as [e|x']; [done|].
  destruct (zero_pk x'); [done|].
  cbv zeta in H. destruct (existsb _ (patched _ _ _)); [discriminate H|].
  injection H as H <-. eauto.
Qed.

Lemma db_call_err_db {A} (f : Z → DB → DB * (error + A)) w w' e :
  (∀ now d d' e, f now d = (d', inl e) → d' = d) →
  db_call f w = (w', inl e) → w_db w' = w_db w.
Proof.
  intros Hf. unfold db_call.
  destruct (head (w_faults w)) as [[e0|]|]; [by intros [= <- <-]|..];
    destruct (f (w_now w) (w_db w)) as [d [e1|b]] eqn:Hd; intros [= <- <-];
    simpl; by eapply Hf.
Qed.

(** A failed write leaves the database as it was. *)
Lemma Patch_err (x : T) fs w w' e : Patch x fs w = (w', inl e) → w_db w' = w_db w.
Proof.
  intros (e' & H & _)%map_err_err. revert H. apply db_call_err_db. intros now d d' e1.
  destruct (before_save now x); [by intros [= <- <-]|].
  destruct (zero_pk _); [by intros [= <- <-]|]. cbv zeta.
  destruct (existsb _ (patched _ _ _)); by intros [= <- <-].
Qed.
End Writes.

Lemma First_ok {T} `{!Resource T} (p : T → bool) w w' x :
  First p w = (w', inr x) → x ∈ rows (w_db w) ∧ p x = true.
Proof.
  intros H%db_call_ok. destruct (select p (rows (w_db w))) as [|y l] eqn:Hs; [done|].
  injection H as _ <-. rewrite list_elem_of_In. apply filter_In. unfold select in Hs. rewrite Hs. by left.
Qed.

Lemma First_db {T} `{!Resource T} (p : T → bool) w w' r : First p w = (w', r) → w_db w' = w_db w.
Proof. intros H. pose proof (First_same_db p w) as Hs. by rewrite H in Hs. Qed.

Lemma First_ext {T} `{!Resource T} (p q : T → bool) w : (∀ x, p x = q x) → First p w = First q w.
Proof. intros H. unfold First, db_call, select. by rewrite (List.filter_ext _ _ H). Qed.
Lemma First_head {T} `{!Resource T} (p : T → bool) w w' x :
  First p w = (w', inr x) → head (select p (rows (w_db w))) = Some x.
Proof.
  intros H%db_call_ok. destruct (select p (rows (w_db w))) as [|y l]; [done|]. by injection H as _ <-.
Qed.

Lemma Count_ok {T} `{!Resource T} (q : Query T) w w' n :
  Count q w = (w', inr n) → n = Z.of_nat (length (select (q_where q) (rows (w_db w)))).
Proof. intros H%db_call_ok. by injection H as _ <-. Qed.

Lemma Set_ok {T} `{!Resource T} (x : T) w w' :
  Set_ x w = (w', inr tt) →
  ∃ x', before_save (w_now w) x = inr x' ∧
    (existsb (same_pk x') (rows (w_db w)) = true ∧
       w_db w' = set_rows ((λ y, if same_pk x' y then x' else y) <$> rows (w_db w)) (w_db w) ∨
     existsb (same_pk x') (rows (w_db w)) = false ∧
       w_db w' = set_rows (rows (w_db w) ++ [before_create (w_now w) x']) (w_db w)).
Proof.
  intros H%db_call_ok. destruct (before_save (w_now w) x) as [e|x']; [done|].
  destruct (clashes x' _); [done|]. exists x'. split; [done|].
  destruct (existsb (same_pk x') (rows (w_db w))); injection H as H; auto.
Qed.

Lemma Set_err {T} `{!Resource T} (x : T) w w' e : Set_ x w = (w', inl e) → w_db w' = w_db w.
Proof.
  apply db_call_err_db. intros now d d' e1.
  destruct (before_save now x); [by intros [= <- <-]|].
  destruct (clashes _ _); [by intros [= <- <-]|]. by destruct (existsb _ _).
Qed.

(** A read evaluates in a world without failures. *)
Lemma db_call_read_eval {A} (f : DB → A) w :
  w_faults w = [] → db_call (λ _ d, (d, inr (f d))) w = (w, inr (f (w_db w))).
Proof. intros Hw. unfold db_call. rewrite Hw. destruct w; simpl in *. by subst. Qed.

Lemma Delete_ok {T} `{!Resource T} (x : T) w w' b :
  Delete x w = (w', inr b) →
  zero_pk x = false ∧
  w_db w' = set_rows (select (λ y, negb (same_pk x y)) (rows (before_delete x (w_db w))))
              (before_delete x (w_db w)).
Proof.
  intros H%db_call_ok. destruct (zero_pk x); [done|]. destruct (referenced x (w_db w)); [done|].
  by injection H as H _.
Qed.

Lemma Create_err {T} `{!Resource T} (x : T) w w' e : Create x w = (w', inl e) → w_db w' = w_db w.
Proof.
  apply db_call_err_db. intros now d d' e1.
  destruct (before_save now x); [by intros [= <- <-]|]. cbv zeta.
  destruct (existsb _ _); [by intros [= <- <-]|]. destruct (clashes _ _); by intros [= <- <-].
Qed.

Lemma Delete_err {T} `{!Resource T} (x : T) w w' e : Delete x w = (w', inl e) → w_db w' = w_db w.
Proof.
  apply db_call_err_db. intros now d d' e1. destruct (zero_pk x); [by intros [= <- <-]|].
  destruct (referenced x d); by intros [= <- <-].
Qed.

Lemma DeleteWhere_ok {T} `{!Resource T} (p : T → bool) w w' b :
  DeleteWhere p w = (w', inr b) → w_db w' = set_rows (select (λ y, negb (p y)) (rows (w_db w))) (w_db w).
Proof. intros H%db_call_ok. by injection H as H _. Qed.

Lemma DeleteWhere_err {T} `{!Resource T} (p : T → bool) w w' e :
  DeleteWhere p w = (w', inl e) → w_db w' = w_db w.
Proof. apply db_call_err_db. by intros. Qed.

(** A step that leaves the part [f] of the database as it is. *)
Definition fixes {X} (f : DB → X) (w w' : World) : Prop := f (w_db w') = f (w_db w).
#[export] Instance fixes_preorder {X} (f : DB → X) : PreOrder (fixes f).
Proof. split; [done|]. intros ???. unfold fixes. congruence. Qed.

Section Fixes.
Context {X : Type} (f : DB → X).

Lemma same_db_fixes {A} (m : Comp World A) : preserves same_db m → preserves (fixes f) m.
Proof. intros Hm w. unfold fixes. by rewrite (Hm w). Qed.

Lemma run_fixes {A} (m : Comp World A) w w' r :
  preserves (fixes f) m → m w = (w', r) → f (w_db w') = f (w_db w).
Proof. intros Hm H. specialize (Hm w). by rewrite H in Hm. Qed.

Context {T : Type} `{!Resource T}.
Hypothesis Hf : ∀ (l : list T) d, f (set_rows l d) = f d.

Lemma Patch_fixes (x : T) fs : preserves (fixes f) (Patch x fs).
Proof using Hf.
  intros w. unfold fixes. destruct (Patch x fs w) as [w' [e|b]] eqn:Hp; simpl.
  - by rewrite (Patch_err _ _ _ _ _ Hp).
  - destruct (Patch_ok _ _ _ _ _ Hp) as (x' & _ & -> & _). apply Hf.
Qed.
Lemma Set_fixes (x : T) : preserves (fixes f) (Set_ x).
Proof using Hf.
  intros w. unfold fixes. destruct (Set_ x w) as [w' [e|[]]] eqn:Hp; simpl.
  - by rewrite (Set_err _ _ _ _ Hp).
  - destruct (Set_ok _ _ _ Hp) as (x' & _ & [(_ & ->)|(_ & ->)]); apply Hf.
Qed.
Lemma Create_fixes (x : T) : preserves (fixes f) (Create x).
Proof using Hf.
  intros w. unfold fixes. destruct (Create x w) as [w' [e|b]] eqn:Hp; simpl.
  - by rewrite (Create_err _ _ _ _ Hp).
  - destruct (Create_ok _ _ _ _ Hp) as (x' & _ & _ & _ & ->). apply Hf.
Qed.
Lemma DeleteWhere_fixes (p : T → bool) : preserves (fixes f) (DeleteWhere p).
Proof using Hf.
  intros w. unfold fixes. destruct (DeleteWhere p w) as [w' [e|b]] eqn:Hp; simpl.
  - by rewrite (DeleteWhere_err _ _ _ _ Hp).
  - rewrite (DeleteWhere_ok _ _ _ _ Hp). apply Hf.
Qed.
End Fixes.

Lemma Transaction_fixes {X A} (f : DB → X) (m : Comp World A) :
  preserves (fixes f) m → preserves (fixes f) (Transaction m).
Proof.
  intros Hm w. unfold Transaction, TransactionOn, id. destruct (w_inTx w); [apply Hm|].
  specialize (Hm (set_inTx true w)). by destruct (m (set_inTx true w)) as [w' [e|a]].
Qed.

(** The failures of the schedule do not pretend that a row is missing. *)
Definition honest_faults (w : World) : Prop :=
  ∀ e, Some e ∈ w_faults w → errors_Is e ErrNotFound = false.

Lemma honest_faults_mono w w' : fewer_faults w w' → honest_faults w → honest_faults w'.
Proof. intros [l Hl] Hw e He. apply Hw. rewrite Hl. set_solver. Qed.

Lemma repo_err_Is w e : errors_Is (repo_err w e) ErrNotFound = errors_Is e ErrNotFound.
Proof. unfold repo_err. by destruct (w_inTx w). Qed.

Lemma First_missing {T} `{!Resource T} (p : T → bool) w w' e :
  honest_faults w → First p w = (w', inl e) → errors_Is e ErrNotFound = true →
  ∀ x, x ∈ rows (w_db w) → p x = false.
Proof.
  intros Hf. unfold First, db_call.
  assert (∀ x, x ∈ rows (w_db w) → select p (rows (w_db w)) = [] → p x = false) as Hsel.
  { intros x Hx%list_elem_of_In Hs. destruct (p x) eqn:Hp; [|done].
    assert (In x (select p (rows (w_db w)))) as Hin by (by apply filter_In). by rewrite Hs in Hin. }
  destruct (w_faults w) as [|[e0|] fs] eqn:Hw; simpl;
    [destruct (select p (rows (w_db w))) eqn:Hs; [|done]| |destruct (select p (rows (w_db w))) eqn:Hs; [|done]];
    intros [= <- <-]; eauto.
  rewrite repo_err_Is. rewrite Hf; [done|]. rewrite Hw. by left.
Qed.

Section Environment.
Context (R : World → World → Prop) `{!PreOrder R}.
Context (Hcall : ∀ A (f : Z → DB → DB * (error + A)), preserves R (db_call f)).
Context {T : Type} `{!Resource T}.
Lemma List_env (q : Query T) : preserves R (List_ q).
Proof using Hcall. apply Hcall. Qed.
Lemma Count_env (q : Query T) : preserves R (Count q).
Proof using Hcall. apply Hcall. Qed.
Lemma First_env (p : T → bool) : preserves R (First p).
Proof using Hcall. apply Hcall. Qed.
Lemma Create_env (x : T) : preserves R (Create x).
Proof using Hcall. apply Hcall. Qed.
Lemma Patch_env (x : T) fs : preserves R (Patch x fs).
Proof using Hcall. apply preserves_map_err, Hcall. Qed.
Lemma Set_env (x : T) : preserves R (Set_ x).
Proof using Hcall. apply Hcall. Qed.
Lemma Delete_env (x : T) : preserves R (Delete x).
Proof using Hcall. apply Hcall. Qed.
End Environment.

Lemma run_honest {A} (m : Comp World A) w w' r :
  preserves fewer_faults m → m w = (w', r) → honest_faults w → honest_faults w'.
Proof. intros Hm H. apply honest_faults_mono. specialize (Hm w). by rewrite H in Hm. Qed.
Lemma First_faults {T} `{!Resource T} (p : T → bool) : preserves fewer_faults (First p).
Proof. apply db_call_faults. Qed.
Lemma Count_faults {T} `{!Resource T} (q : Query T) : preserves fewer_faults (Count q).
Proof. apply db_call_faults. Qed.
Lemma Delete_unreferenced {T} `{!Resource T} (x : T) w w' b :
  Delete x w = (w', inr b) → referenced x (w_db w) = false.
Proof. intros H%db_call_ok. destruct (zero_pk x); [done|]. by destruct (referenced x (w_db w)). Qed.

(** A row that fits is inserted when the database works. *)
Lemma Create_eval {T} `{!Resource T} (x x' : T) w :
  w_faults w = [] → before_save (w_now w) x = inr x' →
  existsb (same_pk (before_create (w_now w) x')) (rows (w_db w)) ||
    clashes (before_create (w_now w) x') (rows (w_db w)) = false →
  Create x w = (set_db (set_rows (rows (w_db w) ++ [before_create (w_now w) x']) (w_db w)) w,
                inr (before_create (w_now w) x')).
Proof.
  intros Hw Hb Hc. unfold Create, db_call. rewrite Hw. cbn [head tail]. rewrite Hb. cbv zeta. rewrite Hc.
  destruct w; cbn in *. by subst.
Qed.
