(* ===== verification/Queries.v ===== *)
(** The query language of the repository: internal/repo/query.go, with the conditions that
    internal/repo/sql/repo.go hands to the database for it and what they mean.

    The object-relational mapper is outside the repository; of it the model uses that
    [Where] joins a condition with AND and [Or] with OR, in the order of the calls, that a
    condition made of other conditions stands in parentheses, and that a condition without
    any is left out.  Conditions are evaluated as in SQL: AND binds tighter than OR, and a
    comparison with a null column is unknown.  A comparison of different types, which the
    database refuses, counts as unknown. *)
From S2P Require Import Prelude Errs Json Model Store.
#[local] Open Scope Z_scope.

Definition ErrMultipleOperationsProvided :=
  New "repo.ErrMultipleOperationsProvided" "multiple operations provided".
Definition ErrUnsupportedOrderDirective :=
  New "sql.ErrUnsupportedOrderDirective" "unsupported order directive".

(** * Keys *)

(** The values that a condition compares with.  A string of a named type is not the same
    value as the plain string of its letters. *)
Inductive QValue :=
| QString (s : string)
| QNamed (s : string)
| QUUID (u : uuid)
| QInt (n : Z)
| QBool (b : bool)
| QTime (t : Z)
| QSlice (l : list QValue).

Inductive ComparisonOp := Equal | NotEqual | GreaterThan | LessThan.

(** [repo.Key] *)
Record QKey := mkQKey {
  qk_Value : QValue;
  qk_Operation : ComparisonOp }.

Record CompositeKeyEntry := mkKeyEntry {
  en_Key : QKey;
  en_Err : option error }.

Record Condition := mkCondition {
  cd_Field : string;
  cd_Value : CompositeKeyEntry }.

Record CompositeKey := mkCompositeKey {
  ck_IsStrict : bool;
  ck_Conds : list Condition }.

Definition NewCompositeKey : CompositeKey := mkCompositeKey true [].

Definition set_ck_IsStrict (b : bool) (c : CompositeKey) : CompositeKey := mkCompositeKey b (ck_Conds c).

Definition CompositeKey_Where (q : string) (v : QValue) (options : list (QValue → QKey)) (c : CompositeKey) :
    CompositeKey :=
  let entry :=
    match options with
    | [] => mkKeyEntry (mkQKey v Equal) None
    | [option] => mkKeyEntry (option v) None
    | _ => mkKeyEntry (mkQKey (QString "") Equal) (Some ErrMultipleOperationsProvided)
    end in
  mkCompositeKey (ck_IsStrict c) (ck_Conds c ++ [mkCondition q entry]).

Definition NotEq (v : QValue) : QKey := mkQKey v NotEqual.
Definition Gt (v : QValue) : QKey := mkQKey v GreaterThan.
Definition Lt (v : QValue) : QKey := mkQKey v LessThan.

Definition JSONBField (column key : string) : string := column +:+ "->>'" +:+ key +:+ "'".

Record CompositeKeyGroup := mkKeyGroup {
  cg_CompositeKey : CompositeKey;
  cg_IsStrict : bool }.

Definition NewCompositeKeyGroup (key : CompositeKey) : CompositeKeyGroup := mkKeyGroup key true.

(** * Joins and selected fields *)

Definition quote : string := String (Ascii.ascii_of_nat 34) "".
Definition dquoted (s : string) : string := quote +:+ s +:+ quote.

(** Tables are given by their names. *)
Record JoinCondition := mkJoinCondition {
  jc_Table : string;
  jc_Field : string;
  jc_JoinTable : string;
  jc_JoinField : string;
  jc_Alias : string }.

Record JoinClause := mkJoinClause {
  jn_OnCondition : JoinCondition;
  jn_Type : string }.

Definition InnerJoin : string := "INNER".
Definition LeftJoin : string := "LEFT".
Definition RightJoin : string := "RIGHT".
Definition FullJoin : string := "FULL".

Definition JoinStatement (r : JoinClause) : string :=
  let on := jn_OnCondition r in
  let '(joinTableRef, joinTableName) :=
    if jc_Alias on ==s "" then (dquoted (jc_JoinTable on), jc_JoinTable on)
    else (dquoted (jc_JoinTable on) +:+ " AS " +:+ dquoted (jc_Alias on), jc_Alias on) in
  jn_Type r +:+ " JOIN " +:+ joinTableRef +:+ " ON " +:+ dquoted (jc_Table on) +:+ "." +:+ jc_Field on +:+
    " = " +:+ dquoted joinTableName +:+ "." +:+ jc_JoinField on.

Definition AllFunc : string := "*".
Definition MinFunc : string := "MIN".
Definition MaxFunc : string := "MAX".
Definition CountFunc : string := "COUNT".
Definition SumFunc : string := "SUM".
Definition AvgFunc : string := "AVG".

Record QueryFunction := mkQueryFunction {
  qf_Function : string;
  qf_Distinct : bool }.

Record SelectField := mkSelectField {
  sl_Field : string;
  sl_Func : QueryFunction;
  sl_Alias : string }.

Definition NewSelectField (field : string) (f : QueryFunction) : SelectField := mkSelectField field f "".
Definition SetAlias (alias : string) (f : SelectField) : SelectField :=
  mkSelectField (sl_Field f) (sl_Func f) alias.

Definition SelectStatement (f : SelectField) : string :=
  let function := qf_Function (sl_Func f) in
  let field :=
    if function ==s AllFunc then sl_Field f +:+ ".*"
    else if function ∈? [MaxFunc; MinFunc; AvgFunc; CountFunc; SumFunc] then
      if qf_Distinct (sl_Func f) then function +:+ "(DISTINCT " +:+ sl_Field f +:+ ")"
      else function +:+ "(" +:+ sl_Field f +:+ ")"
    else sl_Field f in
  if sl_Alias f ==s "" then field else field +:+ " as " +:+ sl_Alias f.

(** * Queries *)

Record OrderField := mkOrderField {
  or_Field : string;
  or_Direction : string }.
Definition Desc : string := "desc".
Definition Asc : string := "asc".

(** [repo.Query].  Its methods change the query they are called on and return it. *)
Record RepoQuery := mkRepoQuery {
  rq_Limit : Z;
  rq_Offset : Z;
  rq_CompositeKeyGroup : list CompositeKeyGroup;
  rq_PreloadModel : list string;
  rq_UpdateFields : list string;
  rq_UpdateAll : bool;
  rq_ConflictColumns : list string;
  rq_SelectFields : list SelectField;
  rq_Joins : list JoinClause;
  rq_joinsSet : list string;
  rq_Group : list string;
  rq_OrderFields : list OrderField }.

Definition NewQuery : RepoQuery := mkRepoQuery 0 0 [] [] [] false [] [] [] [] [] [].

Definition query_Where (conds : list CompositeKeyGroup) (q : RepoQuery) : RepoQuery :=
  mkRepoQuery (rq_Limit q) (rq_Offset q) (rq_CompositeKeyGroup q ++ conds) (rq_PreloadModel q)
    (rq_UpdateFields q) (rq_UpdateAll q) (rq_ConflictColumns q) (rq_SelectFields q) (rq_Joins q)
    (rq_joinsSet q) (rq_Group q) (rq_OrderFields q).

Definition query_Preload (model : list string) (q : RepoQuery) : RepoQuery :=
  mkRepoQuery (rq_Limit q) (rq_Offset q) (rq_CompositeKeyGroup q) (rq_PreloadModel q ++ model)
    (rq_UpdateFields q) (rq_UpdateAll q) (rq_ConflictColumns q) (rq_SelectFields q) (rq_Joins q)
    (rq_joinsSet q) (rq_Group q) (rq_OrderFields q).

Definition query_GroupBy (field : list string) (q : RepoQuery) : RepoQuery :=
  mkRepoQuery (rq_Limit q) (rq_Offset q) (rq_CompositeKeyGroup q) (rq_PreloadModel q)
    (rq_UpdateFields q) (rq_UpdateAll q) (rq_ConflictColumns q) (rq_SelectFields q) (rq_Joins q)
    (rq_joinsSet q) (rq_Group q ++ field) (rq_OrderFields q).

Definition query_UpdateAll (b : bool) (q : RepoQuery) : RepoQuery :=
  mkRepoQuery (rq_Limit q) (rq_Offset q) (rq_CompositeKeyGroup q) (rq_PreloadModel q)
    (rq_UpdateFields q) b (rq_ConflictColumns q) (rq_SelectFields q) (rq_Joins q)
    (rq_joinsSet q) (rq_Group q) (rq_OrderFields q).

Definition query_Update (fields : list string) (q : RepoQuery) : RepoQuery :=
  mkRepoQuery (rq_Limit q) (rq_Offset q) (rq_CompositeKeyGroup q) (rq_PreloadModel q)
    (rq_UpdateFields q ++ fields) (rq_UpdateAll q) (rq_ConflictColumns q) (rq_SelectFields q) (rq_Joins q)
    (rq_joinsSet q) (rq_Group q) (rq_OrderFields q).

Definition query_OnConflict (columns : list string) (q : RepoQuery) : RepoQuery :=
  mkRepoQuery (rq_Limit q) (rq_Offset q) (rq_CompositeKeyGroup q) (rq_PreloadModel q)
    (rq_UpdateFields q) (rq_UpdateAll q) columns (rq_SelectFields q) (rq_Joins q)
    (rq_joinsSet q) (rq_Group q) (rq_OrderFields q).

Definition query_Select (fields : list SelectField) (q : RepoQuery) : RepoQuery :=
  mkRepoQuery (rq_Limit q) (rq_Offset q) (rq_CompositeKeyGroup q) (rq_PreloadModel q)
    (rq_UpdateFields q) (rq_UpdateAll q) (rq_ConflictColumns q) (rq_SelectFields q ++ fields) (rq_Joins q)
    (rq_joinsSet q) (rq_Group q) (rq_OrderFields q).

Definition query_SetLimit (limit : Z) (q : RepoQuery) : RepoQuery :=
  mkRepoQuery limit (rq_Offset q) (rq_CompositeKeyGroup q) (rq_PreloadModel q)
    (rq_UpdateFields q) (rq_UpdateAll q) (rq_ConflictColumns q) (rq_SelectFields q) (rq_Joins q)
    (rq_joinsSet q) (rq_Group q) (rq_OrderFields q).

Definition query_SetOffset (offset : Z) (q : RepoQuery) : RepoQuery :=
  mkRepoQuery (rq_Limit q) offset (rq_CompositeKeyGroup q) (rq_PreloadModel q)
    (rq_UpdateFields q) (rq_UpdateAll q) (rq_ConflictColumns q) (rq_SelectFields q) (rq_Joins q)
    (rq_joinsSet q) (rq_Group q) (rq_OrderFields q).

(** A join whose statement is there already is not added again. *)
Definition query_Join (joinType : string) (onCondition : JoinCondition) (q : RepoQuery) : RepoQuery :=
  let joinClause := mkJoinClause onCondition joinType in
  let joinKey := JoinStatement joinClause in
  if joinKey ∈? rq_joinsSet q then q
  else mkRepoQuery (rq_Limit q) (rq_Offset q) (rq_CompositeKeyGroup q) (rq_PreloadModel q)
    (rq_UpdateFields q) (rq_UpdateAll q) (rq_ConflictColumns q) (rq_SelectFields q) (rq_Joins q ++ [joinClause])
    (joinKey :: rq_joinsSet q) (rq_Group q) (rq_OrderFields q).

Definition query_Order (orderFields : list OrderField) (q : RepoQuery) : RepoQuery :=
  mkRepoQuery (rq_Limit q) (rq_Offset q) (rq_CompositeKeyGroup q) (rq_PreloadModel q)
    (rq_UpdateFields q) (rq_UpdateAll q) (rq_ConflictColumns q) (rq_SelectFields q) (rq_Joins q)
    (rq_joinsSet q) (rq_Group q) (rq_OrderFields q ++ orderFields).

Record LoadingFields := mkLoadingFields {
  lf_Table : string;
  lf_JoinField : string;
  lf_SelectField : SelectField }.

Definition loadingSelect (f : LoadingFields) : SelectField :=
  let field := lf_SelectField f in
  let selectField := NewSelectField (lf_Table f +:+ "." +:+ sl_Field field) (sl_Func field) in
  if sl_Alias field ==s "" then selectField else SetAlias (sl_Alias field) selectField.

(** Tables are compared by their names, where the code compares values of model types. *)
Definition NewQueryWithFieldLoading (table : string) (fields : list LoadingFields) : RepoQuery :=
  let query := query_Select
    (NewSelectField table (mkQueryFunction AllFunc false) :: (loadingSelect <$> fields)) NewQuery in
  let query := foldl (λ query f,
    if lf_Table f ==s table then query
    else query_Join LeftJoin (mkJoinCondition table "id" (lf_Table f) (lf_JoinField f) "") query) query fields in
  if (0 <? length (rq_Joins query))%nat then query_GroupBy [table +:+ "." +:+ "id"] query else query.

(** * The conditions of a statement: internal/repo/sql/repo.go *)

Inductive Atom :=
| IsNull (field : string)
| IsNotNull (field : string)
| Compare (field : string) (op : ComparisonOp) (v : QValue)
| IsIn (field : string) (l : list QValue)
| NullOr (field : string) (v : QValue).          (* field IS NULL OR field = v *)

(** Conditions, each with whether it was added with [Or]. *)
Inductive Expr :=
| At (a : Atom)
| Nested (l : list (bool * Expr)).
Definition Conds : Type := list (bool * Expr).

(** [tx.Where] and [tx.Or] *)
Definition tx_Where (e : Atom) (tx : Conds) : Conds := tx ++ [(false, At e)].
Definition tx_Or (e : Atom) (tx : Conds) : Conds := tx ++ [(true, At e)].

Definition applyCondition (e : Atom) (isStrict : bool) (tx : Conds) : Conds :=
  if isStrict then tx_Where e tx else tx_Or e tx.

Definition applyFieldEqualCondition (field : string) (v : QValue) (isStrict : bool) (tx : Conds) : Conds :=
  let default :=
    match v with
    | QSlice l => applyCondition (IsIn field l) isStrict tx
    | _ => applyCondition (Compare field Equal v) isStrict tx
    end in
  match v with
  | QString s =>
      if s ==s Null then (if isStrict then tx_Where (IsNull field) tx else tx_Or (IsNull field) tx)
      else if s ==s NotNull then tx_Where (IsNotNull field) tx
      else if s ==s NotEmpty then tx_Where (Compare field NotEqual (QString "")) (tx_Where (IsNotNull field) tx)
      else if s ==s Empty then tx_Where (NullOr field (QString "")) tx
      else if s ==s FalseNull then tx_Where (NullOr field (QBool false)) tx
      else default
  | _ => default
  end.

Definition applyFieldCondition (field : string) (key : QKey) (isStrict : bool) (tx : Conds) : Conds :=
  match qk_Operation key with
  | Equal => applyFieldEqualCondition field (qk_Value key) isStrict tx
  | op => applyCondition (Compare field op (qk_Value key)) isStrict tx
  end.

(** The two parts around the first dot. *)
Fixpoint cutDot (s : string) : option (string * string) :=
  match s with
  | EmptyString => None
  | String c rest =>
      if Ascii.eqb c (Ascii.ascii_of_nat 46) then Some ("", rest)
      else match cutDot rest with Some (a, b) => Some (String c a, b) | None => None end
  end.

(** A field without a table is one of the table the query is about; the name of a shared table
    starts with its schema. *)
Definition qualified (tableName : string) (isSharedModel : bool) (field : string) : error + string :=
  match cutDot field with
  | Some _ => inr field
  | None =>
      if negb isSharedModel then inr (dquoted tableName +:+ "." +:+ field)
      else
        match cutDot tableName with
        | Some (schema, name) => inr (schema +:+ "." +:+ dquoted name +:+ "." +:+ field)
        | None => inl indexOutOfRange
        end
  end.

Section Apply.
Variable tableName : string.
Variable isSharedModel : bool.

Definition handleCondition (isStrict : bool) (tx : Conds) (cond : Condition) : error + Conds :=
  match qualified tableName isSharedModel (cd_Field cond) with
  | inl e => inl e
  | inr field =>
      match en_Err (cd_Value cond) with
      | Some err => inl err
      | None => inr (applyFieldCondition field (en_Key (cd_Value cond)) isStrict tx)
      end
  end.

Fixpoint handleConditions (isStrict : bool) (conds : list Condition) (tx : Conds) : error + Conds :=
  match conds with
  | [] => inr tx
  | cond :: rest =>
      match handleCondition isStrict tx cond with
      | inl e => inl e
      | inr tx => handleConditions isStrict rest tx
      end
  end.

Definition handleCompositeKey (compositeKey : CompositeKey) : error + Conds :=
  handleConditions (ck_IsStrict compositeKey) (ck_Conds compositeKey) [].

(** [baseQuery.Where(tk)] or [baseQuery.Or(tk)] *)
Definition addGroup (orElse : bool) (tk baseQuery : Conds) : Conds :=
  match tk with [] => baseQuery | _ => baseQuery ++ [(orElse, Nested tk)] end.

Fixpoint applyGroups (first : bool) (groups : list CompositeKeyGroup) (baseQuery : Conds) : error + Conds :=
  match groups with
  | [] => inr baseQuery
  | ck :: rest =>
      match handleCompositeKey (cg_CompositeKey ck) with
      | inl e => inl e
      | inr tk => applyGroups false rest (addGroup (negb first && negb (cg_IsStrict ck)) tk baseQuery)
      end
  end.

(** The conditions of [applyQuery]. *)
Definition applyQuery (query : RepoQuery) : error + Conds :=
  match applyGroups true (rq_CompositeKeyGroup query) [] with
  | inl e => inl e
  | inr baseQuery => inr (addGroup false baseQuery [])
  end.
End Apply.

(** The other parts of a statement: selected fields, joins and grouping. *)
Definition selectClause (query : RepoQuery) : string :=
  String.concat "," (SelectStatement <$> rq_SelectFields query).
Definition groupClause (query : RepoQuery) : string := String.concat "," (rq_Group query).
Definition joinClauses (query : RepoQuery) : list string := JoinStatement <$> rq_Joins query.

(** The columns that an update writes. *)
Inductive UpdatedColumns := AllColumns | OnlyColumns (l : list string) | NonZeroColumns.
Definition applyUpdateQuery (query : RepoQuery) : UpdatedColumns :=
  if rq_UpdateAll query then AllColumns
  else if (0 <? length (rq_UpdateFields query))%nat then OnlyColumns (rq_UpdateFields query)
  else NonZeroColumns.

Fixpoint applyOrder (orders : list OrderField) : error + list string :=
  match orders with
  | [] => inr []
  | order :: rest =>
      if or_Direction order ∈? [Desc; Asc] then
        match applyOrder rest with
        | inl e => inl e
        | inr l => inr ((or_Field order +:+ " " +:+ or_Direction order) :: l)
        end
      else inl ErrUnsupportedOrderDirective
  end.

(** * What conditions mean *)

(** Columns of a row, [None] for null, and the columns by their qualified names. *)
Inductive SqlColumn := CText (s : string) | CUUID (u : uuid) | CInt (n : Z) | CBool (b : bool) | CTime (t : Z).
Definition Row : Type := string → option SqlColumn.

(** Truth in SQL: [None] is unknown. *)
Definition truth : Type := option bool.
Definition and3 (a b : truth) : truth :=
  match a, b with
  | Some false, _ | _, Some false => Some false
  | Some true, Some true => Some true
  | _, _ => None
  end.
Definition or3 (a b : truth) : truth :=
  match a, b with
  | Some true, _ | _, Some true => Some true
  | Some false, Some false => Some false
  | _, _ => None
  end.

Definition column_eq (c : SqlColumn) (v : QValue) : truth :=
  match c, v with
  | CText s, QString t | CText s, QNamed t => Some (s ==s t)
  | CUUID u, QUUID u' => Some (N.eqb u u')
  | CInt n, QInt m => Some (n =? m)
  | CBool b, QBool b' => Some (Bool.eqb b b')
  | CTime t, QTime t' => Some (t =? t')
  | _, _ => None
  end.

(** Numbers and times are ordered; no query orders texts. *)
Definition column_lt (c : SqlColumn) (v : QValue) : truth :=
  match c, v with
  | CInt n, QInt m => Some (n <? m)
  | CTime t, QTime t' => Some (t <? t')
  | _, _ => None
  end.
Definition column_gt (c : SqlColumn) (v : QValue) : truth :=
  match c, v with
  | CInt n, QInt m => Some (m <? n)
  | CTime t, QTime t' => Some (t' <? t)
  | _, _ => None
  end.

Definition compare3 (op : ComparisonOp) (c : SqlColumn) (v : QValue) : truth :=
  match op with
  | Equal => column_eq c v
  | NotEqual => negb <$> column_eq c v
  | LessThan => column_lt c v
  | GreaterThan => column_gt c v
  end.

Definition evalAtom (row : Row) (a : Atom) : truth :=
  match a with
  | IsNull f => Some (match row f with None => true | Some _ => false end)
  | IsNotNull f => Some (match row f with None => false | Some _ => true end)
  | Compare f op v => match row f with None => None | Some c => compare3 op c v end
  | IsIn f l =>
      match row f with
      | None => None
      | Some c => match l with [] => None | _ => foldr (λ v t, or3 (column_eq c v) t) (Some false) l end
      end
  | NullOr f v => match row f with None => Some true | Some c => column_eq c v end
  end.

(** A series of truths joined by AND and OR, AND binding tighter; [run] is the conjunction that
    is being read. *)
Fixpoint evalSeries (run : truth) (l : list (bool * truth)) : truth :=
  match l with
  | [] => run
  | (true, t) :: rest => or3 run (evalSeries t rest)
  | (false, t) :: rest => evalSeries (and3 run t) rest
  end.
Definition evalJoined (l : list (bool * truth)) : truth :=
  match l with [] => Some true | (_, t) :: rest => evalSeries t rest end.

Fixpoint eval (row : Row) (e : Expr) : truth :=
  match e with
  | At a => evalAtom row a
  | Nested l => evalJoined (map (λ p, (p.1, eval row p.2)) l)
  end.
Definition evalConds (row : Row) (tx : Conds) : truth := eval row (Nested tx).

(** Whether the statement for a query selects a row. *)
Definition selectsRow (tableName : string) (isSharedModel : bool) (query : RepoQuery) (row : Row) : error + bool :=
  match applyQuery tableName isSharedModel query with
  | inl e => inl e
  | inr tx => inr (match evalConds row tx with Some true => true | _ => false end)
  end.
