(* ===== verification/AuthzLoader.v ===== *)
(** Loading of authorization data and the places that enforce it:
    internal/authz/loader/loader.go, internal/authz/repo/authz_repo.go,
    internal/middleware/authz.go, the tenant selection of internal/repo/sql/repo.go
    ([WithTenant], [getSchemaFromCtx]) and the [CheckAuthz] methods of the models.

    Here the database is the one of all tenants: the shared table of tenants and
    one schema per tenant.  The mutex of the loader serialises its operations, so
    each is one atomic step.  A Go [range] over a map visits the entries in an
    unspecified order, the parameter [range]. *)
From S2P Require Import Prelude Errs Json GoContext AuthzPolicies Authz Model Store.

Definition ErrLoadAuthzAllowList :=
  New "authz_loader.ErrLoadAuthzAllowList" "failed to load authz allow list for tenantID".
Definition ErrTenantNotExist := New "authz_loader.ErrTenantNotExist" "tenantID does not exist".
Definition ErrEmptyTenantID := New "authz_loader.ErrEmptyTenantID" "tenantID cannot be empty".
Definition ErrUnauthorized := New "authz_repo.ErrUnauthorized" "action on resource unauthorized".

(** * The database of all tenants *)

Record Cluster := mkCluster {
  cl_tenants : list (string * string);
  cl_schemas : gmap string DB;
  cl_inTx : bool;
  cl_faults : list (option error) }.

Definition next_fault : Comp Cluster (option error) := λ c,
  (mkCluster (cl_tenants c) (cl_schemas c) (cl_inTx c) (tail (cl_faults c)),
   inr (mjoin (head (cl_faults c)))).

(** One statement, which may fail. *)
Definition statement {A} (f : Cluster → error + A) : Comp Cluster A :=
  next_fault ≫= λ fault,
    match fault with
    | Some e => fail e
    | None => λ c, (c, f c)
    end.

Definition PublicSchema : string := "public".

Definition getSchemaFromCtx (ctx : Ctx) : Comp Cluster string :=
  match ExtractTenantID ctx with
  | inl err => fail (Wrap ErrWithTenant (Some err))
  | inr tenant =>
      existing ← map_err (wrapping ErrWithTenant) (statement (λ c, inr (assoc tenant (cl_tenants c))));
      match existing with
      | None => fail ErrTenantNotFound
      | Some schemaName => mret schemaName
      end
  end.

(** [WithTenant]: inside a transaction the schema is switched, otherwise a
    transaction on the schema is started and committed around [fn]. *)
Definition WithTenant {A} (ctx : Ctx) (isSharedModel : bool) (fn : string → Comp Cluster A) :
    Comp Cluster A :=
  schemaName ← if isSharedModel then mret PublicSchema else getSchemaFromCtx ctx;
  inTx ← gets cl_inTx;
  fault ← next_fault;
  if (inTx : bool) then
    match fault with
    | Some err => fail (Wrap ErrWithTenant (Some err))
    | None => fn schemaName
    end
  else
    match fault with
    | Some _ => fail (Wrap ErrTransaction None)
    | None =>
        a ← map_err (wrapping ErrTransaction) (fn schemaName);
        commitFault ← next_fault;
        match commitFault with
        | Some _ => fail (Wrap ErrTransaction None)
        | None => mret a
        end
    end.

(** * The loader *)

Record AuthzLoader := mkAuthzLoader {
  al_repo : Cluster;
  al_TenantIDs : gmap string unit;
  al_AuthzHandler : Handler }.

Definition set_al_repo (c : Cluster) (am : AuthzLoader) : AuthzLoader :=
  mkAuthzLoader c (al_TenantIDs am) (al_AuthzHandler am).
Definition set_al_AuthzHandler (h : Handler) (am : AuthzLoader) : AuthzLoader :=
  mkAuthzLoader (al_repo am) (al_TenantIDs am) h.
Definition set_al_TenantIDs (ids : gmap string unit) (am : AuthzLoader) : AuthzLoader :=
  mkAuthzLoader (al_repo am) ids (al_AuthzHandler am).

Definition on_repo {A} (m : Comp Cluster A) : Comp AuthzLoader A := zoom al_repo set_al_repo m.
Definition on_handler {A} (m : Comp Handler A) : Comp AuthzLoader A :=
  zoom al_AuthzHandler set_al_AuthzHandler m.

Definition NewAuthzLoader (repo : Cluster) (internalRolePolicies businessRolePolicies : RolePolicies)
    (resourceTypeActions : list (string * list string)) : AuthzLoader :=
  mkAuthzLoader repo ∅
    (NewAuthorizationHandler internalRolePolicies businessRolePolicies resourceTypeActions).

(** No internal user access is allowed to the API. *)
Definition NewAPIAuthzLoader (repo : Cluster) : AuthzLoader :=
  NewAuthzLoader repo [] APIPolicies APIResourceTypeActions.

Definition NewRepoAuthzLoader (repo : Cluster) : AuthzLoader :=
  NewAuthzLoader repo RepoInternalPolicies RepoBusinessPolicies RepoResourceTypeActions.

(** [am.repo.List(ctx, &model.Group{}, &groups, *repo.NewQuery())] *)
Definition listGroups (ctx : Ctx) : Comp Cluster (list Group) :=
  WithTenant ctx false (λ schemaName,
    statement (λ c,
      match cl_schemas c !! schemaName with
      | Some d => inr (applyPagination (where_ (λ _, true)) (db_groups d))
      | None => inl (External "relation does not exist")
      end)).

Definition getGroups (ctx : Ctx) : Comp Cluster (list Group) :=
  map_err (wrapping ErrLoadAuthzAllowList) (listGroups ctx).

Definition firstTenant (ctx : Ctx) (tenantID : string) : Comp Cluster bool :=
  WithTenant ctx true (λ _,
    found ← map_err (wrapping ErrGetResource) (statement (λ c,
      if tenantID ==s FalseNull then inl booleanComparison
      else inr (existsb (λ t, eqField tenantID t.1) (cl_tenants c))));
    if (found : bool) then mret true
    else fail (Wrap ErrNotFound (Some ErrRecordNotFound))).

Definition isTenantKnown (ctx : Ctx) (tenantID : string) : Comp Cluster bool :=
  r ← attempt (firstTenant ctx tenantID);
  match r with
  | inl _ => mret false
  | inr found => mret found
  end.

(** One iteration of the loop that sorts the groups by role. *)
Definition addGroup (tenantID : string) (m : gmap string BusinessUserRecord) (group : Group) :
    gmap string BusinessUserRecord :=
  let role := g_Role group in
  match m !! role with
  | Some user => <[role := mkBusinessUser (bu_TenantID user) (bu_Groups user ++ [g_IAMIdentifier group])]> m
  | None => <[role := mkBusinessUser tenantID [g_IAMIdentifier group]]> m
  end.

Definition tenantRoleGroupsMap (tenantID : string) (groups : list Group) :
    gmap string BusinessUserRecord :=
  foldl (addGroup tenantID) ∅ groups.

Section Loader.
Context {maps : GoMaps}.

Definition loadTenantAllowedActions (ctx : Ctx) (tenantID : string) : Comp AuthzLoader unit :=
  if tenantID ==s "" then fail ErrEmptyTenantID else
  known ← on_repo (isTenantKnown ctx tenantID);
  if negb known then fail ErrTenantNotExist else
  am ← get;
  match al_TenantIDs am !! tenantID with
  | Some _ => mret tt
  | None =>
      groups ← on_repo (getGroups ctx);
      let m := tenantRoleGroupsMap tenantID groups in
      _ ← (if (0 <? length (range m))%nat
           then map_err (wrapping ErrLoadAuthzAllowList) (on_handler (UpdateBusinessUserData (range m)))
           else mret tt);
      modify (λ am, set_al_TenantIDs (<[tenantID := tt]> (al_TenantIDs am)) am)
  end.

Definition LoadTenantAllowedActions (ctx : Ctx) : Comp AuthzLoader unit :=
  match ExtractTenantID ctx with
  | inl _ => mret tt
  | inr tenantID => loadTenantAllowedActions ctx tenantID
  end.

Definition Loader_ResetBusinessUserData (am : AuthzLoader) : AuthzLoader :=
  mkAuthzLoader (al_repo am) ∅ (ResetBusinessUserData (al_AuthzHandler am)).

Definition ReloadTenantAllowedActions (ctx : Ctx) : Comp AuthzLoader unit :=
  tenantIDs ← gets al_TenantIDs;
  _ ← modify Loader_ResetBusinessUserData;
  for_each (λ '(tenantID, _),
    map_err (wrapping ErrLoadAuthzAllowList) (loadTenantAllowedActions ctx tenantID))
    (range tenantIDs).

(** * internal/authz/repo/authz_repo.go *)

(** [resource.CheckAuthz]: reading tenants is free, everything else is decided by
    [CheckAuthz] on the resource type of the model's table. *)
Definition Resource_CheckAuthz (ctx : Ctx) (h : Handler) (resource action : string) : error + bool :=
  if resource ==s RepoResourceTypeTenant then
    if action ∈? [RepoActionList; RepoActionFirst; RepoActionCount] then inr true
    else CheckAuthz ctx h resource action
  else CheckAuthz ctx h resource action.

Definition checkOne (ctx : Ctx) (resource action : string) : Comp AuthzLoader unit :=
  am ← get;
  match Resource_CheckAuthz ctx (al_AuthzHandler am) resource action with
  | inl err => fail err
  | inr isAllowed => if negb isAllowed then fail ErrUnauthorized else mret tt
  end.

Definition checkResourceAuthZ (ctx : Ctx) (resource action : string) : Comp AuthzLoader unit :=
  _ ← LoadTenantAllowedActions ctx;
  checkOne ctx resource action.

(** [joins] are the resource types of the tables the query joins. *)
Definition checkQueryAuthZ (ctx : Ctx) (joins : list string) (action : string) :
    Comp AuthzLoader unit :=
  _ ← LoadTenantAllowedActions ctx;
  for_each (λ join, checkOne ctx join action) joins.

(** The operations of [AuthzRepo]; [inner] is the call to the wrapped repository. *)
Section AuthzRepo.
Context {A : Type} (ctx : Ctx) (resource : string) (joins : list string) (inner : Comp Cluster A).

Definition checked (action : string) : Comp AuthzLoader A :=
  _ ← checkResourceAuthZ ctx resource action;
  _ ← checkQueryAuthZ ctx joins action;
  on_repo inner.

Definition AuthzRepo_Create : Comp AuthzLoader A :=
  _ ← checkResourceAuthZ ctx resource RepoActionCreate;
  on_repo inner.
Definition AuthzRepo_Count : Comp AuthzLoader A := checked RepoActionCount.
Definition AuthzRepo_List : Comp AuthzLoader A := checked RepoActionList.
Definition AuthzRepo_Delete : Comp AuthzLoader A := checked RepoActionDelete.
Definition AuthzRepo_First : Comp AuthzLoader A := checked RepoActionFirst.
Definition AuthzRepo_Patch : Comp AuthzLoader A := checked RepoActionUpdate.
Definition AuthzRepo_Set : Comp AuthzLoader A :=
  _ ← checkResourceAuthZ ctx resource RepoActionUpdate;
  _ ← checkResourceAuthZ ctx resource RepoActionCreate;
  on_repo inner.
Definition AuthzRepo_GetFilterOptions : Comp AuthzLoader A := checked RepoActionList.
End AuthzRepo.

(** * internal/middleware/authz.go *)

(** [strings.TrimPrefix] and [strings.Cut] at the first blank. *)
Definition TrimPrefix (s prefix : string) : string :=
  if String.prefix prefix s
  then String.substring (String.length prefix) (String.length s - String.length prefix) s else s.

Fixpoint Cut (s : string) : option (string * string) :=
  match s with
  | EmptyString => None
  | String c rest =>
      if Ascii.eqb c (Ascii.ascii_of_nat 32) then Some (EmptyString, rest)
      else match Cut rest with
           | Some (before, after) => Some (String c before, after)
           | None => None
           end
  end.

Definition BasePath : string := "/cmk/v1/{tenant}".

Definition extractPattern (pattern basePath : string) : string :=
  match Cut pattern with
  | Some (method, path) => method +:+ " " +:+ TrimPrefix path basePath
  | None => TrimPrefix pattern basePath
  end.

Inductive Response := Served | Forbidden.

Definition isAllowed (r : error + bool) : bool := match r with inr b => b | inl _ => false end.

(** [AuthzMiddleware] ends by calling the next handler or with 403. *)
Definition AuthzMiddleware (ctx : Ctx) (requestPattern : string) : Comp AuthzLoader Response :=
  let pattern := extractPattern requestPattern BasePath in
  if pattern ∈? AllowListByAPI then mret Served else
  match assoc pattern RestrictionsByAPI with
  | None => mret Forbidden
  | Some restriction =>
      let check := am ← get;
        mret (isAllowed (CheckAuthz ctx (al_AuthzHandler am)
                (APIResourceTypeName restriction) (APIAction restriction))) in
      allowed ← check;
      if (allowed : bool) then mret Served else
      match ExtractTenantID ctx with
      | inl _ => mret Forbidden
      | inr _ =>
          loadErr ← attempt (LoadTenantAllowedActions ctx);
          match loadErr with
          | inl _ => mret Forbidden
          | inr _ =>
              allowed ← check;
              if (allowed : bool) then mret Served else mret Forbidden
          end
      end
  end.
End Loader.
