(* ===== verification/AuthzLoaderFacts.v ===== *)
(** What the loaded authorization data and its enforcement guarantee: grants stay
    within their tenant, decisions after a load follow the groups of the tenant,
    the repository and the API are only reached with permission, and what the
    periodic reload does. *)
From S2P Require Import Prelude Errs Json GoContext AuthzPolicies Authz Model Store AuthzLoader.

(** * The database as the loader reads it *)

(** The group table of a tenant. *)
Definition tenant_groups (c : Cluster) (t : string) : list Group :=
  match assoc t (cl_tenants c) with
  | Some schemaName => from_option db_groups [] (cl_schemas c !! schemaName)
  | None => []
  end.

(** Same tenants and schemas: only the failure schedule may differ. *)
Definition same_data (c c' : Cluster) : Prop :=
  cl_tenants c' = cl_tenants c ∧ cl_schemas c' = cl_schemas c.
#[export] Instance same_data_preorder : PreOrder same_data.
Proof. split; [done|]. intros ??? [] []. split; congruence. Qed.

#[export] Instance tenant_groups_proper : Proper (same_data ==> eq ==> eq) tenant_groups.
Proof. intros c c' [Ht Hs] t ? <-. unfold tenant_groups. by rewrite Ht, Hs. Qed.

Lemma next_fault_data : preserves same_data next_fault.
Proof. done. Qed.

Lemma statement_data {A} (f : Cluster → error + A) : preserves same_data (statement f).
Proof.
  apply preserves_bind; [apply _|apply next_fault_data|]. by intros [e|] c.
Qed.
#[export] Hint Resolve next_fault_data statement_data : cmk.

Lemma statement_ok {A} (f : Cluster → error + A) c c' a :
  statement f c = (c', inr a) → ∃ c1, same_data c c1 ∧ f c1 = inr a.
Proof.
  intros H. apply bind_ok in H as (c1 & fault & H1 & H2).
  pose proof (next_fault_data c) as Hd. rewrite H1 in Hd.
  destruct fault; [done|]. injection H2 as _ H2. eauto.
Qed.

Lemma getSchemaFromCtx_data ctx : preserves same_data (getSchemaFromCtx ctx).
Proof.
  unfold getSchemaFromCtx. destruct (ExtractTenantID ctx); [apply preserves_fail, _|].
  apply preserves_bind; [apply _|eauto with cmk|]. by intros [|] c.
Qed.

Lemma WithTenant_data {A} ctx shared (fn : string → Comp Cluster A) :
  (∀ s, preserves same_data (fn s)) → preserves same_data (WithTenant ctx shared fn).
Proof.
  intros Hfn. unfold WithTenant. apply preserves_bind; [apply _| |].
  { destruct shared; [apply preserves_ret, _|apply getSchemaFromCtx_data]. }
  intros s. apply preserves_bind; [apply _|apply preserves_gets, _|]. intros inTx.
  apply preserves_bind; [apply _|apply next_fault_data|]. intros fault.
  destruct inTx, fault; try (apply preserves_fail, _); [apply Hfn|].
  apply preserves_bind; [apply _|by apply preserves_map_err|]. intros a.
  apply preserves_bind; [apply _|apply next_fault_data|].
  intros [|]; [apply preserves_fail|apply preserves_ret]; apply _.
Qed.

Lemma getGroups_data ctx : preserves same_data (getGroups ctx).
Proof. apply preserves_map_err, WithTenant_data. intros s. apply statement_data. Qed.

Lemma isTenantKnown_data ctx t : preserves same_data (isTenantKnown ctx t).
Proof.
  apply preserves_bind; [apply _| |by intros [] c].
  apply preserves_attempt, WithTenant_data. intros s.
  apply preserves_bind; [apply _|eauto with cmk|]. by intros [] c.
Qed.

(** Running [fn] on the schema of the tenant in the context. *)
Lemma WithTenant_ok {A} ctx (fn : string → Comp Cluster A) c c' a :
  WithTenant ctx false fn c = (c', inr a) →
  ∃ t s c1 c2, ExtractTenantID ctx = inr t ∧ assoc t (cl_tenants c) = Some s ∧
    same_data c c1 ∧ fn s c1 = (c2, inr a).
Proof.
  intros H. apply bind_ok in H as (c1 & s & Hs & H).
  pose proof (getSchemaFromCtx_data ctx c) as Hd1. rewrite Hs in Hd1. simpl in Hd1.
  unfold getSchemaFromCtx in Hs. destruct (ExtractTenantID ctx) as [|t]; [done|].
  apply bind_ok in Hs as (c0 & existing & Hst & Hs).
  apply map_err_ok, statement_ok in Hst as (c00 & [Ht0 _] & [= Hex]).
  destruct existing as [s'|]; [|done]. injection Hs as -> ->.
  exists t, s. rewrite <-Ht0. apply bind_ok in H as (c2 & inTx & [= <- <-] & H).
  apply bind_ok in H as (c2 & fault & Hf & H). pose proof (next_fault_data c1) as Hd2.
  rewrite Hf in Hd2. assert (same_data c c2) by (by etrans).
  destruct (cl_inTx c1), fault; try done; [eauto 10|].
  apply bind_ok in H as (c3 & a' & Hfn%map_err_ok & H).
  apply bind_ok in H as (c4 & [|] & _ & H); [done|]. injection H as <- <-. eauto 10.
Qed.

Lemma getGroups_ok ctx c c' groups :
  getGroups ctx c = (c', inr groups) →
  ∃ t, ExtractTenantID ctx = inr t ∧ groups = take 100 (tenant_groups c t).
Proof.
  intros H%map_err_ok%WithTenant_ok. destruct H as (t & s & c1 & c2 & Ht & Hs & Hd & Hst).
  apply statement_ok in Hst as (c3 & Hd2 & Hst). exists t. split; [done|].
  assert (same_data c c3) as Hd3 by (by etrans). destruct Hd3 as [_ Hd3].
  unfold tenant_groups. rewrite Hs, <-Hd3. destruct (cl_schemas c3 !! s) as [d|]; [|done].
  injection Hst as <-. unfold applyPagination, select, where_. cbn [q_where q_limit q_offset].
  replace (List.filter (λ _, true) (db_groups d)) with (db_groups d); [done|].
  induction (db_groups d) as [|g l IH]; simpl; congruence.
Qed.

(** * Groups by role *)

Lemma roleGroups_snoc t groups g :
  tenantRoleGroupsMap t (groups ++ [g]) = addGroup t (tenantRoleGroupsMap t groups) g.
Proof. apply foldl_snoc. Qed.

(** The map holds, for each role, the identifiers of the groups with that role. *)
Lemma roleGroups_lookup t groups role :
  tenantRoleGroupsMap t groups !! role =
  match List.filter (λ g, g_Role g ==s role) groups with
  | [] => None
  | l => Some (mkBusinessUser t (g_IAMIdentifier <$> l))
  end.
Proof.
  revert role. induction groups as [|g groups IH] using rev_ind; intros role; [done|].
  rewrite roleGroups_snoc, List.filter_app. simpl. unfold addGroup. rewrite (IH (g_Role g)).
  destruct (String.eqb_spec (g_Role g) role) as [<-|Hne].
  - destruct (List.filter _ groups) eqn:Hf; simpl; rewrite lookup_insert_eq; [done|].
    by rewrite fmap_app.
  - rewrite app_nil_r. destruct (List.filter (λ g0, g_Role g0 ==s g_Role g) groups);
      rewrite lookup_insert_ne by done; apply IH.
Qed.

Lemma roleGroups_elem t groups role u :
  tenantRoleGroupsMap t groups !! role = Some u →
  bu_TenantID u = t ∧
  ∀ i, i ∈ bu_Groups u ↔ ∃ g, g ∈ groups ∧ g_Role g = role ∧ g_IAMIdentifier g = i.
Proof.
  rewrite roleGroups_lookup. destruct (List.filter _ groups) as [|g0 l] eqn:Hf; [done|].
  intros [= <-]. simpl bu_TenantID. split; [done|]. intros i. simpl bu_Groups.
  rewrite <-fmap_cons, <-Hf. rewrite list_elem_of_fmap. setoid_rewrite list_elem_of_In.
  setoid_rewrite filter_In. setoid_rewrite String.eqb_eq. firstorder.
Qed.

Lemma roleGroups_covers t groups g :
  g ∈ groups → ∃ u, tenantRoleGroupsMap t groups !! g_Role g = Some u.
Proof.
  intros Hg. rewrite roleGroups_lookup. destruct (List.filter _ _) eqn:Hf; [|eauto].
  apply list_elem_of_In in Hg. assert (In g []) as []. rewrite <-Hf. apply filter_In.
  by rewrite String.eqb_refl.
Qed.

(** * One load *)

Abbreviation keys am := (b_AuthzKeys (h_Business (al_AuthzHandler am))).
Abbreviation businessPolicies am := (b_RolePolicies (h_Business (al_AuthzHandler am))).

(** Identifier [i] belongs to a group of tenant [t] whose role grants the action. *)
Definition sourced (pol : RolePolicies) (c : Cluster) (t i r a : string) : Prop :=
  ∃ g ps, g ∈ tenant_groups c t ∧ g_IAMIdentifier g = i ∧
    assoc (g_Role g) pol = Some ps ∧ (r, a) ∈ grants ps.

(** Everything but the business keys and the set of loaded tenants stays. *)
Definition same_setup (am am' : AuthzLoader) : Prop :=
  same_data (al_repo am) (al_repo am') ∧ businessPolicies am' = businessPolicies am ∧
  h_Internal (al_AuthzHandler am') = h_Internal (al_AuthzHandler am) ∧
  h_resourceActions (al_AuthzHandler am') = h_resourceActions (al_AuthzHandler am).
#[export] Instance same_setup_preorder : PreOrder same_setup.
Proof.
  split; [done|]. intros x y z (? & ? & ? & ?) (? & ? & ? & ?).
  split_and!; [by etrans|congruence..].
Qed.

Section Load.
Context {maps : GoMaps}.

Lemma elem_of_range {V} (m : gmap string V) k v : (k, v) ∈ range m ↔ m !! k = Some v.
Proof. by rewrite range_perm, elem_of_map_to_list. Qed.

Lemma on_repo_setup {A} (m : Comp Cluster A) :
  preserves same_data m → preserves same_setup (on_repo m).
Proof.
  intros Hm am. unfold on_repo, zoom. specialize (Hm (al_repo am)).
  by destruct (m (al_repo am)).
Qed.

Lemma on_repo_run {A} (m : Comp Cluster A) am am' r :
  preserves same_data m → on_repo m am = (am', r) →
  ∃ c, m (al_repo am) = (c, r) ∧ am' = set_al_repo c am ∧ same_data (al_repo am) c.
Proof.
  intros Hm. unfold on_repo, zoom. specialize (Hm (al_repo am)).
  destruct (m (al_repo am)) as [c r'] eqn:E. intros [= <- <-]. eauto.
Qed.

Lemma UpdateBusinessUserData_run user (am am' : AuthzLoader) r :
  on_handler (UpdateBusinessUserData user) am = (am', r) →
  ∃ l, AddUser user (h_Business (al_AuthzHandler am)) = (l, r) ∧
    am' = set_al_AuthzHandler (set_h_Business l (al_AuthzHandler am)) am.
Proof.
  unfold on_handler, UpdateBusinessUserData, zoom.
  destruct (AddUser user _) as [l r'] eqn:E. intros [= <- <-]. eauto.
Qed.

(** The step that stores the groups of the tenant: keys are only added, for
    [tenantID] and from the groups given. *)
Lemma update_adds tenantID groups am am' r :
  (if (0 <? length (range (tenantRoleGroupsMap tenantID groups)))%nat
   then map_err (wrapping ErrLoadAuthzAllowList)
          (on_handler (UpdateBusinessUserData (range (tenantRoleGroupsMap tenantID groups))))
   else mret tt) am = (am', r) →
  same_setup am am' ∧ al_TenantIDs am' = al_TenantIDs am ∧
  ∀ t i rs a, (t, i, (rs, a)) ∈ keys am' →
    (t, i, (rs, a)) ∈ keys am ∨
    t = tenantID ∧ ∃ g ps, g ∈ groups ∧ g_IAMIdentifier g = i ∧
      assoc (g_Role g) (businessPolicies am) = Some ps ∧ (rs, a) ∈ grants ps.
Proof.
  destruct (0 <? length _)%nat; [|intros [= <- <-]; split; [done|by auto]].
  intros (r' & Hu & _)%map_err_result. apply UpdateBusinessUserData_run in Hu as (l & Hl & ->).
  set (user := range _) in Hl. pose proof (AddUser_policies user (h_Business (al_AuthzHandler am))) as Hp.
  pose proof (AddUser_sound user (h_Business (al_AuthzHandler am))) as Hs. rewrite Hl in Hp, Hs.
  split; [by split_and!|]. split; [done|]. intros t i rs a Hin. simpl in Hin.
  apply Hs in Hin as [|(role & u & ps & Hu%elem_of_range & Hps & -> & Hi & Hga)]; [by left|].
  right. apply roleGroups_elem in Hu as [Htid Hel]. split; [done|].
  apply Hel in Hi as (g & Hgin & <- & Hid). eauto 10.
Qed.

(** A load of [tenantID] with the context of tenant [t0] only adds keys of
    [tenantID], taken from the groups of [t0]. *)
Lemma load_adds ctx tenantID am am' r :
  loadTenantAllowedActions ctx tenantID am = (am', r) →
  same_setup am am' ∧
  ∀ t i rs a, (t, i, (rs, a)) ∈ keys am' →
    (t, i, (rs, a)) ∈ keys am ∨
    t = tenantID ∧ ∃ t0, ExtractTenantID ctx = inr t0 ∧
      sourced (businessPolicies am) (al_repo am) t0 i rs a.
Proof.
  unfold loadTenantAllowedActions. destruct (_ ==s _); [intros [= <- <-]; split; [done|by auto]|].
  intros [(e & Hk & ->)|(am1 & known & Hk & H)]%bind_inv;
    apply on_repo_run in Hk as (c & _ & -> & Hd); try apply isTenantKnown_data; [split; [done|by auto]|].
  destruct known; simpl negb in H; cbv iota in H; [|injection H as <- <-; split; [done|by auto]].
  apply bind_inv in H as [(e & [=] & _)|(am1 & am0 & [= <- <-] & H)]. cbn [al_TenantIDs set_al_repo] in H.
  destruct (al_TenantIDs am !! tenantID); [injection H as <- <-; split; [done|by auto]|].
  apply bind_inv in H as [(e & Hg & ->)|(am1 & groups & Hg & H)];
    apply on_repo_run in Hg as (c2 & Hg & -> & Hd2); try apply getGroups_data; cbn in Hd2.
  { split; [split_and!; [by etrans|done..]|auto]. }
  apply getGroups_ok in Hg as (t0 & Ht0 & ->). cbn [al_repo set_al_repo] in H.
  assert (∃ am2 r2, (if (0 <? length (range (tenantRoleGroupsMap tenantID (take 100 (tenant_groups c t0)))))%nat
     then map_err (wrapping ErrLoadAuthzAllowList) (on_handler (UpdateBusinessUserData
       (range (tenantRoleGroupsMap tenantID (take 100 (tenant_groups c t0))))))
     else mret tt) (set_al_repo c2 (set_al_repo c am)) = (am2, r2) ∧
     same_setup am2 am' ∧ keys am' = keys am2) as (am2 & r2 & Hu & Hs2 & Hk2).
  { apply bind_inv in H as [(e & Hu & ->)|(am2 & [] & Hu & [= <- <-])];
      do 2 eexists; (split; [exact Hu|done]). }
  apply update_adds in Hu as (Hs & _ & Hadd). split.
  { etrans; [|exact Hs2]. etrans; [|exact Hs]. split_and!; [by etrans|done..]. }
  intros t i rs a Hin. rewrite Hk2 in Hin.
  apply Hadd in Hin as [|[-> (g & ps & Hg & ? & ? & ?)]]; [by left|]. right. split; [done|].
  exists t0. split; [done|]. exists g, ps. rewrite (tenant_groups_proper _ _ Hd _ _ eq_refl).
  apply elem_of_take in Hg as (n & Hn & _). eauto using list_elem_of_lookup_2.
Qed.

Lemma Load_adds ctx am am' r :
  LoadTenantAllowedActions ctx am = (am', r) →
  same_setup am am' ∧
  ∀ t i rs a, (t, i, (rs, a)) ∈ keys am' →
    (t, i, (rs, a)) ∈ keys am ∨ sourced (businessPolicies am) (al_repo am) t i rs a.
Proof.
  unfold LoadTenantAllowedActions. destruct (ExtractTenantID ctx) as [e|t0] eqn:Ht.
  { intros [= <- <-]. split; [done|auto]. }
  intros [Hs Hadd]%load_adds. split; [done|]. intros t i rs a Hin.
  apply Hadd in Hin as [|(-> & t1 & Ht1 & Hsrc)]; [by left|]. right.
  by assert (t1 = t0) as -> by congruence.
Qed.

Lemma Load_setup ctx : preserves same_setup (LoadTenantAllowedActions ctx).
Proof.
  intros am. destruct (LoadTenantAllowedActions ctx am) as [am' r] eqn:E.
  by apply Load_adds in E as [].
Qed.

(** ** Histories *)

(** The lives of a loader with business policies [pol]: requests load their own
    tenant, the data is reset, and in between anybody writes to the database.
    The first argument collects the states of the database. *)
Inductive loader_run (pol : RolePolicies) : list Cluster → AuthzLoader → Prop :=
| run_new c ipol acts : loader_run pol [c] (NewAuthzLoader c ipol pol acts)
| run_load hist am ctx :
    loader_run pol hist am → loader_run pol hist (LoadTenantAllowedActions ctx am).1
| run_reset hist am :
    loader_run pol hist am → loader_run pol hist (Loader_ResetBusinessUserData am)
| run_write hist am c :
    loader_run pol hist am → loader_run pol (c :: hist) (set_al_repo c am).

Lemma sourced_same pol c c' t i r a :
  same_data c c' → sourced pol c' t i r a → sourced pol c t i r a.
Proof. intros Hd. unfold sourced. by rewrite (tenant_groups_proper _ _ Hd t t eq_refl). Qed.

Lemma loader_run_inv pol hist am :
  loader_run pol hist am →
  businessPolicies am = pol ∧ (∃ c, c ∈ hist ∧ same_data c (al_repo am)) ∧
  ∀ t i r a, (t, i, (r, a)) ∈ keys am → ∃ c, c ∈ hist ∧ sourced pol c t i r a.
Proof.
  induction 1 as [c ipol acts|hist am ctx Hrun (IHp & (c & Hc & Hd) & IHk)
    |hist am Hrun (IHp & IHc & IHk)|hist am c Hrun (IHp & (c0 & Hc0 & Hd) & IHk)].
  - split; [done|]. split; [exists c; by rewrite list_elem_of_singleton|]. set_solver.
  - destruct (LoadTenantAllowedActions ctx am) as [am' r] eqn:E.
    apply Load_adds in E as [(Hd' & Hp & _) Hadd]. simpl. split; [congruence|].
    split; [exists c; split; [done|by etrans]|]. intros t i rs a [Hin|Hin]%Hadd; [by apply IHk|].
    exists c. split; [done|]. rewrite <-IHp. by eapply sourced_same.
  - split; [done|]. split; [done|]. simpl. set_solver.
  - split; [done|]. split; [exists c; split; [by left|done]|].
    intros t i rs a (c' & Hc' & Hs)%IHk. exists c'. split; [by right|done].
Qed.

(** C5: tenant isolation.  However requests of different tenants, resets and
    changes of the database follow each other, a business caller who passes the
    check is in a group that the caller's own tenant has (or had, since the data
    was loaded) with a role whose policies grant the action. *)
Theorem grants_stay_in_tenant pol hist am ctx r a :
  loader_run pol hist am →
  ctx_userType ctx = Some BusinessUser →
  CheckAuthz ctx (al_AuthzHandler am) r a = inr true →
  ∃ t d i c, ExtractTenantID ctx = inr t ∧ ctx_businessUserData ctx = Some d ∧
    i ∈ ClientGroups d ∧ c ∈ hist ∧ sourced pol c t i r a.
Proof.
  intros (_ & _ & Hk)%loader_run_inv Hu H. apply (proj1 (business_allowed_iff _ _ _ _ Hu)) in H
    as (t & d & id & acts & i & Ht & Htn & Hd & _ & _ & _ & _ & _ & Hi & Hkey).
  apply Hk in Hkey as (c & Hc & Hs). exists t, d, i, c. split; [|done].
  by apply ExtractTenantID_ok.
Qed.
End Load.

(** * Decisions after a load *)

Section Decide.
Context {maps : GoMaps}.

Lemma update_complete tenantID groups am am' g ps rs a :
  (if (0 <? length (range (tenantRoleGroupsMap tenantID groups)))%nat
   then map_err (wrapping ErrLoadAuthzAllowList)
          (on_handler (UpdateBusinessUserData (range (tenantRoleGroupsMap tenantID groups))))
   else mret tt) am = (am', inr tt) →
  g ∈ groups → assoc (g_Role g) (businessPolicies am) = Some ps → (rs, a) ∈ grants ps →
  (tenantID, g_IAMIdentifier g, (rs, a)) ∈ keys am'.
Proof.
  intros H Hg Hps Hga. destruct (roleGroups_covers tenantID groups g Hg) as [u Hu].
  pose proof (roleGroups_elem _ _ _ _ Hu) as [<- Hel].
  apply elem_of_range in Hu as Hin. destruct (0 <? length _)%nat eqn:Hlen.
  2:{ apply Nat.ltb_ge in Hlen. destruct (range _); [by apply not_elem_of_nil in Hin|simpl in Hlen; lia]. }
  apply map_err_ok, UpdateBusinessUserData_run in H as (l & Hl & ->). simpl.
  eapply AddUser_complete; [exact Hl|exact Hin|exact Hps|apply Hel; eauto|done].
Qed.

Lemma Load_complete ctx t am am' g ps rs a :
  LoadTenantAllowedActions ctx am = (am', inr tt) →
  ExtractTenantID ctx = inr t → al_TenantIDs am !! t = None →
  g ∈ take 100 (tenant_groups (al_repo am) t) →
  assoc (g_Role g) (businessPolicies am) = Some ps → (rs, a) ∈ grants ps →
  (t, g_IAMIdentifier g, (rs, a)) ∈ keys am'.
Proof.
  unfold LoadTenantAllowedActions, loadTenantAllowedActions. intros H Ht Hnew Hg Hps Hga.
  rewrite Ht in H. destruct (t ==s ""); [done|].
  apply bind_ok in H as (am1 & known & Hk & H).
  apply on_repo_run in Hk as (c & _ & -> & Hd); [|apply isTenantKnown_data].
  destruct known; [|done]. apply bind_ok in H as (am1 & am0 & [= <- <-] & H).
  cbn [al_TenantIDs set_al_repo] in H. rewrite Hnew in H.
  apply bind_ok in H as (am1 & groups & Hgr & H).
  apply on_repo_run in Hgr as (c2 & Hgr & -> & Hd2); [|apply getGroups_data].
  apply getGroups_ok in Hgr as (t0 & Ht0 & ->). assert (t0 = t) as -> by congruence.
  apply bind_ok in H as (am2 & [] & Hu & [= <-]). simpl.
  eapply update_complete; [exact Hu| |exact Hps|exact Hga].
  by rewrite (tenant_groups_proper _ _ Hd t t eq_refl) in Hg.
Qed.

(** After the first successful load of a tenant (with no more groups than
    one page), a well-formed business request passes the check exactly when one
    of the caller's groups is a group of that tenant whose role grants the
    action. *)
Theorem load_decides ctx am am' t d id r a :
  LoadTenantAllowedActions ctx am = (am', inr tt) →
  ctx_userType ctx = Some BusinessUser → ExtractTenantID ctx = inr t →
  ctx_businessUserData ctx = Some d → Identifier d ≠ "" →
  ctx_requestID ctx = Some id → id ≠ "" →
  isValidResourceAction (al_AuthzHandler am) r a = None →
  al_TenantIDs am !! t = None → (∀ k, k ∈ keys am → k.1.1 ≠ t) →
  (length (tenant_groups (al_repo am) t) ≤ 100)%nat →
  CheckAuthz ctx (al_AuthzHandler am') r a = inr true ↔
  ∃ i, i ∈ ClientGroups d ∧ sourced (businessPolicies am) (al_repo am) t i r a.
Proof.
  intros Hl Hu Ht Hd Hi Hid Hidn Hv Hnew Hno Hlen. rewrite business_allowed_iff by done.
  pose proof (proj1 (ExtractTenantID_ok _ _) Ht) as [Ht1 Ht2].
  apply isValidResourceAction_spec in Hv as (acts & Ha1 & Ha2).
  pose proof (Load_adds _ _ _ _ Hl) as [(_ & _ & _ & Hacts) Hadd]. split.
  - intros (t' & d' & _ & _ & i & Ht' & _ & Hd' & _ & _ & _ & _ & _ & Hin & Hk). simplify_eq.
    exists i. split; [done|]. apply Hadd in Hk as [Hk|Hk]; [|done]. by destruct (Hno _ Hk).
  - intros (i & Hin & g & ps & Hg & <- & Hps & Hga). exists t, d, id, acts, (g_IAMIdentifier g).
    rewrite Hacts. split_and!; try done.
    eapply Load_complete; [done..| |done|done]. by rewrite take_ge.
Qed.
End Decide.

(** * The guarded repository *)

Inductive RepoOp := OpCreate | OpCount | OpList | OpDelete | OpFirst | OpPatch | OpSet | OpGetFilterOptions.

(** The actions on the resource, and on each joined table, that an operation needs. *)
Definition needs (op : RepoOp) : list string :=
  match op with
  | OpCreate => [RepoActionCreate]
  | OpCount => [RepoActionCount]
  | OpList | OpGetFilterOptions => [RepoActionList]
  | OpDelete => [RepoActionDelete]
  | OpFirst => [RepoActionFirst]
  | OpPatch => [RepoActionUpdate]
  | OpSet => [RepoActionUpdate; RepoActionCreate]
  end.
Definition join_needs (op : RepoOp) : list string :=
  match op with OpCreate | OpSet => [] | _ => needs op end.

Section Guard.
Context {maps : GoMaps} {A : Type}.

Definition run_op (op : RepoOp) (ctx : Ctx) (resource : string) (joins : list string)
    (inner : Comp Cluster A) : Comp AuthzLoader A :=
  match op with
  | OpCreate => AuthzRepo_Create ctx resource inner
  | OpCount => AuthzRepo_Count ctx resource joins inner
  | OpList => AuthzRepo_List ctx resource joins inner
  | OpDelete => AuthzRepo_Delete ctx resource joins inner
  | OpFirst => AuthzRepo_First ctx resource joins inner
  | OpPatch => AuthzRepo_Patch ctx resource joins inner
  | OpSet => AuthzRepo_Set ctx resource inner
  | OpGetFilterOptions => AuthzRepo_GetFilterOptions ctx resource joins inner
  end.

(** Permission was given, with the data as loaded for some request. *)
Definition permitted (am : AuthzLoader) (ctx : Ctx) (resource action : string) : Prop :=
  ∃ am', same_setup am am' ∧ Resource_CheckAuthz ctx (al_AuthzHandler am') resource action = inr true.

Lemma permitted_mono am am' ctx resource action :
  same_setup am am' → permitted am' ctx resource action → permitted am ctx resource action.
Proof. intros H (am'' & H' & Hp). exists am''. split; [by etrans|done]. Qed.

Lemma checkOne_run ctx resource action am am' r :
  checkOne ctx resource action am = (am', r) →
  am' = am ∧ (r = inr tt → Resource_CheckAuthz ctx (al_AuthzHandler am) resource action = inr true).
Proof.
  unfold checkOne. intros [(e & [=] & _)|(am1 & am0 & [= <- <-] & H)]%bind_inv.
  destruct (Resource_CheckAuthz _ _ _ _) as [e|[]]; injection H as <- <-; done.
Qed.

Lemma checkResource_run ctx resource action am am' r :
  checkResourceAuthZ ctx resource action am = (am', r) →
  same_setup am am' ∧ (r = inr tt → permitted am ctx resource action).
Proof.
  intros [(e & H & ->)|(am1 & [] & H & H2)]%bind_inv; apply Load_adds in H as [Hs _]; [done|].
  apply checkOne_run in H2 as [-> H2]. split; [done|]. intros ->. eexists; split; [done|auto].
Qed.

Lemma checkQuery_run ctx joins action am am' r :
  checkQueryAuthZ ctx joins action am = (am', r) →
  same_setup am am' ∧ (r = inr tt → ∀ j, j ∈ joins → permitted am ctx j action).
Proof.
  intros [(e & H & ->)|(am1 & [] & H & H2)]%bind_inv; apply Load_adds in H as [Hs _]; [done|].
  assert (am' = am1 ∧ (r = inr tt → ∀ j, j ∈ joins →
    Resource_CheckAuthz ctx (al_AuthzHandler am1) j action = inr true)) as [-> Hj].
  { clear Hs. induction joins as [|j joins IH].
    - injection H2 as <- <-. split; [done|]. by intros _ j ?%not_elem_of_nil.
    - apply bind_inv in H2 as [(e & H & ->)|(am2 & [] & H & H2)];
        apply checkOne_run in H as [-> Hc]; [done|].
      destruct (IH H2) as [-> Hr]. split; [done|]. intros Hok j' [->|?]%elem_of_cons; auto. }
  split; [done|]. intros Hr j Hin. eexists; split; [done|auto].
Qed.

Lemma checked_run ctx resource joins (inner : Comp Cluster A) action am am' r :
  checked ctx resource joins inner action am = (am', r) →
  (∃ e, r = inl e ∧ same_setup am am') ∨
  ∃ am1, same_setup am am1 ∧ on_repo inner am1 = (am', r) ∧ permitted am ctx resource action ∧
    ∀ j, j ∈ joins → permitted am ctx j action.
Proof.
  intros [(e & H & ->)|(am1 & [] & H & H2)]%bind_inv; apply checkResource_run in H as [Hs Hp]; [by eauto|].
  apply bind_inv in H2 as [(e & H & ->)|(am2 & [] & H & H2)]; apply checkQuery_run in H as [Hs2 Hq].
  { left. eexists; split; [done|by etrans]. }
  right. exists am2. split; [by etrans|]. split; [done|]. split; [auto|].
  intros j Hj. eapply permitted_mono; [done|auto].
Qed.

End Guard.

(** * The API *)

(** The endpoints whose restriction the policies of a role grant. *)
Definition role_endpoints (role : string) : list string :=
  match assoc role APIPolicies with
  | Some ps => fst <$> List.filter (λ '(_, x),
      bool_decide ((APIResourceTypeName x, APIAction x) ∈ grants ps)) RestrictionsByAPI
  | None => []
  end.

Lemma role_endpoints_spec role ps pattern x :
  assoc pattern RestrictionsByAPI = Some x → assoc role APIPolicies = Some ps →
  (APIResourceTypeName x, APIAction x) ∈ grants ps → pattern ∈ role_endpoints role.
Proof.
  intros Hx%assoc_elem Hps Hg. unfold role_endpoints. rewrite Hps.
  apply list_elem_of_fmap. exists (pattern, x). split; [done|].
  rewrite list_elem_of_In in *. apply filter_In. split; [done|]. by rewrite bool_decide_true.
Qed.

Definition is_get (pattern : string) : bool := String.prefix "GET " pattern.

(** What the tables give each role. *)
Lemma auditor_endpoints :
  forallb (λ p, is_get p || (p ==s "POST /groups/iamCheck")) (role_endpoints TenantAuditorRole) = true.
Proof. vm_compute. reflexivity. Qed.

Lemma admin_endpoints :
  forallb (λ p, existsb (λ x, String.prefix x p)
     ["GET /groups"; "POST /groups"; "PATCH /groups"; "DELETE /groups";
      "GET /tenantConfigurations"; "PATCH /tenantConfigurations"; "GET /tenantInfo"])
    (role_endpoints TenantAdminRole) = true.
Proof. vm_compute. reflexivity. Qed.

Lemma key_admin_endpoints :
  forallb (λ p, is_get p || (p ==s "POST /groups/iamCheck") ||
     negb (existsb (λ x, String.prefix x p)
       ["POST /groups"; "PATCH /groups"; "DELETE /groups"; "PATCH /tenantConfigurations"]))
    (role_endpoints KeyAdminRole) = true.
Proof. vm_compute. reflexivity. Qed.

Section Middleware.
Context {maps : GoMaps}.

(** A request that is served is on the allow list or passes the check with the
    data of the loader before or after a load. *)
Lemma middleware_served ctx pattern am am' :
  AuthzMiddleware ctx pattern am = (am', inr Served) →
  extractPattern pattern BasePath ∈ AllowListByAPI ∨
  ∃ x am1, assoc (extractPattern pattern BasePath) RestrictionsByAPI = Some x ∧
    (am1 = am ∨ am1 = (LoadTenantAllowedActions ctx am).1) ∧
    CheckAuthz ctx (al_AuthzHandler am1) (APIResourceTypeName x) (APIAction x) = inr true.
Proof.
  assert (∀ b : error + bool, isAllowed b = true → b = inr true) as Hall by (by intros [|[]]).
  unfold AuthzMiddleware. destruct (_ ∈? AllowListByAPI) eqn:Hm; [by left; apply mem_elem|].
  destruct (assoc _ RestrictionsByAPI) as [x|]; [|done].
  intros H. right. exists x. apply bind_ok in H as (am1 & allowed & H1 & H).
  apply bind_ok in H1 as (? & ? & [= <- <-] & [= <- <-]).
  destruct (isAllowed _) eqn:Hc; [exists am; split_and!; auto|].
  destruct (ExtractTenantID ctx); [discriminate H|]. apply bind_ok in H as (am1 & r & Hr & H).
  apply (proj1 (attempt_ok _ _ _ _)) in Hr. destruct r; [done|]. apply bind_ok in H as (am2 & allowed & H1 & H).
  apply bind_ok in H1 as (? & ? & [= <- <-] & [= <- <-]).
  destruct (isAllowed (CheckAuthz ctx (al_AuthzHandler am1) _ _)) eqn:Hc1; [|done].
  exists am1. rewrite Hr. split_and!; auto.
Qed.

(** Only the tenant's own groups give access, by the policies of their roles. *)
Lemma middleware_role hist am am' ctx pattern :
  loader_run APIPolicies hist am → ctx_userType ctx = Some BusinessUser →
  AuthzMiddleware ctx pattern am = (am', inr Served) →
  extractPattern pattern BasePath ∈ AllowListByAPI ∨
  ∃ t d g c, ctx_tenant ctx = Some t ∧ ctx_businessUserData ctx = Some d ∧ c ∈ hist ∧
    g ∈ tenant_groups c t ∧ g_IAMIdentifier g ∈ ClientGroups d ∧
    extractPattern pattern BasePath ∈ role_endpoints (g_Role g).
Proof.
  intros Hrun Hu [?|(x & am1 & Hx & Ham1 & Hc)]%middleware_served; [by left|right].
  assert (loader_run APIPolicies hist am1) as Hrun1.
  { destruct Ham1 as [-> | ->]; [done|by apply run_load]. }
  apply loader_run_inv in Hrun1 as (_ & _ & Hk).
  apply (proj1 (business_allowed_iff _ _ _ _ Hu)) in Hc
    as (t & d & id & acts & i & Ht & _ & Hd & _ & _ & _ & _ & _ & Hi & Hkey).
  apply Hk in Hkey as (c & Hch & g & ps & Hg & <- & Hps & Hga).
  exists t, d, g, c. split_and!; try done. by eapply role_endpoints_spec.
Qed.

(** Separation of duties at the API.  Suppose that all groups of the
    caller's token that the caller's tenant has ever had carry one role.  A
    served request is then on the public allow list or of that role's own
    endpoints: an auditor only reads (apart from the group check, which is a
    POST), a tenant administrator never touches keys, key configurations, systems
    or workflows, and a key administrator never changes groups or tenant
    settings. *)
Theorem duties_are_separated hist am am' ctx pattern role t d :
  loader_run APIPolicies hist am → ctx_userType ctx = Some BusinessUser →
  ctx_tenant ctx = Some t → ctx_businessUserData ctx = Some d →
  (∀ c g, c ∈ hist → g ∈ tenant_groups c t → g_IAMIdentifier g ∈ ClientGroups d → g_Role g = role) →
  AuthzMiddleware ctx pattern am = (am', inr Served) →
  let p := extractPattern pattern BasePath in
  p ∉ AllowListByAPI →
  p ∈ role_endpoints role ∧
  (role = TenantAuditorRole → is_get p || (p ==s "POST /groups/iamCheck") = true) ∧
  (role = TenantAdminRole →
     existsb (λ x, String.prefix x p)
       ["GET /groups"; "POST /groups"; "PATCH /groups"; "DELETE /groups";
        "GET /tenantConfigurations"; "PATCH /tenantConfigurations"; "GET /tenantInfo"] = true) ∧
  (role = KeyAdminRole →
     is_get p || (p ==s "POST /groups/iamCheck") ||
     negb (existsb (λ x, String.prefix x p)
       ["POST /groups"; "PATCH /groups"; "DELETE /groups"; "PATCH /tenantConfigurations"]) = true).
Proof.
  intros Hrun Hu Ht Hd Hroles H p Hp. eapply middleware_role in H as [H|H]; [done| |done|done].
  destruct H as (t' & d' & g & c & Ht' & Hd' & Hc & Hg & Hi & Hend). simplify_eq.
  rewrite (Hroles c g) in Hend by done. fold p in Hend. split; [done|].
  split_and!; intros ->; revert p Hp Hend; intros p _ Hend.
  - apply (forallb_elem _ _ auditor_endpoints p Hend).
  - apply (forallb_elem _ _ admin_endpoints p Hend).
  - apply (forallb_elem _ _ key_admin_endpoints p Hend).
Qed.

(** * The periodic reload *)

Lemma load_without_tenant ctx tenantID e0 am am' r :
  ExtractTenantID ctx = inl e0 → al_TenantIDs am !! tenantID = None →
  loadTenantAllowedActions ctx tenantID am = (am', r) →
  ∃ e, r = inl e ∧ al_TenantIDs am' = al_TenantIDs am ∧ al_AuthzHandler am' = al_AuthzHandler am.
Proof.
  unfold loadTenantAllowedActions. intros He Hno. destruct (_ ==s _); [intros [= <- <-]; eauto|].
  intros [(e & Hk & ->)|(am1 & known & Hk & H)]%bind_inv;
    apply on_repo_run in Hk as (c & _ & -> & _); try apply isTenantKnown_data; [by eauto|].
  destruct known; [|injection H as <- <-; by eauto].
  apply bind_inv in H as [(e & [=] & _)|(am1 & am0 & [= <- <-] & H)].
  cbn [al_TenantIDs set_al_repo] in H. rewrite Hno in H.
  apply bind_inv in H as [(e & Hg & ->)|(am1 & groups & Hg & _)];
    apply on_repo_run in Hg as (c2 & Hg & -> & _); try apply getGroups_data; [by eauto|].
  apply getGroups_ok in Hg as (t & Ht & _). congruence.
Qed.

(** The reload that the server starts with its own context, which names no
    tenant, cannot refresh anything: it drops all loaded data, and it fails as
    soon as one tenant had been loaded. *)
Theorem refresh_without_tenant ctx e0 am am' r :
  ExtractTenantID ctx = inl e0 →
  ReloadTenantAllowedActions ctx am = (am', r) →
  al_TenantIDs am' = ∅ ∧ keys am' = ∅ ∧ (r = inr tt ↔ al_TenantIDs am = ∅).
Proof.
  intros He H. unfold ReloadTenantAllowedActions in H.
  apply bind_inv in H as [(? & [=] & _)|(? & ids & [= <- <-] & H)].
  apply bind_inv in H as [(? & [=] & _)|(am1 & [] & [= <-] & H)].
  pose proof (range_perm (al_TenantIDs am)) as Hperm.
  destruct (range (al_TenantIDs am)) as [|[t u] rest] eqn:Hr.
  - injection H as <- <-. split; [done|]. split; [done|]. split; [intros _|done].
    symmetry in Hperm. by apply Permutation_nil_r, map_to_list_empty_iff in Hperm.
  - simpl for_each in H. apply bind_inv in H as [(e & H & ->)|(am2 & [] & H & _)].
    + apply map_err_err in H as (e' & H & _).
      eapply load_without_tenant in H as (? & _ & Hids & Hh); [|done|done].
      rewrite Hids, Hh. split; [done|]. split; [done|]. split; [done|].
      intros Hem. rewrite Hem, map_to_list_empty in Hperm. by apply Permutation_nil_r in Hperm.
    + apply map_err_ok in H. by eapply load_without_tenant in H as (? & ? & _).
Qed.
End Middleware.
