(* ===== verification/Batch.v ===== *)
(** Paginated processing: [ProcessInBatchWithOptions], [ProcessInBatch] and
    [ListAndCount] of internal/repo/repository.go.

    The Go loop is unbounded; the model takes fuel and returns [None] when it runs
    out, and the theorems show that one unit of fuel per matching row, plus one, is
    always enough. *)
From S2P Require Import Prelude Errs Json Model Store.

Record Pagination := mkPagination {
  Skip : Z;
  Top : Z;
  PCount : bool }.

Record BatchProcessOptions := mkBatchOptions {
  DeleteMode : bool;
  IgnoreFailMode : bool }.

Section Batch.
Context {T : Type} `{!Resource T}.
Variable baseQuery : Query T.
Variable batchSize : Z.
Variable options : BatchProcessOptions.
Variable processFunc : list T → Comp World unit.

(** [return lastError] *)
Definition batch_end (lastError : option error) : Comp World (option unit) :=
  match lastError with
  | None => mret (Some tt)
  | Some e => fail e
  end.

Fixpoint batch_loop (fuel : nat) (offset : Z) (lastError : option error) :
    Comp World (option unit) :=
  match fuel with
  | O => mret None
  | S fuel =>
      let query := SetOffset offset (SetLimit batchSize baseQuery) in
      items ← List_ query;
      result ← attempt (processFunc items);
      let continue (lastError : option error) : Comp World (option unit) :=
        match items with
        | [] => batch_end lastError
        | _ =>
            let offset := if DeleteMode options then offset else (offset + batchSize)%Z in
            count ← Count query;
            if negb (DeleteMode options) && (count <=? offset)%Z
            then batch_end lastError
            else batch_loop fuel offset lastError
        end in
      match result with
      | inl err => if IgnoreFailMode options then continue (Some err) else fail err
      | inr _ => continue lastError
      end
  end.

Definition ProcessInBatchWithOptions (fuel : nat) : Comp World (option unit) :=
  batch_loop fuel 0 None.
End Batch.

Definition ProcessInBatch {T} `{!Resource T} (baseQuery : Query T) (batchSize : Z)
    (processFunc : list T → Comp World unit) (fuel : nat) : Comp World (option unit) :=
  ProcessInBatchWithOptions baseQuery batchSize (mkBatchOptions false false) processFunc fuel.

(** The same loop with a callback that writes to variables of its caller: the
    accumulator is their value.  Only the default options are used so. *)
Fixpoint batch_fold {A T} `{!Resource T} (baseQuery : Query T) (batchSize : Z)
    (processFunc : A → list T → Comp World A) (fuel : nat) (offset : Z) (acc : A) :
    Comp World (option A) :=
  match fuel with
  | O => mret None
  | S fuel =>
      let query := SetOffset offset (SetLimit batchSize baseQuery) in
      items ← List_ query;
      acc ← processFunc acc items;
      match items with
      | [] => mret (Some acc)
      | _ =>
          let offset := (offset + batchSize)%Z in
          count ← Count query;
          if (count <=? offset)%Z then mret (Some acc)
          else batch_fold baseQuery batchSize processFunc fuel offset acc
      end
  end.

(** One unit of fuel per row, and one more. *)
Definition FoldInBatch {A T} `{!Resource T} (baseQuery : Query T) (batchSize : Z)
    (processFunc : A → list T → Comp World A) (acc : A) : Comp World A :=
  n ← gets (λ w, length (rows (w_db w)));
  r ← batch_fold baseQuery batchSize processFunc (S n) 0 acc;
  match r with Some a => mret a | None => fail (Panic "out of fuel") end.

(** [repo.QueryMapper]: the condition of the query (building it may crash), the strings it
    compares columns with, and the page. *)
Record QueryMapper (T : Type) := mkQueryMapper {
  qm_GetQuery : error + (DB → T → bool);
  qm_compared : list string;
  qm_GetUUID : string → error + uuid;
  qm_GetPagination : Pagination }.
Arguments mkQueryMapper {T} _ _ _ _.
Arguments qm_GetQuery {T} _.
Arguments qm_compared {T} _.
Arguments qm_GetUUID {T} _ _.
Arguments qm_GetPagination {T} _.

Definition ListAndCount {T} `{!Resource T} (pagination : Pagination) (query : Query T) :
    Comp World (list T * Z) :=
  let top := if (Top pagination =? 0)%Z then DefaultLimit else Top pagination in
  let query := SetOffset (Skip pagination) (SetLimit top query) in
  res ← map_err (wrapping ErrListingItems) (List_ query);
  if negb (PCount pagination) then mret (res, 0%Z)
  else
    count ← map_err (wrapping ErrCountingItem) (Count query);
    mret (res, count).

(** * Reads in a world without failures *)

Section Reads.
Context {T : Type} `{!Resource T}.

Lemma world_no_faults w : w_faults w = [] → set_db (w_db w) (set_faults (tail (w_faults w)) w) = w.
Proof. destruct w; simpl. by intros ->. Qed.

Lemma List_eval (q : Query T) w : w_faults w = [] →
  List_ q w = (w, inr (applyPagination q (select (q_where q) (rows (w_db w))))).
Proof.
  intros Hw. unfold List_, db_call. rewrite Hw. simpl. f_equal.
  rewrite <-(world_no_faults w Hw) at 3. by rewrite Hw.
Qed.

Lemma Count_eval (q : Query T) w : w_faults w = [] →
  Count q w = (w, inr (Z.of_nat (length (select (q_where q) (rows (w_db w)))))).
Proof.
  intros Hw. unfold Count, db_call. rewrite Hw. simpl. f_equal.
  rewrite <-(world_no_faults w Hw) at 3. by rewrite Hw.
Qed.
End Reads.

(** A relation kept by the callback and by reading is kept by the loop. *)
Lemma batch_loop_preserves (R : World → World → Prop) `{!PreOrder R} {T} `{!Resource T} (q : Query T)
    size opts (f : list T → Comp World unit) :
  (∀ q : Query T, preserves R (List_ q)) → (∀ q : Query T, preserves R (Count q)) →
  (∀ l, preserves R (f l)) →
  ∀ fuel offset err, preserves R (batch_loop q size opts f fuel offset err).
Proof.
  intros Hl Hc Hf. assert (∀ err, preserves R (batch_end err)) as He.
  { intros [e|]; [apply preserves_fail, _|apply preserves_ret, _]. }
  induction fuel as [|fuel IH]; intros offset err; [apply preserves_ret, _|]. cbn [batch_loop].
  apply preserves_bind; [done|apply Hl|intros items].
  apply preserves_bind; [done|apply preserves_attempt, Hf|intros r].
  assert (∀ err, preserves R
    match items with
    | [] => batch_end err
    | _ =>
        count ← Count (SetOffset offset (SetLimit size q));
        if negb (DeleteMode opts) && (count <=? (if DeleteMode opts then offset else (offset + size)%Z))%Z
        then batch_end err
        else batch_loop q size opts f fuel (if DeleteMode opts then offset else (offset + size)%Z) err
    end) as Hcont.
  { intros err'. destruct items; [apply He|].
    apply preserves_bind; [done|apply Hc|intros n]. destruct (_ && _); [apply He|apply IH]. }
  destruct r as [e|u]; [destruct (IgnoreFailMode opts); [apply Hcont|apply preserves_fail, _]|apply Hcont].
Qed.

(** * A batch run is one pass over the matching rows *)

Definition as_batch_result (r : World * (error + unit)) : World * (error + option unit) :=
  match r with
  | (w, inl e) => (w, inl e)
  | (w, inr _) => (w, inr (Some tt))
  end.

(** The pages of a list: at least one, all but the last full. *)
Fixpoint pages {A} (n b : nat) (l : list A) : list (list A) :=
  match n with
  | O => []
  | S n => take b l :: match drop b l with [] => [] | r => pages n b r end
  end.

Lemma pages_concat {A} n b (l : list A) : 0 < b → length l < n → concat (pages n b l) = l.
Proof.
  intros Hb. revert l. induction n as [|n IH]; intros l Hn; [lia|]. simpl.
  destruct (drop b l) as [|x r] eqn:Hd.
  - rewrite app_nil_r. rewrite <-(take_drop b l) at 2. by rewrite Hd, app_nil_r.
  - rewrite <-Hd. rewrite IH; [by rewrite take_drop|].
    rewrite length_drop. assert (length l ≠ 0); [|lia].
    intros ->%length_zero_iff_nil. by rewrite drop_nil in Hd.
Qed.

Lemma pages_size {A} n b (l : list A) : Forall (λ c, length c ≤ b) (pages n b l).
Proof.
  revert l. induction n as [|n IH]; intros l; simpl; [constructor|].
  constructor; [rewrite length_take; lia|]. destruct (drop b l); [constructor|apply IH].
Qed.

Section OnePass.
Context {T : Type} `{!Resource T}.
Variable q : Query T.
Variable batchSize : Z.
Variable f : list T → Comp World unit.
Hypothesis Hsize : (0 < batchSize)%Z.

Definition matching (w : World) : list T := select (q_where q) (rows (w_db w)).
Definition same_matching (w w' : World) : Prop := matching w' = matching w.

Hypothesis Hrows : ∀ items, preserves same_matching (f items).
Hypothesis Hfaults : ∀ items, preserves fewer_faults (f items).

Lemma no_faults_after items w w' r :
  w_faults w = [] → f items w = (w', r) → w_faults w' = [].
Proof using Hfaults.
  intros Hw Hf. pose proof (Hfaults items w) as Hs. rewrite Hf in Hs.
  unfold fewer_faults in Hs. simpl in Hs. rewrite Hw in Hs. by apply suffix_nil_inv in Hs.
Qed.

Lemma page_eq k l :
  applyPagination (SetOffset (Z.of_nat k) (SetLimit batchSize q)) l =
  take (Z.to_nat batchSize) (drop k l).
Proof using Hsize.
  unfold applyPagination. simpl. rewrite Nat2Z.id.
  destruct (Z.leb_spec batchSize 0); [lia|done].
Qed.

Lemma batch_loop_pass fuel k w :
  w_faults w = [] → length (matching w) - k < fuel →
  batch_loop q batchSize (mkBatchOptions false false) f fuel (Z.of_nat k) None w =
    as_batch_result (for_each f (pages fuel (Z.to_nat batchSize) (drop k (matching w))) w).
Proof using Hsize Hrows Hfaults.
  revert k w. induction fuel as [|fuel IH]; intros k w Hw Hfuel; [lia|].
  cbn [batch_loop pages for_each]. unfold mbind, M_bind, attempt.
  rewrite List_eval by done. rewrite page_eq. cbn [SetOffset SetLimit q_where].
  change (select (q_where q) (rows (w_db w))) with (matching w).
  set (l := matching w) in *. set (b := Z.to_nat batchSize).
  destruct (f (take b (drop k l)) w) as [w1 [e|[]]] eqn:Hf; [done|].
  assert (matching w1 = l) as Hm.
  { pose proof (Hrows (take b (drop k l)) w) as Hr. by rewrite Hf in Hr. }
  assert (w_faults w1 = []) as Hw1 by (by eapply no_faults_after).
  destruct (take b (drop k l)) as [|x xs] eqn:Htake.
  { destruct (drop k l) as [|y ys]; [by destruct b|].
    subst b. destruct (Z.to_nat batchSize) eqn:Hb; [lia|done]. }
  rewrite Count_eval by done. cbn [SetOffset SetLimit q_where].
  fold (matching w1). rewrite Hm. cbn [DeleteMode negb andb].
  rewrite drop_drop. destruct (Z.leb_spec (Z.of_nat (length l)) (Z.of_nat k + batchSize)).
  - rewrite drop_ge by (subst b; lia). done.
  - destruct (drop (k + b) l) as [|y ys] eqn:Hd.
    { apply (f_equal length) in Hd. rewrite length_drop in Hd. simpl in Hd. subst b. lia. }
    rewrite <-Hd. replace (Z.of_nat k + batchSize)%Z with (Z.of_nat (k + b)) by (subst b; lia).
    rewrite IH by (rewrite ?Hm; subst b; try done; lia). by rewrite Hm.
Qed.
End OnePass.

(** Batch processing is one pass: when the callback does not change which rows
    match, [ProcessInBatch] terminates (one unit of fuel per matching row and one
    more is enough) and behaves exactly like calling the callback on consecutive
    pages of at most [batchSize] rows whose concatenation is the matching rows, in
    order, each once; an error of the callback stops it and is returned. *)
Theorem ProcessInBatch_one_pass {T} `{!Resource T} (q : Query T) batchSize f w fuel :
  (0 < batchSize)%Z →
  (∀ items, preserves (same_matching q) (f items)) →
  (∀ items, preserves fewer_faults (f items)) →
  w_faults w = [] →
  length (matching q w) < fuel →
  ∃ cs, concat cs = matching q w ∧
    Forall (λ c, (Z.of_nat (length c) ≤ batchSize)%Z) cs ∧
    ProcessInBatch q batchSize f fuel w = as_batch_result (for_each f cs w).
Proof.
  intros Hb Hr Hf Hw Hn. exists (pages fuel (Z.to_nat batchSize) (matching q w)). split_and!.
  - apply pages_concat; lia.
  - eapply Forall_impl; [apply pages_size|]. simpl. lia.
  - unfold ProcessInBatch, ProcessInBatchWithOptions. change 0%Z with (Z.of_nat 0).
    rewrite (batch_loop_pass q batchSize f Hb Hr Hf fuel 0 w) by (done || lia).
    by rewrite drop_0.
Qed.

(** * The loop with an accumulator

    A rule for it: [Inv done a w] holds of the rows handled so far, the accumulator
    and the world, [Err] of the way it can fail.  The rule covers every schedule of
    failures, and says in particular that the fuel never runs out. *)

Lemma db_call_read_run {A} (g : DB → A) w w' r :
  db_call (λ _ d, (d, inr (g d))) w = (w', r) →
  w' = set_faults (tail (w_faults w)) w ∧
  ((∃ e, head (w_faults w) = Some (Some e) ∧ r = inl (repo_err w e)) ∨ r = inr (g (w_db w))).
Proof.
  unfold db_call. destruct (head (w_faults w)) as [[e|]|] eqn:Hh; intros [= <- <-];
    (split; [by destruct w|eauto]).
Qed.

Section FoldRule.
Context {A T : Type} `{!Resource T}.
Variable q : Query T.
Variable batchSize : Z.
Variable f : A → list T → Comp World A.
Variable l : list T.
Variable Inv : list T → A → World → Prop.
Variable Err : error → World → Prop.
Hypothesis Hsize : (0 < batchSize)%Z.
Hypothesis Hmatch : ∀ dn a w, Inv dn a w → matching q w = l.
Hypothesis Hread : ∀ dn a w, Inv dn a w → Inv dn a (set_faults (tail (w_faults w)) w).
Hypothesis Hfault : ∀ dn a w e, Inv dn a w → head (w_faults w) = Some (Some e) →
  Err (repo_err w e) (set_faults (tail (w_faults w)) w).
Hypothesis Hstep : ∀ dn items rest a w w' r, l = dn ++ items ++ rest → Inv dn a w →
  f a items w = (w', r) →
  match r with inr a' => Inv (dn ++ items) a' w' | inl e => Err e w' end.

Lemma batch_fold_rule fuel dn rest a w w' r :
  l = dn ++ rest → length rest < fuel → Inv dn a w →
  batch_fold q batchSize f fuel (Z.of_nat (length dn)) a w = (w', r) →
  match r with inr o => ∃ a', o = Some a' ∧ Inv l a' w' | inl e => Err e w' end.
Proof using Hsize Hmatch Hread Hfault Hstep.
  revert dn rest a w. induction fuel as [|fuel IH]; intros dn rest a w Hl Hfuel Hinv; [lia|].
  cbn [batch_fold]. intros [(e & H1 & ->)|(w1 & items & H1 & H)]%bind_inv.
  { apply (db_call_read_run (λ d, applyPagination
      (SetOffset (Z.of_nat (length dn)) (SetLimit batchSize q)) (select (q_where q) (rows d)))) in H1
      as (-> & [(e' & He & [= ->])|]); [by eapply Hfault|done]. }
  apply (db_call_read_run (λ d, applyPagination
    (SetOffset (Z.of_nat (length dn)) (SetLimit batchSize q)) (select (q_where q) (rows d)))) in H1
    as (-> & [(e' & _ & [=])|[= Hitems]]).
  rewrite (page_eq q batchSize Hsize) in Hitems.
  change (select (q_where q) (rows (w_db w))) with (matching q w) in Hitems.
  rewrite (Hmatch _ _ _ Hinv), Hl, drop_app_length in Hitems. subst items.
  set (b := Z.to_nat batchSize) in *. apply Hread in Hinv.
  apply bind_inv in H as [(e & H2 & ->)|(w2 & a2 & H2 & H)];
    (eapply Hstep in H2; [|rewrite <-(take_drop b rest) in Hl; exact Hl|done]); [done|].
  destruct (take b rest) as [|x xs] eqn:Ht.
  { destruct rest; [|by destruct b eqn:?; [lia|]]. injection H as <- <-. exists a2.
    rewrite !app_nil_r in *. by subst. }
  apply bind_inv in H as [(e & H3 & ->)|(w3 & count & H3 & H)].
  { apply (db_call_read_run (λ d, Z.of_nat (length (select (q_where q) (rows d))))) in H3
      as (-> & [(e' & He & [= ->])|]); [by eapply Hfault|done]. }
  apply (db_call_read_run (λ d, Z.of_nat (length (select (q_where q) (rows d))))) in H3
    as (-> & [(e' & _ & [=])|[= ->]]).
  change (select (q_where q) (rows (w_db w2))) with (matching q w2) in H.
  rewrite (Hmatch _ _ _ H2), Hl in H. apply Hread in H2.
  rewrite <-Ht in *. rewrite length_app in H.
  destruct (Z.leb_spec (Z.of_nat (length dn + length rest)) (Z.of_nat (length dn) + batchSize)) as [Hle|Hlt].
  - injection H as <- <-. exists a2. split; [done|].
    rewrite (take_ge rest b) in H2 by (subst b; lia). by rewrite Hl.
  - replace (Z.of_nat (length dn) + batchSize)%Z with (Z.of_nat (length (dn ++ take b rest))) in H
      by (rewrite length_app, length_take; subst b; lia).
    eapply (IH _ (drop b rest)) in H; [exact H|..|done].
    + by rewrite <-app_assoc, take_drop.
    + rewrite length_drop. subst b. lia.
Qed.

Lemma FoldInBatch_rule a w w' r :
  Inv [] a w → FoldInBatch q batchSize f a w = (w', r) →
  match r with inr a' => Inv l a' w' | inl e => Err e w' end.
Proof using Hsize Hmatch Hread Hfault Hstep.
  intros Hinv. unfold FoldInBatch.
  intros [(e & [=] & _)|(w1 & n & [= <- <-] & H)]%bind_inv.
  assert (length l < S (length (rows (w_db w)))) as Hn.
  { rewrite <-(Hmatch _ _ _ Hinv). unfold matching, select.
    pose proof (List.filter_length_le (q_where q) (rows (w_db w))). lia. }
  apply bind_inv in H as [(e & H1 & ->)|(w1 & o & H1 & H)];
    change 0%Z with (Z.of_nat (length (@nil T))) in H1;
    (eapply batch_fold_rule in H1; [|reflexivity|exact Hn|exact Hinv]); [done|].
  destruct H1 as (a' & -> & Hi). by injection H as <- <-.
Qed.
End FoldRule.

Lemma tail_suffix {A} (l : list A) : tail l `suffix_of` l.
Proof. destruct l; simpl; [done|by apply suffix_cons_r]. Qed.

(** A callback that only computes: the result is one fold over the matching rows, the
    database is left alone and the only errors are those of the database. *)
Lemma FoldInBatch_pure {A T} `{!Resource T} (q : Query T) batchSize (g : A → T → A) a w w' r :
  (0 < batchSize)%Z →
  FoldInBatch q batchSize (λ a items, mret (foldl g a items)) a w = (w', r) →
  (∃ fs, w' = set_faults fs w ∧ fs `suffix_of` w_faults w) ∧
  ∀ a', r = inr a' → a' = foldl g a (matching q w).
Proof.
  intros Hs H. set (P w1 := ∃ fs, w1 = set_faults fs w ∧ fs `suffix_of` w_faults w).
  assert (∀ w1, P w1 → P (set_faults (tail (w_faults w1)) w1)) as HP.
  { intros w1 (fs & -> & Hf). exists (tail fs). split; [done|]. etrans; [apply tail_suffix|done]. }
  eapply (FoldInBatch_rule q batchSize _ (matching q w)
    (λ dn a' w1, P w1 ∧ a' = foldl g a dn) (λ e w1, P w1)) in H; try done.
  - destruct r as [e|a'']; [by split|]. destruct H as (? & ->). split; [done|]. by intros a' [= ->].
  - by intros dn a' w1 ((fs & -> & _) & _).
  - intros dn a' w1 (H1 & ->). split; [by apply HP|done].
  - intros dn a' w1 e (H1 & _) _. by apply HP.
  - intros dn items rest a' w1 w2 r' _ (Hw & ->) [= <- <-]. split; [done|]. by rewrite foldl_app.
  - split; [|done]. exists (w_faults w). split; [by destruct w|done].
Qed.

(** What the reads and the callback leave alone is left alone. *)
Section FoldPreserves.
Context (R : World → World → Prop) `{!PreOrder R}.
Context {A T : Type} `{!Resource T}.
Hypothesis Hlist : ∀ q : Query T, preserves R (List_ q).
Hypothesis Hcount : ∀ q : Query T, preserves R (Count q).

Lemma batch_fold_preserves (q : Query T) n f fuel offset (a : A) :
  (∀ a items, preserves R (f a items)) → preserves R (batch_fold q n f fuel offset a).
Proof using Hlist Hcount PreOrder0.
  intros Hf. revert offset a. induction fuel as [|fuel IH]; intros offset a; cbn [batch_fold].
  - apply preserves_ret, _.
  - preserve.
Qed.

Lemma FoldInBatch_preserves (q : Query T) n f (a : A) :
  (∀ a items, preserves R (f a items)) → preserves R (FoldInBatch q n f a).
Proof using Hlist Hcount PreOrder0.
  intros Hf. unfold FoldInBatch. preserve. by apply batch_fold_preserves.
Qed.
End FoldPreserves.
