(* ===== verification/OData.v ===== *)
(** The filters of list requests: utils/odata (parser.go, convert.go, schema.go,
    receive.go and the builder of request.go).

    A filter is a list of bytes.  The source walks over its runes, but every character
    it looks for is ASCII, and no byte of another rune is, so walking over the bytes
    makes no difference.  Spaces around an operand are those of ASCII. *)
From S2P Require Import Prelude Errs Json Model Store Batch.

Definition ErrFilterNotToSpec := New "odata.ErrFilterNotToSpec" "odata filter parameter: not to odata spec".
Definition ErrFilterOperationNotSupported :=
  New "odata.ErrFilterOperationNotSupported" "odata filter parameter: operation not supported".
Definition ErrFilterTypeNotSupported :=
  New "odata.ErrFilterTypeNotSupported" "odata filter parameter: type not supported".
Definition ErrFilterInvalidValue := New "odata.ErrFilterInvalidValue" "odata filter parameter: value invalid".
Definition ErrFilterNonSchema := New "odata.ErrFilterNonSchema" "odata filter parameter: non schema".
Definition ErrFilterTypeIncompatible :=
  New "odata.ErrFilterTypeIncompatible" "odata filter parameter: type incompatible".
Definition ErrFilterValueConversionFailed :=
  New "odata.ErrFilterValueConversionFailed" "odata filter parameter: type conversation failed".
Definition ErrFilterValueModificationFailed :=
  New "odata.ErrFilterValueModificationFailed" "odata filter parameter: value modification failed".

(** The sum with errors on the left, as a monad. *)
#[export] Instance sum_bind : MBind (sum error) := λ A B f m,
  match m with inl err => inl err | inr a => f a end.

Abbreviation bytes := (list Ascii.ascii).
Abbreviation lit := String.list_ascii_of_string.
Abbreviation text := String.string_of_list_ascii.

Definition isQuote (c : Ascii.ascii) : bool := Ascii.nat_of_ascii c =? 39.
(** unicode.IsSpace of a byte read as a rune *)
Definition unicode_IsSpace (c : Ascii.ascii) : bool :=
  let n := Ascii.nat_of_ascii c in isSpace c || (n =? 133) || (n =? 160).
Definition trimSpace (l : bytes) : bytes := reverse (dropSpace (reverse (dropSpace l))).

(** * parser.go *)

Definition nonSupportedOperations : list string :=
  [" or "; " not "; " ne "; " gt "; " ge "; " lt "; " le "; "("; ")"].

#[export] Instance ascii_eq_dec : EqDecision Ascii.ascii.
Proof. solve_decision. Defined.

Definition startsWithOp (slicedFilterParam : bytes) (op : string) : bool :=
  bool_decide (take (String.length op) slicedFilterParam = lit op).

(** Whether a boolean operation starts here, and the new value of the flag. *)
Definition checkFilterForOperation (splitOdataFilter : bytes) (properDyadFound : bool) :
    error + bool * bool :=
  if match splitOdataFilter with _ :: c :: _ => isQuote c || unicode_IsSpace c | _ => false end
  then inr (false, properDyadFound)
  else if startsWithOp splitOdataFilter " and " then inr (true, false)
  else if startsWithOp splitOdataFilter " eq " then
    if properDyadFound then inl ErrFilterNotToSpec else inr (false, true)
  else if existsb (startsWithOp splitOdataFilter) nonSupportedOperations
  then inl ErrFilterOperationNotSupported
  else inr (false, properDyadFound).

(** The loop of [splitBooleanOperations] from index [i] on, where [rest] is left. *)
Fixpoint scanOperations (i : nat) (rest : bytes) (quoteCount : nat) (boolOpIndices : list nat)
    (properDyadFound : bool) : error + nat * list nat :=
  match rest with
  | [] => inr (quoteCount, boolOpIndices)
  | c :: rest' =>
      if isQuote c then scanOperations (S i) rest' (S quoteCount) boolOpIndices properDyadFound
      else if Nat.even quoteCount then
        match checkFilterForOperation rest properDyadFound with
        | inl err => inl err
        | inr (found, dyad) =>
            scanOperations (S i) rest' quoteCount
              (if found then boolOpIndices ++ [i] else boolOpIndices) dyad
        end
      else scanOperations (S i) rest' quoteCount boolOpIndices properDyadFound
  end.

(** [param[from:to]]: the bounds are checked at run time. *)
Definition slice (param : bytes) (from to : nat) : error + bytes :=
  if (from <=? to) && (to <=? length param) then inr (take (to - from) (drop from param))
  else inl (Panic "slice bounds out of range").

Fixpoint splitFrom (param : bytes) (lastSplitIndex : nat) (boolOpIndices : list nat) : error + list bytes :=
  match boolOpIndices with
  | [] => operand ← slice param lastSplitIndex (length param); inr [operand]
  | andOpIndex :: indices =>
      splitAnd ← slice param lastSplitIndex andOpIndex;
      operands ← splitFrom param (andOpIndex + String.length " and ") indices;
      inr (splitAnd :: operands)
  end.
Definition splitBooleanOperandsFromIndices (param : bytes) (boolOpIndices : list nat) : error + list bytes :=
  splitFrom param 0 boolOpIndices.

Definition splitBooleanOperations (odataFilter : bytes) : error + list bytes :=
  '(quoteCount, boolOpIndices) ← scanOperations 0 odataFilter 0 [] false;
  if Nat.odd quoteCount then inl ErrFilterNotToSpec
  else splitBooleanOperandsFromIndices odataFilter boolOpIndices.

(** strings.SplitN(s, sep, 2): the text before and after the first [sep]. *)
Fixpoint cut (sep : string) (s : bytes) : option (bytes * bytes) :=
  if startsWithOp s sep then Some ([], drop (String.length sep) s)
  else match s with
       | [] => None
       | c :: s => '(before, after) ← cut sep s; Some (c :: before, after)
       end.

(** A quote before the operator is an error. *)
Definition splitComparisonOperation (odataFilterOp : bytes) : error + bytes * bytes :=
  match cut " eq " odataFilterOp with
  | None => inl ErrFilterNotToSpec
  | Some (field, value) =>
      if existsb isQuote field then inl ErrFilterNotToSpec
      else inr (trimSpace field, trimSpace value)
  end.

Fixpoint splitComparisons (ops : list bytes) : error + list (bytes * bytes) :=
  match ops with
  | [] => inr []
  | op :: ops =>
      comparison ← splitComparisonOperation op;
      comparisons ← splitComparisons ops;
      inr (comparison :: comparisons)
  end.

(** The fields and their values, in order. *)
Definition parseFilter (odataFilter : bytes) : error + list (bytes * bytes) :=
  if length odataFilter =? 0 then inr [] else
  comparisonOperations ← splitBooleanOperations odataFilter;
  splitComparisons comparisonOperations.

(** * convert.go *)

Inductive FilterValue :=
| VString (s : string)
| VUUID (u : uuid)
| VBool (b : bool)
| VInt (z : Z).

(** Whether quotes come in pairs; [cnt] is the number of quotes just before, and quotes at
    the very end are not counted. *)
Fixpoint quotesPaired (cnt : nat) (l : bytes) : bool :=
  match l with
  | [] => true
  | c :: l =>
      if isQuote c then quotesPaired (S cnt) l
      else if Nat.odd cnt then false else quotesPaired 0 l
  end.

(** strings.ReplaceAll of two quotes by one *)
Fixpoint unescape (l : bytes) : bytes :=
  match l with
  | c :: ((c' :: l'') as l') => if isQuote c && isQuote c' then c :: unescape l'' else c :: unescape l'
  | _ => l
  end.

Definition convertString (odataValue : bytes) : error + string :=
  if negb (quotesPaired 0 odataValue) then inl ErrFilterNotToSpec else inr (text (unescape odataValue)).

Definition convertUUID `{!UUIDParse} (value : bytes) : error + uuid :=
  str ← convertString value;
  match uuid_Parse str with
  | inl err => inl (Wrap ErrFilterValueConversionFailed (Some err))
  | inr uuidVal => inr uuidVal
  end.

Definition convertBool (value : bytes) : error + bool :=
  if text value ==s "true" then inr true
  else if text value ==s "false" then inr false
  else inl ErrFilterNotToSpec.

(** strconv.ParseInt(value, 10, 64) *)
Definition digitValue (c : Ascii.ascii) : option Z :=
  let n := Ascii.nat_of_ascii c in if (48 <=? n) && (n <=? 57) then Some (Z.of_nat (n - 48)) else None.
Definition parseDigits (l : bytes) : option Z :=
  match l with
  | [] => None
  | _ => foldl (λ acc c, a ← acc; d ← digitValue c; Some (10 * a + d)%Z) (Some 0%Z) l
  end.
Definition int64 (z : Z) : option Z :=
  if ((- 2 ^ 63 <=? z) && (z <? 2 ^ 63))%Z then Some z else None.
Definition ParseInt (l : bytes) : option Z :=
  match l with
  | c :: l' =>
      if Ascii.nat_of_ascii c =? 45 then z ← parseDigits l'; int64 (- z)
      else if Ascii.nat_of_ascii c =? 43 then z ← parseDigits l'; int64 z
      else z ← parseDigits l; int64 z
  | [] => None
  end.
Definition convertInt (value : bytes) : error + Z :=
  match ParseInt value with Some z => inr z | None => inl ErrFilterNotToSpec end.

(** * schema.go *)

Inductive FilterKind := KString | KBool | KInt | KUUID.
#[export] Instance FilterKind_eq_dec : EqDecision FilterKind.
Proof. solve_decision. Defined.

(** A column of a row, and the condition [applyFieldEqualCondition] makes of a value. *)
Inductive Column :=
| TextColumn (c : option string)
| UUIDColumn (c : option uuid).
Definition columnEq (v : FilterValue) (c : Column) : bool :=
  match v, c with
  | VString s, TextColumn c => eqNullable s c
  | VUUID u, UUIDColumn c => bool_decide (c = Some u)
  | _, _ => false
  end.

Section Mapper.
(** The rows of the endpoint's table, and their columns by name. *)
Context {T : Type} (column : string → T → Column) {UP : UUIDParse}.

(** [DBQuery] is given as the condition that its query adds. *)
Record FilterSchemaEntry := mkEntry {
  FilterName : string;
  FilterType : FilterKind;
  DBName : string;
  DBQuery : option (DB → FilterValue → T → bool);
  ValueModifier : option (string → string * bool);
  ValueValidator : option (string → bool) }.
Definition FilterSchema : Type := list FilterSchemaEntry.

Definition preProcessValue (fs : FilterSchemaEntry) (odataValue : bytes) : error + bytes :=
  match FilterType fs with
  | KString | KUUID =>
      if (length odataValue <? 2) || negb (match head odataValue with Some c => isQuote c | None => false end) ||
         negb (match last odataValue with Some c => isQuote c | None => false end)
      then inl ErrFilterNotToSpec
      else inr (take (length odataValue - 2) (tail odataValue))
  | _ => inr odataValue
  end.

Definition entry_modify (fs : FilterSchemaEntry) (preProcessedOdataValue : bytes) : error + bytes :=
  match ValueModifier fs with
  | None => inr preProcessedOdataValue
  | Some modifier =>
      let '(modifiedOdataValue, ok) := modifier (text preProcessedOdataValue) in
      if negb ok then inl ErrFilterValueModificationFailed else inr (lit modifiedOdataValue)
  end.

Definition entry_convert (fs : FilterSchemaEntry) (modifiedOdataValue : bytes) : error + FilterValue :=
  match FilterType fs with
  | KString => s ← convertString modifiedOdataValue; inr (VString s)
  | KUUID => u ← convertUUID modifiedOdataValue; inr (VUUID u)
  | KBool => b ← convertBool modifiedOdataValue; inr (VBool b)
  | KInt => z ← convertInt modifiedOdataValue; inr (VInt z)
  end.

(** The validator sees the value before it is converted. *)
Definition entry_apply (fs : FilterSchemaEntry) (odataValue : bytes) : error + FilterValue :=
  processedOdataValue ← preProcessValue fs odataValue;
  processedOdataValue ← entry_modify fs processedOdataValue;
  convertedValue ← entry_convert fs processedOdataValue;
  match ValueValidator fs with
  | Some valid => if negb (valid (text processedOdataValue)) then inl ErrFilterInvalidValue else inr convertedValue
  | None => inr convertedValue
  end.

Definition getEntryFromDBName (fs : FilterSchema) (dbName : string) : error + FilterSchemaEntry :=
  match find (λ e, DBName e ==s dbName) fs with
  | Some entry => inr entry
  | None => inl ErrFilterNonSchema
  end.

Definition assertTypeFromDBName (fs : FilterSchema) (dbName : string) (filterType : FilterKind) : option error :=
  match getEntryFromDBName fs dbName with
  | inl err => Some err
  | inr entry => if bool_decide (FilterType entry ≠ filterType) then Some ErrFilterTypeIncompatible else None
  end.

Definition schema_apply (fs : FilterSchema) (odataField odataValue : bytes) : error + string * FilterValue :=
  match find (λ e, text odataField ==s FilterName e) fs with
  | Some entry => convertedValue ← entry_apply entry odataValue; inr (DBName entry, convertedValue)
  | None => inl ErrFilterNonSchema
  end.

(** * receive.go *)

(** The fields and values in the order of the filter, and the map with the last value of
    each field. *)
Record QueryOdataMapper := mkMapper {
  filterSchema : FilterSchema;
  om_skip : option Z;
  om_top : option Z;
  om_count : option bool;
  parseFilterFields : list (string * FilterValue);
  parseFilterMap : gmap string FilterValue }.

Definition NewQueryOdataMapper (schema : FilterSchema) : QueryOdataMapper :=
  mkMapper schema None None None [] ∅.

Definition SetPaging (skip top : option Z) (count : option bool) (mf : QueryOdataMapper) : QueryOdataMapper :=
  mkMapper (filterSchema mf) skip top count (parseFilterFields mf) (parseFilterMap mf).

Definition setFieldValue (field : string) (value : FilterValue) : Comp QueryOdataMapper unit :=
  modify (λ mf, mkMapper (filterSchema mf) (om_skip mf) (om_top mf) (om_count mf)
    (parseFilterFields mf ++ [(field, value)]) (<[field := value]> (parseFilterMap mf))).

Definition ParseFilter (param : option string) : Comp QueryOdataMapper unit :=
  match param with
  | None => mret tt
  | Some paramVal =>
      comparisons ← lift (parseFilter (lit paramVal));
      _ ← modify (λ mf, mkMapper (filterSchema mf) (om_skip mf) (om_top mf) (om_count mf)
             (parseFilterFields mf) ∅);
      for_each (λ comparison : bytes * bytes,
        mf ← get;
        r ← lift (schema_apply (filterSchema mf) comparison.1 comparison.2);
        let '(convertedField, convertedValue) := r : string * FilterValue in
        setFieldValue convertedField convertedValue) comparisons
  end.

(** [GetQuery]: the conditions are all joined with AND. *)
Definition addCondition (schema : FilterSchema) (acc : error + (DB → T → bool)) (fv : string * FilterValue) :
    error + (DB → T → bool) :=
  query ← acc;
  match getEntryFromDBName schema fv.1 with
  | inl _ => inl nilDereference
  | inr entry =>
      inr (λ d row, query d row &&
             match DBQuery entry with
             | Some condition => condition d fv.2 row
             | None => columnEq fv.2 (column fv.1 row)
             end)
  end.
Definition mapper_GetQuery (mf : QueryOdataMapper) : error + (DB → T → bool) :=
  foldl (addCondition (filterSchema mf)) (inr (λ _ _, true)) (parseFilterFields mf).

Definition DefaultSkip : Z := 0.
Definition DefaultTop : Z := 20.
Definition mapper_GetPagination (mf : QueryOdataMapper) : Pagination :=
  mkPagination (default DefaultSkip (om_skip mf)) (default DefaultTop (om_top mf)) (default false (om_count mf)).

Definition mapper_GetString (mf : QueryOdataMapper) (field : string) : error + string :=
  match parseFilterMap mf !! field with
  | None =>
      match assertTypeFromDBName (filterSchema mf) field KString with
      | Some err => inl err
      | None => inr ""
      end
  | Some (VString s) => inr s
  | Some _ => inl ErrFilterTypeIncompatible
  end.

Definition mapper_GetUUID (mf : QueryOdataMapper) (field : string) : error + uuid :=
  match parseFilterMap mf !! field with
  | None =>
      match assertTypeFromDBName (filterSchema mf) field KUUID with
      | Some err => inl err
      | None => inr uuid_Nil
      end
  | Some (VUUID u) => inr u
  | Some _ => inl ErrFilterTypeIncompatible
  end.

(** The mapper as a [repo.QueryMapper] *)
Definition odata_mapper (mf : QueryOdataMapper) : QueryMapper T :=
  mkQueryMapper (mapper_GetQuery mf)
    (omap (λ fv, match fv.2 with VString s => Some s | _ => None end) (parseFilterFields mf))
    (mapper_GetUUID mf) (mapper_GetPagination mf).
End Mapper.
Arguments FilterSchemaEntry : clear implicits.
Arguments FilterSchema : clear implicits.
Arguments QueryOdataMapper : clear implicits.

(** * request.go: the builder of filters *)

Definition Filter : Type := list string.
Definition NewFilter : Filter := [].
Definition addFilter (formatted : string) (fb : Filter) : Filter := fb ++ [formatted].
Definition inQuotes (value : string) : string := "'" +:+ value +:+ "'".
Definition filter_Eq (field value : string) : Filter → Filter := addFilter (field +:+ " eq " +:+ inQuotes value).
Definition filter_Ne (field value : string) : Filter → Filter := addFilter (field +:+ " ne " +:+ inQuotes value).
Definition filter_Gt (field value : string) : Filter → Filter := addFilter (field +:+ " gt " +:+ value).
Definition filter_Ge (field value : string) : Filter → Filter := addFilter (field +:+ " ge " +:+ value).
Definition filter_Lt (field value : string) : Filter → Filter := addFilter (field +:+ " lt " +:+ value).
Definition filter_Le (field value : string) : Filter → Filter := addFilter (field +:+ " le " +:+ value).
Definition filter_In (field : string) (values : list string) : Filter → Filter :=
  addFilter (field +:+ " in ('" +:+ String.concat "','" values +:+ "')").
Definition filter_And : Filter → Filter := addFilter "and".
Definition filter_Or : Filter → Filter := addFilter "or".
Definition filter_Not : Filter → Filter := addFilter "not".
Definition filter_String (fb : Filter) : string := String.concat " " fb.
Definition filter_Group (groupFunc : Filter → Filter) : Filter → Filter :=
  addFilter ("(" +:+ filter_String (groupFunc NewFilter) +:+ ")").
Definition filter_Contains (field value : string) : Filter → Filter :=
  addFilter ("contains(" +:+ field +:+ "," +:+ inQuotes value +:+ ")").
Definition filter_StartsWith (field value : string) : Filter → Filter :=
  addFilter ("startswith(" +:+ field +:+ "," +:+ inQuotes value +:+ ")").
Definition filter_EndsWith (field value : string) : Filter → Filter :=
  addFilter ("endswith(" +:+ field +:+ "," +:+ inQuotes value +:+ ")").
