(* ===== verification/ODataFacts.v ===== *)
(** What the filter parser accepts and what it makes of it. *)
From Stdlib Require Import Ascii.
From S2P Require Import Prelude Errs Json Model Store Batch OData.

Implicit Types (f v l rest : bytes) (q i n : nat) (idx : list nat).

(** * Characters and words *)

Definition quote : Ascii.ascii := Ascii.ascii_of_nat 39.
Definition space : Ascii.ascii := Ascii.ascii_of_nat 32.

(** Neither quote, space nor parenthesis. *)
Definition plainChar (c : Ascii.ascii) : bool :=
  negb (isQuote c) && negb (isSpace c) && negb (Ascii.nat_of_ascii c =? 40) &&
  negb (Ascii.nat_of_ascii c =? 41).
Definition reservedWords : list string := ["and"; "eq"; "or"; "not"; "ne"; "gt"; "ge"; "lt"; "le"].

(** A field name that cannot be taken for anything else. *)
Definition plainField (f : bytes) : Prop :=
  f ≠ [] ∧ forallb plainChar f = true ∧ f ∉ lit <$> reservedWords.

Lemma plain_not c c' : plainChar c = true → plainChar c' = false → c ≠ c'.
Proof. intros H H' ->. congruence. Qed.

Lemma plain_split c : plainChar c = true → isQuote c = false ∧ isSpace c = false.
Proof. unfold plainChar. by destruct (isQuote c), (isSpace c). Qed.

Lemma starts_other c l op o :
  lit op = o → (∀ c', head o = Some c' → c ≠ c') → o ≠ [] → startsWithOp (c :: l) op = false.
Proof.
  intros Ho Hne Hnil. unfold startsWithOp. apply bool_decide_eq_false. rewrite Ho.
  destruct o as [|c' o]; [done|]. intros He. destruct (String.length op); [done|]. cbn in He.
  injection He as -> _. by apply (Hne c').
Qed.

Lemma starts_plain c l op :
  plainChar c = true → op ∈ " and " :: " eq " :: nonSupportedOperations → startsWithOp (c :: l) op = false.
Proof.
  intros Hc Hop. eapply starts_other; [done| |].
  - intros c' Hh. apply (plain_not _ _ Hc). revert op Hop c' Hh.
    assert (Forall (λ op, ∀ c', head (lit op) = Some c' → plainChar c' = false)
      (" and " :: " eq " :: nonSupportedOperations)) as Hall.
    { repeat constructor; intros c' Hh; injection Hh as <-; reflexivity. }
    rewrite Forall_forall in Hall. exact Hall.
  - revert op Hop. assert (Forall (λ op, lit op ≠ []) (" and " :: " eq " :: nonSupportedOperations)) as Hall.
    { repeat constructor; discriminate. }
    rewrite Forall_forall in Hall. exact Hall.
Qed.

Lemma check_plain c l dyad : plainChar c = true → checkFilterForOperation (c :: l) dyad = inr (false, dyad).
Proof.
  intros Hc. unfold checkFilterForOperation. case_match; [done|].
  rewrite !(starts_plain c) by (done || set_solver).
  replace (existsb _ _) with false; [done|]. symmetry.
  destruct (existsb _ _) eqn:He; [|done]. apply existsb_exists in He as (op & Hop%list_elem_of_In & He).
  rewrite starts_plain in He; [done|done|set_solver].
Qed.

Lemma scan_plain f rest i q idx dyad :
  forallb plainChar f = true → Nat.even q = true →
  scanOperations i (f ++ rest) q idx dyad = scanOperations (i + length f) rest q idx dyad.
Proof.
  revert i. induction f as [|c f IH]; intros i; cbn [forallb length app]; [by rewrite Nat.add_0_r|].
  intros [Hc Hf]%andb_true_iff Hq. cbn [scanOperations]. destruct (plain_split c Hc) as [-> _]. rewrite Hq.
  rewrite check_plain by done. rewrite IH by done. f_equal. lia.
Qed.

(** * Literals *)

Fixpoint escape (v : bytes) : bytes :=
  match v with
  | [] => []
  | c :: v => if isQuote c then c :: c :: escape v else c :: escape v
  end.
Definition quotes (l : bytes) : nat := length (List.filter isQuote l).

Lemma escape_quotes v : Nat.even (quotes (escape v)) = true.
Proof.
  unfold quotes. induction v as [|c v IH]; [done|]. cbn. destruct (isQuote c) eqn:Hc; cbn; by rewrite ?Hc.
Qed.

Lemma odd_SS q : Nat.even (S (S q)) = Nat.even q.
Proof. done. Qed.

Lemma scan_literal v rest i q idx dyad :
  Nat.even q = false →
  scanOperations i (escape v ++ rest) q idx dyad =
  scanOperations (i + length (escape v)) rest (q + quotes (escape v)) idx dyad.
Proof.
  unfold quotes. revert i q. induction v as [|c v IH]; intros i q Hq; cbn.
  - by rewrite !Nat.add_0_r.
  - destruct (isQuote c) eqn:Hc; cbn; rewrite !Hc; cbn.
    + rewrite IH by done. f_equal; lia.
    + rewrite Hq, IH by done. f_equal; lia.
Qed.

Lemma unescape_cons c l : isQuote c = false → unescape (c :: l) = c :: unescape l.
Proof. intros Hc. destruct l as [|c' l]; [done|]. cbn [unescape]. by rewrite Hc. Qed.

Lemma unescape_escape v : unescape (escape v) = v.
Proof.
  induction v as [|c v IH]; [done|]. cbn [escape]. destruct (isQuote c) eqn:Hc.
  - cbn [unescape]. rewrite Hc. cbn. by rewrite IH.
  - by rewrite unescape_cons, IH.
Qed.

Lemma escape_paired v n : Nat.even n = true → quotesPaired n (escape v) = true.
Proof.
  revert n. induction v as [|c v IH]; intros n Hn; [done|]. cbn. destruct (isQuote c) eqn:Hc; cbn; rewrite !Hc.
  - by apply IH.
  - unfold Nat.odd. rewrite Hn. by apply IH.
Qed.

Lemma convert_escape v : convertString (escape v) = inr (text v).
Proof. unfold convertString. by rewrite escape_paired, unescape_escape. Qed.

(** * Printing *)

(** One comparison, as the builder writes it. *)
Definition literal (v : bytes) : bytes := quote :: escape v ++ [quote].
Definition comparison (c : bytes * bytes) : bytes := c.1 ++ lit " eq " ++ literal c.2.
Fixpoint printed (cs : list (bytes * bytes)) : bytes :=
  match cs with
  | [] => []
  | [c] => comparison c
  | c :: cs => comparison c ++ lit " and " ++ printed cs
  end.
Definition plainFields (cs : list (bytes * bytes)) : Prop := Forall (λ c, plainField c.1) cs.

Definition litquotes (c : bytes * bytes) : nat := S (S (quotes (escape c.2))).

Lemma even_add q n : Nat.even n = true → Nat.even (q + n) = Nat.even q.
Proof. intros H. rewrite Nat.even_add, H. by destruct (Nat.even q). Qed.

Lemma literal_app v rest : literal v ++ rest = quote :: escape v ++ quote :: rest.
Proof. unfold literal. cbn. by rewrite <-(assoc_L (++)). Qed.

Lemma scan_comparison c rest i q idx :
  plainField c.1 → Nat.even q = true →
  scanOperations i (comparison c ++ rest) q idx false =
  scanOperations (i + length (comparison c)) rest (q + litquotes c) idx true.
Proof.
  intros (_ & Hf & _) Hq. unfold comparison. rewrite <-!(assoc_L (++)), scan_plain by done.
  set (j := i + length c.1). change (lit " eq ") with [space; "e"%char; "q"%char; space].
  cbn [app]. rewrite literal_app.
  cbn [scanOperations]. change (isQuote space) with false. cbn iota. rewrite Hq.
  change (checkFilterForOperation (space :: "e"%char :: "q"%char :: space :: quote :: escape c.2 ++ quote :: rest) false)
    with (inr (false, true) : error + bool * bool). cbn iota beta.
  change (isQuote "e") with false. change (isQuote "q") with false. cbn iota.
  rewrite !check_plain by done. cbn iota beta.
  change (checkFilterForOperation (space :: quote :: escape c.2 ++ quote :: rest) true)
    with (inr (false, true) : error + bool * bool). cbn iota beta.
  change (isQuote quote) with true. cbn iota.
  rewrite scan_literal by (by rewrite Nat.even_succ, <-Nat.negb_even, Hq).
  cbn [scanOperations]. change (isQuote quote) with true. cbn iota.
  f_equal; [|unfold litquotes; lia]. unfold j, literal. rewrite !length_app. cbn. rewrite length_app. cbn. lia.
Qed.

(** A word before a space. *)
Lemma take_word f w rest :
  forallb plainChar f = true → forallb plainChar (lit w) = true →
  take (String.length (w +:+ " ")) (f ++ space :: rest) = lit (w +:+ " ") → f = lit w.
Proof.
  revert f. induction w as [|c w IH]; intros f Hf Hw He; cbn in *.
  - destruct f as [|d f]; [done|]. injection He as ->. done.
  - apply andb_true_iff in Hw as [Hc Hw]. destruct f as [|d f]; cbn in *.
    + injection He as <- _. done.
    + apply andb_true_iff in Hf as [Hd Hf]. injection He as -> He. f_equal. by apply IH.
Qed.

Lemma starts_word f w rest :
  forallb plainChar f = true → forallb plainChar (lit w) = true →
  startsWithOp (space :: f ++ space :: rest) (" " +:+ w +:+ " ") = true → f = lit w.
Proof.
  unfold startsWithOp. rewrite bool_decide_eq_true. intros Hf Hw He. apply (take_word _ _ rest); [done..|].
  cbn in He. by injection He.
Qed.

Lemma check_word f rest dyad :
  plainField f → checkFilterForOperation (space :: f ++ space :: rest) dyad = inr (false, dyad).
Proof.
  intros (Hnil & Hf & Hw). unfold checkFilterForOperation. case_match; [done|].
  assert (∀ w, w ∈ reservedWords →
    startsWithOp (space :: f ++ space :: rest) (" " +:+ w +:+ " ") = false) as Hno.
  { intros w Hin. destruct (startsWithOp _ _) eqn:Hs; [|done]. destruct Hw.
    rewrite (starts_word f w rest Hf); [by apply list_elem_of_fmap_2| |done].
    clear -Hin. apply (forallb_elem (λ w, forallb plainChar (lit w)) reservedWords); [reflexivity|done]. }
  change " and " with (" " +:+ "and" +:+ " "). change " eq " with (" " +:+ "eq" +:+ " ").
  rewrite !Hno by set_solver.
  replace (existsb _ _) with false; [done|]. symmetry. cbn [nonSupportedOperations existsb].
  change " or " with (" " +:+ "or" +:+ " "). change " not " with (" " +:+ "not" +:+ " ").
  change " ne " with (" " +:+ "ne" +:+ " "). change " gt " with (" " +:+ "gt" +:+ " ").
  change " ge " with (" " +:+ "ge" +:+ " "). change " lt " with (" " +:+ "lt" +:+ " ").
  change " le " with (" " +:+ "le" +:+ " "). rewrite !Hno by set_solver. done.
Qed.

(** The two kinds of continuation after an [and]. *)
Lemma scan_and l i q idx dyad :
  Nat.even q = true →
  scanOperations i (lit " and" ++ space :: l) q idx dyad = scanOperations (i + 4) (space :: l) q (idx ++ [i]) false.
Proof.
  intros Hq. change (lit " and") with [space; "a"%char; "n"%char; "d"%char]. cbn [app scanOperations].
  change (isQuote space) with false. cbn iota. rewrite Hq.
  change (checkFilterForOperation (space :: "a"%char :: "n"%char :: "d"%char :: space :: l) dyad)
    with (inr (true, false) : error + bool * bool). cbn iota beta.
  change (isQuote "a") with false. change (isQuote "n") with false. change (isQuote "d") with false.
  cbn iota. rewrite !check_plain by done. cbn iota beta. replace (i + 4) with (S (S (S (S i)))) by lia. done.
Qed.

Lemma scan_space f rest i q idx dyad :
  Nat.even q = true → plainField f →
  scanOperations i (space :: f ++ space :: rest) q idx dyad =
  scanOperations (S i) (f ++ space :: rest) q idx dyad.
Proof. intros Hq Hf. cbn. rewrite Hq. by rewrite check_word. Qed.

(** * Splitting *)

Fixpoint indicesFrom (i : nat) (cs : list (bytes * bytes)) : list nat :=
  match cs with
  | [] | [_] => []
  | c :: cs => (i + length (comparison c)) :: indicesFrom (i + length (comparison c) + 5) cs
  end.

Lemma comparison_word c rest : ∃ tl, comparison c ++ rest = c.1 ++ space :: tl.
Proof. exists (lit "eq " ++ literal c.2 ++ rest). unfold comparison. by rewrite <-!(assoc_L (++)). Qed.

Lemma printed_word c cs : ∃ tl, printed (c :: cs) = c.1 ++ space :: tl.
Proof.
  destruct cs as [|c' cs].
  - destruct (comparison_word c []) as [tl H]. exists tl. by rewrite app_nil_r in H.
  - apply comparison_word.
Qed.

Lemma litquotes_even c q : Nat.even q = true → Nat.even (q + litquotes c) = true.
Proof. intros Hq. rewrite even_add; [done|]. exact (escape_quotes c.2). Qed.

Lemma scan_printed cs i q idx :
  cs ≠ [] → plainFields cs → Nat.even q = true →
  ∃ q', Nat.even q' = true ∧ scanOperations i (printed cs) q idx false = inr (q', idx ++ indicesFrom i cs).
Proof.
  revert i q idx. induction cs as [|c cs IH]; intros i q idx Hne Hp Hq; [done|].
  apply Forall_cons in Hp as [Hc Hp]. destruct cs as [|c' cs].
  - exists (q + litquotes c). split; [by apply litquotes_even|].
    change (printed [c]) with (comparison c). rewrite <-(app_nil_r (comparison c)), scan_comparison by done.
    cbn. by rewrite app_nil_r.
  - change (printed (c :: c' :: cs)) with (comparison c ++ lit " and" ++ space :: printed (c' :: cs)).
    rewrite scan_comparison by done. rewrite scan_and by (by apply litquotes_even).
    destruct (printed_word c' cs) as [tl Htl]. pose proof (proj1 (proj1 (Forall_cons _ _ _) Hp)) as Hc'.
    rewrite Htl, scan_space by (by try apply litquotes_even). rewrite <-Htl.
    destruct (IH (S (i + length (comparison c) + 4)) (q + litquotes c) (idx ++ [i + length (comparison c)]))
      as (q' & Hq' & H); [done|done|by apply litquotes_even|].
    exists q'. split; [done|]. rewrite H. cbn [indicesFrom]. rewrite <-(assoc_L (++)). cbn [app].
    by replace (S (i + length (comparison c) + 4)) with (i + length (comparison c) + 5) by lia.
Qed.

Lemma slice_app l1 l2 l3 : slice (l1 ++ l2 ++ l3) (length l1) (length l1 + length l2) = inr l2.
Proof.
  unfold slice. rewrite !length_app.
  destruct (Nat.leb_spec (length l1) (length l1 + length l2)); [|lia].
  destruct (Nat.leb_spec (length l1 + length l2) (length l1 + (length l2 + length l3))); [|lia]. cbn.
  by rewrite drop_app_length, Nat.add_comm, Nat.add_sub, take_app_length.
Qed.

Lemma split_printed pre cs :
  cs ≠ [] → splitFrom (pre ++ printed cs) (length pre) (indicesFrom (length pre) cs) = inr (comparison <$> cs).
Proof.
  revert pre. induction cs as [|c cs IH]; intros pre Hne; [done|]. destruct cs as [|c' cs].
  - cbn [indicesFrom printed splitFrom]. pose proof (slice_app pre (comparison c) []) as H.
    rewrite app_nil_r in H. rewrite length_app, H. done.
  - change (printed (c :: c' :: cs)) with (comparison c ++ lit " and " ++ printed (c' :: cs)).
    change (indicesFrom (length pre) (c :: c' :: cs)) with
      ((length pre + length (comparison c)) :: indicesFrom (length pre + length (comparison c) + 5) (c' :: cs)).
    cbn [splitFrom]. rewrite slice_app. cbn [mbind sum_bind].
    pose proof (IH (pre ++ comparison c ++ lit " and ") ltac:(done)) as H.
    rewrite !length_app in H. change (length (lit " and ")) with 5 in H. rewrite <-!(assoc_L (++)) in H.
    change (String.length " and ") with 5.
    rewrite (Nat.add_assoc (length pre)) in H. rewrite H. done.
Qed.

Lemma cut_plain f l : forallb plainChar f = true → cut " eq " (f ++ lit " eq " ++ l) = Some (f, l).
Proof.
  induction f as [|c f IH]; [done|]. cbn [forallb]. intros [Hc Hf]%andb_true_iff.
  cbn [app cut]. rewrite starts_plain by (done || set_solver). cbn [app] in IH. by rewrite IH.
Qed.

Lemma dropSpace_id l : (∀ c, head l = Some c → isSpace c = false) → dropSpace l = l.
Proof. destruct l as [|c l]; [done|]. cbn. intros H. by rewrite (H c). Qed.

Lemma trimSpace_id l :
  (∀ c, head l = Some c → isSpace c = false) → (∀ c, last l = Some c → isSpace c = false) → trimSpace l = l.
Proof.
  intros Hh Hl. unfold trimSpace. rewrite (dropSpace_id l) by done.
  rewrite dropSpace_id, reverse_involutive; [done|]. intros c. rewrite head_reverse. apply Hl.
Qed.

Lemma plain_ends f c : forallb plainChar f = true → head f = Some c ∨ last f = Some c → isSpace c = false.
Proof.
  intros Hf Hc. assert (c ∈ f) as Hin.
  { destruct Hc as [Hc|Hc]; [destruct f; [done|injection Hc as ->; by left]|].
    by apply last_Some in Hc as [l ->]; set_solver. }
  apply (forallb_elem _ _ Hf) in Hin. by apply plain_split in Hin as [_ ?].
Qed.

Lemma split_comparison c : plainField c.1 → splitComparisonOperation (comparison c) = inr (c.1, literal c.2).
Proof.
  intros (_ & Hf & _). unfold splitComparisonOperation, comparison. rewrite cut_plain by done.
  replace (existsb isQuote c.1) with false.
  2:{ symmetry. destruct (existsb isQuote c.1) eqn:He; [|done].
      apply existsb_exists in He as (x & Hx%list_elem_of_In & Hq).
      apply (forallb_elem _ _ Hf) in Hx. apply plain_split in Hx as [? _]. congruence. }
  rewrite trimSpace_id by (intros; eapply plain_ends; eauto). rewrite trimSpace_id; [done|..].
  - by intros x [= <-].
  - intros x. unfold literal. rewrite app_comm_cons, last_snoc. by intros [= <-].
Qed.

Lemma split_comparisons cs :
  plainFields cs → splitComparisons (comparison <$> cs) = inr ((λ c, (c.1, literal c.2)) <$> cs).
Proof.
  induction 1 as [|c cs Hc _ IH]; [done|]. rewrite !fmap_cons. cbn [splitComparisons].
  rewrite split_comparison by done. cbn [mbind sum_bind]. by rewrite IH.
Qed.

Lemma parse_printed cs :
  plainFields cs → parseFilter (printed cs) = inr ((λ c, (c.1, literal c.2)) <$> cs).
Proof.
  intros Hp. destruct cs as [|c cs]; [done|].
  unfold parseFilter. destruct (printed_word c cs) as [tl Htl].
  destruct (Nat.eqb_spec (length (printed (c :: cs))) 0) as [Hl|_].
  { rewrite Htl, length_app in Hl. cbn in Hl. lia. }
  unfold splitBooleanOperations, splitBooleanOperandsFromIndices.
  destruct (scan_printed (c :: cs) 0 0 [] ltac:(done) Hp eq_refl) as (q & Hq & ->). cbn [mbind sum_bind].
  unfold Nat.odd. rewrite Hq. cbn [negb app].
  pose proof (split_printed [] (c :: cs) ltac:(done)) as H. cbn [app length] in H. rewrite H. cbn [mbind sum_bind].
  by apply split_comparisons.
Qed.

(** * The builder and the parser *)

Definition escaped (v : string) : string := text (escape (lit v)).

(** [cs] joined with the builder of filters, values escaped. *)
Fixpoint conjunction (cs : list (string * string)) (fb : Filter) : Filter :=
  match cs with
  | [] => fb
  | [c] => filter_Eq c.1 (escaped c.2) fb
  | c :: cs => conjunction cs (filter_And (filter_Eq c.1 (escaped c.2) fb))
  end.

Lemma lit_app (s t : string) : lit (s +:+ t) = lit s ++ lit t.
Proof. induction s as [|c s IH]; [done|]. exact (f_equal (cons c) IH). Qed.

Lemma conjunction_app cs fb : conjunction cs fb = fb ++ conjunction cs [].
Proof.
  revert fb. induction cs as [|c [|c' cs] IH]; intros fb; [by rewrite app_nil_r|done|].
  change (conjunction (c :: c' :: cs) fb) with (conjunction (c' :: cs) (filter_And (filter_Eq c.1 (escaped c.2) fb))).
  change (conjunction (c :: c' :: cs) []) with (conjunction (c' :: cs) (filter_And (filter_Eq c.1 (escaped c.2) []))).
  rewrite IH, (IH (filter_And _)). unfold filter_And, filter_Eq, addFilter. cbn. by rewrite <-!(assoc_L (++)).
Qed.

Definition as_bytes (c : string * string) : bytes * bytes := (lit c.1, lit c.2).

Lemma lit_Eq c : lit (c.1 +:+ " eq " +:+ inQuotes (escaped c.2)) = comparison (as_bytes c).
Proof.
  unfold inQuotes. rewrite !lit_app. unfold escaped. by rewrite String.list_ascii_of_string_of_list_ascii.
Qed.

Lemma concat_cons sep (x y : string) (ys : list string) : String.concat sep (x :: y :: ys) = x +:+ sep +:+ String.concat sep (y :: ys).
Proof. done. Qed.

Lemma lit_conjunction cs : lit (filter_String (conjunction cs NewFilter)) = printed (as_bytes <$> cs).
Proof.
  unfold NewFilter. induction cs as [|c [|c' cs] IH]; [done|apply lit_Eq|].
  change (conjunction (c :: c' :: cs) []) with (conjunction (c' :: cs) (filter_And (filter_Eq c.1 (escaped c.2) []))).
  rewrite conjunction_app. unfold filter_And, filter_Eq, addFilter. cbn [app].
  assert (∃ (y : string) (ys : list string), conjunction (c' :: cs) [] = y :: ys) as (y & ys & Hy).
  { destruct cs as [|s cs]; [by do 2 eexists|]. change (conjunction (c' :: s :: cs) []) with
      (conjunction (s :: cs) (filter_And (filter_Eq c'.1 (escaped c'.2) []))). rewrite conjunction_app. by do 2 eexists. }
  unfold filter_String in *. rewrite Hy in *. rewrite !concat_cons, !lit_app, IH.
  change (printed (as_bytes <$> c :: c' :: cs)) with
    (comparison (as_bytes c) ++ lit " and " ++ printed (as_bytes <$> c' :: cs)).
  rewrite <-lit_Eq, !lit_app. by rewrite <-!(assoc_L (++)).
Qed.

Lemma preProcess_literal {T} (e : FilterSchemaEntry T) v :
  FilterType e = KString ∨ FilterType e = KUUID → preProcessValue e (literal v) = inr (escape v).
Proof.
  intros He. unfold preProcessValue. assert (length (literal v) = S (S (length (escape v)))) as Hl.
  { unfold literal. cbn. rewrite length_app. cbn. lia. }
  assert (last (literal v) = Some quote) as Hq by (unfold literal; by rewrite app_comm_cons, last_snoc).
  rewrite Hl, Hq. cbn [head literal]. change (isQuote quote) with true. cbn [Nat.ltb Nat.leb negb orb tail].
  replace (S (S (length (escape v))) - 2) with (length (escape v)) by lia.
  change (tail (literal v)) with (escape v ++ [quote]). rewrite take_app_length. by destruct He as [-> | ->].
Qed.

Lemma text_lit (s : string) : text (lit s) = s.
Proof. apply String.string_of_list_ascii_of_string. Qed.

Lemma string_entry {T} {UP : UUIDParse} (e : FilterSchemaEntry T) (v : string) :
  FilterType e = KString → ValueModifier e = None →
  match ValueValidator e with Some valid => valid (escaped v) = true | None => True end →
  entry_apply e (literal (lit v)) = inr (VString v).
Proof.
  intros Ht Hm Hv. unfold entry_apply. rewrite preProcess_literal by (by left). cbn [mbind sum_bind].
  unfold entry_modify, entry_convert. rewrite Hm, Ht. cbn [mbind sum_bind].
  rewrite convert_escape, text_lit. cbn [mbind sum_bind]. unfold escaped in Hv.
  by destruct (ValueValidator e); [rewrite Hv|].
Qed.


(** * Soundness of the split *)

Fixpoint joinAnd (ops : list bytes) : bytes :=
  match ops with
  | [] => []
  | [op] => op
  | op :: ops => op ++ lit " and " ++ joinAnd ops
  end.

Lemma check_found l dyad dyad' :
  checkFilterForOperation l dyad = inr (true, dyad') → startsWithOp l " and " = true.
Proof. unfold checkFilterForOperation. repeat case_match; naive_solver. Qed.

(** Every index that the loop collects is that of an [and]. *)
Lemma scan_sound param rest i q idx dyad q' idx' :
  rest = drop i param → scanOperations i rest q idx dyad = inr (q', idx') →
  Forall (λ j, startsWithOp (drop j param) " and " = true) idx →
  Forall (λ j, startsWithOp (drop j param) " and " = true) idx'.
Proof.
  revert i q idx dyad. induction rest as [|c rest IH]; intros i q idx dyad Hr; cbn [scanOperations].
  { by intros [= <- <-]. }
  assert (rest = drop (S i) param) as Hr'.
  { change (S i) with (1 + i). by rewrite Nat.add_comm, <-drop_drop, <-Hr. }
  destruct (isQuote c); [by apply IH|]. destruct (Nat.even q); [|by apply IH].
  destruct (checkFilterForOperation (c :: rest) dyad) as [e|[found dyad']] eqn:Hc; [done|].
  intros H Hi. apply (IH _ _ _ _ Hr' H). destruct found; [|done]. apply Forall_app. split; [done|].
  apply Forall_singleton. rewrite <-Hr. by eapply check_found.
Qed.

Lemma slice_inv param from to l :
  slice param from to = inr l → drop from param = l ++ drop to param.
Proof.
  unfold slice. destruct (Nat.leb_spec from to); [|done]. destruct (Nat.leb_spec to (length param)); [|done].
  intros [= <-]. rewrite <-(take_drop (to - from) (drop from param)) at 1. f_equal. rewrite drop_drop. f_equal. lia.
Qed.

Lemma starts_and l : startsWithOp l " and " = true → l = lit " and " ++ drop 5 l.
Proof.
  unfold startsWithOp. intros H%bool_decide_eq_true. rewrite <-H. change (String.length " and ") with 5.
  by rewrite take_drop.
Qed.

Lemma split_nonempty param from idx ops : splitFrom param from idx = inr ops → ops ≠ [].
Proof.
  destruct idx as [|j idx]; cbn [splitFrom]; destruct (slice _ _ _); [done| |done|]; cbn [mbind sum_bind].
  - by intros [= <-].
  - destruct (splitFrom _ _ idx); [done|]. by intros [= <-].
Qed.

Lemma split_sound param from idx ops :
  Forall (λ j, startsWithOp (drop j param) " and " = true) idx →
  splitFrom param from idx = inr ops → drop from param = joinAnd ops.
Proof.
  revert from ops. induction idx as [|j idx IH]; intros from ops Hi; cbn [splitFrom].
  - destruct (slice _ _ _) as [|op] eqn:Hs; [done|]. intros [= <-]. apply slice_inv in Hs.
    by rewrite drop_all, app_nil_r in Hs.
  - apply Forall_cons in Hi as [Hj Hi]. destruct (slice _ _ _) as [|op] eqn:Hs; [done|]. cbn [mbind sum_bind].
    destruct (splitFrom _ _ idx) as [|ops'] eqn:Ho; [done|]. intros [= <-]. apply slice_inv in Hs.
    pose proof (split_nonempty _ _ _ _ Ho) as Hne. apply (IH _ _ Hi) in Ho. rewrite Hs, (starts_and _ Hj), drop_drop.
    change (String.length " and ") with 5 in Ho. rewrite Ho. by destruct ops'.
Qed.

Lemma cut_sound sep s before after : cut sep s = Some (before, after) → s = before ++ lit sep ++ after.
Proof.
  revert before. induction s as [|c s IH]; intros before; cbn [cut].
  - destruct (startsWithOp [] sep) eqn:Hs; [|done]. intros [= <- <-]. unfold startsWithOp in Hs.
    apply bool_decide_eq_true in Hs. rewrite take_nil in Hs. by rewrite <-Hs, drop_nil.
  - destruct (startsWithOp (c :: s) sep) eqn:Hs.
    + intros [= <- <-]. unfold startsWithOp in Hs. apply bool_decide_eq_true in Hs. rewrite <-Hs.
      cbn [app]. by rewrite take_drop.
    + destruct (cut sep s) as [[b a]|] eqn:Hc; [|done]. intros [= <- <-]. cbn. f_equal. by apply IH.
Qed.

(** How a comparison is read: the text around its first [eq], without spaces. *)
Definition reads_as (op : bytes) (c : bytes * bytes) : Prop :=
  ∃ field value, op = field ++ lit " eq " ++ value ∧ existsb isQuote field = false ∧
    c = (trimSpace field, trimSpace value).

(** The parser does not invent or drop text: a filter that it accepts is exactly a
    series of comparisons joined by the operator [and], each of the form field, [eq],
    value, and the result lists these fields and values in order. *)
Theorem filter_parse_sound (s : bytes) cs :
  s ≠ [] → parseFilter s = inr cs → ∃ ops, s = joinAnd ops ∧ Forall2 reads_as ops cs.
Proof.
  intros Hs. unfold parseFilter. destruct s as [|c s]; [done|]. cbn [length Nat.eqb].
  destruct (splitBooleanOperations (c :: s)) as [|ops] eqn:Ho; [done|]. cbn [mbind sum_bind]. intros Hc.
  exists ops. split.
  - unfold splitBooleanOperations in Ho.
    destruct (scanOperations 0 (c :: s) 0 [] false) as [|[q idx]] eqn:Hsc; [done|]. cbn [mbind sum_bind] in Ho.
    destruct (Nat.odd q); [done|].
    apply (scan_sound (c :: s)) in Hsc; [|done|by constructor]. exact (split_sound _ 0 _ _ Hsc Ho).
  - clear Ho. revert cs Hc. induction ops as [|op ops IH]; intros cs; cbn [splitComparisons].
    + intros [= <-]. constructor.
    + destruct (splitComparisonOperation op) as [|c'] eqn:Hop; [done|]. cbn [mbind sum_bind].
      destruct (splitComparisons ops) as [|cs'] eqn:Hcs; [done|]. intros [= <-].
      constructor; [|by apply IH]. unfold splitComparisonOperation in Hop.
      destruct (cut " eq " op) as [[field value]|] eqn:Hcut; [|done].
      destruct (existsb isQuote field) eqn:Hq; [done|]. injection Hop as <-.
      exists field, value. split_and!; [by apply cut_sound|done|done].
Qed.

Lemma scan_double_and c c' :
  plainField c.1 → plainField c'.1 →
  let n := length (comparison c) in
  ∃ q, Nat.even q = true ∧
    scanOperations 0 (comparison c ++ lit " and" ++ lit " and" ++ space :: comparison c') 0 [] false =
    inr (q, [n; n + 4]).
Proof.
  intros Hc Hc' n. exists (0 + litquotes c + litquotes c').
  split; [by do 2 apply litquotes_even|]. rewrite scan_comparison by done.
  change (lit " and" ++ lit " and" ++ space :: comparison c') with
    (lit " and" ++ space :: (lit "and " ++ comparison c')).
  rewrite scan_and by (by apply litquotes_even).
  change (space :: lit "and " ++ comparison c') with (lit " and" ++ space :: comparison c').
  rewrite scan_and by (by apply litquotes_even).
  destruct (comparison_word c' []) as [tl Htl]. rewrite app_nil_r in Htl.
  rewrite Htl, scan_space by (try done; by apply litquotes_even). rewrite <-Htl.
  rewrite <-(app_nil_r (comparison c')), scan_comparison by (try done; by apply litquotes_even). done.
Qed.

(** A filter with two operators [and] in a row makes the parser crash: the second one
    starts with the space that ends the first. *)
Theorem double_and_panics c c' :
  plainField c.1 → plainField c'.1 →
  parseFilter (comparison c ++ lit " and" ++ lit " and" ++ space :: comparison c') =
  inl (Panic "slice bounds out of range").
Proof.
  intros Hc Hc'. destruct (scan_double_and c c' Hc Hc') as (q & Hq & H).
  set (s := comparison c ++ _) in *. unfold parseFilter.
  destruct (Nat.eqb_spec (length s) 0) as [Hl|_].
  { unfold s in Hl. rewrite !length_app in Hl. cbn in Hl. lia. }
  unfold splitBooleanOperations. rewrite H. cbn [mbind sum_bind]. unfold Nat.odd. rewrite Hq. cbn [negb].
  unfold splitBooleanOperandsFromIndices. cbn [splitFrom].
  assert (slice s 0 (length (comparison c)) = inr (comparison c)) as ->
    by exact (slice_app [] (comparison c) (lit " and" ++ lit " and" ++ space :: comparison c')).
  assert (slice s (length (comparison c) + String.length " and ") (length (comparison c) + 4) =
    inl (Panic "slice bounds out of range")) as Hp; [|cbn [mbind sum_bind]; by rewrite Hp].
  unfold slice. change (String.length " and ") with 5.
  by destruct (Nat.leb_spec (length (comparison c) + 5) (length (comparison c) + 4)); [lia|].
Qed.
