(* ===== verification/Frames.v ===== *)
(** What a computation may touch.  A [FrameRule] says that a relation between worlds is
    kept by every step a group of operations may take: database calls that keep the
    part [frame] of the tables, transactions, calls to services other than the deletion
    of a key, jobs and cached configurations.  The operations of a component are shown
    once to take only such steps; every relation that obeys the rule is then kept. *)
From S2P Require Import Prelude Errs Json Model Store Batch.

Definition is_delete (e : Effect) : bool :=
  match e with KeystoreCall op _ _ => op ==s "DeleteKey" | _ => false end.

Class FrameRule {Y} (frame : DB → Y) (R : World → World → Prop) : Prop := {
  fr_preorder :: PreOrder R;
  fr_call A (f : Z → DB → DB * (error + A)) :
    (∀ now d, frame (f now d).1 = frame d) → preserves R (db_call f);
  fr_tx A (m : Comp World A) : preserves R m → preserves R (Transaction m);
  fr_log w e : is_delete e = false → R w (set_log (e :: w_log w) w);
  fr_jobs w js : R w (set_jobs js w);
  fr_providers w ps : R w (set_providers ps w) }.

Section Operations.
Context {Y} (frame : DB → Y) (R : World → World → Prop) `{!FrameRule frame R}.
Context {T : Type} `{!Resource T}.

Lemma First_frame (q : T → bool) : preserves R (First q).
Proof using All. eapply fr_call. intros now d. by destruct (select q (rows d)). Qed.
Lemma List_frame (q : Query T) : preserves R (List_ q).
Proof using All. by eapply fr_call. Qed.
Lemma Count_frame (q : Query T) : preserves R (Count q).
Proof using All. by eapply fr_call. Qed.
Lemma FoldInBatch_frame {A} (q : Query T) n f (a : A) :
  (∀ a items, preserves R (f a items)) → preserves R (FoldInBatch q n f a).
Proof using All. apply FoldInBatch_preserves; [apply fr_preorder|apply List_frame|apply Count_frame]. Qed.

Lemma Patch_frame (x : T) fs :
  (∀ d x, frame (set_rows (patched x fs (rows d)) d) = frame d) → preserves R (Patch x fs).
Proof using All.
  intros Hset. apply preserves_map_err. eapply fr_call. intros now d. destruct (before_save now x); [done|].
  destruct (zero_pk _); [done|]. cbv zeta. destruct (existsb _ (patched _ _ _)); [done|apply Hset].
Qed.
Lemma Delete_frame (x : T) :
  (∀ l d, frame (set_rows l d) = frame d) → (∀ d, before_delete x d = d) → preserves R (Delete x).
Proof using All.
  intros Hset Hb. eapply fr_call. intros now d. destruct (zero_pk x); [done|].
  destruct (referenced x d); [done|]. cbn. by rewrite Hset, Hb.
Qed.
Lemma Create_frame (x : T) : (∀ l d, frame (set_rows l d) = frame d) → preserves R (Create x).
Proof using All.
  intros Hset. eapply fr_call. intros now d. destruct (before_save now x); [done|]. cbv zeta.
  destruct (_ || _); [done|apply Hset].
Qed.
Lemma Set_frame (x : T) : (∀ l d, frame (set_rows l d) = frame d) → preserves R (Set_ x).
Proof using All.
  intros Hset. eapply fr_call. intros now d. destruct (before_save now x); [done|].
  destruct (clashes _ _); [done|]. destruct (existsb _ _); apply Hset.
Qed.
End Operations.

Section Other.
Context {Y} (frame : DB → Y) (R : World → World → Prop) `{!FrameRule frame R}.
Lemma modify_providers_frame (g : World → _) :
  preserves R (modify (λ w, set_providers (g w) w) : Comp World unit).
Proof using All. intros w. apply (fr_providers w (g w)). Qed.
Lemma fold_each_frame {A B} (f : B → A → Comp World B) b l :
  (∀ b a, preserves R (f b a)) → preserves R (fold_each f b l).
Proof using All.
  pose proof (@fr_preorder _ frame R _). intros Hf. revert b. induction l; intros b; cbn; preserve.
Qed.
End Other.

#[export] Hint Resolve First_frame List_frame Count_frame : frames.
#[export] Hint Extern 2 (preserves _ (Create _)) => by eapply Create_frame : frames.
#[export] Hint Extern 2 (preserves _ (Patch _ _)) => by eapply Patch_frame : frames.
#[export] Hint Extern 2 (preserves _ (Set_ _)) => by eapply Set_frame : frames.
#[export] Hint Extern 2 (preserves _ (modify _)) => eapply modify_providers_frame : frames.
Ltac framed_step :=
  match goal with
  | |- preserves _ (Transaction _) => eapply fr_tx; try eassumption
  | |- preserves _ (FoldInBatch _ _ _ _) => eapply FoldInBatch_frame; try eassumption; intros ? ?
  | |- preserves _ (fold_each _ _ _) => eapply fold_each_frame; try eassumption; intros ? ?
  | |- _ => preserve_step
  end.
Ltac framed := repeat framed_step; eauto with cmk frames.

(** * Relations that obey the rule *)

Lemma fixes_frame {Y X} (frame : DB → Y) (p : DB → X) :
  (∀ d d', frame d = frame d' → p d = p d') → FrameRule frame (fixes p).
Proof.
  intros Hp. split; try done; [apply _|..].
  - intros A f Hf w. unfold fixes, db_call. destruct (head (w_faults w)) as [[e|]|]; [done|..];
      specialize (Hf (w_now w) (w_db w)); destruct (f (w_now w) (w_db w)) as [d [e|a]]; by apply Hp.
  - intros A m. apply Transaction_fixes.
Qed.

Definition deletions (w : World) : list Effect := List.filter is_delete (w_log w).
Definition no_deletion (w w' : World) : Prop := deletions w' = deletions w.
#[export] Instance no_deletion_preorder : PreOrder no_deletion.
Proof. split; [done|]. unfold no_deletion. intros ???. congruence. Qed.

#[export] Instance no_deletion_frame {Y} (frame : DB → Y) : FrameRule frame no_deletion.
Proof.
  split; try done; [apply _|..].
  - intros A f _ w. unfold db_call. destruct (head (w_faults w)) as [[e|]|]; [done|..];
      by destruct (f (w_now w) (w_db w)) as [d [e|a]].
  - intros A m Hm w. unfold Transaction, TransactionOn, id. destruct (w_inTx w); [apply Hm|].
    specialize (Hm (set_inTx true w)). by destruct (m (set_inTx true w)) as [w' [e|a]].
  - intros w e He. unfold no_deletion, deletions. cbn. by rewrite He.
Qed.

#[export] Instance same_env_frame {Y} (frame : DB → Y) : FrameRule frame same_env.
Proof.
  split; [apply _|intros A f _; apply db_call_env|intros A m; apply Transaction_env|..]; by intros.
Qed.
#[export] Instance fewer_faults_frame {Y} (frame : DB → Y) : FrameRule frame fewer_faults.
Proof.
  split; [apply _|intros A f _; apply db_call_faults|intros A m; apply Transaction_faults|..];
    intros; by exists [].
Qed.

Definition both (R R' : World → World → Prop) (w w' : World) : Prop := R w w' ∧ R' w w'.
#[export] Instance both_frame {Y} (frame : DB → Y) R R' :
  FrameRule frame R → FrameRule frame R' → FrameRule frame (both R R').
Proof.
  intros F F'. assert (PreOrder R) by apply F. assert (PreOrder R') by apply F'. split.
  - split; [by intros w; split|]. intros w1 w2 w3 [] []. split; by etrans.
  - intros A f Hf w. split; by apply fr_call.
  - intros A m Hm w. split; apply (fr_tx (frame := frame) A m); intros w1; apply Hm.
  - intros w e He. split; by apply (fr_log (frame := frame)).
  - intros w js. split; apply (fr_jobs (frame := frame)).
  - intros w ps. split; apply (fr_providers (frame := frame)).
Qed.
