(* ===== verification/KeyAccess.v ===== *)
(** Access data of keys and keystores: the documents of internal/model/key.go and
    keystore.go, with the JSON methods that the API package defines for
    [KeyAccessDetailsRegion] (the remaining members of the object are its additional
    properties). *)
From S2P Require Import Prelude Errs Json Model.

Record KeyAccessDetailsRegion := mkRegion {
  r_CertificateSubject : option string;
  r_IsEditable : option bool;
  r_AdditionalProperties : gmap string JSON }.

Definition Region_zero : KeyAccessDetailsRegion := mkRegion None None ∅.

(** [type KeyAccessData map[string]cmkapi.KeyAccessDetailsRegion] *)
Definition KeyAccessData : Type := gmap string KeyAccessDetailsRegion.

(** [json.Unmarshal] of an object into a Go map: the last member of a name wins;
    [null] gives the nil map. *)
Definition decode_map {A} (value : JSON → error + A) (v : JSON) : error + option (gmap string A) :=
  match v with
  | JNull => inr None
  | JObject l =>
      match decode_members
              (λ m kv, match value kv.2 with inl e => inl e | inr a => inr (<[kv.1 := a]> m) end) ∅ l with
      | inl e => inl e
      | inr m => inr (Some m)
      end
  | _ => inl jsonTypeError
  end.

Definition decode_any (v : JSON) : error + JSON := inr v.

(** A pointer field: [null] is nil. *)
Definition decode_ptr_string (v : JSON) : error + option string :=
  match v with JString s => inr (Some s) | JNull => inr None | _ => inl jsonTypeError end.
Definition decode_ptr_bool (v : JSON) : error + option bool :=
  match v with JBool b => inr (Some b) | JNull => inr None | _ => inl jsonTypeError end.

(** [KeyAccessDetailsRegion.UnmarshalJSON] *)
Definition Region_Unmarshal (v : JSON) : error + KeyAccessDetailsRegion :=
  match decode_map decode_any v with
  | inl e => inl e
  | inr object =>
      let object := default ∅ object in
      let subject := match object !! "certificateSubject" with
                     | Some raw => decode_ptr_string raw | None => inr None end in
      let editable := match object !! "isEditable" with
                      | Some raw => decode_ptr_bool raw | None => inr None end in
      match subject, editable with
      | inl e, _ | _, inl e => inl e
      | inr s, inr b => inr (mkRegion s b (delete "isEditable" (delete "certificateSubject" object)))
      end
  end.

(** [KeyAccessDetailsRegion.MarshalJSON]: an additional property of the same name
    overwrites the field. *)
Definition Region_Marshal (a : KeyAccessDetailsRegion) : JSON :=
  let object : gmap string JSON := ∅ in
  let object := match r_CertificateSubject a with
                | Some s => <["certificateSubject" := JString s]> object | None => object end in
  let object := match r_IsEditable a with
                | Some b => <["isEditable" := JBool b]> object | None => object end in
  JObject (map_to_list (r_AdditionalProperties a ∪ object)).

Definition KeyAccessData_Marshal (d : option KeyAccessData) : JSON :=
  match d with
  | None => JNull
  | Some m => JObject (prod_map id Region_Marshal <$> map_to_list m)
  end.

(** [KeyAccessDetailsRegion.Set] *)
Definition Region_Set (fieldName : string) (value : JSON) (a : KeyAccessDetailsRegion) :
    KeyAccessDetailsRegion :=
  mkRegion (r_CertificateSubject a) (r_IsEditable a) (<[fieldName := value]> (r_AdditionalProperties a)).

Definition GetManagementAccessData (m : Key) : error + KeyAccessDetailsRegion :=
  match k_ManagementAccessData m with
  | None => inr Region_zero
  | Some v => Region_Unmarshal v
  end.

(** Nil when there is no data, or none that can be read. *)
Definition GetCryptoAccessData (m : Key) : option KeyAccessData :=
  match k_CryptoAccessData m with
  | None => None
  | Some v => match decode_map Region_Unmarshal v with inl _ => None | inr data => data end
  end.

(** * keystore.go *)

Definition DefaultKeyStore : string := "DEFAULT_KEYSTORE".

Record ManagementConfig := mkManagementConfig {
  mc_LocalityID : string;
  mc_CommonName : string;
  mc_AccessData : option (gmap string JSON) }.

Record CryptoConfig := mkCryptoConfig {
  cc_Subject : string;
  cc_AccessData : option (gmap string JSON) }.

(** [config.Region] *)
Record ConfigRegion := mkConfigRegion {
  cr_Name : string;
  cr_TechnicalName : string }.

Record KeystoreConfig := mkKeystoreConfig {
  kc_RoleManagementConfig : ManagementConfig;
  kc_KeyManagementConfig : ManagementConfig;
  kc_CryptoAccessData : option (gmap string CryptoConfig);
  kc_SupportedRegions : option (list ConfigRegion) }.

(** A member that is itself a document. *)
Definition doc_member {A T} (decode : JSON → error + A) (v : JSON) (set : A → T) : error + T :=
  match decode v with inl e => inl e | inr a => inr (set a) end.

Definition ManagementConfig_member (c : ManagementConfig) (kv : string * JSON) : error + ManagementConfig :=
  let '(k, v) := kv in
  let '(mkManagementConfig l n a) := c in
  if EqualFold k "localityId" then string_member v (λ l, mkManagementConfig l n a) c
  else if EqualFold k "commonName" then string_member v (λ n, mkManagementConfig l n a) c
  else if EqualFold k "accessData"
  then doc_member (decode_map decode_any) v (λ a, mkManagementConfig l n a)
  else inr c.
Definition CryptoConfig_member (c : CryptoConfig) (kv : string * JSON) : error + CryptoConfig :=
  let '(k, v) := kv in
  let '(mkCryptoConfig s a) := c in
  if EqualFold k "subject" then string_member v (λ s, mkCryptoConfig s a) c
  else if EqualFold k "accessData" then doc_member (decode_map decode_any) v (λ a, mkCryptoConfig s a)
  else inr c.
Definition ConfigRegion_member (c : ConfigRegion) (kv : string * JSON) : error + ConfigRegion :=
  let '(k, v) := kv in
  let '(mkConfigRegion n t) := c in
  if EqualFold k "name" then string_member v (λ n, mkConfigRegion n t) c
  else if EqualFold k "technicalName" then string_member v (λ t, mkConfigRegion n t) c
  else inr c.

Fixpoint decode_each {A} (decode : JSON → error + A) (l : list JSON) : error + list A :=
  match l with
  | [] => inr []
  | v :: l' =>
      match decode v with
      | inl e => inl e
      | inr a => match decode_each decode l' with inl e => inl e | inr r => inr (a :: r) end
      end
  end.
Definition decode_list {A} (decode : JSON → error + A) (v : JSON) : error + option (list A) :=
  match v with
  | JNull => inr None
  | JArray l => match decode_each decode l with inl e => inl e | inr r => inr (Some r) end
  | _ => inl jsonTypeError
  end.

Definition ManagementConfig_zero : ManagementConfig := mkManagementConfig "" "" None.
Definition KeystoreConfig_zero : KeystoreConfig :=
  mkKeystoreConfig ManagementConfig_zero ManagementConfig_zero None None.

Definition KeystoreConfig_member (c : KeystoreConfig) (kv : string * JSON) : error + KeystoreConfig :=
  let '(k, v) := kv in
  let '(mkKeystoreConfig r m d g) := c in
  if EqualFold k "roleManagementConfig"
  then doc_member (decode_struct ManagementConfig_member r) v (λ r, mkKeystoreConfig r m d g)
  else if EqualFold k "keyManagementConfig"
  then doc_member (decode_struct ManagementConfig_member m) v (λ m, mkKeystoreConfig r m d g)
  else if EqualFold k "cryptoAccessData"
  then doc_member (decode_map (decode_struct CryptoConfig_member (mkCryptoConfig "" None))) v
         (λ d, mkKeystoreConfig r m d g)
  else if EqualFold k "supportedRegions"
  then doc_member (decode_list (decode_struct ConfigRegion_member (mkConfigRegion "" ""))) v
         (λ g, mkKeystoreConfig r m d g)
  else inr c.

Definition KeystoreConfig_Unmarshal : JSON → error + KeystoreConfig :=
  decode_struct KeystoreConfig_member KeystoreConfig_zero.

(** ** [json.Marshal] *)

Definition any_map_Marshal (m : option (gmap string JSON)) : JSON :=
  match m with None => JNull | Some m => JObject (map_to_list m) end.
Definition ManagementConfig_Marshal (c : ManagementConfig) : JSON :=
  JObject [("localityId", JString (mc_LocalityID c)); ("commonName", JString (mc_CommonName c));
           ("accessData", any_map_Marshal (mc_AccessData c))].
Definition CryptoConfig_Marshal (c : CryptoConfig) : JSON :=
  JObject [("subject", JString (cc_Subject c)); ("accessData", any_map_Marshal (cc_AccessData c))].
Definition ConfigRegion_Marshal (r : ConfigRegion) : JSON :=
  JObject [("name", JString (cr_Name r)); ("technicalName", JString (cr_TechnicalName r))].
Definition regions_Marshal (l : option (list ConfigRegion)) : JSON :=
  match l with None => JNull | Some l => JArray (ConfigRegion_Marshal <$> l) end.

Definition KeystoreConfig_Marshal (c : KeystoreConfig) : JSON :=
  JObject [("roleManagementConfig", ManagementConfig_Marshal (kc_RoleManagementConfig c));
           ("keyManagementConfig", ManagementConfig_Marshal (kc_KeyManagementConfig c));
           ("cryptoAccessData",
              match kc_CryptoAccessData c with
              | None => JNull
              | Some m => JObject (prod_map id CryptoConfig_Marshal <$> map_to_list m)
              end);
           ("supportedRegions", regions_Marshal (kc_SupportedRegions c))].
