(* ===== verification/Events.v ===== *)
(** Events sent for systems and keys: internal/event-processor/types.go, errors.go,
    factory.go, helpers.go and repo.go.

    An event is a job handed to the orbital library, which is outside the repository
    and outside the tenant's transactions: [PrepareJob] is its answer, given the jobs
    it already has.  The last event of a system is also kept in the tenant's table of
    events, with the status the system had before. *)
From S2P Require Import Prelude Errs Json GoContext Model Store.

(** * types.go *)

Definition JobTypeSystemLink : string := "SYSTEM_LINK".
Definition JobTypeSystemUnlink : string := "SYSTEM_UNLINK".
Definition JobTypeSystemUnlinkDecommission : string := "SYSTEM_UNLINK_DECOMMISSION".
Definition JobTypeSystemSwitch : string := "SYSTEM_SWITCH".
Definition JobTypeSystemSwitchNewPK : string := "SYSTEM_SWITCH_NEW_PK".
Definition JobTypeSystemKeyRotate : string := "SYSTEM_KEY_ROTATE".
Definition JobTypeKeyEnable : string := "KEY_ENABLE".
Definition JobTypeKeyDisable : string := "KEY_DISABLE".
Definition JobTypeKeyDetach : string := "KEY_DETACH".
Definition JobTypeKeyDelete : string := "KEY_DELETE".

Record KeyActionJobData := mkKeyActionJobData {
  kd_TenantID : string;
  kd_KeyID : string }.

Record SystemActionJobData := mkSystemActionJobData {
  sd_SystemID : string;
  sd_TenantID : string;
  sd_KeyIDTo : string;
  sd_KeyIDFrom : string;
  sd_Trigger : string }.

Record KeyConfigActionJobData := mkKeyConfigActionJobData {
  cd_TenantID : string;
  cd_KeyConfigID : string }.

(** [json.Marshal]; an empty trigger is omitted. *)
Definition KeyActionJobData_Marshal (d : KeyActionJobData) : JSON :=
  JObject [("tenantID", JString (kd_TenantID d)); ("keyID", JString (kd_KeyID d))].

Definition SystemActionJobData_Marshal (d : SystemActionJobData) : JSON :=
  JObject ([("systemID", JString (sd_SystemID d)); ("tenantID", JString (sd_TenantID d));
            ("keyIDTo", JString (sd_KeyIDTo d)); ("keyIDFrom", JString (sd_KeyIDFrom d))] ++
           (if sd_Trigger d ==s "" then [] else [("trigger", JString (sd_Trigger d))])).

Definition KeyActionJobData_member (d : KeyActionJobData) (kv : string * JSON) : error + KeyActionJobData :=
  let '(k, v) := kv in
  let '(mkKeyActionJobData t i) := d in
  if EqualFold k "tenantID" then string_member v (λ t, mkKeyActionJobData t i) d
  else if EqualFold k "keyID" then string_member v (λ i, mkKeyActionJobData t i) d
  else inr d.

Definition SystemActionJobData_member (d : SystemActionJobData) (kv : string * JSON) :
    error + SystemActionJobData :=
  let '(k, v) := kv in
  let '(mkSystemActionJobData s t kt kf tr) := d in
  if EqualFold k "systemID" then string_member v (λ s, mkSystemActionJobData s t kt kf tr) d
  else if EqualFold k "tenantID" then string_member v (λ t, mkSystemActionJobData s t kt kf tr) d
  else if EqualFold k "keyIDTo" then string_member v (λ kt, mkSystemActionJobData s t kt kf tr) d
  else if EqualFold k "keyIDFrom" then string_member v (λ kf, mkSystemActionJobData s t kt kf tr) d
  else if EqualFold k "trigger" then string_member v (λ tr, mkSystemActionJobData s t kt kf tr) d
  else inr d.

Definition KeyActionJobData_Unmarshal : JSON → error + KeyActionJobData :=
  decode_struct KeyActionJobData_member (mkKeyActionJobData "" "").
Definition SystemActionJobData_Unmarshal : JSON → error + SystemActionJobData :=
  decode_struct SystemActionJobData_member (mkSystemActionJobData "" "" "" "" "").

(** * helpers.go *)

Definition GetSystemJobData (e : Event) : error + SystemActionJobData :=
  SystemActionJobData_Unmarshal (e_Data e).

(** [fmt.Errorf("<msg>: %w", err)] *)
Definition Errorf_sw (msg : string) (err : error) : error :=
  match err with
  | Panic _ => err
  | _ => Typed (msg +:+ ": " +:+ Error err) err
  end.

Definition wrap_sum {A} (f : error → error) (r : error + A) : error + A :=
  match r with inl e => inl (f e) | inr a => inr a end.

Definition unmarshalKeyJobData (job : Job) : error + KeyActionJobData :=
  wrap_sum (Errorf_sw "failed to unmarshal job data") (KeyActionJobData_Unmarshal (job_Data job)).
Definition unmarshalSystemJobData (job : Job) : error + SystemActionJobData :=
  wrap_sum (Errorf_sw "failed to unmarshal job data") (SystemActionJobData_Unmarshal (job_Data job)).

(** * errors.go *)

Definition DefaultErrorCode : string := "UNKNOWN".
Definition DefaultErrorMessage : string := "Unknown".
Definition KeyVersionMismatchCode : string := "KEY_VERSION_MISMATCH".

Record OrbitalError := mkOrbitalError {
  oe_Message : string;
  oe_Code : string }.

Definition OrbitalError_DefaultError : OrbitalError :=
  mkOrbitalError DefaultErrorMessage DefaultErrorCode.
Definition IsDefaultError (e : OrbitalError) : bool :=
  (oe_Message e ==s DefaultErrorMessage) && (oe_Code e ==s DefaultErrorCode).
Definition OrbitalError_String (e : OrbitalError) : string := oe_Code e +:+ ":" +:+ oe_Message e.

Definition colon : Ascii.ascii := Ascii.ascii_of_nat 58.
Definition underscore : Ascii.ascii := Ascii.ascii_of_nat 95.

(** [strings.Cut] at a colon. *)
Fixpoint CutColon (s : string) : option (string * string) :=
  match s with
  | EmptyString => None
  | String c s' =>
      if Ascii.eqb c colon then Some ("", s')
      else match CutColon s' with Some (a, b) => Some (String c a, b) | None => None end
  end.

Definition isUpper (c : Ascii.ascii) : bool :=
  let n := Ascii.nat_of_ascii c in (65 <=? n) && (n <=? 90).

(** The pattern [^[A-Z]+(?:_[A-Z]+)*$]: letters, with single underscores between
    them. *)
Fixpoint screaming (afterLetter : bool) (s : string) : bool :=
  match s with
  | EmptyString => afterLetter
  | String c s' =>
      if isUpper c then screaming true s'
      else if Ascii.eqb c underscore then afterLetter && screaming false s'
      else false
  end.
Definition MatchCode (code : string) : bool := screaming false code.

Definition ParseOrbitalError (errorMessage : string) : OrbitalError :=
  match CutColon errorMessage with
  | Some (code, message) =>
      if MatchCode code then mkOrbitalError message code
      else mkOrbitalError errorMessage DefaultErrorCode
  | None => mkOrbitalError errorMessage DefaultErrorCode
  end.

Definition IsVersionMismatchError (errorMessage : string) : bool :=
  oe_Code (ParseOrbitalError errorMessage) ==s KeyVersionMismatchCode.

(** The sentinel errors of reconciler.go, resolvers.go and factory.go. *)
Definition ErrInvalidJobType := New "eventprocessor.ErrInvalidJobType" "invalid job type".
Definition ErrUnsupportedJobType := New "eventprocessor.ErrUnsupportedJobType" "unsupported job type".
Definition ErrTargetNotConfigured :=
  New "eventprocessor.ErrTargetNotConfigured" "target not configured for region".
Definition ErrKeyAccessMetadataNotFound :=
  New "eventprocessor.ErrKeyAccessMetadataNotFound" "key access metadata not found for system region".
Definition ErrPluginNotFound :=
  New "eventprocessor.ErrPluginNotFound" "plugin not found for key provider".
Definition ErrSettingKeyClaim :=
  New "eventprocessor.ErrSettingKeyClaim" "error setting key claim for system".
Definition ErrSettingSystemLockedStatus :=
  New "eventprocessor.ErrSettingSystemLockedStatus" "error setting system status to locked".
Definition ErrNoConnectedRegionsForKey :=
  New "eventprocessor.ErrNoConnectedRegionsForKey" "no connected regions found for key".
Definition ErrNoTasksResolvedForJob :=
  New "eventprocessor.ErrNoTasksResolvedForJob" "no tasks resolved for the job".
Definition ErrKeyRotateMismatchedKeyIDs :=
  New "eventprocessor.ErrKeyRotateMismatchedKeyIDs" "system key rotate requires identical key IDs".
Definition ErrKeystoreNotEnrolled :=
  New "eventprocessor.ErrKeystoreNotEnrolled"
    "no crypto access data provisioned for tenant: keystore not enrolled".
Definition ErrNoCryptoAccessData :=
  New "eventprocessor.ErrNoCryptoAccessData" "no crypto access data provisioned for tenant".
Definition ErrEventSendingFailed := New "eventprocessor.ErrEventSendingFailed" "failed to send event".
Definition ErrNoPreviousEvent :=
  New "eventprocessor.ErrNoPreviousEvent" "no previous events found for selected item".
Definition ErrSystemProcessing :=
  New "eventprocessor.ErrSystemProcessing" "system is still in processing state".
Definition ErrMissingKeyID :=
  New "eventprocessor.ErrMissingKeyID" "keyID is required to create key event job".
Definition ErrVersionHasNoNativeID :=
  New "eventprocessor.ErrVersionHasNoNativeID" "latest key version has no native ID".

Definition orbitalEntry (err : error) (message code : string) : @ExposedErrors OrbitalError unit :=
  mkExposed [err] (mkOrbitalError message code) None.

Definition errorMapper : ErrorMapper :=
  NewMapper
    [orbitalEntry ErrNoConnectedRegionsForKey "no connected regions found for key"
       "NO_CONNECTED_REGIONS_FOR_KEY";
     orbitalEntry ErrTargetNotConfigured "target not configured for region" "UNCONFIGURED_REGION";
     orbitalEntry ErrKeyAccessMetadataNotFound "key does not support system region" "UNSUPPORTED_REGION";
     orbitalEntry ErrNoTasksResolvedForJob "no tasks resolved for the job" "NO_TASKS_RESOLVED_FOR_JOB"]
    [].

Definition GetOrbitalError (err : error) : string :=
  let orbErr := Transform (λ e _, e) OrbitalError_DefaultError errorMapper err in
  if IsDefaultError orbErr then Error err else OrbitalError_String orbErr.

(** * repo.go *)

Section Lookup.
Context {UP : UUIDParse}.

(** A row looked up by a textual identifier, which the database casts. *)
Definition invalidUUID : error :=
  Wrap ErrGetResource (Some (External "invalid input syntax for type uuid")).
Definition FirstByText {T} `{!Resource T} (column : T → uuid) (id : string) : Comp World T :=
  match uuid_Parse id with
  | inl _ => db_call (λ _ d, (d, inl invalidUUID))
  | inr u => First (λ x, N.eqb (column x) u)
  end.

Definition getSystemByID (systemID : string) : Comp World System := FirstByText s_ID systemID.
Definition getKeyByKeyID (keyID : string) : Comp World Key :=
  map_err (Errorf_sw ("failed to get key by ID " +:+ keyID)) (FirstByText k_ID keyID).
End Lookup.

Definition updateSystem `{!UUIDString} (system : System) : Comp World unit :=
  _ ← map_err (Errorf_sw ("failed to update system " +:+ uuid_String (s_ID system)))
    (Patch system [AllFields]); mret tt.
Definition updateKey `{!UUIDString} (key : Key) : Comp World unit :=
  _ ← map_err (Errorf_sw ("failed to update key " +:+ uuid_String (k_ID key)))
    (Patch key [AllFields]); mret tt.

(** The newest of the versions: [ORDER BY rotated_at DESC]. *)
Definition newest (l : list KeyVersion) : option KeyVersion :=
  foldl (λ acc v,
    match acc with
    | None => Some v
    | Some b => if (kv_RotatedAt b <? kv_RotatedAt v)%Z then Some v else Some b
    end) None l.

Definition getNewestKeyVersionNativeID `{!UUIDParse} (keyID : string) : Comp World string :=
  kv ← map_err (Errorf_sw ("failed to get newest key version for key " +:+ keyID))
    (match uuid_Parse keyID with
     | inl _ => db_call (λ _ d, (d, inl invalidUUID))
     | inr u => db_call (λ _ d,
         match newest (select (λ v, N.eqb (kv_KeyID v) u) (rows d)) with
         | Some v => (d, inr v)
         | None => (d, inl (Wrap ErrNotFound (Some ErrRecordNotFound)))
         end)
     end);
  if kv_NativeID kv ==s "" then fail ErrVersionHasNoNativeID else mret (kv_NativeID kv).

(** * factory.go *)

(** github.com/openkcm/orbital: [PrepareJob] stores a job and returns it with its
    identifier and status, or refuses it. *)
Definition ErrJobAlreadyExists := New "orbital.ErrJobAlreadyExists" "job already exists".
Class Orbital := {
  PrepareJob : list Job → Job → error + Job;
  FailedTasks : Job → error + list string }.
Class OrbitalLaws `{!Orbital} := {
  PrepareJob_keeps js j j' : PrepareJob js j = inr j' →
    job_ExternalID j' = job_ExternalID j ∧ job_Type j' = job_Type j ∧ job_Data j' = job_Data j }.

Section Factory.
Context {O : Orbital} {US : UUIDString}.

Definition CreateJob (event : Event) : Comp World Job := λ w,
  match PrepareJob (w_jobs w) (mkJob 0 (e_Identifier event) (e_Type event) (e_Data event) "" "") with
  | inl err => (w, inl err)
  | inr job => (set_jobs (job :: w_jobs w) w, inr job)
  end.

(** [Event func(ctx) (orbital.Job, error)] is run at once; the system it works on is
    shared with the caller, so it is returned with its new status. *)
Definition SendEvent {A} (event : Comp World A) : Comp World A :=
  map_err (wrapping ErrEventSendingFailed) event.

(** Whatever [First] fails with, nothing was found. *)
Definition GetLastEvent (cmkItemID : string) : Comp World Event :=
  map_err (λ _, ErrNoPreviousEvent) (First (λ e, e_Identifier e ==s cmkItemID)).

Definition createKeyEventJob (ctx : Ctx) (keyID jobType : string) : Comp World Job :=
  if keyID ==s "" then fail ErrMissingKeyID else
  tenantID ← lift (ExtractTenantID ctx);
  let jobData := KeyActionJobData_Marshal (mkKeyActionJobData tenantID keyID) in
  CreateJob (mkEvent keyID jobType jobData "" "" "" "").

Definition createSystemEventJob (ctx : Ctx) (jobType : string) (data : SystemActionJobData) :
    Comp World Job :=
  tenantID ← lift (ExtractTenantID ctx);
  let data := mkSystemActionJobData (sd_SystemID data) tenantID (sd_KeyIDTo data) (sd_KeyIDFrom data)
                (sd_Trigger data) in
  CreateJob (mkEvent (sd_SystemID data) jobType (SystemActionJobData_Marshal data) "" "" "" "").

(** The event row of a job, with the status its system had before. *)
Definition eventOf (job : Job) (previousStatus : string) : Event :=
  mkEvent (job_ExternalID job) (job_Type job) (job_Data job) (job_Status job) "" "" previousStatus.

Definition handleSystemStatus (system : System) (eventFn : Comp World Job) :
    Comp World (System * Job) :=
  let previousStatus := s_Status system in
  let processing := set_s_Status SystemStatusPROCESSING system in
  job ← Transaction
    (if s_Status system ==s SystemStatusPROCESSING then fail ErrSystemProcessing else
     _ ← Patch processing [AllFields];
     eventFn);
  _ ← attempt (Set_ (eventOf job previousStatus));
  mret (processing, job).

Definition SystemLink (ctx : Ctx) (system : System) (keyID : string) : Comp World (System * Job) :=
  handleSystemStatus system
    (createSystemEventJob ctx JobTypeSystemLink
       (mkSystemActionJobData (uuid_String (s_ID system)) "" keyID "" "")).

Definition SystemUnlink (ctx : Ctx) (system : System) (keyID : string) : Comp World (System * Job) :=
  handleSystemStatus system
    (createSystemEventJob ctx JobTypeSystemUnlink
       (mkSystemActionJobData (uuid_String (s_ID system)) "" "" keyID "")).

Definition SystemUnlinkDecommission (ctx : Ctx) (system : System) (keyID : string) :
    Comp World (System * Job) :=
  if s_Status system ==s SystemStatusPROCESSING then fail ErrSystemProcessing else
  let processing := set_s_Status SystemStatusPROCESSING system in
  _ ← Transaction (_ ← Patch processing [AllFields]; mret tt);
  job ← createSystemEventJob ctx JobTypeSystemUnlinkDecommission
    (mkSystemActionJobData (uuid_String (s_ID system)) "" "" keyID "");
  mret (processing, job).

Definition SystemSwitch (ctx : Ctx) (system : System) (keyIDTo keyIDFrom : string) :
    Comp World (System * Job) :=
  handleSystemStatus system
    (createSystemEventJob ctx JobTypeSystemSwitch
       (mkSystemActionJobData (uuid_String (s_ID system)) "" keyIDTo keyIDFrom "")).

Definition SystemSwitchNewPrimaryKey (ctx : Ctx) (system : System) (keyIDTo keyIDFrom : string) :
    Comp World (System * Job) :=
  handleSystemStatus system
    (createSystemEventJob ctx JobTypeSystemSwitchNewPK
       (mkSystemActionJobData (uuid_String (s_ID system)) "" keyIDTo keyIDFrom "")).

Definition SystemKeyRotate (ctx : Ctx) (system : System) (keyID : string) : Comp World Job :=
  job ← createSystemEventJob ctx JobTypeSystemKeyRotate
    (mkSystemActionJobData (uuid_String (s_ID system)) "" keyID keyID "");
  _ ← attempt (Set_ (eventOf job (s_Status system)));
  mret job.

Definition KeyEnable (ctx : Ctx) (keyID : string) : Comp World Job :=
  createKeyEventJob ctx keyID JobTypeKeyEnable.
Definition KeyDisable (ctx : Ctx) (keyID : string) : Comp World Job :=
  createKeyEventJob ctx keyID JobTypeKeyDisable.
Definition KeyDetach (ctx : Ctx) (keyID : string) : Comp World Job :=
  createKeyEventJob ctx keyID JobTypeKeyDetach.
End Factory.
