(* ===== verification/JobHandlers.v ===== *)
(** What happens to the jobs: internal/event-processor/handlers_system.go and
    handlers_key.go.

    The orbital library calls the reconciler for a job of any tenant; a handler reads
    the tenant from the job and works on that tenant's tables, so the state is the
    databases of all tenants ([Fleet]).  The registry service and the key-management
    plugins are outside the repository; what they answer may depend on the calls made
    before. *)
From S2P Require Import Prelude Errs Json GoContext Model Store Events.

(** * All tenants *)

Record Fleet := mkFleet {
  f_public : Public;
  f_schemas : gmap string DB;
  f_now : Z;
  f_faults : list (option error);
  f_jobs : list Job;
  f_log : list Effect;
  f_providers : gmap (string * string * string) (gmap string JSON * Z) }.

(** The tables of a tenant, with the tables that all tenants share. *)
Definition world_of (f : Fleet) (d : DB) : World :=
  mkWorld (set_public (f_public f) d) (f_now f) false (f_faults f) (f_jobs f) (f_log f) (f_providers f).
Definition put_world (schema : string) (d : DB) (w : World) (f : Fleet) : Fleet :=
  mkFleet (db_public (w_db w)) (<[schema := set_public (db_public d) (w_db w)]> (f_schemas f))
    (w_now w) (w_faults w) (w_jobs w) (w_log w) (w_providers w).

(** The schema of a tenant. *)
Definition schema_of (f : Fleet) (tenantID : string) : option string :=
  t_SchemaName <$> find (λ t, t_ID t ==s tenantID) (pub_tenants (f_public f)).

(** Repository calls with [CreateTenantContext(ctx, tenantID)]. *)
Definition onTenant {A} (tenantID : string) (m : Comp World A) : Comp Fleet A := λ f,
  if tenantID ==s "" then (f, inl (Wrap ErrWithTenant (Some ErrExtractTenantID)))
  else
    match schema_of f tenantID with
    | None => (f, inl ErrTenantNotFound)
    | Some schema =>
        match f_schemas f !! schema with
        | None => (f, inl (External "relation does not exist"))
        | Some d => let '(w, r) := m (world_of f d) in (put_world schema d w f, r)
        end
    end.

(** * Services *)

Definition ErrKeyClaimAlreadyActive := New "systems.ErrKeyClaimAlreadyActive" "key claim is already active".
Definition ErrKeyClaimAlreadyInactive :=
  New "systems.ErrKeyClaimAlreadyInactive" "key claim is already inactive".

(** The registry client, when there is one: its answer to a call after others. *)
Class Registry := registry : option (list Effect → Effect → option error).

Definition callRegistry `{!Registry} (e : Effect) : Comp World unit := λ w,
  match registry with
  | None => (w, inl nilDereference)
  | Some answer =>
      (set_log (e :: w_log w) w,
       match answer (w_log w) e with Some err => inl err | None => inr tt end)
  end.

(** An audit log; a failure to send it is only logged. *)
Definition audit (kind : string) (args : list string) : Comp World unit := λ w,
  (set_log (AuditLog kind args :: w_log w) w, inr tt).

(** * handlers_system.go: shared parts *)

Definition cleanUpEvent `{!UUIDString} (job : Job) : Comp World unit :=
  _ ← map_err (Errorf_sw ("failed to clean up event for job " +:+ uuid_String (job_ID job)))
    (DeleteWhere (λ e, (e_Identifier e ==s job_ExternalID job) && (e_Type e ==s job_Type job)));
  mret tt.

Definition updateEventError (identifier errorMessage : string) : Comp World unit :=
  let orbitalErr := ParseOrbitalError errorMessage in
  _ ← Patch (mkEvent identifier "" JNull "" (oe_Code orbitalErr) (oe_Message orbitalErr) "") [];
  mret tt.

Definition mergeOrbitalTaskErrors `{!Orbital} (job : Job) : error + string :=
  match FailedTasks job with
  | inl err => inl err
  | inr taskErrors => inr (String.concat ":" taskErrors)
  end.

Section Handlers.
Context {O : Orbital} {Rg : Registry} {UP : UUIDParse} {US : UUIDString}.

Definition sendL1KeyClaim (system : System) (tenant : string) (keyClaim : bool) : Comp World unit :=
  r ← try_ (callRegistry (RegistryKeyClaim (s_Identifier system) (s_Region system) tenant keyClaim));
  match r with
  | inr _ => mret tt
  | inl err =>
      if (errors_Is err ErrKeyClaimAlreadyActive && keyClaim) ||
         (errors_Is err ErrKeyClaimAlreadyInactive && negb keyClaim)
      then mret tt else fail (wrapping ErrSettingKeyClaim err)
  end.

Inductive JobConfirmerResult :=
| CompleteJobConfirmer
| CancelJobConfirmer (reason : string).

(** A job with the data of a system action, in the tables of its tenant. *)
Definition onSystemJob {A} (job : Job) (f : SystemActionJobData → Comp World A) : Comp Fleet A :=
  data ← lift (unmarshalSystemJobData job);
  onTenant (sd_TenantID data) (f data).
Definition onKeyJob {A} (job : Job) (f : KeyActionJobData → Comp World A) : Comp Fleet A :=
  data ← lift (unmarshalKeyJobData job);
  onTenant (kd_TenantID data) (f data).

Definition handleSystemJobConfirm (job : Job) : Comp Fleet JobConfirmerResult :=
  onSystemJob job (λ data,
    r ← try_ (getSystemByID (sd_SystemID data));
    match r with
    | inl err =>
        if errors_Is err ErrNotFound
        then mret (CancelJobConfirmer ("system with ID " +:+ sd_SystemID data +:+ " not found"))
        else fail (Errorf_sw ("failed to get system by ID " +:+ sd_SystemID data) err)
    | inr system =>
        if negb (s_Status system ==s SystemStatusPROCESSING)
        then mret (CancelJobConfirmer ("system " +:+ uuid_String (s_ID system) +:+ " is not in processing status"))
        else mret CompleteJobConfirmer
    end).

(** Mark the system of a job FAILED and keep the error with its event. *)
Definition failSystem (job : Job) (data : SystemActionJobData) (errorMessage : string) : Comp World unit :=
  r ← try_ (getSystemByID (sd_SystemID data));
  match r with
  | inl err => if errors_Is err ErrNotFound then mret tt else fail err
  | inr system =>
      Transaction
        (_ ← updateEventError (job_ExternalID job) errorMessage;
         updateSystem (set_s_Status SystemStatusFAILED system))
  end.

Definition terminateFailedSystemJob (job : Job) : Comp Fleet unit :=
  onSystemJob job (λ data,
    failSystem job data
      (match mergeOrbitalTaskErrors job with
       | inl _ => job_ErrorMessage job
       | inr errorMessage => if errorMessage ==s "" then job_ErrorMessage job else errorMessage
       end)).

Definition terminateCanceledSystemJob (job : Job) : Comp Fleet unit :=
  onSystemJob job (λ data, failSystem job data (job_ErrorMessage job)).

(** * SystemLinkJobHandler, SystemUnlinkJobHandler, SystemSwitchJobHandler *)

(** The system as a finished link or switch leaves it. *)
Definition connected (key : Key) (system : System) : System :=
  set_s_TargetKeyConfigurationID None
    (set_s_KeyConfigurationID (Some (k_KeyConfigurationID key))
       (set_s_Status SystemStatusCONNECTED system)).
Definition disconnected (system : System) : System :=
  set_s_KeyConfigurationID None (set_s_Status SystemStatusDISCONNECTED system).

Definition keyOfJob (keyID : string) : Comp World Key :=
  map_err (Errorf_sw ("failed to get key config ID for key " +:+ keyID)) (getKeyByKeyID keyID).

Definition SystemLink_HandleJobDoneEvent (job : Job) : Comp Fleet unit :=
  onSystemJob job (λ data,
    system ← getSystemByID (sd_SystemID data);
    _ ← sendL1KeyClaim system (sd_TenantID data) true;
    key ← keyOfJob (sd_KeyIDTo data);
    _ ← Transaction (_ ← updateSystem (connected key system); cleanUpEvent job);
    audit "CmkOnboarding" [s_Identifier system; sd_KeyIDTo data]).

Definition SystemUnlink_HandleJobDoneEvent (job : Job) : Comp Fleet unit :=
  onSystemJob job (λ data,
    system ← getSystemByID (sd_SystemID data);
    _ ← sendL1KeyClaim system (sd_TenantID data) false;
    _ ← Transaction (_ ← updateSystem (disconnected system); cleanUpEvent job);
    audit "CmkOffboarding" [s_Identifier system; sd_KeyIDFrom data]).

Definition SystemSwitch_HandleJobDoneEvent (job : Job) : Comp Fleet unit :=
  onSystemJob job (λ data,
    system ← getSystemByID (sd_SystemID data);
    key ← keyOfJob (sd_KeyIDTo data);
    _ ← Transaction (_ ← updateSystem (connected key system); cleanUpEvent job);
    audit "CmkSwitch" [s_Identifier system; sd_KeyIDFrom data; sd_KeyIDTo data]).

(** * SystemUnlinkDecommissionJobHandler *)

Definition Status_STATUS_LOCKED : string := "STATUS_LOCKED".

Definition lockSystemInRegistry (job : Job) : Comp Fleet unit :=
  onSystemJob job (λ data,
    system ← getSystemByID (sd_SystemID data);
    map_err (wrapping ErrSettingSystemLockedStatus)
      (callRegistry (RegistryStatus (s_Identifier system) (s_Region system) (s_Type system)
                       Status_STATUS_LOCKED))).

Definition Decommission_terminate (job : Job) : Comp Fleet (System * string) :=
  onSystemJob job (λ data,
    system ← getSystemByID (sd_SystemID data);
    let system := disconnected system in
    _ ← updateSystem system;
    _ ← sendL1KeyClaim system (sd_TenantID data) false;
    mret (system, sd_KeyIDFrom data)).

(** The audit log of a finished decommission is sent with the context of the caller. *)
Definition auditFleet (kind : string) (args : list string) : Comp Fleet unit := λ f,
  (mkFleet (f_public f) (f_schemas f) (f_now f) (f_faults f) (f_jobs f) (AuditLog kind args :: f_log f)
     (f_providers f), inr tt).

Definition SystemUnlinkDecommission_HandleJobDoneEvent (job : Job) : Comp Fleet unit :=
  r ← map_err (Errorf_sw "failed to handle job done event for system unlink decommission job")
    (Decommission_terminate job);
  auditFleet "CmkOffboarding" [s_Identifier r.1; r.2].

Definition SystemUnlinkDecommission_HandleJobFailedEvent (job : Job) : Comp Fleet unit :=
  _ ← logged (lockSystemInRegistry job);
  _ ← map_err (Errorf_sw "failed to handle job failed event for system unlink decommission job")
    (Decommission_terminate job);
  mret tt.

Definition SystemUnlinkDecommission_HandleJobCanceledEvent (job : Job) : Comp Fleet unit :=
  onSystemJob job (λ data,
    system ← getSystemByID (sd_SystemID data);
    updateSystem (set_s_Status SystemStatusFAILED system)).

(** * SystemKeyRotateJobHandler *)

Definition SystemKeyRotate_HandleJobDoneEvent (job : Job) : Comp Fleet unit :=
  onSystemJob job (λ data,
    r ← try_ (getSystemByID (sd_SystemID data));
    match r with
    | inl err => if negb (errors_Is err ErrNotFound) then fail err else cleanUpEvent job
    | inr system =>
        map_err (Errorf_sw ("failed to clean up event for system " +:+ uuid_String (s_ID system)))
          (cleanUpEvent job)
    end).

Definition SystemKeyRotate_HandleJobFailedEvent (job : Job) : Comp Fleet unit :=
  let errorMessage := match mergeOrbitalTaskErrors job with
                      | inl _ => job_ErrorMessage job | inr m => m end in
  _ ← lift (unmarshalSystemJobData job);
  if IsVersionMismatchError errorMessage
  then onSystemJob job (λ _, cleanUpEvent job)
  else terminateFailedSystemJob job.

Definition SystemKeyRotate_HandleJobCanceledEvent (job : Job) : Comp Fleet unit :=
  onSystemJob job (λ _, cleanUpEvent job).

(** * handlers_key.go *)

Definition KeyDetach_terminate (job : Job) (targetState : string) : Comp Fleet Key :=
  onKeyJob job (λ data,
    key ← getKeyByKeyID (kd_KeyID data);
    let key := set_k_State targetState key in
    _ ← updateKey key;
    mret key).

Definition KeyDetach_HandleJobConfirm (job : Job) : Comp Fleet JobConfirmerResult :=
  onKeyJob job (λ data,
    r ← try_ (getKeyByKeyID (kd_KeyID data));
    match r with
    | inl err =>
        if errors_Is err ErrNotFound
        then mret (CancelJobConfirmer ("key with ID " +:+ kd_KeyID data +:+ " not found"))
        else fail (Errorf_sw ("failed to get key by ID " +:+ kd_KeyID data) err)
    | inr key =>
        if negb (k_State key ==s KeyStateDETACHING)
        then mret (CancelJobConfirmer ("key " +:+ uuid_String (k_ID key) +:+ " is not in detaching status"))
        else mret CompleteJobConfirmer
    end).

Definition KeyDetach_HandleJobDoneEvent (job : Job) : Comp Fleet unit :=
  key ← map_err (Errorf_sw "failed to update key state on detach job completion")
    (KeyDetach_terminate job KeyStateDETACHED);
  auditFleet "CmkDetach" [uuid_String (k_ID key)].
Definition KeyDetach_HandleJobFailedEvent (job : Job) : Comp Fleet unit :=
  _ ← map_err (Errorf_sw "failed to update key state on detach job failure")
    (KeyDetach_terminate job KeyStateDETACHED);
  mret tt.
Definition KeyDetach_HandleJobCanceledEvent (job : Job) : Comp Fleet unit :=
  _ ← map_err (Errorf_sw "failed to update key state on detach job cancellation")
    (KeyDetach_terminate job KeyStateUNKNOWN);
  mret tt.
End Handlers.
