(* ===== verification/Reconciler.v ===== *)
(** From jobs to tasks: internal/event-processor/resolvers.go, and the dispatch of the
    orbital callbacks to the handlers in reconciler.go. *)
From S2P Require Import Prelude Errs Json GoContext Model Store Batch.
From S2P Require Import KeyAccess Events JobHandlers.

(** * Tasks *)

(** The messages of internal/event-processor/proto; a task carries one, in the wire
    format of the protobuf library. *)
Inductive TaskType :=
| KEY_ENABLE | KEY_DISABLE | KEY_DELETE | SYSTEM_KEY_ROTATE
| SYSTEM_LINK | SYSTEM_UNLINK | SYSTEM_SWITCH | KEY_DETACH.

Definition TaskType_String (t : TaskType) : string :=
  match t with
  | KEY_ENABLE => "KEY_ENABLE"
  | KEY_DISABLE => "KEY_DISABLE"
  | KEY_DELETE => "KEY_DELETE"
  | SYSTEM_KEY_ROTATE => "SYSTEM_KEY_ROTATE"
  | SYSTEM_LINK => "SYSTEM_LINK"
  | SYSTEM_UNLINK => "SYSTEM_UNLINK"
  | SYSTEM_SWITCH => "SYSTEM_SWITCH"
  | KEY_DETACH => "KEY_DETACH"
  end.

Record SystemAction := mkSystemAction {
  sa_SystemId : string;
  sa_SystemRegion : string;
  sa_SystemType : string;
  sa_KeyIdFrom : string;
  sa_KeyIdTo : string;
  sa_KeyProvider : string;
  sa_TenantId : string;
  sa_TenantOwnerId : string;
  sa_TenantOwnerType : string;
  sa_CmkRegion : string;
  sa_KeyAccessMetaData : string }.

Record KeyAction := mkKeyAction {
  ka_KeyId : string;
  ka_TenantId : string;
  ka_CmkRegion : string }.

Inductive ProtoData :=
| Data_SystemAction (taskType : TaskType) (a : SystemAction)
| Data_KeyAction (taskType : TaskType) (a : KeyAction).

Record TaskInfo := mkTaskInfo {
  ti_Target : string;
  ti_Data : ProtoData;
  ti_Type : string }.

(** * Services *)

(** A key-management plugin: [TransformCryptoAccessData] gives the access metadata per
    region. *)
Class KeyManagements :=
  keyManagements : error + gmap string (string → JSON → error + gmap string string).

(** The configured targets and the landscape region. *)
Class EventProcessorConfig := {
  targets : gmap string unit;
  LandscapeRegion : string }.

Section Resolvers.
Context {O : Orbital} {Rg : Registry} {UP : UUIDParse} {US : UUIDString} {G : GoMaps}.
Context {KM : KeyManagements} {C : EventProcessorConfig}.

Definition getTenantByID (tenantID : string) : Comp World Tenant :=
  comparing ErrGetResource [tenantID] (First (λ t, eqField tenantID (t_ID t))).

(** * SystemTaskInfoResolver *)

Definition validateSystemRegionTarget (region : string) : Comp World unit :=
  match targets !! region with
  | None => fail (Wrapf ErrTargetNotConfigured region)
  | Some _ => mret tt
  end.

Definition is_unlink (t : TaskType) : bool := match t with SYSTEM_UNLINK => true | _ => false end.
Definition is_rotate (t : TaskType) : bool := match t with SYSTEM_KEY_ROTATE => true | _ => false end.

Definition selectKeyForTask (taskType : TaskType) (data : SystemActionJobData) : Comp World Key :=
  let keyID := if is_unlink taskType then sd_KeyIDFrom data else sd_KeyIDTo data in
  if is_rotate taskType && negb (sd_KeyIDFrom data ==s sd_KeyIDTo data)
  then fail (Wrapf ErrKeyRotateMismatchedKeyIDs
               ("got " +:+ quoted (sd_KeyIDFrom data) +:+ " -> " +:+ quoted (sd_KeyIDTo data)))
  else getKeyByKeyID keyID.

Definition fetchAndPopulateVersionInfo (key : Key) : Comp World (option KeyAccessData) :=
  let cryptoData := GetCryptoAccessData key in
  r ← try_ (getNewestKeyVersionNativeID (uuid_String (k_ID key)));
  match r with
  | inl err =>
      if errors_Is err ErrNotFound then mret cryptoData
      else fail (Errorf_sw "failed to get latest key version native ID" err)
  | inr latestVersionID =>
      if latestVersionID ==s "" then mret cryptoData
      else mret (fmap (M := gmap string) (Region_Set "versionIdentifier" (JString latestVersionID))
                 <$> cryptoData)
  end.

Definition getCryptoAccessDataFromConfig : Comp World (option KeyAccessData) :=
  r ← try_ (First (λ c, tc_Key c ==s DefaultKeyStore));
  match r with
  | inl err =>
      if negb (errors_Is err ErrNotFound)
      then fail (Errorf_sw "failed to get default keystore config" err)
      else fail ErrKeystoreNotEnrolled
  | inr cfg =>
      ksConfig ← lift (wrap_sum (Errorf_sw "failed to unmarshal keystore config")
                         (KeystoreConfig_Unmarshal (tc_Value cfg)));
      let cryptoAccessData := default ∅ (kc_CryptoAccessData ksConfig) in
      if Nat.eqb (size cryptoAccessData) 0 then fail ErrNoCryptoAccessData
      else mret (Some ((λ cryptoCfg, mkRegion (Some (cc_Subject cryptoCfg)) None
                                       (default ∅ (cc_AccessData cryptoCfg))) <$> cryptoAccessData))
  end.

Definition getKeyAccessMetadata (key : Key) (systemRegion : string) : Comp World string :=
  match keyManagements with
  | inl _ => fail ErrPluginNotFound
  | inr plugins =>
      match plugins !! k_Provider key with
      | None => fail ErrPluginNotFound
      | Some transformCryptoAccessData =>
          cryptoData ← (if k_KeyType key ==s KeyTypeHYOK
                        then fetchAndPopulateVersionInfo key else getCryptoAccessDataFromConfig);
          match k_NativeID key with
          | None => fail nilDereference
          | Some nativeID =>
              transformed ← lift (transformCryptoAccessData nativeID (KeyAccessData_Marshal cryptoData));
              match transformed !! systemRegion with
              | None => fail ErrKeyAccessMetadataNotFound
              | Some keyAccessMetadata => mret keyAccessMetadata
              end
          end
      end
  end.

Definition buildSystemActionTaskData (taskType : TaskType) (data : SystemActionJobData) (tenant : Tenant)
    (system : System) (key : Key) (keyAccessMetadata : string) : ProtoData :=
  Data_SystemAction taskType
    (mkSystemAction (s_Identifier system) (s_Region system) (toLower (s_Type system))
       (sd_KeyIDFrom data) (sd_KeyIDTo data) (toLower (k_Provider key)) (t_ID tenant)
       (t_OwnerID tenant) (t_OwnerType tenant) LandscapeRegion keyAccessMetadata).

Definition SystemTask_getTaskInfo (taskType : TaskType) (data : SystemActionJobData) :
    Comp World TaskInfo :=
  tenant ← getTenantByID (sd_TenantID data);
  system ← getSystemByID (sd_SystemID data);
  _ ← validateSystemRegionTarget (s_Region system);
  key ← selectKeyForTask taskType data;
  keyAccessMetadata ← getKeyAccessMetadata key (s_Region system);
  let taskData := buildSystemActionTaskData taskType data tenant system key keyAccessMetadata in
  mret (mkTaskInfo (s_Region system) taskData (TaskType_String taskType)).

Definition systemTaskType (jobType : string) : option TaskType :=
  if jobType ==s JobTypeSystemLink then Some SYSTEM_LINK
  else if jobType ∈? [JobTypeSystemUnlink; JobTypeSystemUnlinkDecommission] then Some SYSTEM_UNLINK
  else if jobType ∈? [JobTypeSystemSwitch; JobTypeSystemSwitchNewPK] then Some SYSTEM_SWITCH
  else if jobType ==s JobTypeSystemKeyRotate then Some SYSTEM_KEY_ROTATE
  else None.

Definition SystemTaskInfoResolver_Resolve (job : Job) : Comp Fleet (list TaskInfo) :=
  data ← lift (unmarshalSystemJobData job);
  match systemTaskType (job_Type job) with
  | None => fail (Wrapf ErrInvalidJobType (job_Type job))
  | Some taskType =>
      taskInfo ← map_err (Errorf_sw "failed to resolve task info")
        (onTenant (sd_TenantID data) (SystemTask_getTaskInfo taskType data));
      mret [taskInfo]
  end.

(** * KeyTaskInfoResolver *)

(** The body of the loop over a batch of systems. *)
Definition addRegion (regions : gmap string unit) (system : System) : gmap string unit :=
  if s_Status system ==s SystemStatusCONNECTED
  then match targets !! s_Region system with
       | None => regions
       | Some _ => <[s_Region system := tt]> regions
       end
  else regions.

Definition getRegionsByKeyID (keyID : string) : Comp World (gmap string unit) :=
  key ← map_err (Errorf_sw ("failed to get key by ID " +:+ keyID)) (FirstByText k_ID keyID);
  map_err (Errorf_sw ("failed to get connected regions for key ID " +:+ keyID))
    (FoldInBatch (where_ (λ s, bool_decide (s_KeyConfigurationID s = Some (k_KeyConfigurationID key))))
       DefaultLimit (λ regions systems, mret (foldl addRegion regions systems)) ∅).

Definition KeyTask_getTaskInfo (taskType : TaskType) (data : KeyActionJobData) :
    Comp World (list TaskInfo) :=
  tenant ← getTenantByID (kd_TenantID data);
  chosen ← match taskType with
           | KEY_ENABLE | KEY_DISABLE =>
               regions ← getRegionsByKeyID (kd_KeyID data);
               if Nat.eqb (size regions) 0 then fail ErrNoConnectedRegionsForKey else mret regions
           | _ => mret targets
           end;
  mret ((λ t : string * unit,
           mkTaskInfo t.1
             (Data_KeyAction taskType (mkKeyAction (kd_KeyID data) (t_ID tenant) LandscapeRegion))
             (TaskType_String taskType)) <$> range chosen).

Definition keyTaskType (jobType : string) : option TaskType :=
  if jobType ==s JobTypeKeyEnable then Some KEY_ENABLE
  else if jobType ==s JobTypeKeyDisable then Some KEY_DISABLE
  else if jobType ==s JobTypeKeyDetach then Some KEY_DETACH
  else if jobType ==s JobTypeKeyDelete then Some KEY_DELETE
  else None.

Definition KeyTaskInfoResolver_Resolve (job : Job) : Comp Fleet (list TaskInfo) :=
  data ← lift (unmarshalKeyJobData job);
  match keyTaskType (job_Type job) with
  | None => fail (Wrapf ErrInvalidJobType (job_Type job))
  | Some taskType =>
      map_err (Errorf_sw "failed to resolve task info")
        (onTenant (kd_TenantID data) (KeyTask_getTaskInfo taskType data))
  end.

(** * reconciler.go *)

(** The interface of types.go. *)
Record JobHandler := mkJobHandler {
  ResolveTasks : Job → Comp Fleet (list TaskInfo);
  HandleJobConfirm : Job → Comp Fleet JobConfirmerResult;
  HandleJobDoneEvent : Job → Comp Fleet unit;
  HandleJobFailedEvent : Job → Comp Fleet unit;
  HandleJobCanceledEvent : Job → Comp Fleet unit }.

Definition systemJobHandler (done_ : Job → Comp Fleet unit) : JobHandler :=
  mkJobHandler SystemTaskInfoResolver_Resolve handleSystemJobConfirm done_
    terminateFailedSystemJob terminateCanceledSystemJob.

Definition SystemLinkJobHandler : JobHandler := systemJobHandler SystemLink_HandleJobDoneEvent.
Definition SystemUnlinkJobHandler : JobHandler := systemJobHandler SystemUnlink_HandleJobDoneEvent.
Definition SystemSwitchJobHandler : JobHandler := systemJobHandler SystemSwitch_HandleJobDoneEvent.
Definition SystemUnlinkDecommissionJobHandler : JobHandler :=
  mkJobHandler SystemTaskInfoResolver_Resolve handleSystemJobConfirm
    SystemUnlinkDecommission_HandleJobDoneEvent SystemUnlinkDecommission_HandleJobFailedEvent
    SystemUnlinkDecommission_HandleJobCanceledEvent.
Definition SystemKeyRotateJobHandler : JobHandler :=
  mkJobHandler SystemTaskInfoResolver_Resolve (λ _, mret CompleteJobConfirmer)
    SystemKeyRotate_HandleJobDoneEvent SystemKeyRotate_HandleJobFailedEvent
    SystemKeyRotate_HandleJobCanceledEvent.
Definition KeyJobHandler : JobHandler :=
  mkJobHandler KeyTaskInfoResolver_Resolve (λ _, mret CompleteJobConfirmer)
    (λ _, mret tt) (λ _, mret tt) (λ _, mret tt).
Definition KeyDetachJobHandler : JobHandler :=
  mkJobHandler KeyTaskInfoResolver_Resolve KeyDetach_HandleJobConfirm
    KeyDetach_HandleJobDoneEvent KeyDetach_HandleJobFailedEvent KeyDetach_HandleJobCanceledEvent.

(** The map that [NewCryptoReconciler] builds. *)
Definition jobHandlerMap : list (string * JobHandler) :=
  [(JobTypeSystemLink, SystemLinkJobHandler);
   (JobTypeSystemUnlink, SystemUnlinkJobHandler);
   (JobTypeSystemUnlinkDecommission, SystemUnlinkDecommissionJobHandler);
   (JobTypeSystemSwitch, SystemSwitchJobHandler);
   (JobTypeSystemSwitchNewPK, SystemSwitchJobHandler);
   (JobTypeSystemKeyRotate, SystemKeyRotateJobHandler);
   (JobTypeKeyEnable, KeyJobHandler);
   (JobTypeKeyDisable, KeyJobHandler);
   (JobTypeKeyDelete, KeyJobHandler);
   (JobTypeKeyDetach, KeyDetachJobHandler)].

Definition GetHandlerByJobType (jobType : string) : error + JobHandler :=
  match find (λ e, e.1 ==s jobType) jobHandlerMap with
  | Some e => inr e.2
  | None => inl (Wrapf ErrUnsupportedJobType jobType)
  end.

Inductive TaskResolverResult :=
| CompleteTaskResolver (tasks : list TaskInfo)
| CancelTaskResolver (reason : string).

(** The task resolver never returns an error: a job whose tasks cannot be resolved is
    canceled. *)
Definition resolveTasks (job : Job) : Comp Fleet TaskResolverResult :=
  match GetHandlerByJobType (job_Type job) with
  | inl _ => mret (CancelTaskResolver ("unsupported job type: " +:+ job_Type job))
  | inr handler =>
      r ← try_ (ResolveTasks handler job);
      match r with
      | inl err => mret (CancelTaskResolver (GetOrbitalError err))
      | inr [] => mret (CancelTaskResolver (GetOrbitalError ErrNoTasksResolvedForJob))
      | inr tasks => mret (CompleteTaskResolver tasks)
      end
  end.

Definition confirmJob (job : Job) : Comp Fleet JobConfirmerResult :=
  handler ← lift (GetHandlerByJobType (job_Type job)); HandleJobConfirm handler job.
Definition jobDoneFunc (job : Job) : Comp Fleet unit :=
  handler ← lift (GetHandlerByJobType (job_Type job)); HandleJobDoneEvent handler job.
Definition jobFailedFunc (job : Job) : Comp Fleet unit :=
  handler ← lift (GetHandlerByJobType (job_Type job)); HandleJobFailedEvent handler job.
Definition jobCanceledFunc (job : Job) : Comp Fleet unit :=
  handler ← lift (GetHandlerByJobType (job_Type job)); HandleJobCanceledEvent handler job.
End Resolvers.

Definition defaultMaxReconcileCount : Z := 18.
Definition getMaxReconcileCount (maxReconcileCount : Z) : Z :=
  if (maxReconcileCount <=? 0)%Z then defaultMaxReconcileCount else maxReconcileCount.
