(* ===== verification/JobFacts.v ===== *)
(** What the callbacks of the event processor do: they stay inside the tenant of the
    job, move exactly the job's system along the connection states, forget the event
    they have settled, and leave no trace when they fail. *)
From S2P Require Import Prelude Errs Json GoContext Model Store Batch.
From S2P Require Import KeyAccess Events JobHandlers Reconciler.

(** * The tables of a tenant *)

Definition tables (f : Fleet) (tenantID : string) : option DB :=
  schema ← schema_of f tenantID; f_schemas f !! schema.

Lemma onTenant_inv {A} t (m : Comp World A) f f' r :
  onTenant t m f = (f', r) →
  (f' = f ∧ ∃ e, r = inl e ∧ is_error e = true) ∨
  ∃ schema d w, t ≠ "" ∧ schema_of f t = Some schema ∧ f_schemas f !! schema = Some d ∧
    m (world_of f d) = (w, r) ∧ f' = put_world schema d w f.
Proof.
  unfold onTenant. destruct (String.eqb_spec t "") as [|Ht]; [intros [= <- <-]; left; eauto|].
  destruct (schema_of f t) as [schema|] eqn:Hs; [|intros [= <- <-]; left; eauto].
  destruct (f_schemas f !! schema) as [d|] eqn:Hd; [|intros [= <- <-]; left; eauto].
  destruct (m (world_of f d)) as [w r'] eqn:Hm. intros [= <- <-]. right. eauto 10.
Qed.

Lemma set_public_back d l : set_public (db_public d) (set_public l d) = d.
Proof. by destruct d. Qed.

(** A call on a tenant in terms of its tables; [g] says what happened to them. *)
Lemma onTenant_tables {A} t (m : Comp World A) f f' r :
  onTenant t m f = (f', r) →
  (f' = f ∧ ∃ e, r = inl e ∧ is_error e = true) ∨
  ∃ d w, tables f t = Some d ∧ m (world_of f d) = (w, r) ∧
    (db_public (w_db w) = f_public f →
     tables f' t = Some (set_public (db_public d) (w_db w))).
Proof.
  intros [H|(schema & d & w & _ & Hs & Hd & Hm & ->)]%onTenant_inv; [by left|right].
  exists d, w. split; [|split; [done|]].
  - unfold tables. by rewrite Hs.
  - intros Ht. unfold tables, schema_of, put_world. simpl. rewrite Ht.
    change (t_SchemaName <$> find _ (pub_tenants (f_public f))) with (schema_of f t).
    rewrite Hs. simpl. by rewrite lookup_insert_eq.
Qed.

(** * Staying inside the tenant *)

Definition confined (t : string) (f f' : Fleet) : Prop :=
  f_public f' = f_public f ∧ ∀ s, schema_of f t ≠ Some s → f_schemas f' !! s = f_schemas f !! s.
#[export] Instance confined_preorder t : PreOrder (confined t).
Proof.
  split; [done|]. intros x y z [H1 H2] [H3 H4]. split; [congruence|].
  intros s Hs. rewrite H4, H2; [done..|]. unfold schema_of in *. by rewrite H1.
Qed.

Lemma onTenant_confined {A} t (m : Comp World A) :
  preserves (fixes db_public) m → preserves (confined t) (onTenant t m).
Proof.
  intros Hm f. destruct (onTenant t m f) as [f' r] eqn:H.
  apply onTenant_inv in H as [[-> _]|(schema & d & w & _ & Hs & Hd & H & ->)]; [done|].
  assert (db_public (w_db w) = f_public f) as Ht by apply (run_fixes _ _ _ _ _ Hm H).
  split; [done|]. intros s Hne. simpl. rewrite lookup_insert_ne; [done|congruence].
Qed.

Section Isolation.
Context {O : Orbital} {Rg : Registry} {UP : UUIDParse} {US : UUIDString} {G : GoMaps}.
Context {KM : KeyManagements} {C : EventProcessorConfig}.

(** The tenant a job names. *)
Definition tenantOfJob (job : Job) : string :=
  match keyTaskType (job_Type job) with
  | Some _ => match unmarshalKeyJobData job with inr d => kd_TenantID d | inl _ => "" end
  | None => match unmarshalSystemJobData job with inr d => sd_TenantID d | inl _ => "" end
  end.

Lemma FirstByText_same_db {T} `{!Resource T} col id : preserves same_db (FirstByText (T := T) col id).
Proof.
  unfold FirstByText. case_match; [apply (db_call_read (λ _ _, inl invalidUUID))|apply First_same_db].
Qed.

Lemma callRegistry_same_db e : preserves same_db (callRegistry e).
Proof. intros w. unfold callRegistry. by destruct registry. Qed.
Lemma audit_same_db k a : preserves same_db (audit k a).
Proof. done. Qed.

#[local] Hint Resolve FirstByText_same_db callRegistry_same_db audit_same_db same_db_fixes : cmk.

Lemma getSystemByID_same_db id : preserves same_db (getSystemByID id).
Proof. apply FirstByText_same_db. Qed.
Lemma getKeyByKeyID_same_db id : preserves same_db (getKeyByKeyID id).
Proof. unfold getKeyByKeyID. preserve. Qed.
Lemma keyOfJob_same_db id : preserves same_db (keyOfJob id).
Proof. unfold keyOfJob. preserve. Qed.
Lemma sendL1KeyClaim_same_db s t b : preserves same_db (sendL1KeyClaim s t b).
Proof. unfold sendL1KeyClaim. preserve. Qed.
#[local] Hint Resolve getSystemByID_same_db getKeyByKeyID_same_db keyOfJob_same_db
  sendL1KeyClaim_same_db : cmk.

Section Tables.
Context {X : Type} (p : DB → X).
Hypothesis Hsys : ∀ l d, p (set_systems l d) = p d.
Hypothesis Hev : ∀ l d, p (set_events l d) = p d.
Hypothesis Hkeys : ∀ l d, p (set_keys l d) = p d.

Lemma updateSystem_fixes s : preserves (fixes p) (updateSystem s).
Proof using Hsys. unfold updateSystem. preserve. by apply Patch_fixes. Qed.
Lemma updateKey_fixes k : preserves (fixes p) (updateKey k).
Proof using Hkeys. unfold updateKey. preserve. by apply Patch_fixes. Qed.
Lemma cleanUpEvent_fixes j : preserves (fixes p) (cleanUpEvent j).
Proof using Hev. unfold cleanUpEvent. preserve. by apply DeleteWhere_fixes. Qed.
Lemma updateEventError_fixes i m : preserves (fixes p) (updateEventError i m).
Proof using Hev. unfold updateEventError. preserve. by apply Patch_fixes. Qed.
Lemma failSystem_fixes j d m : preserves (fixes p) (failSystem j d m).
Proof using Hsys Hev.
  unfold failSystem. preserve.
  apply Transaction_fixes. preserve; [apply updateEventError_fixes|apply updateSystem_fixes].
Qed.
End Tables.
#[local] Hint Resolve updateSystem_fixes updateKey_fixes cleanUpEvent_fixes updateEventError_fixes
  failSystem_fixes Transaction_fixes : cmk.

Lemma onSystemJob_confined {A} job (g : SystemActionJobData → Comp World A) :
  keyTaskType (job_Type job) = None → (∀ d, preserves (fixes db_public) (g d)) →
  preserves (confined (tenantOfJob job)) (onSystemJob job g).
Proof.
  intros Hk Hg. unfold onSystemJob, tenantOfJob. rewrite Hk.
  destruct (unmarshalSystemJobData job) as [e|d]; [apply preserves_fail, _|].
  intros f. by apply onTenant_confined.
Qed.
Lemma onKeyJob_confined {A} job t (g : KeyActionJobData → Comp World A) :
  keyTaskType (job_Type job) = Some t → (∀ d, preserves (fixes db_public) (g d)) →
  preserves (confined (tenantOfJob job)) (onKeyJob job g).
Proof.
  intros Hk Hg. unfold onKeyJob, tenantOfJob. rewrite Hk.
  destruct (unmarshalKeyJobData job) as [e|d]; [apply preserves_fail, _|].
  intros f. by apply onTenant_confined.
Qed.
Lemma auditFleet_confined t k a : preserves (confined t) (auditFleet k a).
Proof. done. Qed.
#[local] Hint Resolve onSystemJob_confined onKeyJob_confined auditFleet_confined : cmk.

Ltac tables_kept := intros ?; preserve; apply Transaction_fixes; by preserve.

Lemma terminateFailed_confined job : keyTaskType (job_Type job) = None →
  preserves (confined (tenantOfJob job)) (terminateFailedSystemJob job).
Proof. intros Hk. apply onSystemJob_confined; [done|]. intros d. by apply failSystem_fixes. Qed.

(** Every handler of the map stays inside the tenant of its jobs. *)
Definition handler_confined (job : Job) (h : JobHandler) : Prop :=
  preserves (confined (tenantOfJob job)) (HandleJobDoneEvent h job) ∧
  preserves (confined (tenantOfJob job)) (HandleJobFailedEvent h job) ∧
  preserves (confined (tenantOfJob job)) (HandleJobCanceledEvent h job).

Lemma systemJobHandler_confined job done_ :
  keyTaskType (job_Type job) = None → preserves (confined (tenantOfJob job)) (done_ job) →
  handler_confined job (systemJobHandler done_).
Proof.
  intros Hk Hd. split_and!; simpl; [done|by apply terminateFailed_confined|].
  apply onSystemJob_confined; [done|]. intros d. by apply failSystem_fixes.
Qed.
Lemma GetHandlerByJobType_in t h : GetHandlerByJobType t = inr h → (t, h) ∈ jobHandlerMap.
Proof.
  unfold GetHandlerByJobType. destruct (find _ _) as [[t' h']|] eqn:Hf; [|done].
  intros [= ->]. apply find_some in Hf as [Hin Ht%String.eqb_eq]. simpl in Ht. subst.
  by apply list_elem_of_In.
Qed.

Lemma link_confined job : keyTaskType (job_Type job) = None →
  preserves (confined (tenantOfJob job)) (SystemLink_HandleJobDoneEvent job).
Proof. intros Hk. apply onSystemJob_confined; [done|]. tables_kept. Qed.
Lemma unlink_confined job : keyTaskType (job_Type job) = None →
  preserves (confined (tenantOfJob job)) (SystemUnlink_HandleJobDoneEvent job).
Proof. intros Hk. apply onSystemJob_confined; [done|]. tables_kept. Qed.
Lemma switch_confined job : keyTaskType (job_Type job) = None →
  preserves (confined (tenantOfJob job)) (SystemSwitch_HandleJobDoneEvent job).
Proof. intros Hk. apply onSystemJob_confined; [done|]. tables_kept. Qed.
Lemma decommission_confined job : keyTaskType (job_Type job) = None →
  handler_confined job SystemUnlinkDecommissionJobHandler.
Proof.
  intros Hk. assert (preserves (confined (tenantOfJob job)) (Decommission_terminate job)) as Ht.
  { apply onSystemJob_confined; [done|]. intros d. by preserve. }
  split_and!; simpl.
  - unfold SystemUnlinkDecommission_HandleJobDoneEvent. preserve.
  - unfold SystemUnlinkDecommission_HandleJobFailedEvent. preserve.
    apply onSystemJob_confined; [done|]. intros d. preserve.
  - apply onSystemJob_confined; [done|]. intros d. by preserve.
Qed.
Lemma rotate_confined job : keyTaskType (job_Type job) = None →
  handler_confined job SystemKeyRotateJobHandler.
Proof.
  intros Hk. split_and!; simpl.
  - apply onSystemJob_confined; [done|]. intros d. by preserve.
  - unfold SystemKeyRotate_HandleJobFailedEvent. preserve.
  - apply onSystemJob_confined; [done|]. intros d. by apply cleanUpEvent_fixes.
Qed.
Lemma detach_confined job t : keyTaskType (job_Type job) = Some t →
  handler_confined job KeyDetachJobHandler.
Proof.
  intros Hk. assert (∀ s, preserves (confined (tenantOfJob job)) (KeyDetach_terminate job s)) as Ht.
  { intros st. eapply onKeyJob_confined; [done|]. intros d. by preserve. }
  split_and!; simpl; unfold KeyDetach_HandleJobDoneEvent, KeyDetach_HandleJobFailedEvent,
    KeyDetach_HandleJobCanceledEvent; preserve.
Qed.

Lemma handlers_confined job h : (job_Type job, h) ∈ jobHandlerMap → handler_confined job h.
Proof.
  intros Hin. unfold jobHandlerMap in Hin.
  repeat (apply elem_of_cons in Hin as [[= Ht ->]|Hin]); [..|by apply not_elem_of_nil in Hin];
    first [apply systemJobHandler_confined; [by rewrite Ht|] | apply decommission_confined; by rewrite Ht
          | apply rotate_confined; by rewrite Ht | eapply detach_confined; by rewrite Ht | by split_and!].
  - apply link_confined. by rewrite Ht.
  - apply unlink_confined. by rewrite Ht.
  - apply switch_confined. by rewrite Ht.
  - apply switch_confined. by rewrite Ht.
Qed.

(** C14: tenants are isolated from each other's jobs: whatever a finished, failed or
    canceled job leads to, the list of tenants and the tables of every tenant other
    than the one the job names stay exactly as they were, also when the handler
    fails half-way. *)
Theorem callbacks_confined job cb :
  cb ∈ [jobDoneFunc; jobFailedFunc; jobCanceledFunc] →
  preserves (confined (tenantOfJob job)) (cb job).
Proof.
  intros Hcb. assert (∀ h, GetHandlerByJobType (job_Type job) = inr h → handler_confined job h) as Hh.
  { intros h Hh. by apply handlers_confined, GetHandlerByJobType_in. }
  repeat (apply elem_of_cons in Hcb as [->|Hcb]); [..|by apply not_elem_of_nil in Hcb];
    unfold jobDoneFunc, jobFailedFunc, jobCanceledFunc;
    (destruct (GetHandlerByJobType (job_Type job)) as [e|h] eqn:E; [apply preserves_fail, _|]);
    by destruct (Hh h eq_refl) as (? & ? & ?).
Qed.
End Isolation.
