(* ===== verification/JobOutcomes.v ===== *)
(** The result of a job: a reference definition of what a finished, failed or canceled
    job does to the tables of its tenant, and the proof that the handlers implement
    it, make progress, can be repeated, and leave no trace when they fail. *)
From S2P Require Import Prelude Errs Json GoContext Model Store Batch.
From S2P Require Import KeyAccess Events JobHandlers Reconciler JobFacts.

(** * The reference *)

(** Replace the row of a system. *)
Definition with_system (id : uuid) (g : System → System) (d : DB) : DB :=
  set_systems ((λ s, if N.eqb (s_ID s) id then g s else s) <$> db_systems d) d.

(** The connection state a finished job leaves: connected to a key configuration, or
    to none. *)
Definition settle (cfg : option uuid) (s : System) : System :=
  match cfg with
  | Some c => set_s_TargetKeyConfigurationID None
                (set_s_KeyConfigurationID (Some c) (set_s_Status SystemStatusCONNECTED s))
  | None => set_s_KeyConfigurationID None (set_s_Status SystemStatusDISCONNECTED s)
  end.

(** The event of a job is forgotten, or keeps the error. *)
Definition is_event_of (job : Job) (e : Event) : bool :=
  (e_Identifier e ==s job_ExternalID job) && (e_Type e ==s job_Type job).
Definition without_event (job : Job) (d : DB) : DB :=
  set_events (select (λ e, negb (is_event_of job e)) (db_events d)) d.
Definition with_error (job : Job) (message : string) (d : DB) : DB :=
  let err := ParseOrbitalError message in
  set_events ((λ e, if e_Identifier e ==s job_ExternalID job
                    then mkEvent (e_Identifier e) (e_Type e) (e_Data e) (e_Status e)
                           (nz_string (oe_Code err) (e_ErrorCode e))
                           (nz_string (oe_Message err) (e_ErrorMessage e)) (e_PreviousItemStatus e)
                    else e) <$> db_events d) d.

(** * Steps that only read the tables *)

Definition reads (w w' : World) : Prop :=
  w_db w' = w_db w ∧ w_inTx w' = w_inTx w ∧ w_now w' = w_now w ∧ w_jobs w' = w_jobs w ∧ fewer_faults w w'.
#[export] Instance reads_preorder : PreOrder reads.
Proof.
  split; [by intros w; split_and!|]. unfold reads. intros ??? (?&?&?&?&?) (?&?&?&?&?).
  split_and!; try congruence. by etrans.
Qed.

Lemma reads_faults fs w : fs `suffix_of` w_faults w → reads w (set_faults fs w).
Proof. done. Qed.

Lemma reads_log w w' : same_env w w' → w_db w' = w_db w → w_jobs w' = w_jobs w → w_faults w' = w_faults w → reads w w'.
Proof. intros [] ? ? Hf. split_and!; try done. unfold fewer_faults. by rewrite Hf. Qed.

Lemma db_call_reads {A} (g : Z → DB → error + A) : preserves reads (db_call (λ now d, (d, g now d))).
Proof.
  intros w. unfold db_call. pose proof (tail_suffix (w_faults w)) as Hf.
  destruct (head (w_faults w)) as [[e|]|]; [by apply reads_faults|..]; by destruct (g (w_now w) (w_db w)).
Qed.
Lemma First_reads {T} `{!Resource T} (p : T → bool) : preserves reads (First p).
Proof.
  intros w. unfold First, db_call. pose proof (tail_suffix (w_faults w)) as Hf.
  destruct (head (w_faults w)) as [[e|]|]; [by apply reads_faults|..]; by destruct (select p (rows (w_db w))).
Qed.
Lemma FirstByText_reads `{!UUIDParse} {T} `{!Resource T} col id : preserves reads (FirstByText (T := T) col id).
Proof.
  unfold FirstByText. case_match; [apply (db_call_reads (λ _ _, inl invalidUUID))|apply First_reads].
Qed.
Lemma callRegistry_reads `{!Registry} e : preserves reads (callRegistry e).
Proof. intros w. unfold callRegistry. destruct registry; by apply reads_log. Qed.
Lemma audit_reads k a : preserves reads (audit k a).
Proof. intros w. by apply reads_log. Qed.
#[export] Hint Resolve First_reads FirstByText_reads callRegistry_reads audit_reads : cmk.

Lemma run_reads {A} (m : Comp World A) w w' r : preserves reads m → m w = (w', r) → reads w w'.
Proof. intros Hm H. specialize (Hm w). by rewrite H in Hm. Qed.

(** * The pieces of the handlers *)

(** A change of columns: everything that is not a column is kept. *)
Definition column_update (g : System → System) : Prop :=
  ∀ s, s_ID (g s) = s_ID s ∧ s_KeyConfigurationName (g s) = s_KeyConfigurationName s ∧
    s_TargetKeyConfigurationName (g s) = s_TargetKeyConfigurationName s ∧
    s_Properties (g s) = s_Properties s ∧ s_ErrorCode (g s) = s_ErrorCode s ∧
    s_ErrorMessage (g s) = s_ErrorMessage s.

Lemma settle_column cfg : column_update (settle cfg).
Proof. intros []. by destruct cfg. Qed.
Lemma status_column st : column_update (set_s_Status st).
Proof. by intros []. Qed.

Lemma overwrite_column g s : column_update g → overwrite_System (g s) s = g s.
Proof.
  intros Hg. destruct (Hg s) as (H1 & H2 & H3 & H4 & H5 & H6). unfold overwrite_System.
  rewrite <-H1, <-H2, <-H3, <-H5, <-H6, H4, map_union_idemp, <-H4. by destruct (g s).
Qed.

Section Pieces.
Context {O : Orbital} {Rg : Registry} {UP : UUIDParse} {US : UUIDString}.

Lemma getSystemByID_ok id w w' s :
  getSystemByID id w = (w', inr s) →
  ∃ u, uuid_Parse id = inr u ∧ s ∈ db_systems (w_db w) ∧ s_ID s = u ∧ reads w w'.
Proof.
  intros H. assert (reads w w') as Hr by (eapply run_reads, H; apply FirstByText_reads).
  unfold getSystemByID, FirstByText in H. destruct (uuid_Parse id) as [e|u].
  - by apply db_call_ok in H.
  - apply First_ok in H as [Hin Hu%N.eqb_eq]. eauto 10.
Qed.

Lemma keyOfJob_ok id w w' k :
  keyOfJob id w = (w', inr k) →
  ∃ u, uuid_Parse id = inr u ∧ k ∈ db_keys (w_db w) ∧ k_ID k = u ∧ reads w w'.
Proof.
  intros H. assert (reads w w') as Hr by (eapply run_reads, H; unfold keyOfJob, getKeyByKeyID; preserve).
  unfold keyOfJob, getKeyByKeyID, FirstByText in H. apply map_err_ok, map_err_ok in H.
  destruct (uuid_Parse id) as [e|u].
  - by apply db_call_ok in H.
  - apply First_ok in H as [Hin Hu%N.eqb_eq]. eauto 10.
Qed.

Lemma updateSystem_ok g s w w' :
  column_update g → s ∈ db_systems (w_db w) → NoDup (s_ID <$> db_systems (w_db w)) →
  updateSystem (g s) w = (w', inr tt) → w_db w' = with_system (s_ID s) g (w_db w).
Proof.
  intros Hg Hs Hnd (w1 & b & H%map_err_ok & [= <-])%bind_ok.
  destruct (Patch_ok _ _ _ _ _ H) as (x' & [= <-] & -> & _). unfold with_system. f_equal.
  unfold patched. apply list_fmap_ext. intros i y Hy%list_elem_of_lookup_2. simpl.
  rewrite (proj1 (Hg s)), N.eqb_sym. destruct (N.eqb_spec (s_ID y) (s_ID s)) as [He|]; [|done].
  rewrite (NoDup_key s_ID _ y s Hnd Hy Hs He). by apply overwrite_column.
Qed.

Lemma cleanUpEvent_ok job w w' :
  cleanUpEvent job w = (w', inr tt) → w_db w' = without_event job (w_db w).
Proof. intros (w1 & b & H%map_err_ok%DeleteWhere_ok & [= <-])%bind_ok. done. Qed.

Lemma updateEventError_ok job m w w' :
  updateEventError (job_ExternalID job) m w = (w', inr tt) → w_db w' = with_error job m (w_db w).
Proof.
  intros (w1 & b & H & [= <-])%bind_ok. destruct (Patch_ok _ _ _ _ _ H) as (x' & [= <-] & -> & _).
  unfold with_error. f_equal. unfold patched. apply list_fmap_ext. intros i y _. simpl.
  by rewrite String.eqb_sym.
Qed.

Lemma settle_ok job cfg s w w' :
  w_inTx w = false → s ∈ db_systems (w_db w) → NoDup (s_ID <$> db_systems (w_db w)) →
  Transaction (_ ← updateSystem (settle cfg s); cleanUpEvent job) w = (w', inr tt) →
  w_db w' = without_event job (with_system (s_ID s) (settle cfg) (w_db w)) ∧ w_inTx w' = false.
Proof.
  intros Hx Hs Hnd H. apply Transaction_commit in H as (w1 & H & ->); [|done].
  apply bind_ok in H as (w2 & [] & Hu & Hc). apply cleanUpEvent_ok in Hc.
  apply (updateSystem_ok _ _ (set_inTx true w)) in Hu; [|apply settle_column|done..].
  simpl in *. by rewrite Hc, Hu.
Qed.
End Pieces.

(** * Finished jobs *)

Section Done.
Context {O : Orbital} {Rg : Registry} {UP : UUIDParse} {US : UUIDString} {G : GoMaps}.
Context {KM : KeyManagements} {C : EventProcessorConfig}.
Implicit Types (job : Job) (data : SystemActionJobData) (d : DB).

(** A run on the tables [d] of the job's tenant. *)
Lemma onSystemJob_tables {A} job data (g : SystemActionJobData → Comp World A) f f' r d :
  unmarshalSystemJobData job = inr data → tables f (sd_TenantID data) = Some d →
  onSystemJob job g f = (f', r) →
  (f' = f ∧ ∃ e, r = inl e ∧ is_error e = true) ∨
  ∃ w, g data (world_of f d) = (w, r) ∧
    ∀ h, w_db w = h (set_public (f_public f) d) → (∀ l d, h (set_public l d) = set_public l (h d)) →
      db_public (h d) = db_public d → tables f' (sd_TenantID data) = Some (h d).
Proof.
  intros Hd Ht. unfold onSystemJob. rewrite Hd.
  intros [H|(d' & w & Ht' & H & Hf)]%onTenant_tables; [by left|right].
  assert (d' = d) as -> by congruence. exists w. split; [done|]. intros h Hw Hh Hdt.
  rewrite Hf, Hw, Hh, <-Hdt; [|by rewrite Hw, Hh]. by rewrite set_public_back.
Qed.

Definition settled job (id : uuid) (cfg : option uuid) (d : DB) : DB :=
  without_event job (with_system id (settle cfg) d).

Lemma sendL1KeyClaim_reads s t b : preserves reads (sendL1KeyClaim s t b).
Proof. unfold sendL1KeyClaim. preserve. Qed.
Lemma keyOfJob_reads id : preserves reads (keyOfJob id).
Proof. unfold keyOfJob, getKeyByKeyID. preserve. Qed.

(** The system and the configuration a finished job is about. *)
Definition done_target job data d (id : uuid) (cfg : option uuid) : Prop :=
  uuid_Parse (sd_SystemID data) = inr id ∧ (∃ s, s ∈ db_systems d ∧ s_ID s = id) ∧
  match cfg with
  | None => job_Type job = JobTypeSystemUnlink
  | Some c => job_Type job ≠ JobTypeSystemUnlink ∧
      ∃ k, k ∈ db_keys d ∧ uuid_Parse (sd_KeyIDTo data) = inr (k_ID k) ∧ k_KeyConfigurationID k = c
  end.

Definition connectionJobs : list string :=
  [JobTypeSystemLink; JobTypeSystemUnlink; JobTypeSystemSwitch; JobTypeSystemSwitchNewPK].

Lemma settled_tables job f d w w1 id cfg s :
  reads (world_of f d) w1 → NoDup (s_ID <$> db_systems d) → s ∈ db_systems d → s_ID s = id →
  (Transaction (_ ← updateSystem (settle cfg s); cleanUpEvent job) w1 = (w, inr tt)) →
  w_db w = settled job id cfg (set_public (f_public f) d).
Proof.
  intros (Hdb & Hx & _) Hnd Hs <- H. simpl in Hdb, Hx.
  apply settle_ok in H as [H _]; rewrite ?Hdb; try done. by rewrite H, Hdb.
Qed.

Lemma settled_back job id cfg :
  (∀ l d, settled job id cfg (set_public l d) = set_public l (settled job id cfg d)) ∧
  ∀ d, db_public (settled job id cfg d) = db_public d.
Proof. done. Qed.

Lemma link_done job data d f f' :
  unmarshalSystemJobData job = inr data → tables f (sd_TenantID data) = Some d →
  NoDup (s_ID <$> db_systems d) → job_Type job ≠ JobTypeSystemUnlink →
  SystemLink_HandleJobDoneEvent job f = (f', inr tt) →
  ∃ id cfg, done_target job data d id cfg ∧
    tables f' (sd_TenantID data) = Some (settled job id cfg d).
Proof.
  intros Hd Ht Hnd Hty H. eapply onSystemJob_tables in H as [(_ & e & [=] & _)|(w & H & Hf)]; [|done..].
  apply bind_ok in H as (w1 & s & H1 & H). apply bind_ok in H as (w2 & [] & H2 & H).
  apply bind_ok in H as (w3 & k & H3 & H). apply bind_ok in H as (w4 & [] & H4 & [= <-]).
  apply getSystemByID_ok in H1 as (u & Hu & Hs & <- & R1). apply run_reads in H2; [|apply sendL1KeyClaim_reads].
  destruct (keyOfJob_ok _ _ _ _ H3) as (v & Hv & Hk & <- & R3).
  assert (w_db w2 = w_db (world_of f d)) as Hdb by (destruct R1, H2; congruence). rewrite Hdb in Hk.
  exists (s_ID s), (Some (k_KeyConfigurationID k)). split.
  - split_and!; eauto 10.
  - eapply Hf; [|apply settled_back..]. eapply (settled_tables _ _ _ w4); [|done..].
    etrans; [|exact R3]. by etrans.
Qed.
Lemma switch_done job data d f f' :
  unmarshalSystemJobData job = inr data → tables f (sd_TenantID data) = Some d →
  NoDup (s_ID <$> db_systems d) → job_Type job ≠ JobTypeSystemUnlink →
  SystemSwitch_HandleJobDoneEvent job f = (f', inr tt) →
  ∃ id cfg, done_target job data d id cfg ∧
    tables f' (sd_TenantID data) = Some (settled job id cfg d).
Proof.
  intros Hd Ht Hnd Hty H. eapply onSystemJob_tables in H as [(_ & e & [=] & _)|(w & H & Hf)]; [|done..].
  apply bind_ok in H as (w2 & s & H1 & H). apply bind_ok in H as (w3 & k & H3 & H).
  apply bind_ok in H as (w4 & [] & H4 & [= <-]).
  apply getSystemByID_ok in H1 as (u & Hu & Hs & <- & R1).
  destruct (keyOfJob_ok _ _ _ _ H3) as (v & Hv & Hk & <- & R3).
  rewrite (proj1 R1) in Hk. exists (s_ID s), (Some (k_KeyConfigurationID k)). split.
  - split_and!; eauto 10.
  - eapply Hf; [|apply settled_back..]. eapply (settled_tables _ _ _ w4); [|done..]. by etrans.
Qed.

Lemma unlink_done job data d f f' :
  unmarshalSystemJobData job = inr data → tables f (sd_TenantID data) = Some d →
  NoDup (s_ID <$> db_systems d) → job_Type job = JobTypeSystemUnlink →
  SystemUnlink_HandleJobDoneEvent job f = (f', inr tt) →
  ∃ id cfg, done_target job data d id cfg ∧
    tables f' (sd_TenantID data) = Some (settled job id cfg d).
Proof.
  intros Hd Ht Hnd Hty H. eapply onSystemJob_tables in H as [(_ & e & [=] & _)|(w & H & Hf)]; [|done..].
  apply bind_ok in H as (w1 & s & H1 & H). apply bind_ok in H as (w2 & [] & H2 & H).
  apply bind_ok in H as (w4 & [] & H4 & [= <-]).
  apply getSystemByID_ok in H1 as (u & Hu & Hs & <- & R1). apply run_reads in H2; [|apply sendL1KeyClaim_reads].
  exists (s_ID s), None. split; [split_and!; eauto|].
  eapply Hf; [|apply settled_back..]. eapply (settled_tables _ _ _ w4 w2); [|done..]. by etrans.
Qed.

Lemma connection_done job data d f f' :
  job_Type job ∈ connectionJobs → unmarshalSystemJobData job = inr data →
  tables f (sd_TenantID data) = Some d → NoDup (s_ID <$> db_systems d) →
  jobDoneFunc job f = (f', inr tt) →
  ∃ id cfg, done_target job data d id cfg ∧
    tables f' (sd_TenantID data) = Some (settled job id cfg d).
Proof.
  intros Hty Hd Ht Hnd H. unfold connectionJobs in Hty.
  repeat (apply elem_of_cons in Hty as [Hty|Hty]); [..|by apply not_elem_of_nil in Hty];
    unfold jobDoneFunc in H; rewrite Hty in H; cbn in H.
  - eapply link_done; [..|exact H]; try done. by rewrite Hty.
  - by eapply unlink_done.
  - eapply switch_done; [..|exact H]; try done. by rewrite Hty.
  - eapply switch_done; [..|exact H]; try done. by rewrite Hty.
Qed.

(** C12: a finished link, unlink or switch job has exactly the intended effect: on the
    tables of its tenant it settles the system the job names - connected to the
    configuration of the job's key, or disconnected - and forgets the event of the
    job; every other row of every table is the same. *)
Theorem job_done_outcome job data d f f' :
  job_Type job ∈ connectionJobs → unmarshalSystemJobData job = inr data →
  tables f (sd_TenantID data) = Some d → NoDup (s_ID <$> db_systems d) →
  jobDoneFunc job f = (f', inr tt) →
  ∃ id cfg, done_target job data d id cfg ∧
    tables f' (sd_TenantID data) = Some (without_event job (with_system id (settle cfg) d)).
Proof. apply connection_done. Qed.

(** Repeating the effect changes nothing. *)
Lemma settle_idemp cfg s : settle cfg (settle cfg s) = settle cfg s.
Proof. by destruct cfg. Qed.

Lemma with_system_ids id g d : column_update g →
  s_ID <$> db_systems (with_system id g d) = s_ID <$> db_systems d.
Proof.
  intros Hg. simpl. rewrite <-list_fmap_compose. apply list_fmap_ext. intros i s _. simpl.
  destruct (N.eqb (s_ID s) id); [apply Hg|done].
Qed.

Lemma settled_idemp job id cfg d : settled job id cfg (settled job id cfg d) = settled job id cfg d.
Proof.
  unfold settled, without_event, with_system, set_events, set_systems.
  cbn [db_systems db_events db_workflows db_approvers db_approverGroups db_groups db_keys db_keyConfigs
    db_tenantConfigs db_public db_keyVersions db_importParams db_tags db_certificates db_labels]. f_equal.
  - rewrite <-list_fmap_compose. apply list_fmap_ext. intros i s _. simpl.
    destruct (N.eqb_spec (s_ID s) id) as [He|Hn].
    + rewrite (proj1 (settle_column cfg s)), He, N.eqb_refl. apply settle_idemp.
    + by apply N.eqb_neq in Hn as ->.
  - unfold select. induction (db_events d) as [|e l IH]; simpl; [done|].
    destruct (negb (is_event_of job e)) eqn:He; simpl; rewrite ?He; by rewrite IH.
Qed.

(** The target of a job is read off its data and the keys of the tenant. *)
Lemma done_target_settled job data d id cfg id' cfg' :
  NoDup (k_ID <$> db_keys d) → done_target job data d id cfg →
  done_target job data (settled job id cfg d) id' cfg' → id' = id ∧ cfg' = cfg.
Proof.
  intros Hk (H1 & _ & H2) (H1' & _ & H2'). split; [congruence|].
  destruct cfg as [c|], cfg' as [c'|]; try tauto.
  destruct H2 as (_ & k & Hin & Hp & <-), H2' as (_ & k' & Hin' & Hp' & <-).
  do 2 f_equal. eapply (NoDup_key k_ID); [exact Hk|done..|congruence].
Qed.

(** Handling the same finished job again, as the at-least-once delivery of the
    library may, leaves the tenant's tables as the first time left them. *)
Theorem job_done_idempotent job data d f f' f'' g :
  job_Type job ∈ connectionJobs → unmarshalSystemJobData job = inr data →
  tables f (sd_TenantID data) = Some d → NoDup (s_ID <$> db_systems d) → NoDup (k_ID <$> db_keys d) →
  jobDoneFunc job f = (f', inr tt) → tables g (sd_TenantID data) = tables f' (sd_TenantID data) →
  jobDoneFunc job g = (f'', inr tt) →
  tables f'' (sd_TenantID data) = tables f' (sd_TenantID data).
Proof.
  intros Hty Hd Ht Hnd Hk H1 Hg H2.
  destruct (connection_done _ _ _ _ _ Hty Hd Ht Hnd H1) as (id & cfg & Hdt & Ht').
  rewrite Ht' in Hg. eapply connection_done in H2 as (id' & cfg' & Hdt' & Ht''); [|done..|].
  - destruct (done_target_settled _ _ _ _ _ _ _ Hk Hdt Hdt') as [-> ->].
    by rewrite Ht'', Ht', settled_idemp.
  - unfold settled. change (db_systems (without_event job ?x)) with (db_systems x).
    by rewrite with_system_ids by apply settle_column.
Qed.

(** * Failing without a trace *)

(** A computation that leaves the database as it was when it fails. *)
Definition clean {A} (m : Comp World A) : Prop :=
  ∀ w w' e, w_inTx w = false → m w = (w', inl e) → w_db w' = w_db w.

Lemma clean_reads {A} (m : Comp World A) : preserves reads m → clean m.
Proof. intros Hm w w' e _ H. by apply (run_reads _ _ _ _ Hm) in H as [? _]. Qed.
Lemma clean_bind {A B} (m : Comp World A) (k : A → Comp World B) :
  preserves reads m → (∀ a, clean (k a)) → clean (m ≫= k).
Proof.
  intros Hm Hk w w' e Hx [H|(w1 & a & H & H')]%bind_err; apply (run_reads _ _ _ _ Hm) in H as (Hd & Hx' & _);
    [done|]. rewrite <-Hd. eapply Hk; [|exact H']. congruence.
Qed.
Lemma clean_Transaction {A} (m : Comp World A) : clean (Transaction m).
Proof. intros w w' e Hx H. by eapply Transaction_rollback. Qed.
Lemma clean_audit {A} (m : Comp World A) k a : clean m → clean (_ ← m; audit k a).
Proof. intros Hm w w' e Hx [H|(w1 & ? & _ & [=])]%bind_err. by eapply Hm. Qed.

Lemma onTenant_clean {A} t (m : Comp World A) f f' e :
  clean m → onTenant t m f = (f', inl e) → f_schemas f' = f_schemas f ∧ f_public f' = f_public f.
Proof.
  intros Hm [[-> _]|(schema & d & w & _ & _ & Hd & H & ->)]%onTenant_inv; [done|].
  apply Hm in H; [|done]. simpl. rewrite H. simpl. split; [|done].
  rewrite set_public_back. by apply insert_id.
Qed.

Lemma onSystemJob_clean {A} job (g : SystemActionJobData → Comp World A) f f' e :
  (∀ data, clean (g data)) → onSystemJob job g f = (f', inl e) →
  f_schemas f' = f_schemas f ∧ f_public f' = f_public f.
Proof.
  intros Hg [H|(f1 & d & H & H')]%bind_err; unfold lift in H; [by injection H as <- _|].
  injection H as <- _. by eapply onTenant_clean.
Qed.

Lemma failSystem_clean job data m : clean (failSystem job data m).
Proof.
  apply clean_bind; [unfold getSystemByID; preserve|]. intros [e|s]; [|apply clean_Transaction].
  apply clean_reads. preserve.
Qed.

(** The handlers of link, unlink and switch jobs. *)
Lemma connection_handler job :
  job_Type job ∈ connectionJobs →
  ∃ dn, GetHandlerByJobType (job_Type job) = inr (systemJobHandler dn) ∧
    dn ∈ [SystemLink_HandleJobDoneEvent; SystemUnlink_HandleJobDoneEvent; SystemSwitch_HandleJobDoneEvent].
Proof.
  unfold connectionJobs. intros Hty.
  repeat (apply elem_of_cons in Hty as [Hty|Hty]); [..|by apply not_elem_of_nil in Hty]; rewrite Hty;
    eexists; (split; [reflexivity|]); set_solver.
Qed.

Lemma connection_done_clean dn job f f' e :
  dn ∈ [SystemLink_HandleJobDoneEvent; SystemUnlink_HandleJobDoneEvent; SystemSwitch_HandleJobDoneEvent] →
  dn job f = (f', inl e) → f_schemas f' = f_schemas f ∧ f_public f' = f_public f.
Proof.
  intros Hdn. repeat (apply elem_of_cons in Hdn as [->|Hdn]); [..|by apply not_elem_of_nil in Hdn];
    apply onSystemJob_clean; intros data;
    repeat first [ apply clean_bind; [first [apply sendL1KeyClaim_reads|apply keyOfJob_reads|apply FirstByText_reads]|intros ?]
                 | apply clean_audit, clean_Transaction ].
Qed.

(** A callback of a link, unlink or switch job that fails, wherever the database
    or the registry breaks, leaves the tables of all tenants as they were, so the
    library can deliver the job again. *)
Theorem job_error_no_trace job cb f f' e :
  job_Type job ∈ connectionJobs → cb ∈ [jobDoneFunc; jobFailedFunc; jobCanceledFunc] →
  cb job f = (f', inl e) → f_schemas f' = f_schemas f ∧ f_public f' = f_public f.
Proof.
  intros (dn & Hh & Hdn)%connection_handler Hcb.
  repeat (apply elem_of_cons in Hcb as [->|Hcb]); [..|by apply not_elem_of_nil in Hcb];
    unfold jobDoneFunc, jobFailedFunc, jobCanceledFunc; rewrite Hh; cbn.
  - by apply connection_done_clean.
  - apply onSystemJob_clean. intros d. apply failSystem_clean.
  - apply onSystemJob_clean. intros d. apply failSystem_clean.
Qed.

(** * Failed and canceled jobs *)

(** The message kept with the event: the errors of the tasks when there are any. *)
Definition failureMessage job : string :=
  match mergeOrbitalTaskErrors job with
  | inl _ => job_ErrorMessage job
  | inr m => if m ==s "" then job_ErrorMessage job else m
  end.

Definition has_system (id : uuid) (d : DB) : bool := existsb (λ s, N.eqb (s_ID s) id) (db_systems d).
Definition failed job (message : string) (id : uuid) (d : DB) : DB :=
  if has_system id d then with_system id (set_s_Status SystemStatusFAILED) (with_error job message d) else d.

Lemma has_system_true id d : has_system id d = true ↔ ∃ s, s ∈ db_systems d ∧ s_ID s = id.
Proof.
  unfold has_system. rewrite existsb_exists. setoid_rewrite <-list_elem_of_In.
  setoid_rewrite N.eqb_eq. naive_solver.
Qed.

Lemma failSystem_ok job data m id w w' :
  w_inTx w = false → NoDup (s_ID <$> db_systems (w_db w)) → honest_faults w →
  uuid_Parse (sd_SystemID data) = inr id →
  failSystem job data m w = (w', inr tt) → w_db w' = failed job m id (w_db w).
Proof.
  intros Hx Hnd Hf Hid H. unfold failSystem in H. apply bind_ok in H as (w1 & r & H1%try_ok & H).
  unfold failed. destruct r as [e|s].
  - destruct (errors_Is e ErrNotFound) eqn:He; [|done]. injection H as <-.
    unfold getSystemByID, FirstByText in H1. rewrite Hid in H1.
    rewrite (First_db _ _ _ _ H1).
    destruct (has_system id (w_db w)) eqn:Hh; [|done]. apply has_system_true in Hh as (s & Hs & Hsid).
    pose proof (First_missing _ _ _ _ Hf H1 He s Hs) as Hn. simpl in Hn. by rewrite Hsid, N.eqb_refl in Hn.
  - apply getSystemByID_ok in H1 as (u & Hu & Hs & Hsu & Hr). destruct Hr as (Hd & Hx' & _).
    assert (s_ID s = id) as Hsid by congruence. clear Hsu Hu.
    assert (has_system id (w_db w) = true) as -> by (apply has_system_true; eauto).
    apply Transaction_commit in H as (w2 & H & ->); [|congruence].
    apply bind_ok in H as (w3 & [] & He%updateEventError_ok & Hu). simpl in He. rewrite Hd in He.
    apply updateSystem_ok in Hu; [|apply status_column|by rewrite He|by rewrite He]. simpl. by rewrite Hu, He, Hsid.
Qed.

Lemma failed_back job m id :
  (∀ l d, failed job m id (set_public l d) = set_public l (failed job m id d)) ∧
  ∀ d, db_public (failed job m id d) = db_public d.
Proof.
  split; [intros l|]; intros d; unfold failed; [change (has_system id (set_public l d)) with (has_system id d)|];
    by destruct (has_system id d).
Qed.

Lemma connection_failed job data d id cb message f f' :
  (cb, message) ∈ [(jobFailedFunc, failureMessage job); (jobCanceledFunc, job_ErrorMessage job)] →
  job_Type job ∈ connectionJobs → unmarshalSystemJobData job = inr data →
  tables f (sd_TenantID data) = Some d → NoDup (s_ID <$> db_systems d) →
  (∀ e, Some e ∈ f_faults f → errors_Is e ErrNotFound = false) →
  uuid_Parse (sd_SystemID data) = inr id → cb job f = (f', inr tt) →
  tables f' (sd_TenantID data) = Some (failed job message id d).
Proof.
  intros Hcb (dn & Hh & _)%connection_handler Hd Ht Hnd Hf Hid H.
  assert (∃ g, onSystemJob job g f = (f', inr tt) ∧ g data = failSystem job data message) as (g & Hg & Hgm).
  { repeat (apply elem_of_cons in Hcb as [[= -> ->]|Hcb]); [..|by apply not_elem_of_nil in Hcb];
      unfold jobFailedFunc, jobCanceledFunc in H; rewrite Hh in H; cbn in H; eexists; (split; [exact H|]);
      done. }
  eapply onSystemJob_tables in Hg as [(_ & e & [=] & _)|(w & Hw & Hb)]; [|done..].
  rewrite Hgm in Hw. apply (failSystem_ok _ _ _ id) in Hw; [|done..].
  apply Hb; [done|apply failed_back..].
Qed.

(** C13: a link, unlink or switch job that failed or was canceled marks its system
    FAILED and keeps the parsed error with the system's event - the errors of the
    failed tasks, or the job's own message - and changes no other row; for a system
    that no longer exists it changes nothing. *)
Theorem job_failed_outcome job data d id cb message f f' :
  (cb, message) ∈ [(jobFailedFunc, failureMessage job); (jobCanceledFunc, job_ErrorMessage job)] →
  job_Type job ∈ connectionJobs → unmarshalSystemJobData job = inr data →
  tables f (sd_TenantID data) = Some d → NoDup (s_ID <$> db_systems d) →
  (∀ e, Some e ∈ f_faults f → errors_Is e ErrNotFound = false) →
  uuid_Parse (sd_SystemID data) = inr id → cb job f = (f', inr tt) →
  tables f' (sd_TenantID data) = Some (failed job message id d).
Proof. apply connection_failed. Qed.

(** * Confirmation *)

Lemma getSystemByID_eval id u w :
  w_faults w = [] → uuid_Parse id = inr u →
  getSystemByID id w =
    (w, match select (λ s, N.eqb (s_ID s) u) (db_systems (w_db w)) with
        | s :: _ => inr s
        | [] => inl (repo_err w (Wrap ErrNotFound (Some ErrRecordNotFound)))
        end).
Proof.
  intros Hw Hu. unfold getSystemByID, FirstByText. rewrite Hu. unfold First, db_call. rewrite Hw. destruct w; simpl in *; subst. by destruct (select _ _).
Qed.

Lemma onTenant_eval {A} t (m : Comp World A) f d :
  t ≠ "" → tables f t = Some d → (onTenant t m f).2 = (m (world_of f d)).2.
Proof.
  intros Ht Hd. unfold onTenant, tables in *. apply String.eqb_neq in Ht as ->.
  destruct (schema_of f t) as [schema|]; [|done]. simpl in Hd. rewrite Hd.
  by destruct (m (world_of f d)).
Qed.

Lemma onSystemJob_eval {A} job data (g : SystemActionJobData → Comp World A) f d :
  unmarshalSystemJobData job = inr data → sd_TenantID data ≠ "" → tables f (sd_TenantID data) = Some d →
  (onSystemJob job g f).2 = (g data (world_of f d)).2.
Proof. intros Hd Ht0 Ht. unfold onSystemJob. rewrite Hd. by apply onTenant_eval. Qed.

Lemma connection_confirm job data d id f :
  job_Type job ∈ connectionJobs → unmarshalSystemJobData job = inr data → sd_TenantID data ≠ "" →
  tables f (sd_TenantID data) = Some d → NoDup (s_ID <$> db_systems d) → f_faults f = [] →
  uuid_Parse (sd_SystemID data) = inr id →
  (confirmJob job f).2 = inr CompleteJobConfirmer ↔
  ∃ s, s ∈ db_systems d ∧ s_ID s = id ∧ s_Status s = SystemStatusPROCESSING.
Proof.
  intros (dn & Hh & _)%connection_handler Hd Ht0 Ht Hnd Hf Hid.
  assert (confirmJob job f = handleSystemJobConfirm job f) as -> by (unfold confirmJob; by rewrite Hh).
  unfold handleSystemJobConfirm. rewrite (onSystemJob_eval _ _ _ _ _ Hd Ht0 Ht).
  unfold try_, mbind, M_bind. rewrite (getSystemByID_eval _ id (world_of f d) Hf Hid). cbn [world_of w_db set_public db_systems].
  destruct (select _ (db_systems d)) as [|s l] eqn:Hs.
  - cbn. split; [done|]. intros (s & Hin & He & _).
    assert (In s (select (λ s, N.eqb (s_ID s) id) (db_systems d))) as Hi
      by (apply filter_In; rewrite He, N.eqb_refl; by apply list_elem_of_In in Hin).
    by rewrite Hs in Hi.
  - assert (s ∈ db_systems d ∧ s_ID s = id) as [Hin Hsid].
    { assert (In s (select (λ s, N.eqb (s_ID s) id) (db_systems d))) as Hi by (rewrite Hs; by left).
      apply filter_In in Hi as [Hi%list_elem_of_In He%N.eqb_eq]. done. }
    cbn. destruct (String.eqb_spec (s_Status s) SystemStatusPROCESSING) as [He|He]; cbn; split; try done.
    + eauto.
    + intros (s' & Hin' & Hs' & Hst). destruct He.
      by rewrite (NoDup_key s_ID _ s s' Hnd Hin Hin' (eq_trans Hsid (eq_sym Hs'))).
Qed.

(** A link, unlink or switch job is confirmed exactly when its system still
    exists and is waiting for it in PROCESSING. *)
Theorem confirm_iff_processing job data d id f :
  job_Type job ∈ connectionJobs → unmarshalSystemJobData job = inr data → sd_TenantID data ≠ "" →
  tables f (sd_TenantID data) = Some d → NoDup (s_ID <$> db_systems d) → f_faults f = [] →
  uuid_Parse (sd_SystemID data) = inr id →
  (confirmJob job f).2 = inr CompleteJobConfirmer ↔
  ∃ s, s ∈ db_systems d ∧ s_ID s = id ∧ s_Status s = SystemStatusPROCESSING.
Proof. apply connection_confirm. Qed.

(** * Progress *)

(** What the database guarantees of the table of systems. *)
Record systems_wf (d : DB) : Prop := {
  sw_ids : NoDup (s_ID <$> db_systems d);
  sw_zero : ∀ s, s ∈ db_systems d → s_ID s ≠ 0%N;
  sw_unique : NoDup ((λ s, (s_Region s, s_Identifier s)) <$> db_systems d) }.

(** A registry that accepts every key claim, or answers that it is already as wanted. *)
Definition registry_accepts : Prop :=
  ∃ answer, registry = Some answer ∧ ∀ log x r t b,
    answer log (RegistryKeyClaim x r t b) = None ∨
    answer log (RegistryKeyClaim x r t b) =
      Some (if b : bool then ErrKeyClaimAlreadyActive else ErrKeyClaimAlreadyInactive).

Lemma sendL1KeyClaim_run s t b w :
  registry_accepts → ∃ l, sendL1KeyClaim s t b w = (set_log l w, inr tt).
Proof.
  intros (answer & Hr & Ha). unfold sendL1KeyClaim, try_, callRegistry, mbind, M_bind. rewrite Hr.
  destruct (Ha (w_log w) (s_Identifier s) (s_Region s) t b) as [->| ->]; [by eexists|].
  destruct b; by eexists.
Qed.

Lemma patched_no_clash g s d fs :
  systems_wf d → s ∈ db_systems d → column_update g →
  s_Region (g s) = s_Region s → s_Identifier (g s) = s_Identifier s → AllFields ∈? fs = true → fs ≠ [] →
  let l := patched (g s) fs (db_systems d) in
  existsb (λ y, same_pk (g s) y && clashes y l) l = false.
Proof.
  intros Hwf Hs Hg Hreg Hid Hall Hne l. apply not_true_is_false. intros H.
  assert (∀ y, y ∈ l → ∃ z, z ∈ db_systems d ∧ s_ID y = s_ID z ∧ s_Region y = s_Region z ∧
    s_Identifier y = s_Identifier z) as Hl.
  { intros y (z & -> & Hz)%list_elem_of_fmap. exists z. simpl. rewrite (proj1 (Hg s)).
    destruct (N.eqb_spec (s_ID s) (s_ID z)) as [He|]; [|done].
    rewrite <-(NoDup_key s_ID _ s z (sw_ids _ Hwf) Hs Hz He). destruct fs; [done|]. rewrite Hall.
    by rewrite overwrite_column, (proj1 (Hg s)). }
  apply existsb_exists in H as (y & Hy%list_elem_of_In & [Hpk Hc]%andb_true_iff).
  apply existsb_exists in Hc as (z & Hz%list_elem_of_In & [Hn [Hr Hi]%andb_true_iff]%andb_true_iff).
  destruct (Hl y Hy) as (y0 & Hy0 & E1 & E2 & E3), (Hl z Hz) as (z0 & Hz0 & F1 & F2 & F3).
  apply String.eqb_eq in Hr, Hi. simpl in Hn. apply negb_true_iff, N.eqb_neq in Hn.
  apply Hn. rewrite E1, F1. f_equal.
  apply (NoDup_key (λ s, (s_Region s, s_Identifier s)) _ _ _ (sw_unique _ Hwf)); [done..|congruence].
Qed.

Lemma updateSystem_run g s w :
  w_faults w = [] → systems_wf (w_db w) → s ∈ db_systems (w_db w) → column_update g →
  s_Region (g s) = s_Region s → s_Identifier (g s) = s_Identifier s →
  ∃ w', updateSystem (g s) w = (w', inr tt) ∧ w_faults w' = [].
Proof.
  intros Hw Hwf Hs Hg Hr Hi. unfold updateSystem, Patch, db_call, map_err, mbind, M_bind. rewrite Hw.
  simpl. rewrite (proj1 (Hg s)). destruct (N.eqb_spec (s_ID s) 0) as [H0|_]; [by destruct (sw_zero _ Hwf s)|].
  pose proof (patched_no_clash g s (w_db w) [AllFields] Hwf Hs Hg Hr Hi eq_refl) as Hc.
  simpl in Hc. rewrite (proj1 (Hg s)) in Hc. rewrite Hc by done. by eexists.
Qed.

Lemma settle_run job cfg s w :
  w_faults w = [] → w_inTx w = false → systems_wf (w_db w) → s ∈ db_systems (w_db w) →
  ∃ w', Transaction (_ ← updateSystem (settle cfg s); cleanUpEvent job) w = (w', inr tt).
Proof.
  intros Hw Hx Hwf Hs. unfold Transaction, TransactionOn, id. rewrite Hx.
  destruct (updateSystem_run (settle cfg) s (set_inTx true w)) as (w1 & H1 & Hf); try done;
    [apply settle_column|by destruct cfg..|]. rewrite (bind_run _ _ _ _ _ H1).
  unfold cleanUpEvent, DeleteWhere, db_call, map_err, mbind, M_bind. rewrite Hf. by eexists.
Qed.

Lemma FirstByText_run {T} `{!Resource T} (col : T → uuid) id u w x :
  w_faults w = [] → uuid_Parse id = inr u → x ∈ rows (w_db w) → col x = u →
  ∃ y, FirstByText col id w = (w, inr y) ∧ y ∈ rows (w_db w) ∧ col y = u.
Proof.
  intros Hw Hu Hx Hc. unfold FirstByText. rewrite Hu. unfold First, db_call. rewrite Hw. simpl.
  destruct (select (λ x, N.eqb (col x) u) (rows (w_db w))) as [|y l] eqn:Hs.
  - assert (In x (select (λ x, N.eqb (col x) u) (rows (w_db w)))) as Hi
      by (apply filter_In; rewrite Hc, N.eqb_refl; by apply list_elem_of_In in Hx).
    by rewrite Hs in Hi.
  - exists y. assert (In y (select (λ x, N.eqb (col x) u) (rows (w_db w)))) as Hi by (rewrite Hs; by left).
    apply filter_In in Hi as [Hi%list_elem_of_In He%N.eqb_eq]. split_and!; try done.
    f_equal. destruct w; simpl in *; by subst.
Qed.

Lemma connection_handler_done job :
  job_Type job ∈ connectionJobs →
  jobDoneFunc job = SystemLink_HandleJobDoneEvent job ∧ job_Type job = JobTypeSystemLink ∨
  jobDoneFunc job = SystemUnlink_HandleJobDoneEvent job ∧ job_Type job = JobTypeSystemUnlink ∨
  jobDoneFunc job = SystemSwitch_HandleJobDoneEvent job ∧ job_Type job ≠ JobTypeSystemUnlink.
Proof.
  unfold connectionJobs, jobDoneFunc. intros Hty.
  repeat (apply elem_of_cons in Hty as [Hty|Hty]); [..|by apply not_elem_of_nil in Hty]; rewrite Hty; auto.
Qed.

Lemma connection_progress job data d id f :
  job_Type job ∈ connectionJobs → unmarshalSystemJobData job = inr data → sd_TenantID data ≠ "" →
  tables f (sd_TenantID data) = Some d → systems_wf d → f_faults f = [] → registry_accepts →
  uuid_Parse (sd_SystemID data) = inr id → has_system id d = true →
  (job_Type job = JobTypeSystemUnlink ∨
   ∃ k, k ∈ db_keys d ∧ uuid_Parse (sd_KeyIDTo data) = inr (k_ID k)) →
  (jobDoneFunc job f).2 = inr tt.
Proof.
  intros Hty Hd Ht0 Ht Hwf Hf Hreg Hid (s0 & Hs0 & Hsid)%has_system_true Hkey.
  assert (∃ s, getSystemByID (sd_SystemID data) (world_of f d) = (world_of f d, inr s) ∧ s ∈ db_systems d)
    as (s & Hsys & Hs).
  { edestruct (FirstByText_run (T := System) s_ID (sd_SystemID data) id (world_of f d)) as (s & H & Hs & _);
      [exact Hf|exact Hid|exact Hs0|exact Hsid|eauto]. }
  assert (∀ l, job_Type job ≠ JobTypeSystemUnlink →
    ∃ k, keyOfJob (sd_KeyIDTo data) (set_log l (world_of f d)) = (set_log l (world_of f d), inr k)) as Hk.
  { intros l Hne. destruct Hkey as [|(k & Hk & Hp)]; [done|].
    edestruct (FirstByText_run (T := Key) k_ID (sd_KeyIDTo data) (k_ID k) (set_log l (world_of f d))) as (k' & H & _);
      [exact Hf|exact Hp|exact Hk|done|].
    exists k'. unfold keyOfJob, getKeyByKeyID, map_err. by rewrite H. }
  assert (∀ l cfg, ∃ w', Transaction (_ ← updateSystem (settle cfg s); cleanUpEvent job)
    (set_log l (world_of f d)) = (w', inr tt)) as Htx by (intros l cfg; apply settle_run; [done|done|by destruct Hwf|done]).
  destruct (connection_handler_done job Hty) as [[-> E]|[[-> E]|[-> E]]];
    unfold SystemLink_HandleJobDoneEvent, SystemUnlink_HandleJobDoneEvent, SystemSwitch_HandleJobDoneEvent;
    rewrite (onSystemJob_eval _ _ _ _ _ Hd Ht0 Ht), (bind_run _ _ _ _ _ Hsys).
  - destruct (sendL1KeyClaim_run s (sd_TenantID data) true (world_of f d) Hreg) as (l & Hl).
    destruct (Hk l) as (k & Hkr); [by rewrite E|]. destruct (Htx l (Some (k_KeyConfigurationID k))) as (w' & H).
    by rewrite (bind_run _ _ _ _ _ Hl), (bind_run _ _ _ _ _ Hkr), (bind_run _ _ _ _ _ H).
  - destruct (sendL1KeyClaim_run s (sd_TenantID data) false (world_of f d) Hreg) as (l & Hl).
    destruct (Htx l None) as (w' & H). by rewrite (bind_run _ _ _ _ _ Hl), (bind_run _ _ _ _ _ H).
  - destruct (Hk (f_log f) E) as (k & Hkr). destruct (Htx (f_log f) (Some (k_KeyConfigurationID k))) as (w' & H).
    by rewrite (bind_run _ _ _ _ _ Hkr), (bind_run _ _ _ _ _ H).
Qed.

(** Finishing makes progress: when the system of a link, unlink or switch job
    exists (and, for all but unlink, its key), the database works and the registry
    accepts the key claim or already has it, the handler succeeds - so by the
    outcome theorem the system is settled. *)
Theorem job_done_progress job data d id f :
  job_Type job ∈ connectionJobs → unmarshalSystemJobData job = inr data → sd_TenantID data ≠ "" →
  tables f (sd_TenantID data) = Some d → systems_wf d → f_faults f = [] → registry_accepts →
  uuid_Parse (sd_SystemID data) = inr id → has_system id d = true →
  (job_Type job = JobTypeSystemUnlink ∨
   ∃ k, k ∈ db_keys d ∧ uuid_Parse (sd_KeyIDTo data) = inr (k_ID k)) →
  (jobDoneFunc job f).2 = inr tt.
Proof. apply connection_progress. Qed.
End Done.
