(* ===== verification/EventFacts.v ===== *)
(** What is sent is what is read: the data of a job and the text of an error survive
    the way through the orbital library, and sending an event marks the system and
    records how it was before. *)
From S2P Require Import Prelude Errs Json GoContext Model Store Batch.
From S2P Require Import KeyAccess Events JobHandlers Reconciler JobFacts JobOutcomes.

(** * Errors as text *)

Lemma isUpper_not_colon c : isUpper c = true → Ascii.eqb c colon = false.
Proof.
  intros H. destruct (Ascii.eqb_spec c colon) as [->|]; [|done]. by vm_compute in H.
Qed.

Lemma CutColon_code code message b :
  screaming b code = true → CutColon (code +:+ ":" +:+ message) = Some (code, message).
Proof.
  revert b. induction code as [|c code IH]; intros b H; [done|]. simpl in *.
  assert (Ascii.eqb c colon = false ∧ ∃ b', screaming b' code = true) as [-> (b' & Hb)].
  { destruct (isUpper c) eqn:Hu; [split; [by apply isUpper_not_colon|eauto]|].
    destruct (Ascii.eqb_spec c underscore) as [->|]; [|done].
    apply andb_true_iff in H as [_ H]. split; [done|eauto]. }
  specialize (IH b' Hb). simpl in IH. by rewrite IH.
Qed.

Lemma CutColon_spec m code message :
  CutColon m = Some (code, message) → m = code +:+ ":" +:+ message.
Proof.
  revert code. induction m as [|c m IH]; intros code; simpl; [done|].
  destruct (Ascii.eqb_spec c colon) as [->|]; [by intros [= <- <-]|].
  destruct (CutColon m) as [[a b]|]; [|done]. intros [= <- <-]. simpl. by rewrite (IH a).
Qed.

(** An error code written in capitals survives the trip through a job's error
    message whatever the text says, even when it contains colons; and what is parsed
    either prints as the message it came from or is the whole message under the
    default code. *)
Theorem orbital_error_roundtrip :
  (∀ code message, MatchCode code = true →
     ParseOrbitalError (OrbitalError_String (mkOrbitalError message code)) = mkOrbitalError message code) ∧
  (∀ m, OrbitalError_String (ParseOrbitalError m) = m ∨
        ParseOrbitalError m = mkOrbitalError m DefaultErrorCode).
Proof.
  split.
  - intros code message Hc. unfold ParseOrbitalError, OrbitalError_String. cbn [oe_Code oe_Message].
    rewrite (CutColon_code _ _ _ Hc). by rewrite Hc.
  - intros m. unfold ParseOrbitalError. destruct (CutColon m) as [[a b]|] eqn:E; [|by right].
    destruct (MatchCode a); [left|by right]. unfold OrbitalError_String. simpl.
    by rewrite (CutColon_spec _ _ _ E).
Qed.

(** * Job data *)

Lemma SystemActionJobData_roundtrip d :
  SystemActionJobData_Unmarshal (SystemActionJobData_Marshal d) = inr d.
Proof.
  destruct d as [s t kt kf tr]. unfold SystemActionJobData_Marshal. cbn [sd_Trigger].
  destruct (String.eqb_spec tr "") as [->|]; vm_compute; reflexivity.
Qed.
Lemma KeyActionJobData_roundtrip d : KeyActionJobData_Unmarshal (KeyActionJobData_Marshal d) = inr d.
Proof. destruct d. vm_compute. reflexivity. Qed.

Definition with_tenant (t : string) (d : SystemActionJobData) : SystemActionJobData :=
  mkSystemActionJobData (sd_SystemID d) t (sd_KeyIDTo d) (sd_KeyIDFrom d) (sd_Trigger d).

Section Factory.
Context {O : Orbital} {OL : OrbitalLaws} {US : UUIDString}.

Lemma CreateJob_ok e w w' job :
  CreateJob e w = (w', inr job) →
  w' = set_jobs (job :: w_jobs w) w ∧ job_ExternalID job = e_Identifier e ∧ job_Type job = e_Type e ∧
  job_Data job = e_Data e.
Proof using OL.
  unfold CreateJob. destruct (PrepareJob _ _) as [err|j] eqn:E; [done|]. intros [= <- <-].
  apply PrepareJob_keeps in E as (? & ? & ?). done.
Qed.
Lemma CreateJob_err e w w' err : CreateJob e w = (w', inl err) → w' = w.
Proof. unfold CreateJob. destruct (PrepareJob _ _); by intros [= <- <-]. Qed.

Lemma createSystemEventJob_ok ctx type data w w' job :
  createSystemEventJob ctx type data w = (w', inr job) →
  ∃ t, ExtractTenantID ctx = inr t ∧ w' = set_jobs (job :: w_jobs w) w ∧
    job_ExternalID job = sd_SystemID data ∧ job_Type job = type ∧
    job_Data job = SystemActionJobData_Marshal (with_tenant t data).
Proof using OL.
  intros (w1 & t & H1 & H)%bind_ok. unfold lift in H1. injection H1 as <- Ht.
  apply CreateJob_ok in H as (-> & ? & ? & ?). eauto 10.
Qed.
Lemma createSystemEventJob_err ctx type data w w' err :
  createSystemEventJob ctx type data w = (w', inl err) → w' = w.
Proof.
  intros [H|(w1 & t & H1 & H)]%bind_err; [by injection H as <- _|].
  unfold lift in H1. injection H1 as <- _. by apply CreateJob_err in H.
Qed.

(** The handler of a system job reads exactly what the factory was asked to send:
    the job made for [data] in a context of tenant [t] decodes to [data] with that
    tenant, and carries the system and the type it was made for. *)
Theorem system_job_roundtrip ctx type data w w' job :
  createSystemEventJob ctx type data w = (w', inr job) →
  ∃ t, ExtractTenantID ctx = inr t ∧ unmarshalSystemJobData job = inr (with_tenant t data) ∧
    job_ExternalID job = sd_SystemID data ∧ job_Type job = type ∧ w_jobs w' = job :: w_jobs w ∧
    w_db w' = w_db w.
Proof using OL.
  intros (t & Ht & -> & He & Hty & Hd)%createSystemEventJob_ok. exists t. split_and!; try done.
  unfold unmarshalSystemJobData. by rewrite Hd, SystemActionJobData_roundtrip.
Qed.
End Factory.
