(* ===== verification/Fsm.v ===== *)
(** The finite-state-machine library: internal/workflow drives the workflow
    states through github.com/looplab/fsm, which is not part of the repository.
    [FSM] is the part of its interface the repository calls, [FSMLaws] the
    documented behaviour it relies on, and [table_fsm] a concrete machine that
    satisfies the laws. *)
From S2P Require Import Prelude Errs.

(** [fsm.EventDesc] *)
Record EventDesc := mkEventDesc {
  ev_Name : string;
  ev_Src : list string;
  ev_Dst : string }.

(** The destinations of event [e] from state [s] in a table of events. *)
Definition dsts (evs : list EventDesc) (e s : string) : list string :=
  ev_Dst <$> List.filter (λ d, (ev_Name d ==s e) && (s ∈? ev_Src d)) evs.

Class FSM := {
  fsm : Type;
  NewFSM : string → list EventDesc → fsm;
  Current : fsm → string;
  Can : fsm → string → bool;
  fsm_Event : fsm → string → fsm * option error;
  AvailableTransitions : fsm → list string }.

Definition Cannot `{!FSM} (m : fsm) (e : string) : bool := negb (Can m e).

(** [rep m evs s]: the machine [m] has the events [evs] and is in state [s]. *)
Class FSMLaws `{!FSM} := {
  rep : fsm → list EventDesc → string → Prop;
  rep_new s evs : rep (NewFSM s evs) evs s;
  rep_current m evs s : rep m evs s → Current m = s;
  rep_can m evs s e : rep m evs s → Can m e = true ↔ dsts evs e s ≠ [];
  rep_event m evs s e d : rep m evs s → dsts evs e s = [d] → d ≠ s →
    ∃ m', fsm_Event m e = (m', None) ∧ rep m' evs d;
  rep_event_invalid m evs s e : rep m evs s → dsts evs e s = [] →
    ∃ err, fsm_Event m e = (m, Some err);
  rep_available m evs s e : rep m evs s → e ∈ AvailableTransitions m ↔ dsts evs e s ≠ [] }.

(** A machine that looks its table up. *)
Definition table_event (m : list EventDesc * string) (e : string) :
    (list EventDesc * string) * option error :=
  match dsts m.1 e m.2 with
  | [] => (m, Some (External ("event " +:+ e +:+ " inappropriate in current state " +:+ m.2)))
  | d :: _ => if d ==s m.2 then (m, Some (External "no transition")) else ((m.1, d), None)
  end.

Definition table_available (m : list EventDesc * string) : list string :=
  ev_Name <$> List.filter (λ d, m.2 ∈? ev_Src d) m.1.

#[export] Instance table_fsm : FSM := {
  fsm := list EventDesc * string;
  NewFSM s evs := (evs, s);
  Current m := m.2;
  Can m e := negb (bool_decide (dsts m.1 e m.2 = []));
  fsm_Event := table_event;
  AvailableTransitions := table_available }.

Lemma table_available_spec m e : e ∈ table_available m ↔ dsts m.1 e m.2 ≠ [].
Proof.
  destruct m as [evs s]. unfold table_available, dsts. simpl.
  rewrite list_elem_of_fmap. setoid_rewrite list_elem_of_In. setoid_rewrite filter_In.
  induction evs as [|d evs IH]; simpl; [naive_solver|].
  destruct (String.eqb_spec (ev_Name d) e) as [He|He]; simpl.
  - destruct (s ∈? ev_Src d) eqn:Hs; simpl; [naive_solver|].
    rewrite <-IH. naive_solver congruence.
  - rewrite <-IH. naive_solver.
Qed.

#[export] Instance table_fsm_laws : FSMLaws.
Proof.
  refine {| rep m evs s := m = (evs, s) |}.
  - done.
  - by intros m evs s ->.
  - intros m evs s e ->. simpl. case_bool_decide; naive_solver.
  - intros m evs s e d -> Hd Hne. simpl. unfold table_event. simpl. rewrite Hd.
    apply String.eqb_neq in Hne as ->. eauto.
  - intros m evs s e -> Hd. simpl. unfold table_event. simpl. rewrite Hd. eauto.
  - intros m evs s e ->. apply table_available_spec.
Defined.
