(* ===== verification/Lifecycle.v ===== *)
(** The workflow lifecycle: internal/workflow (workflow.go, types.go, errors.go,
    key_actions.go, key_configuration_actions.go, system_actions.go).

    A method of [*Lifecycle] is a computation on the database together with the
    [Lifecycle] object: the object keeps the assignments made before an error.
    The state-machine library, [uuid.Parse] and the managers behind the action
    interfaces are parameters. *)
From S2P Require Import Prelude Errs Json GoContext AuthzPolicies Authz Model Store Fsm.

(** * types.go, errors.go *)

Definition TransitionCreate : string := "CREATE".
Definition TransitionRevoke : string := "REVOKE".
Definition TransitionReject : string := "REJECT".
Definition TransitionExpire : string := "EXPIRE".
Definition TransitionApprove : string := "APPROVE".
Definition TransitionConfirm : string := "CONFIRM".
Definition TransitionExecute : string := "EXECUTE".
Definition TransitionFail : string := "FAIL".

Definition Transitions : list string :=
  [TransitionCreate; TransitionRevoke; TransitionReject; TransitionExpire; TransitionApprove;
   TransitionConfirm; TransitionExecute; TransitionFail].

Definition ErrInvalidEventActor := New "workflow.ErrInvalidEventActor" "invalid event actor".
Definition ErrInsufficientApproverCount :=
  New "workflow.ErrInsufficientApproverCount" "insufficient approvers to transition to next state".
Definition ErrApproverNoLongerEligible :=
  New "workflow.ErrApproverNoLongerEligible"
    "approver is no longer in the admin group and has not voted yet".
Definition ErrTransitionExecution := New "workflow.ErrTransitionExecution" "failed to execute transition".
Definition ErrWorkflowExecution := New "workflow.ErrWorkflowExecution" "failed to execute workflow action".
Definition ErrUpdateWorkflowState := New "workflow.ErrUpdateWorkflowState" "failed to update workflow state".
Definition ErrCheckApprovers := New "workflow.ErrCheckApprovers" "failed to check approvers".
Definition ErrAutomatedTransition :=
  New "workflow.ErrAutomatedTransition" "automated transition cannot be triggered by user input".
Definition ErrInvalidWorkflowStateWf := New "workflow.ErrInvalidWorkflowState" "invalid workflow state".
Definition ErrCheckApproverDecision :=
  New "workflow.ErrCheckApproverDecision" "failed to check approver decision".
Definition ErrListApprovers := New "workflow.ErrListApprovers" "failed to list approvers".
Definition ErrInvalidVotingTransition :=
  New "workflow.ErrInvalidVotingTransition" "invalid voting transition".
Definition ErrWorkflowGroupNotSufficientMembers :=
  New "workflow.ErrWorkflowGroupNotSufficientMembers" "insufficient eligible approvers in admin group".
Definition ErrUserRemovedFromApproverGroup :=
  New "workflow.ErrUserRemovedFromApproverGroup"
    "user is no longer a member of the workflow approver groups".

Definition NewInvalidEventActorError (userID expectedRole : string) : error :=
  Wrapf ErrInvalidEventActor ("user " +:+ userID +:+ " is not the " +:+ expectedRole +:+ " of the workflow").
Definition NewInsufficientApproverCountError (currentCount requiredCount : Z) : error :=
  Wrapf ErrInsufficientApproverCount (pretty currentCount +:+ ", required: " +:+ pretty requiredCount).
Definition NewTransitionError (transition : string) : error :=
  Errorf_w_s ErrTransitionExecution transition.
Definition NewApproverNoLongerEligibleError (userID : string) : error :=
  Wrapf ErrApproverNoLongerEligible
    ("approver " +:+ userID +:+ " has been removed from the admin group and cannot vote").
Definition NewInsufficientApproversError (required actual : Z) : error :=
  InsufficientApproversError required actual ErrWorkflowGroupNotSufficientMembers.

(** * Votes *)

Record voteCounts := mkCounts {
  approvals : Z;
  rejections : Z;
  pending : Z }.

Definition zeroCounts : voteCounts := mkCounts 0 0 0.

Record ApprovalSummary := mkSummary {
  Mechanism : string;
  Approvals : Z;
  Rejections : Z;
  Pending : Z;
  TargetScore : Z }.

Definition ApprovalMechanismTargetScore : string := "TARGET_SCORE".

Definition countExistingVote (counts : voteCounts) (approver : WorkflowApprover) : voteCounts :=
  match wa_Approved approver with
  | None => mkCounts (approvals counts) (rejections counts) (pending counts + 1)
  | Some true => mkCounts (approvals counts + 1) (rejections counts) (pending counts)
  | Some false => mkCounts (approvals counts) (rejections counts + 1) (pending counts)
  end.

Definition applyCurrentVote (counts : voteCounts) (transition : string) : error + voteCounts :=
  if transition ==s TransitionApprove then
    inr (mkCounts (approvals counts + 1) (rejections counts) (pending counts))
  else if transition ==s TransitionReject then
    inr (mkCounts (approvals counts) (rejections counts + 1) (pending counts))
  else inl ErrInvalidVotingTransition.

Fixpoint countVotes (actorID transition : string) (counts : voteCounts)
    (allApprovers : list WorkflowApprover) : error + voteCounts :=
  match allApprovers with
  | [] => inr counts
  | approver :: rest =>
      if wa_UserID approver ==s actorID then
        match applyCurrentVote counts transition with
        | inl err => inl err
        | inr counts => countVotes actorID transition counts rest
        end
      else countVotes actorID transition (countExistingVote counts approver) rest
  end.

Definition calculateVoteCounts (actorID : string) (allApprovers : list WorkflowApprover)
    (transition : string) : error + voteCounts :=
  countVotes actorID transition zeroCounts allApprovers.

Definition shouldTransition (minimumApproverCount : Z) (counts : voteCounts) (transition : string) :
    error + bool :=
  let score := (approvals counts - rejections counts)%Z in
  let maxPossibleScore := (score + pending counts)%Z in
  if transition ==s TransitionApprove then inr (minimumApproverCount <=? score)%Z
  else if transition ==s TransitionReject then inr (maxPossibleScore <? minimumApproverCount)%Z
  else inl ErrInvalidVotingTransition.

Definition filterEligibleApprovers (eligible : option (gset string))
    (approvers : list WorkflowApprover) : list WorkflowApprover :=
  match eligible with
  | None => approvers
  | Some ids =>
      List.filter (λ approver, bool_decide (wa_UserID approver ∈ ids) ||
                               bool_decide (is_Some (wa_Approved approver))) approvers
  end.

(** The counting loop of [CheckInsufficientApprovers]: current approvals and
    pending votes of the eligible approvers. *)
Definition countEligible (acc : Z * Z) (approver : WorkflowApprover) : Z * Z :=
  match wa_Approved approver with
  | None => (acc.1, acc.2 + 1)%Z
  | Some true => (acc.1 + 1, acc.2)%Z
  | Some false => acc
  end.

Definition CheckInsufficientApprovers (minimumApproverCount : Z)
    (eligibleApprovers : list WorkflowApprover) : bool :=
  let '(currentApprovals, eligiblePending) := foldl countEligible (0, 0)%Z eligibleApprovers in
  (currentApprovals + eligiblePending <? minimumApproverCount)%Z.

(** * The lifecycle object *)

(** The interfaces [KeyActions], [KeyConfigurationActions] and [SystemActions]. *)
Class Actions := {
  KeyActions_Get : Ctx → uuid → Comp World Key;
  KeyActions_UpdateKey : Ctx → uuid → bool → Comp World unit;
  KeyActions_Delete : Ctx → uuid → Comp World unit;
  DeleteKeyConfigurationByID : Ctx → uuid → Comp World unit;
  UpdateKeyConfigurationByID : Ctx → uuid → uuid → Comp World unit;
  LinkSystemAction : Ctx → uuid → uuid → Comp World unit;
  UnlinkSystemAction : Ctx → uuid → string → Comp World unit }.

Definition convertEvent (transition : string) (sourceStates : list string)
    (destinationState : string) : EventDesc :=
  mkEventDesc transition sourceStates destinationState.

Definition workflowEvents : list EventDesc :=
  [convertEvent TransitionCreate [WorkflowStateInitial] WorkflowStateWaitApproval;
   convertEvent TransitionApprove [WorkflowStateWaitApproval] WorkflowStateWaitConfirmation;
   convertEvent TransitionReject [WorkflowStateWaitApproval] WorkflowStateRejected;
   convertEvent TransitionRevoke [WorkflowStateWaitApproval; WorkflowStateWaitConfirmation]
     WorkflowStateRevoked;
   convertEvent TransitionConfirm [WorkflowStateWaitConfirmation] WorkflowStateExecuting;
   convertEvent TransitionExpire
     [WorkflowStateWaitApproval; WorkflowStateWaitConfirmation; WorkflowStateExecuting]
     WorkflowStateExpired;
   convertEvent TransitionFail [WorkflowStateExecuting] WorkflowStateFailed;
   convertEvent TransitionExecute [WorkflowStateExecuting] WorkflowStateSuccessful].

Section Lifecycle.
Context {F : FSM} {Act : Actions} {UP : UUIDParse}.

Record Lifecycle := mkLifecycle {
  l_Workflow : Workflow;
  l_StateMachine : fsm;
  l_ActorID : string;
  l_MinimumApproverCount : Z;
  l_EligibleApproverIDs : option (gset string);
  l_ActorApproverGroupIDs : option (list uuid) }.

Definition NewLifecycle (workflow : Workflow) (actorID : string) (minimumApproverCount : Z) :
    Lifecycle :=
  let stateMachine := NewFSM (wf_State workflow) workflowEvents in
  let minimumApproverCount :=
    if (minimumApproverCount =? 0)%Z then 2%Z else minimumApproverCount in
  mkLifecycle workflow stateMachine actorID minimumApproverCount None None.

Definition set_l_Workflow (x : Workflow) (l : Lifecycle) : Lifecycle :=
  mkLifecycle x (l_StateMachine l) (l_ActorID l) (l_MinimumApproverCount l)
    (l_EligibleApproverIDs l) (l_ActorApproverGroupIDs l).
Definition set_l_StateMachine (x : fsm) (l : Lifecycle) : Lifecycle :=
  mkLifecycle (l_Workflow l) x (l_ActorID l) (l_MinimumApproverCount l)
    (l_EligibleApproverIDs l) (l_ActorApproverGroupIDs l).
Definition set_l_EligibleApproverIDs (x : option (gset string)) (l : Lifecycle) : Lifecycle :=
  mkLifecycle (l_Workflow l) (l_StateMachine l) (l_ActorID l) (l_MinimumApproverCount l)
    x (l_ActorApproverGroupIDs l).
Definition set_l_ActorApproverGroupIDs (x : option (list uuid)) (l : Lifecycle) : Lifecycle :=
  mkLifecycle (l_Workflow l) (l_StateMachine l) (l_ActorID l) (l_MinimumApproverCount l)
    (l_EligibleApproverIDs l) x.

(** The database and the object a method works on. *)
Definition LState : Type := World * Lifecycle.
Definition onWorld {A} (m : Comp World A) : Comp LState A :=
  zoom fst (λ w s, (w, s.2)) m.
Definition self : Comp LState Lifecycle := gets snd.
Definition update (f : Lifecycle → Lifecycle) : Comp LState unit := modify (λ s, (s.1, f s.2)).
Definition lift_err (o : option error) : Comp LState unit :=
  match o with Some e => fail e | None => mret tt end.

(** [l.StateMachine.Event(ctx, transition)] *)
Definition fireEvent (transition : string) : Comp LState (option error) := λ s,
  let '(m, e) := fsm_Event (l_StateMachine s.2) transition in
  ((s.1, set_l_StateMachine m s.2), inr e).

Definition CanTransition (l : Lifecycle) (transition : string) : bool :=
  Can (l_StateMachine l) transition.
Definition CanExpire (l : Lifecycle) : bool := Can (l_StateMachine l) TransitionExpire.

Definition byWorkflow (id : uuid) (a : WorkflowApprover) : bool := N.eqb (wa_WorkflowID a) id.

Definition GetAllApprovers : Comp LState (list WorkflowApprover) :=
  l ← self;
  map_err (wrapping ErrCheckApproverDecision)
    (onWorld (List_ (where_ (byWorkflow (wf_ID (l_Workflow l)))))).

Definition getNumberOfApprovers : Comp LState Z :=
  l ← self;
  let id := wf_ID (l_Workflow l) in
  _ ← map_err (wrapping ErrListApprovers) (onWorld (First (λ w : Workflow, byID id (wf_ID w))));
  map_err (wrapping ErrListApprovers) (onWorld (Count (where_ (byWorkflow id)))).

Definition GetApprovalSummary : Comp LState ApprovalSummary :=
  allApprovers ← GetAllApprovers;
  l ← self;
  let counts := foldl countExistingVote zeroCounts allApprovers in
  mret (mkSummary ApprovalMechanismTargetScore (approvals counts) (rejections counts)
          (pending counts) (l_MinimumApproverCount l)).

(** ** Who may trigger a transition *)

Definition validateInternalTransition (ctx : Ctx) (role : string) : option error :=
  match ExtractUserType ctx with
  | inl err => Some (Wrapf err "failed to validate automated transition")
  | inr source =>
      if source ==s BusinessUser then Some ErrAutomatedTransition
      else
        match CheckInternalUserRole ctx role with
        | Some err => Some (Wrapf err "failed to validate automated transition")
        | None => None
        end
  end.

Definition validateUserIsInitiator (l : Lifecycle) : bool :=
  l_ActorID l ==s wf_InitiatorID (l_Workflow l).

Definition validateActorGroupMembership (l : Lifecycle) (transition : string) : option error :=
  match l_ActorApproverGroupIDs l with
  | None => None
  | Some ids =>
      if transition ∈? [TransitionConfirm; TransitionRevoke; TransitionApprove; TransitionReject]
      then if (length ids =? 0)%nat then Some ErrUserRemovedFromApproverGroup else None
      else None
  end.

Definition validateUserIsApprover : Comp LState bool :=
  l ← self;
  count ← map_err (wrapping ErrCheckApprovers)
    (onWorld (comparing ErrGetResource [l_ActorID l]
       (Count (where_ (λ a, byWorkflow (wf_ID (l_Workflow l)) a &&
                            eqField (l_ActorID l) (wa_UserID a))))));
  mret (0 <? count)%Z.

Definition ValidateActor (ctx : Ctx) (transition : string) : Comp LState unit :=
  l ← self;
  _ ← lift_err (validateActorGroupMembership l transition);
  if transition ∈? [TransitionCreate; TransitionRevoke; TransitionConfirm] then
    if negb (validateUserIsInitiator l)
    then fail (NewInvalidEventActorError (l_ActorID l) "initiator") else mret tt
  else if transition ∈? [TransitionApprove; TransitionReject] then
    valid ← map_err (λ err, Wrapf err "failed to validate approver") validateUserIsApprover;
    if negb valid then fail (NewInvalidEventActorError (l_ActorID l) "approver") else mret tt
  else if transition ==s TransitionExpire then
    lift_err (validateInternalTransition ctx InternalTaskWorkflowExpirationRole)
  else if transition ∈? [TransitionExecute; TransitionFail] then
    lift_err (validateInternalTransition ctx InternalTaskWorkflowApproversRole)
  else fail ErrInvalidWorkflowStateWf.

(** ** Votes *)

(** [fsm.InvalidEventError] of the library. *)
Definition fsmInvalidEvent (event state : string) : error :=
  External ("event " +:+ event +:+ " inappropriate in current state " +:+ state).

Definition checkVotingScore (transition : string) : Comp LState bool :=
  l ← self;
  if Cannot (l_StateMachine l) transition then
    fail (Wrap (NewTransitionError transition)
            (Some (fsmInvalidEvent transition (wf_State (l_Workflow l)))))
  else
    allApprovers ← GetAllApprovers;
    let approversToCount := filterEligibleApprovers (l_EligibleApproverIDs l) allApprovers in
    counts ← lift (calculateVoteCounts (l_ActorID l) approversToCount transition);
    lift (shouldTransition (l_MinimumApproverCount l) counts transition).

(** Returns whether the transition is to be skipped. *)
Definition transitionPrecheck (transition : string) : Comp LState bool :=
  if transition ==s TransitionCreate then
    approversCount ← getNumberOfApprovers;
    l ← self;
    if (approversCount <? l_MinimumApproverCount l)%Z
    then fail (NewInsufficientApproverCountError approversCount (l_MinimumApproverCount l))
    else mret false
  else if transition ∈? [TransitionApprove; TransitionReject] then
    canTransition ← checkVotingScore transition;
    mret (negb canTransition)
  else if transition ∈? [TransitionExecute; TransitionFail; TransitionExpire] then
    fail (Wrapf (NewTransitionError transition)
            "automated transition cannot be triggered by user input")
  else mret false.

(** ** The action of an approved workflow *)

Definition execution {A} (m : Comp World A) : Comp LState A :=
  map_err (wrapping ErrWorkflowExecution) (onWorld m).

Definition updateKeyState (ctx : Ctx) : Comp LState unit :=
  l ← self;
  let keyID := wf_ArtifactID (l_Workflow l) in
  let parameters := wf_Parameters (l_Workflow l) in
  _ ← execution (KeyActions_Get ctx keyID);
  if parameters ∈? ["ENABLED"; "DISABLED"] then
    execution (KeyActions_UpdateKey ctx keyID (parameters ==s "ENABLED"))
  else fail (Wrapf ErrWorkflowExecution ("invalid key state " +:+ parameters)).

Definition deleteKey (ctx : Ctx) : Comp LState unit :=
  l ← self; execution (KeyActions_Delete ctx (wf_ArtifactID (l_Workflow l))).

Definition deleteKeyConfiguration (ctx : Ctx) : Comp LState unit :=
  l ← self; execution (DeleteKeyConfigurationByID ctx (wf_ArtifactID (l_Workflow l))).

Definition updatePrimaryKey (ctx : Ctx) : Comp LState unit :=
  l ← self;
  keyID ← map_err (wrapping ErrWorkflowExecution) (lift (uuid_Parse (wf_Parameters (l_Workflow l))));
  execution (UpdateKeyConfigurationByID ctx (wf_ArtifactID (l_Workflow l)) keyID).

Definition systemLinkOrSwitch (ctx : Ctx) : Comp LState unit :=
  l ← self;
  keyConfigurationID ← map_err (wrapping ErrWorkflowExecution)
    (lift (uuid_Parse (wf_Parameters (l_Workflow l))));
  execution (LinkSystemAction ctx (wf_ArtifactID (l_Workflow l)) keyConfigurationID).

Definition systemUnlink (ctx : Ctx) : Comp LState unit :=
  l ← self; execution (UnlinkSystemAction ctx (wf_ArtifactID (l_Workflow l)) "").

(** The table of handlers of [executeWorkflowAction]. *)
Definition handlers (ctx : Ctx) : list (string * list (string * Comp LState unit)) :=
  [(WorkflowArtifactTypeKey,
     [(WorkflowActionTypeUpdateState, updateKeyState ctx);
      (WorkflowActionTypeDelete, deleteKey ctx)]);
   (WorkflowArtifactTypeKeyConfiguration,
     [(WorkflowActionTypeDelete, deleteKeyConfiguration ctx);
      (WorkflowActionTypeUpdatePrimary, updatePrimaryKey ctx)]);
   (WorkflowArtifactTypeSystem,
     [(WorkflowActionTypeLink, systemLinkOrSwitch ctx);
      (WorkflowActionTypeUnlink, systemUnlink ctx);
      (WorkflowActionTypeSwitch, systemLinkOrSwitch ctx)])].

Definition executeWorkflowAction (ctx : Ctx) : Comp LState unit :=
  l ← self;
  match assoc (wf_ArtifactType (l_Workflow l)) (handlers ctx) with
  | None => fail (Wrapf ErrWorkflowExecution
                    ("unknown artifact type " +:+ wf_ArtifactType (l_Workflow l)))
  | Some artifactHandlers =>
      match assoc (wf_ActionType (l_Workflow l)) artifactHandlers with
      | None => fail (Wrapf ErrWorkflowExecution
                        ("unknown action type " +:+ wf_ActionType (l_Workflow l)))
      | Some handler => handler
      end
  end.

Definition transitionExecute (ctx : Ctx) : Comp LState unit :=
  executionResult ← attempt (executeWorkflowAction ctx);
  transition ←
    match executionResult with
    | inl executionErr =>
        _ ← update (λ l, set_l_Workflow
              (set_wf_FailureReason (Error executionErr) (l_Workflow l)) l);
        mret TransitionFail
    | inr _ => mret TransitionExecute
    end;
  terminalError ← fireEvent transition;
  match terminalError with
  | Some err => fail (Wrap (NewTransitionError transition) (Some err))
  | None => mret tt
  end.

(** ** Applying a transition *)

(** [l.Workflow.State = Current()], then [Repository.Patch(l.Workflow)]. *)
Definition saveState : Comp LState unit :=
  _ ← update (λ l, set_l_Workflow (set_wf_State (Current (l_StateMachine l)) (l_Workflow l)) l);
  l ← self;
  _ ← map_err (wrapping ErrUpdateWorkflowState) (onWorld (Patch (l_Workflow l) []));
  mret tt.

Definition ApplyTransition (ctx : Ctx) (transition : string) : Comp LState unit :=
  skip ← transitionPrecheck transition;
  if (skip : bool) then mret tt
  else
    transitionErr ← fireEvent transition;
    match transitionErr with
    | Some err => fail (Wrap (NewTransitionError transition) (Some err))
    | None =>
        l ← self;
        _ ← (if Current (l_StateMachine l) ==s WorkflowStateExecuting
             then transitionExecute ctx else mret tt);
        saveState
    end.

Definition ValidateAndApplyTransition (ctx : Ctx) (transition : string) : Comp LState unit :=
  _ ← ValidateActor ctx transition;
  ApplyTransition ctx transition.

Definition Expire : Comp LState unit :=
  err ← fireEvent TransitionExpire;
  match err with
  | Some err => fail (Wrap (NewTransitionError TransitionExpire) (Some err))
  | None => saveState
  end.

(** ** Transitions offered to a business user *)

Definition getInitiatorAvailableActions (l : Lifecycle) : list string :=
  if wf_State (l_Workflow l) ==s WorkflowStateWaitApproval then [TransitionRevoke]
  else if wf_State (l_Workflow l) ==s WorkflowStateWaitConfirmation
  then [TransitionRevoke; TransitionConfirm]
  else [].

Definition getApproverAvailableActions : Comp LState (list string) :=
  l ← self;
  if negb (wf_State (l_Workflow l) ==s WorkflowStateWaitApproval) then mret []
  else
    approvers ← attempt GetAllApprovers;
    match approvers with
    | inl _ => mret []
    | inr approvers =>
        if existsb (λ a, (wa_UserID a ==s l_ActorID l) && negb (bool_decide (is_Some (wa_Approved a))))
             approvers
        then mret [TransitionApprove; TransitionReject] else mret []
    end.

Definition AvailableBusinessUserTransitions : Comp LState (list string) :=
  l ← self;
  if (length (AvailableTransitions (l_StateMachine l)) =? 0)%nat then mret []
  else if validateUserIsInitiator l then mret (getInitiatorAvailableActions l)
  else getApproverAvailableActions.
End Lifecycle.
