(* ===== verification/VoteFacts.v ===== *)
(** Properties of the voting mechanism of internal/workflow/workflow.go: the score,
    the two decisions drawn from it and the effect of the eligibility filter. *)
From S2P Require Import Prelude Errs Json Model Store Lifecycle.
Local Open Scope Z_scope.

(** * Reference definitions *)

(** The value of one recorded vote, and the score of a list of approvers. *)
Definition vote_value (a : WorkflowApprover) : Z :=
  match wa_Approved a with Some true => 1 | Some false => -1 | None => 0 end.
Fixpoint score (l : list WorkflowApprover) : Z :=
  match l with [] => 0 | a :: l => vote_value a + score l end.
Definition is_pending (a : WorkflowApprover) : bool := negb (bool_decide (is_Some (wa_Approved a))).
Definition pending_of (l : list WorkflowApprover) : Z := Z.of_nat (length (List.filter is_pending l)).

(** The approvers after [actor] cast the vote of [transition]. *)
Definition cast (actor transition : string) (l : list WorkflowApprover) : list WorkflowApprover :=
  (λ a, if wa_UserID a ==s actor
        then set_wa_Approved (Some (transition ==s TransitionApprove)) a else a) <$> l.

(** [l'] is a possible outcome of the vote [l]: cast votes stay, each pending
    approver may approve, reject or stay silent. *)
Definition outcome (l l' : list WorkflowApprover) : Prop :=
  Forall2 (λ a a', wa_UserID a' = wa_UserID a ∧
                   (is_Some (wa_Approved a) → wa_Approved a' = wa_Approved a)) l l'.

(** * Counting *)

Lemma is_pending_match a :
  is_pending a = match wa_Approved a with None => true | Some _ => false end.
Proof. unfold is_pending. by destruct (wa_Approved a). Qed.

Definition counts_score (c : voteCounts) : Z := approvals c - rejections c.

Lemma foldl_count c l :
  let c' := foldl countExistingVote c l in
  counts_score c' = counts_score c + score l ∧ pending c' = pending c + pending_of l ∧
  approvals c' + rejections c' + pending c' =
    approvals c + rejections c + pending c + Z.of_nat (length l).
Proof.
  revert c. induction l as [|a l IH]; intros c; simpl.
  { unfold pending_of. simpl. lia. }
  destruct (IH (countExistingVote c a)) as (H1 & H2 & H3). simpl in *.
  unfold pending_of in *. simpl. rewrite is_pending_match.
  unfold countExistingVote, counts_score, vote_value in *.
  destruct (wa_Approved a) as [[]|]; simpl in *; lia.
Qed.

Lemma countExistingVote_set c a b :
  countExistingVote c (set_wa_Approved (Some b) a) =
  mkCounts (approvals c + if b then 1 else 0) (rejections c + if b then 0 else 1) (pending c).
Proof. unfold countExistingVote. simpl. destruct b; f_equal; lia. Qed.

(** For a voting transition the code's count is the count of the approvers after
    the actor's vote. *)
Lemma calculateVoteCounts_cast actor l t :
  t = TransitionApprove ∨ t = TransitionReject →
  calculateVoteCounts actor l t = inr (foldl countExistingVote zeroCounts (cast actor t l)).
Proof.
  intros Ht. unfold calculateVoteCounts. generalize zeroCounts as c.
  induction l as [|a l IH]; intros c; [done|]. simpl.
  destruct (wa_UserID a ==s actor); [|apply IH].
  rewrite countExistingVote_set. unfold applyCurrentVote.
  destruct Ht as [-> | ->]; simpl; rewrite IH; do 3 f_equal; lia.
Qed.

Lemma calculateVoteCounts_err actor l t :
  t ≠ TransitionApprove → t ≠ TransitionReject →
  (∃ a, a ∈ l ∧ wa_UserID a = actor) →
  calculateVoteCounts actor l t = inl ErrInvalidVotingTransition.
Proof.
  intros H1 H2. unfold calculateVoteCounts. generalize zeroCounts as c.
  apply String.eqb_neq in H1, H2.
  induction l as [|a l IH]; intros c (b & Hb & Hu); [by apply not_elem_of_nil in Hb|]. simpl.
  destruct (String.eqb_spec (wa_UserID a) actor) as [He|He].
  - unfold applyCurrentVote. by rewrite H1, H2.
  - apply IH. exists b. split; [|done]. apply elem_of_cons in Hb as [->|]; done.
Qed.

(** * The decisions *)

Lemma score_bound l l' : outcome l l' → score l' ≤ score l + pending_of l.
Proof.
  induction 1 as [|a a' l l' [Hu Hv] _ IH]; unfold pending_of in *; simpl; [lia|].
  rewrite is_pending_match. unfold vote_value in *.
  destruct (wa_Approved a) as [b|] eqn:Ha.
  - rewrite Hv by done. lia.
  - simpl. destruct (wa_Approved a') as [[]|]; lia.
Qed.

(** Everybody still pending approves. *)
Definition all_approve (l : list WorkflowApprover) : list WorkflowApprover :=
  (λ a, match wa_Approved a with None => set_wa_Approved (Some true) a | Some _ => a end) <$> l.

Lemma all_approve_outcome l : outcome l (all_approve l).
Proof.
  unfold outcome, all_approve. induction l as [|a l IH]; simpl; constructor; [|done].
  destruct (wa_Approved a) eqn:Ha; simpl; split; try done.
Qed.

Lemma all_approve_score l : score (all_approve l) = score l + pending_of l.
Proof.
  induction l as [|a l IH]; [done|]. unfold pending_of, all_approve in *. cbn in *.
  rewrite IH, is_pending_match. unfold vote_value.
  destruct (wa_Approved a) as [b|] eqn:Ha; [rewrite Ha|]; simpl; lia.
Qed.

(** C36: a rejection takes effect exactly when approval has become impossible: the
    counted votes let [REJECT] through if and only if no way of casting the votes
    that are still pending reaches the target score. *)
Theorem reject_iff_unreachable actor l minimum :
  ∃ counts,
    calculateVoteCounts actor l TransitionReject = inr counts ∧
    (shouldTransition minimum counts TransitionReject = inr true ↔
     ∀ l', outcome (cast actor TransitionReject l) l' → score l' < minimum).
Proof.
  eexists. split; [apply calculateVoteCounts_cast; by right|].
  set (l1 := cast actor TransitionReject l).
  destruct (foldl_count zeroCounts l1) as (H1 & H2 & _).
  unfold shouldTransition, counts_score in *. simpl in *.
  replace (TransitionReject ==s TransitionApprove) with false by reflexivity.
  replace (TransitionReject ==s TransitionReject) with true by reflexivity.
  rewrite H1, H2. split.
  - intros [= Hlt%Z.ltb_lt] l' Ho. pose proof (score_bound _ _ Ho). lia.
  - intros Hall. f_equal. apply Z.ltb_lt. specialize (Hall _ (all_approve_outcome l1)).
    rewrite all_approve_score in Hall. lia.
Qed.

(** An approval takes effect exactly when the score after the actor's vote,
    approvals minus rejections, reaches the target; then the same votes can never
    also be rejected. *)
Theorem approve_iff_score actor l minimum :
  ∃ counts,
    calculateVoteCounts actor l TransitionApprove = inr counts ∧
    (shouldTransition minimum counts TransitionApprove = inr true ↔
     minimum ≤ score (cast actor TransitionApprove l)) ∧
    (shouldTransition minimum counts TransitionApprove = inr true →
     shouldTransition minimum counts TransitionReject = inr false).
Proof.
  eexists. split; [apply calculateVoteCounts_cast; by left|].
  set (l1 := cast actor TransitionApprove l).
  destruct (foldl_count zeroCounts l1) as (H1 & H2 & _).
  unfold shouldTransition, counts_score in *. simpl in *.
  replace (TransitionReject ==s TransitionApprove) with false by reflexivity.
  replace (TransitionApprove ==s TransitionApprove) with true by reflexivity.
  replace (TransitionReject ==s TransitionReject) with true by reflexivity.
  rewrite H1, H2. assert (0 ≤ pending_of l1) by (unfold pending_of; lia). split; [split|].
  - intros [= Hle%Z.leb_le]. lia.
  - intros Hle. f_equal. apply Z.leb_le. lia.
  - intros [= Hle%Z.leb_le]. f_equal. apply Z.ltb_ge. lia.
Qed.

(** * Eligibility *)

Lemma filterEligible_score ids l : score (filterEligibleApprovers ids l) = score l.
Proof.
  destruct ids as [ids|]; [|done]. simpl. induction l as [|a l IH]; [done|]. simpl.
  destruct (bool_decide _ || bool_decide _) eqn:Hk; simpl; rewrite IH; [done|].
  apply orb_false_iff in Hk as [_ Hk%bool_decide_eq_false]. unfold vote_value.
  destruct (wa_Approved a); [by destruct Hk|lia].
Qed.

Lemma filterEligible_cast ids actor t l :
  (∀ a, a ∈ l → wa_UserID a = actor → is_Some (wa_Approved a)) →
  cast actor t (filterEligibleApprovers ids l) = filterEligibleApprovers ids (cast actor t l).
Proof.
  destruct ids as [ids|]; [|done]. simpl. intros Hactor.
  induction l as [|a l IH]; [done|]. simpl.
  assert (∀ b, b ∈ l → wa_UserID b = actor → is_Some (wa_Approved b)) as Hl
    by (intros; apply Hactor; [by right|done]).
  specialize (IH Hl).
  destruct (String.eqb_spec (wa_UserID a) actor) as [He|He].
  - assert (is_Some (wa_Approved a)) as Hs by (apply Hactor; [by left|done]).
    rewrite (bool_decide_eq_true_2 _ Hs), orb_true_r. simpl.
    rewrite orb_true_r. apply String.eqb_eq in He as ->. simpl. f_equal. done.
  - destruct (_ || _); simpl; [|done]. apply String.eqb_neq in He as ->. by f_equal.
Qed.

(** Losing eligibility never cancels a cast vote: as long as the actor's own
    vote is recorded, restricting the count to eligible approvers leaves the
    decision to approve as it is over all approvers, and can only lower the number
    of votes still pending. *)
Theorem eligibility_keeps_votes ids actor t l minimum :
  t = TransitionApprove ∨ t = TransitionReject →
  (∀ a, a ∈ l → wa_UserID a = actor → is_Some (wa_Approved a)) →
  ∃ c c',
    calculateVoteCounts actor l t = inr c ∧
    calculateVoteCounts actor (filterEligibleApprovers ids l) t = inr c' ∧
    counts_score c' = counts_score c ∧ 0 ≤ pending c' ≤ pending c ∧
    shouldTransition minimum c' TransitionApprove = shouldTransition minimum c TransitionApprove.
Proof.
  intros Ht Hactor. rewrite !calculateVoteCounts_cast by done. do 2 eexists. do 2 (split; [done|]).
  rewrite filterEligible_cast by done. set (l1 := cast actor t l).
  destruct (foldl_count zeroCounts l1) as (H1 & H2 & _).
  destruct (foldl_count zeroCounts (filterEligibleApprovers ids l1)) as (H1' & H2' & _).
  rewrite filterEligible_score in H1'. simpl in *.
  assert (0 ≤ pending_of (filterEligibleApprovers ids l1) ≤ pending_of l1) as Hp.
  { unfold pending_of. destruct ids as [ids|]; [|simpl; lia]. simpl. split; [lia|]. apply inj_le.
    clear. induction l1 as [|a l1 IH]; [done|]. simpl.
    destruct (_ || _); simpl; destruct (is_pending a); simpl; lia. }
  split; [lia|]. split; [lia|]. unfold shouldTransition, counts_score in *. simpl in *.
  by rewrite H1, H1'.
Qed.

Definition not_rejected (a : WorkflowApprover) : bool :=
  match wa_Approved a with Some false => false | _ => true end.

(** The eligible approvers are reported as insufficient exactly when even the
    approval of everybody who has not rejected stays below the minimum. *)
Theorem CheckInsufficientApprovers_iff minimum l :
  CheckInsufficientApprovers minimum l = true ↔
  Z.of_nat (length (List.filter not_rejected l)) < minimum.
Proof.
  unfold CheckInsufficientApprovers.
  assert (∀ acc, let r := foldl countEligible acc l in
    r.1 + r.2 = acc.1 + acc.2 +
      Z.of_nat (length (List.filter not_rejected l))) as Hl.
  { induction l as [|a l IH]; intros acc; simpl; [lia|].
    specialize (IH (countEligible acc a)). simpl in IH. rewrite IH. unfold countEligible, not_rejected.
    destruct acc, (wa_Approved a) as [[]|]; simpl; try lia. }
  specialize (Hl (0, 0)). destruct (foldl countEligible (0, 0) l) as [x y]. simpl in *.
  rewrite Z.ltb_lt. lia.
Qed.
