(* ===== verification/LifecycleFacts.v ===== *)
(** Properties of the workflow lifecycle: the state graph as a step relation and
    its reachability and termination, refinement of the graph by
    [ApplyTransition], the authority behind a transition, the outcome of a
    confirmation and the soundness of the transitions offered to a user. *)
From S2P Require Import Prelude Errs Json GoContext AuthzPolicies Authz Model Store Fsm Lifecycle.

(** * The state graph *)

(** The edges of the approval workflow, written out. *)
Inductive wf_step : string → string → string → Prop :=
| step_create : wf_step WorkflowStateInitial TransitionCreate WorkflowStateWaitApproval
| step_approve : wf_step WorkflowStateWaitApproval TransitionApprove WorkflowStateWaitConfirmation
| step_reject : wf_step WorkflowStateWaitApproval TransitionReject WorkflowStateRejected
| step_revoke1 : wf_step WorkflowStateWaitApproval TransitionRevoke WorkflowStateRevoked
| step_revoke2 : wf_step WorkflowStateWaitConfirmation TransitionRevoke WorkflowStateRevoked
| step_confirm : wf_step WorkflowStateWaitConfirmation TransitionConfirm WorkflowStateExecuting
| step_expire1 : wf_step WorkflowStateWaitApproval TransitionExpire WorkflowStateExpired
| step_expire2 : wf_step WorkflowStateWaitConfirmation TransitionExpire WorkflowStateExpired
| step_expire3 : wf_step WorkflowStateExecuting TransitionExpire WorkflowStateExpired
| step_fail : wf_step WorkflowStateExecuting TransitionFail WorkflowStateFailed
| step_execute : wf_step WorkflowStateExecuting TransitionExecute WorkflowStateSuccessful.

(** A run of the graph, with its transitions. *)
Inductive wf_run : string → list string → string → Prop :=
| run_nil s : wf_run s [] s
| run_cons s t s1 ts s2 : wf_step s t s1 → wf_run s1 ts s2 → wf_run s (t :: ts) s2.

Definition find_event (evs : list EventDesc) (t : string) : option EventDesc :=
  List.find (λ ev, ev_Name ev ==s t) evs.

Lemma dsts_none evs t s : t ∉ (ev_Name <$> evs) → dsts evs t s = [].
Proof.
  unfold dsts. induction evs as [|ev evs IH]; [done|]. simpl. intros Hn.
  apply not_elem_of_cons in Hn as [Hne Hn].
  destruct (String.eqb_spec (ev_Name ev) t); [congruence|]. by apply IH.
Qed.

Lemma dsts_find evs t s :
  NoDup (ev_Name <$> evs) →
  dsts evs t s =
    match find_event evs t with
    | Some ev => if s ∈? ev_Src ev then [ev_Dst ev] else []
    | None => []
    end.
Proof.
  induction evs as [|ev evs IH]; [done|]. simpl. intros [Hn Hd]%NoDup_cons.
  unfold dsts in *. simpl. unfold find_event in *. simpl.
  destruct (String.eqb_spec (ev_Name ev) t) as [<-|Hne]; simpl; [|by apply IH].
  pose proof (dsts_none evs (ev_Name ev) s Hn) as Hnil. unfold dsts in Hnil.
  destruct (s ∈? ev_Src ev); simpl; [f_equal; exact Hnil|exact Hnil].
Qed.

Lemma workflowEvents_NoDup : NoDup (ev_Name <$> workflowEvents).
Proof. refine (bool_decide_unpack _ _). vm_compute. exact I. Qed.

Lemma wf_step_dsts s t s' : wf_step s t s' ↔ dsts workflowEvents t s = [s'].
Proof.
  split; [by destruct 1|].
  rewrite dsts_find by apply workflowEvents_NoDup.
  destruct (find_event workflowEvents t) as [ev|] eqn:Hf; [|done].
  pose proof (find_some _ _ Hf) as [Hin Hname]. apply String.eqb_eq in Hname as <-.
  destruct (s ∈? ev_Src ev) eqn:Hs; [|done]. intros [= <-]. apply mem_elem in Hs.
  repeat (destruct Hin as [<-|Hin]; [cbn [convertEvent ev_Src ev_Dst ev_Name] in *;
    repeat (apply elem_of_cons in Hs as [->|Hs]; [constructor|]); by apply not_elem_of_nil in Hs|]).
  done.
Qed.

Lemma dsts_cases s t : (∃ s', wf_step s t s') ∨ dsts workflowEvents t s = [].
Proof.
  setoid_rewrite wf_step_dsts. rewrite dsts_find by apply workflowEvents_NoDup.
  destruct (find_event workflowEvents t) as [ev|]; [|by right].
  destruct (s ∈? ev_Src ev); eauto.
Qed.

Lemma wf_step_ne s t s' : wf_step s t s' → s' ≠ s.
Proof. by destruct 1. Qed.
Lemma wf_step_det s t s1 s2 : wf_step s t s1 → wf_step s t s2 → s1 = s2.
Proof. rewrite !wf_step_dsts. congruence. Qed.
Lemma wf_step_valid s t s' : wf_step s t s' → WorkflowState_Valid s = true ∧ WorkflowState_Valid s' = true.
Proof. by destruct 1. Qed.
Lemma wf_step_nonempty s t s' : wf_step s t s' → s' ≠ "".
Proof. by destruct 1. Qed.

(** How far a state is from the end. *)
Definition rank (s : string) : nat :=
  if s ==s WorkflowStateInitial then 4 else if s ==s WorkflowStateWaitApproval then 3
  else if s ==s WorkflowStateWaitConfirmation then 2 else if s ==s WorkflowStateExecuting then 1 else 0.

Lemma wf_step_rank s t s' : wf_step s t s' → rank s' < rank s.
Proof. destruct 1; vm_compute; lia. Qed.

Lemma wf_run_rank s ts s' : wf_run s ts s' → length ts + rank s' ≤ rank s.
Proof. induction 1 as [|s t s1 ts s2 Hs _ IH]; simpl; [lia|]. apply wf_step_rank in Hs. lia. Qed.

Lemma terminal_stuck s t : is_terminal s = true → dsts workflowEvents t s = [].
Proof.
  intros Ht. destruct (dsts_cases s t) as [[s' Hs]|]; [|done].
  destruct Hs; discriminate Ht.
Qed.

Lemma wf_run_end s ts s' :
  wf_run s ts s' → WorkflowState_Valid s = true → WorkflowState_Valid s' = true.
Proof. induction 1 as [|s t s1 ts s2 Hs _ IH]; [done|]. intros _. apply IH, (wf_step_valid _ _ _ Hs). Qed.

Lemma valid_stuck_terminal s :
  WorkflowState_Valid s = true → (∀ t s', ¬ wf_step s t s') → is_terminal s = true.
Proof.
  intros Hv%mem_elem Hst.
  repeat (apply elem_of_cons in Hv as [->|Hv];
    [first [reflexivity | by destruct (Hst _ _ step_create) | by destruct (Hst _ _ step_approve)
           | by destruct (Hst _ _ step_confirm) | by destruct (Hst _ _ step_execute)]|]).
  by apply not_elem_of_nil in Hv.
Qed.

(** The lifecycle's state machine is acyclic and ends well: the machine the
    code builds has exactly the edges of the workflow graph, every run from the
    initial state takes at most four transitions, and a reachable state without
    outgoing transition is one of the terminal states. *)
Theorem lifecycle_terminates s ts :
  wf_run WorkflowStateInitial ts s →
  length ts ≤ 4 ∧
  ((∀ t, dsts workflowEvents t s = []) ↔ is_terminal s = true) ∧
  (∀ t s', dsts workflowEvents t s = [s'] ↔ wf_step s t s').
Proof.
  intros Hrun. pose proof (wf_run_rank _ _ _ Hrun) as Hr. split; [unfold rank in Hr at 2; simpl in Hr; lia|].
  split; [|intros t s'; symmetry; apply wf_step_dsts]. split.
  - intros Hnil. apply valid_stuck_terminal; [by apply (wf_run_end _ _ _ Hrun)|].
    intros t s' Hs%wf_step_dsts. by rewrite Hnil in Hs.
  - intros Ht t. by apply terminal_stuck.
Qed.

(** * Computations of the lifecycle *)

Section Facts.
Context {F : FSM} {FL : FSMLaws} {Act : Actions} {UP : UUIDParse}.
Implicit Types (l : Lifecycle) (w : World).

(** The machine agrees with the state stored in the workflow object. *)
Definition in_sync l : Prop := rep (l_StateMachine l) workflowEvents (wf_State (l_Workflow l)).

Lemma NewLifecycle_in_sync wf actor n : in_sync (NewLifecycle wf actor n).
Proof. apply rep_new. Qed.

Lemma set_StateMachine_id l : set_l_StateMachine (l_StateMachine l) l = l.
Proof. by destruct l. Qed.

(** Reading: neither the database nor the object changes. *)
Definition reads (s s' : LState) : Prop := w_db s'.1 = w_db s.1 ∧ s'.2 = s.2.
#[global] Instance lstate_reads_preorder : PreOrder reads.
Proof. split; [done|]. intros ??? [] []. split; congruence. Qed.

Lemma onWorld_reads {A} (m : Comp World A) : preserves same_db m → preserves reads (onWorld m).
Proof.
  intros Hm [w l]. unfold onWorld, zoom. simpl. specialize (Hm w).
  destruct (m w). split; [exact Hm|done].
Qed.

Ltac solve_reads :=
  repeat first
    [ apply preserves_ret; apply _ | apply preserves_fail; apply _ | apply preserves_gets; apply _
    | apply preserves_lift; apply _
    | apply preserves_bind; [apply _| |intros ?] | apply preserves_map_err
    | apply preserves_attempt | apply onWorld_reads
    | apply comparing_same_db | apply List_same_db | apply Count_same_db | apply First_same_db
    | assumption | case_match ].

Lemma GetAllApprovers_reads : preserves reads GetAllApprovers.
Proof. unfold GetAllApprovers, self. solve_reads. Qed.
Lemma getNumberOfApprovers_reads : preserves reads getNumberOfApprovers.
Proof. unfold getNumberOfApprovers, self. solve_reads. Qed.
Lemma validateUserIsApprover_reads : preserves reads validateUserIsApprover.
Proof. unfold validateUserIsApprover, self. solve_reads. Qed.
Lemma ValidateActor_reads ctx t : preserves reads (ValidateActor ctx t).
Proof.
  unfold ValidateActor, self, lift_err.
  pose proof validateUserIsApprover_reads. solve_reads.
Qed.
Lemma checkVotingScore_reads t : preserves reads (checkVotingScore t).
Proof. unfold checkVotingScore, self. pose proof GetAllApprovers_reads. solve_reads. Qed.
Lemma transitionPrecheck_reads t : preserves reads (transitionPrecheck t).
Proof.
  unfold transitionPrecheck, self. pose proof (checkVotingScore_reads t).
  pose proof getNumberOfApprovers_reads. solve_reads.
Qed.

Lemma reads_inv {A} (m : Comp LState A) w l s' r :
  preserves reads m → m (w, l) = (s', r) → ∃ w', s' = (w', l) ∧ w_db w' = w_db w.
Proof.
  intros Hm Heq. specialize (Hm (w, l)). rewrite Heq in Hm. destruct s' as [w' l'].
  destruct Hm as [? ?]. simpl in *. subst. eauto.
Qed.

Lemma self_bind {A} (k : Lifecycle → Comp LState A) (s : LState) : (self ≫= k) s = k s.2 s.
Proof. done. Qed.

(** ** Firing events *)

Lemma fire_step w l st t d :
  rep (l_StateMachine l) workflowEvents st → wf_step st t d →
  ∃ m, fireEvent t (w, l) = ((w, set_l_StateMachine m l), inr None) ∧ rep m workflowEvents d.
Proof.
  intros Hrep Hs. pose proof (wf_step_ne _ _ _ Hs). apply wf_step_dsts in Hs.
  destruct (rep_event _ _ _ _ _ Hrep Hs) as (m & Hm & Hr); [done|].
  exists m. unfold fireEvent. simpl. by rewrite Hm.
Qed.

Lemma fire_stuck w l st t :
  rep (l_StateMachine l) workflowEvents st → dsts workflowEvents t st = [] →
  ∃ err, fireEvent t (w, l) = ((w, l), inr (Some err)).
Proof.
  intros Hrep Hd. destruct (rep_event_invalid _ _ _ _ Hrep Hd) as (err & He).
  exists err. unfold fireEvent. simpl. by rewrite He, set_StateMachine_id.
Qed.

Lemma Cannot_stuck l st t :
  rep (l_StateMachine l) workflowEvents st → dsts workflowEvents t st = [] →
  Cannot (l_StateMachine l) t = true.
Proof.
  intros Hrep Hd. unfold Cannot. destruct (Can (l_StateMachine l) t) eqn:Hc; [|done].
  apply (rep_can _ _ _ _ Hrep) in Hc. done.
Qed.

(** ** The stored state *)

(** Every stored row of workflow [id] is in state [st]. *)
Definition persisted w (id : uuid) (st : string) : Prop :=
  ∀ row, row ∈ db_workflows (w_db w) → wf_ID row = id → wf_State row = st.

Lemma before_save_ID now wf : wf_ID (Workflow_BeforeSave now wf) = wf_ID wf.
Proof. unfold Workflow_BeforeSave. by destruct (wf_ExpiryDate wf). Qed.
Lemma before_save_State now wf : wf_State (Workflow_BeforeSave now wf) = wf_State wf.
Proof. unfold Workflow_BeforeSave. by destruct (wf_ExpiryDate wf). Qed.

Lemma Patch_Workflow_persisted wf w w' b :
  wf_State wf ≠ "" → Patch wf [] w = (w', inr b) → persisted w' (wf_ID wf) (wf_State wf).
Proof.
  intros Hne (x' & [= <-] & Hdb & _)%Patch_ok. intros row. rewrite Hdb.
  simpl. unfold patched. rewrite list_elem_of_fmap. intros (old & -> & _).
  simpl. rewrite before_save_ID. destruct (N.eqb_spec (wf_ID wf) (wf_ID old)); [|done].
  intros _. simpl. rewrite before_save_State. unfold nz_string.
  by apply String.eqb_neq in Hne as ->.
Qed.

Lemma saveState_ok w l s' st :
  rep (l_StateMachine l) workflowEvents st → st ≠ "" →
  saveState (w, l) = (s', inr tt) →
  s'.2 = set_l_Workflow (set_wf_State st (l_Workflow l)) l ∧ in_sync s'.2 ∧
  persisted s'.1 (wf_ID (l_Workflow l)) st.
Proof.
  intros Hrep Hne. pose proof (rep_current _ _ _ Hrep) as Hc.
  unfold saveState, update, self. intros Hrun. inv_M. simpl in *.
  unfold onWorld, zoom in *. simpl in *.
  destruct (Patch _ _ w) as [w1 [e|b]] eqn:Hp; inv_M; simpl in *.
  split_and!; [done|done|]. refine (Patch_Workflow_persisted (set_wf_State _ (l_Workflow l)) _ _ _ _ Hp). exact Hne.
Qed.

(** ** Executing the action *)

(** The action depends on the workflow object only, not on the machine. *)
Definition exec_result (ctx : Ctx) w (wf : Workflow) : World * (error + unit) :=
  let '(s, r) := executeWorkflowAction ctx (w, NewLifecycle wf "" 0) in (s.1, r).

Definition frames {A} (m : Comp LState A) : Prop :=
  ∀ w l l', l_Workflow l = l_Workflow l' →
    ∃ w' r, m (w, l) = ((w', l), r) ∧ m (w, l') = ((w', l'), r).

Lemma execution_frames {A} (m : Comp World A) : frames (execution m).
Proof.
  intros w l l' _. unfold execution, map_err, onWorld, zoom. simpl.
  destruct (m w) as [w1 [e|a]]; eauto.
Qed.
Lemma fail_frames {A} e : frames (fail e : Comp LState A).
Proof. intros w l l' _. eauto. Qed.
Lemma frames_bind {A B} (m : Comp LState A) (k : A → Comp LState B) :
  frames m → (∀ a, frames (k a)) → frames (m ≫= k).
Proof.
  intros Hm Hk w l l' Hwf. destruct (Hm w l l' Hwf) as (w1 & [e|a] & H1 & H2).
  - exists w1, (inl e). unfold mbind, M_bind. by rewrite H1, H2.
  - destruct (Hk a w1 l l' Hwf) as (w2 & r & H3 & H4). exists w2, r.
    unfold mbind, M_bind. by rewrite H1, H2.
Qed.
(** A method that first looks at its workflow object. *)
Lemma frames_self {A} (k : Lifecycle → Comp LState A) :
  (∀ l, frames (k l)) → (∀ l l', l_Workflow l = l_Workflow l' → k l = k l') →
  frames (self ≫= k).
Proof.
  intros Hk Heq w l l' Hwf. destruct (Hk l w l l' Hwf) as (w1 & r & H1 & H2).
  exists w1, r. unfold mbind, M_bind, self, gets. simpl.
  by rewrite <-(Heq l l' Hwf).
Qed.
Lemma parse_frames (p : string) :
  frames (map_err (wrapping ErrWorkflowExecution) (lift (uuid_Parse p) : Comp LState uuid)).
Proof. intros w l l' _. unfold map_err, lift. destruct (uuid_Parse p); eauto. Qed.

Ltac solve_frames :=
  repeat first
    [ apply frames_self; [intros ?|intros ?? Hwf; by rewrite Hwf]
    | apply execution_frames | apply fail_frames | apply parse_frames
    | apply frames_bind; [|intros ?] | case_match ].

Lemma updateKeyState_frames ctx : frames (updateKeyState ctx).
Proof. unfold updateKeyState. solve_frames. Qed.
Lemma deleteKey_frames ctx : frames (deleteKey ctx).
Proof. unfold deleteKey. solve_frames. Qed.
Lemma deleteKeyConfiguration_frames ctx : frames (deleteKeyConfiguration ctx).
Proof. unfold deleteKeyConfiguration. solve_frames. Qed.
Lemma updatePrimaryKey_frames ctx : frames (updatePrimaryKey ctx).
Proof. unfold updatePrimaryKey. solve_frames. Qed.
Lemma systemLinkOrSwitch_frames ctx : frames (systemLinkOrSwitch ctx).
Proof. unfold systemLinkOrSwitch. solve_frames. Qed.
Lemma systemUnlink_frames ctx : frames (systemUnlink ctx).
Proof. unfold systemUnlink. solve_frames. Qed.

Lemma executeWorkflowAction_frames ctx : frames (executeWorkflowAction ctx).
Proof.
  unfold executeWorkflowAction. apply frames_self; [|by intros l l' ->]. intros l.
  destruct (assoc _ (handlers ctx)) as [hs|] eqn:Hh; [|apply fail_frames].
  destruct (assoc _ hs) as [h|] eqn:Ha; [|apply fail_frames].
  apply assoc_elem in Hh, Ha. unfold handlers in Hh.
  repeat (apply elem_of_cons in Hh as [[= _ ->]|Hh];
    [repeat (apply elem_of_cons in Ha as [[= _ ->]|Ha];
       [first [apply updateKeyState_frames | apply deleteKey_frames
              | apply deleteKeyConfiguration_frames | apply updatePrimaryKey_frames
              | apply systemLinkOrSwitch_frames | apply systemUnlink_frames]|]);
     by apply not_elem_of_nil in Ha|]).
  by apply not_elem_of_nil in Hh.
Qed.

Lemma executeWorkflowAction_eval ctx w l w' r :
  exec_result ctx w (l_Workflow l) = (w', r) → executeWorkflowAction ctx (w, l) = ((w', l), r).
Proof.
  unfold exec_result. intros Hr.
  destruct (executeWorkflowAction_frames ctx w l (NewLifecycle (l_Workflow l) "" 0) eq_refl)
    as (w1 & r1 & H1 & H2).
  rewrite H2 in Hr. simpl in Hr. by simplify_eq.
Qed.

(** The workflow object after its action ran. *)
Definition executed (r : error + unit) (wf : Workflow) : Workflow :=
  match r with
  | inr _ => set_wf_State WorkflowStateSuccessful wf
  | inl e => set_wf_State WorkflowStateFailed (set_wf_FailureReason (Error e) wf)
  end.

Lemma transitionExecute_spec ctx w l w1 r :
  rep (l_StateMachine l) workflowEvents WorkflowStateExecuting →
  exec_result ctx w (l_Workflow l) = (w1, r) →
  ∃ m, transitionExecute ctx (w, l) =
    ((w1, set_l_StateMachine m
            (match r with
             | inl e => set_l_Workflow (set_wf_FailureReason (Error e) (l_Workflow l)) l
             | inr _ => l end)), inr tt) ∧
    rep m workflowEvents (wf_State (executed r (l_Workflow l))).
Proof.
  intros Hrep Hr. unfold transitionExecute, mbind, M_bind, attempt.
  rewrite (executeWorkflowAction_eval _ _ _ _ _ Hr). destruct r as [e|[]]; simpl.
  - set (l1 := set_l_Workflow _ l).
    assert (rep (l_StateMachine l1) workflowEvents WorkflowStateExecuting) as Hrep1 by done.
    destruct (fire_step w1 l1 _ _ _ Hrep1 step_fail) as (m & Hm & Hrm).
    exists m. by rewrite Hm.
  - destruct (fire_step w1 l _ _ _ Hrep step_execute) as (m & Hm & Hrm).
    exists m. by rewrite Hm.
Qed.

(** ** Applying a transition *)

(** What a transition that is let through does. *)
Definition applied (ctx : Ctx) (t : string) : Comp LState unit :=
  transitionErr ← fireEvent t;
  match transitionErr with
  | Some err => fail (Wrap (NewTransitionError t) (Some err))
  | None =>
      l ← self;
      _ ← (if Current (l_StateMachine l) ==s WorkflowStateExecuting
           then transitionExecute ctx else mret tt);
      saveState
  end.

Lemma ApplyTransition_cases ctx t w l s' r :
  ApplyTransition ctx t (w, l) = (s', r) →
  ∃ w1, w_db w1 = w_db w ∧
    ((∃ e, transitionPrecheck t (w, l) = ((w1, l), inl e) ∧ s' = (w1, l) ∧ r = inl e) ∨
     (transitionPrecheck t (w, l) = ((w1, l), inr true) ∧ s' = (w1, l) ∧ r = inr tt) ∨
     (transitionPrecheck t (w, l) = ((w1, l), inr false) ∧ applied ctx t (w1, l) = (s', r))).
Proof.
  intros Hrun. destruct (transitionPrecheck t (w, l)) as [s1 r1] eqn:Hpre.
  destruct (reads_inv _ _ _ _ _ (transitionPrecheck_reads t) Hpre) as (w1 & -> & Hdb).
  exists w1. split; [done|]. unfold ApplyTransition, mbind at 1, M_bind at 1 in Hrun.
  rewrite Hpre in Hrun. destruct r1 as [e|[]].
  - left. eauto. naive_solver.
  - right; left. by injection Hrun as <- <-.
  - by right; right.
Qed.

Lemma applied_stuck ctx t w l st :
  rep (l_StateMachine l) workflowEvents st → dsts workflowEvents t st = [] →
  ∃ e, applied ctx t (w, l) = ((w, l), inl e).
Proof.
  intros Hrep Hd. destruct (fire_stuck w l st t Hrep Hd) as (err & Hf).
  unfold applied, mbind at 1, M_bind at 1. rewrite Hf. by eexists.
Qed.

(** The transitions that reach the state machine through user input. *)
Lemma precheck_skip t w l s' :
  transitionPrecheck t (w, l) = (s', inr true) → t ∈ [TransitionApprove; TransitionReject].
Proof.
  unfold transitionPrecheck. destruct (String.eqb_spec t TransitionCreate).
  { intros Hrun. inv_M. case_match; inv_M; done. }
  destruct (t ∈? [TransitionApprove; TransitionReject]) eqn:Hm; [by apply mem_elem in Hm|].
  destruct (t ∈? [TransitionExecute; TransitionFail; TransitionExpire]); intros; inv_M; done.
Qed.

Lemma precheck_automated t w l s' r :
  t ∈ [TransitionExecute; TransitionFail; TransitionExpire] →
  transitionPrecheck t (w, l) = (s', r) → ∃ e, r = inl e.
Proof.
  intros Ht. repeat (apply elem_of_cons in Ht as [->|Ht]; [by intros [= <- <-]; eexists|]).
  by apply not_elem_of_nil in Ht.
Qed.

(** C3: [ApplyTransition] refines the workflow graph: when it succeeds, either it
    was a vote that did not yet decide the workflow, and nothing changed, or the
    workflow took one edge of the graph (followed, for a confirmation, by the edge
    to SUCCESSFUL or FAILED), the object, the state machine and the stored row
    agree on the new state, and no automated transition was taken by hand. *)
Theorem ApplyTransition_refines ctx t w l w' l' :
  in_sync l →
  ApplyTransition ctx t (w, l) = ((w', l'), inr tt) →
  (t ∈ [TransitionApprove; TransitionReject] ∧ l' = l ∧ w_db w' = w_db w) ∨
  (∃ s1 s2,
    wf_step (wf_State (l_Workflow l)) t s1 ∧
    t ∉ [TransitionExecute; TransitionFail; TransitionExpire] ∧
    (s1 ≠ WorkflowStateExecuting ∧ s2 = s1 ∨
     s1 = WorkflowStateExecuting ∧
       (wf_step s1 TransitionExecute s2 ∨ wf_step s1 TransitionFail s2)) ∧
    wf_State (l_Workflow l') = s2 ∧ in_sync l' ∧
    wf_ID (l_Workflow l') = wf_ID (l_Workflow l) ∧
    persisted w' (wf_ID (l_Workflow l)) s2).
Proof.
  intros Hsync Hrun.
  destruct (ApplyTransition_cases _ _ _ _ _ _ Hrun) as
    (w1 & Hdb & [(e & _ & _ & [=])|[(Hpre & [= -> ->] & _)|(Hpre & Happ)]]).
  { left. split; [by eapply precheck_skip|done]. }
  right. destruct (dsts_cases (wf_State (l_Workflow l)) t) as [[s1 Hstep]|Hd].
  2:{ destruct (applied_stuck ctx t w1 l _ Hsync Hd) as (e & He). congruence. }
  assert (t ∉ [TransitionExecute; TransitionFail; TransitionExpire]) as Hauto.
  { intros Ht. by destruct (precheck_automated _ _ _ _ _ Ht Hpre). }
  destruct (fire_step w1 l _ _ _ Hsync Hstep) as (m & Hfire & Hrep).
  unfold applied, mbind at 1, M_bind at 1 in Happ. rewrite Hfire in Happ. cbn in Happ.
  rewrite self_bind in Happ. cbn in Happ. rewrite (rep_current _ _ _ Hrep) in Happ.
  unfold mbind at 1, M_bind at 1 in Happ.
  destruct (String.eqb_spec s1 WorkflowStateExecuting) as [Heq|Hne].
  - rewrite Heq in *. clear Heq s1. destruct (exec_result ctx w1 (l_Workflow l)) as [w2 r] eqn:Hex.
    destruct (transitionExecute_spec ctx w1 (set_l_StateMachine m l) w2 r Hrep Hex) as (m2 & Hx & Hr2).
    rewrite Hx in Happ. set (l2 := set_l_StateMachine m2 _) in Happ.
    assert (rep (l_StateMachine l2) workflowEvents (wf_State (executed r (l_Workflow l)))) as Hr2'
      by (by subst l2; destruct r).
    destruct (saveState_ok _ _ _ _ Hr2' ltac:(by destruct r) Happ) as (Hl' & Hs' & Hp').
    simpl in Hl', Hs', Hp'. subst l'.
    exists WorkflowStateExecuting, (wf_State (executed r (l_Workflow l))).
    split_and!; try done; [right; split; [done|]| |..];
      destruct r as [e|[]]; simpl; eauto using wf_step.
  - cbn in Happ.
    destruct (saveState_ok _ (set_l_StateMachine m l) _ _ Hrep (wf_step_nonempty _ _ _ Hstep) Happ) as (Hl' & Hs' & Hp').
    simpl in *. subst l'. exists s1, s1. split_and!; auto.
Qed.

(** C34: terminal states are final: on a workflow that is revoked, rejected,
    expired, successful or failed every transition, by hand or by expiry, is
    refused, and neither the database nor the workflow object changes. *)
Theorem terminal_is_final ctx t w l s' r :
  in_sync l → is_terminal (wf_State (l_Workflow l)) = true →
  (ApplyTransition ctx t (w, l) = (s', r) ∨ Expire (w, l) = (s', r)) →
  (∃ e, r = inl e) ∧ w_db s'.1 = w_db w ∧ s'.2 = l.
Proof.
  intros Hsync Hterm [Hrun|Hrun].
  - destruct (ApplyTransition_cases _ _ _ _ _ _ Hrun) as
      (w1 & Hdb & [(e & _ & -> & ->)|[(Hpre & -> & ->)|(Hpre & Happ)]]); [eauto|exfalso|].
    + apply precheck_skip in Hpre as Ht.
      assert ((t ∈? [TransitionApprove; TransitionReject]) = true) as Hm by (by apply mem_elem).
      unfold transitionPrecheck in Hpre.
      destruct (String.eqb_spec t TransitionCreate) as [->|]; [done|]. rewrite Hm in Hpre.
      apply bind_ok in Hpre as (s1 & b & Hck & _). unfold checkVotingScore, self in Hck.
      apply bind_ok in Hck as (s2 & l2 & [= <- <-] & Hck). simpl in Hck.
      by rewrite (Cannot_stuck _ _ _ Hsync (terminal_stuck _ t Hterm)) in Hck.
    + destruct (applied_stuck ctx t w1 l _ Hsync (terminal_stuck _ t Hterm)) as (e & He).
      rewrite He in Happ. injection Happ as <- <-. eauto.
  - destruct (fire_stuck w l _ TransitionExpire Hsync (terminal_stuck _ _ Hterm)) as (e & He).
    unfold Expire, mbind, M_bind in Hrun. rewrite He in Hrun. injection Hrun as <- <-. eauto.
Qed.


(** ** Authority *)

Lemma Count_positive (p : WorkflowApprover → bool) w w' n :
  Count (where_ p) w = (w', inr n) → (0 < n)%Z →
  ∃ a, a ∈ db_approvers (w_db w) ∧ p a = true.
Proof.
  unfold Count, db_call. intros Hc Hn.
  assert (n = Z.of_nat (length (select p (db_approvers (w_db w))))) as ->.
  { destruct (head (w_faults w)) as [[e|]|]; [done|..]; by injection Hc as _ <-. }
  destruct (select p (db_approvers (w_db w))) as [|a r] eqn:Hs; [simpl in Hn; lia|].
  exists a. rewrite list_elem_of_In. apply filter_In. unfold select in Hs. rewrite Hs. by left.
Qed.

Lemma ValidateActor_ok ctx t w l s' :
  ValidateActor ctx t (w, l) = (s', inr tt) →
  validateActorGroupMembership l t = None ∧
  (t ∈ [TransitionCreate; TransitionRevoke; TransitionConfirm] ∧
     l_ActorID l = wf_InitiatorID (l_Workflow l) ∨
   t ∈ [TransitionApprove; TransitionReject] ∧
     (∃ a, a ∈ db_approvers (w_db w) ∧ wa_WorkflowID a = wf_ID (l_Workflow l) ∧
           (reserved (l_ActorID l) = false → wa_UserID a = l_ActorID l)) ∨
   t ∈ [TransitionExpire; TransitionExecute; TransitionFail]).
Proof.
  unfold ValidateActor. rewrite self_bind. intros Hrun. apply bind_ok in Hrun as (s1 & [] & Hg & Hrun).
  simpl in Hg. unfold lift_err in Hg.
  destruct (validateActorGroupMembership l t) eqn:Hm; [done|]. injection Hg as <-. split; [done|].
  destruct (t ∈? [TransitionCreate; TransitionRevoke; TransitionConfirm]) eqn:H1.
  { left. apply mem_elem in H1. split; [done|]. unfold validateUserIsInitiator in Hrun. simpl in Hrun.
    destruct (String.eqb_spec (l_ActorID l) (wf_InitiatorID (l_Workflow l))); [done|discriminate Hrun]. }
  destruct (t ∈? [TransitionApprove; TransitionReject]) eqn:H2.
  { right; left. apply mem_elem in H2. split; [done|].
    apply bind_ok in Hrun as (s2 & valid & Hv & Hrun). apply map_err_ok in Hv.
    unfold validateUserIsApprover in Hv. rewrite self_bind in Hv.
    apply bind_ok in Hv as (s3 & n & Hc & Hv). apply map_err_ok in Hc.
    unfold onWorld, zoom in Hc. simpl in Hc.
    destruct (comparing _ _ _ w) as [w1 [e|n1]] eqn:Hcount; [done|]. apply comparing_ok in Hcount. injection Hc as <- <-.
    injection Hv as <- <-. destruct (Z.ltb_spec 0 n1) as [Hpos|]; [|done].
    destruct (Count_positive _ _ _ _ Hcount Hpos) as (a & Ha & Hp).
    apply andb_true_iff in Hp as [Hp1%N.eqb_eq Hp2]. eauto using eqField_eq. }
  right; right.
  destruct (String.eqb_spec t TransitionExpire) as [->|]; [by left|].
  destruct (t ∈? [TransitionExecute; TransitionFail]) eqn:H3; [|done].
  apply mem_elem in H3. by right.
Qed.


(** ** Offered transitions *)

Lemma GetAllApprovers_eval w l :
  w_faults w = [] →
  GetAllApprovers (w, l) =
    ((w, l), inr (take 100 (select (byWorkflow (wf_ID (l_Workflow l))) (db_approvers (w_db w))))).
Proof.
  intros Hw. unfold GetAllApprovers. rewrite self_bind. unfold map_err, onWorld, zoom. simpl.
  unfold List_, db_call. rewrite Hw. destruct w; simpl in *. by subst.
Qed.

Lemma ValidateActor_approver ctx t w l a :
  w_faults w = [] → l_ActorApproverGroupIDs l = None →
  t ∈ [TransitionApprove; TransitionReject] →
  a ∈ db_approvers (w_db w) → wa_WorkflowID a = wf_ID (l_Workflow l) → wa_UserID a = l_ActorID l →
  reserved (l_ActorID l) = false →
  ValidateActor ctx t (w, l) = ((w, l), inr tt).
Proof.
  intros Hw Hg Ht Ha Hid Hu Hr.
  assert (∃ n, validateUserIsApprover (w, l) = ((w, l), inr (0 <? Z.of_nat (S n))%Z)) as [n Hv].
  { set (p := λ a, byWorkflow (wf_ID (l_Workflow l)) a && eqField (l_ActorID l) (wa_UserID a)).
    assert (a ∈ select p (db_approvers (w_db w))) as Hin.
    { rewrite list_elem_of_In in *. apply filter_In. split; [done|]. subst p. simpl.
      unfold byWorkflow. by rewrite eqField_plain, Hid, Hu, N.eqb_refl, String.eqb_refl. }
    destruct (select p (db_approvers (w_db w))) as [|b r] eqn:Hs; [by apply not_elem_of_nil in Hin|].
    exists (length r). unfold validateUserIsApprover. rewrite self_bind. cbn [snd].
    rewrite comparing_plain by (unfold forallb; by rewrite Hr).
    unfold mbind, M_bind, map_err, onWorld, zoom. simpl. unfold Count, db_call. rewrite Hw. simpl.
    fold p. rewrite Hs. destruct w; simpl in *. by subst. }
  assert ((t ∈? [TransitionCreate; TransitionRevoke; TransitionConfirm]) = false) as Hn.
  { apply mem_not_elem. intros Hn. set_solver. }
  apply mem_elem in Ht. unfold ValidateActor. rewrite self_bind. cbn [snd].
  unfold validateActorGroupMembership. rewrite Hg, Hn, Ht. cbn [lift_err].
  unfold mbind, M_bind, map_err. cbn. by rewrite Hv.
Qed.

(** Every transition offered to a business user can be taken: the state
    machine allows it in the current state and the actor check accepts it, for an
    actor whose identifier is not a reserved word. *)
Theorem available_transitions_sound ctx w l s' ts t :
  in_sync l → w_faults w = [] → l_ActorApproverGroupIDs l = None → reserved (l_ActorID l) = false →
  AvailableBusinessUserTransitions (w, l) = (s', inr ts) → t ∈ ts →
  CanTransition l t = true ∧ ValidateActor ctx t (w, l) = ((w, l), inr tt).
Proof.
  intros Hsync Hw Hg Hplain Hrun Ht. unfold AvailableBusinessUserTransitions in Hrun.
  rewrite self_bind in Hrun. simpl in Hrun.
  assert (∀ st d, wf_State (l_Workflow l) = st → wf_step st t d → CanTransition l t = true) as Hcan.
  { intros st d <- Hst. apply (rep_can _ _ _ _ Hsync). apply wf_step_dsts in Hst. by rewrite Hst. }
  destruct (Nat.eqb_spec (length (AvailableTransitions (l_StateMachine l))) 0).
  { injection Hrun as _ <-. set_solver. }
  destruct (validateUserIsInitiator l) eqn:Hinit.
  - injection Hrun as _ <-. unfold getInitiatorAvailableActions in Ht.
    assert (∀ t, t ∈ [TransitionRevoke; TransitionConfirm] →
      ValidateActor ctx t (w, l) = ((w, l), inr tt)) as Hval.
    { intros t' Ht'. unfold ValidateActor. rewrite self_bind. simpl.
      unfold validateActorGroupMembership. rewrite Hg, Hinit.
      repeat (apply elem_of_cons in Ht' as [->|Ht']; [done|]). by apply not_elem_of_nil in Ht'. }
    destruct (String.eqb_spec (wf_State (l_Workflow l)) WorkflowStateWaitApproval) as [Hs|].
    + apply list_elem_of_singleton in Ht as ->.
      split; [eapply Hcan; [done|constructor]|apply Hval; set_solver].
    + destruct (String.eqb_spec (wf_State (l_Workflow l)) WorkflowStateWaitConfirmation) as [Hs|];
        [|set_solver].
      split; [|by apply Hval].
      apply elem_of_cons in Ht as [->|Ht%list_elem_of_singleton]; [|subst t];
        (eapply Hcan; [done|constructor]).
  - unfold getApproverAvailableActions in Hrun. rewrite self_bind in Hrun. simpl in Hrun.
    destruct (String.eqb_spec (wf_State (l_Workflow l)) WorkflowStateWaitApproval) as [Hs|];
      simpl in Hrun; [|injection Hrun as _ <-; set_solver].
    unfold mbind, M_bind, attempt in Hrun. rewrite GetAllApprovers_eval in Hrun by done.
    destruct (existsb _ _) eqn:He; injection Hrun as _ <-; [|set_solver].
    apply existsb_exists in He as (a & Ha & Hp).
    apply andb_true_iff in Hp as [Hu%String.eqb_eq _].
    apply list_elem_of_In, elem_of_take in Ha as (i & Ha & _).
    apply list_elem_of_lookup_2, list_elem_of_In, filter_In in Ha as [Ha Hid%N.eqb_eq].
    apply list_elem_of_In in Ha. split; [|by eapply ValidateActor_approver].
    apply elem_of_cons in Ht as [->|Ht%list_elem_of_singleton]; [|subst t];
        (eapply Hcan; [done|constructor]).
Qed.
End Facts.
