(* ===== verification/Users.v ===== *)
(** The user manager: internal/manager/user.go.  It turns the IAM groups of the
    caller into a role and decides which key configurations, keys and systems the
    caller may touch.

    The audit log entry sent on a refusal has no effect on the program's state and
    is left out.  A [(bool, error)] result is an error or the boolean: every caller
    looks at the error first. *)
From S2P Require Import Prelude Errs Json GoContext AuthzPolicies Authz Model Store.

Definition ErrGettingKeyConfigByID :=
  New "manager.ErrGettingKeyConfigByID" "failed to get key configuration by ID".
Definition ErrKeyConfigurationNotAllowed :=
  New "manager.ErrKeyConfigurationNotAllowed" "user has no permission to access key configuration".
Definition ErrKeyConfigurationNotFound :=
  New "manager.ErrKeyConfigurationNotFound" "KeyConfiguration not found".
Definition ErrTenantNotAllowed :=
  New "manager.ErrTenantNotAllowed" "user has no permission to access tenant".
Definition ErrCheckTenantHasIAMGroups :=
  New "manager.ErrCheckTenantHasIAMGroups" "failed to check tenant has IAM groups".
Definition ErrGetGroups := New "manager.ErrGetGroups" "failed to get group from database".
Definition ErrMultipleRolesInGroups :=
  New "manager.ErrMultipleRolesInGroups" "users with multiple roles are not allowed".
Definition ErrZeroRolesInGroups :=
  New "manager.ErrZeroRolesInGroups" "users without any roles are not allowed".
Definition ErrCheckKeyConfigManagedByIAMGroups :=
  New "manager.ErrCheckKeyConfigManagedByIAMGroups" "failed to check key configurations managed by IAM groups".
Definition ErrInternalRoleNotSupported :=
  New "manager.ErrInternalRoleNotSupported" "operation not supported for this internal role".
Definition errInternalBypass := New "manager.errInternalBypass" "internal bypass".

Record BusinessUserInfo := mkBusinessUserInfo {
  ui_Email : string;
  ui_FamilyName : string;
  ui_GivenName : string;
  ui_Identifier : string;
  ui_Role : string }.

Definition emptyUserInfo : BusinessUserInfo := mkBusinessUserInfo "" "" "" "" "".

(** [uuid.NewString()], used for request identifiers only. *)
Class NewString := uuid_NewString : string.

(** A column compared with a slice: SQL [IN]. *)
Definition byIAM (iamIdentifiers : list string) (g : Group) : bool :=
  g_IAMIdentifier g ∈? iamIdentifiers.

Definition ensureBusinessUserOpsAllowed (ctx : Ctx) (bypassRoles : list string) : option error :=
  match CheckInternalUserRoles ctx bypassRoles with
  | None => Some errInternalBypass
  | Some err =>
      if errors_Is err ErrAuthzUnauthorized then Some ErrInternalRoleNotSupported else None
  end.

(** [roleMap]: the distinct roles of the groups. *)
Definition roleMap (groups : list Group) : list string := remove_dups (g_Role <$> groups).

Definition roleBypassesGroupFilter (role resource : string) : bool :=
  if role ==s TenantAuditorRole then true
  else if (role ==s TenantAdminRole) && (resource ==s APIResourceTypeUserGroup) then true
  else (role ==s KeyAdminRole) && (resource ==s APIResourceTypeSystem).

Definition isCreateKeyconfig (keyConfig : KeyConfiguration) (action resource : string) : bool :=
  (action ==s APIActionCreate) && (resource ==s APIResourceTypeKeyConfiguration) &&
  negb (bool_decide (kc_AdminGroup keyConfig = Group_zero)).

(** The rows of the inner join of key configurations with their admin groups. *)
Definition joinAdminGroup (d : DB) : list (KeyConfiguration * Group) :=
  k ← db_keyConfigs d;
  g ← List.filter (λ g, N.eqb (g_ID g) (kc_AdminGroupID k)) (db_groups d);
  [(k, g)].

Definition CountManagedKeyConfigs (id : uuid) (iamIdentifiers : list string) : Comp World Z :=
  db_call (λ _ d, (d, inr (Z.of_nat (length
    (List.filter (λ p, N.eqb (kc_ID p.1) id && byIAM iamIdentifiers p.2) (joinAdminGroup d)))))).

Section Users.
Context {NS : NewString}.

Definition GetRoleFromIAM (ctx : Ctx) (iamIdentifiers : list string) : Comp World string :=
  _ ← lift (BusinessToInternalContext uuid_NewString ctx InternalBusinessAuthzRole);
  groups ← map_err (wrapping ErrGetGroups) (List_ (where_ (byIAM iamIdentifiers)));
  if (length groups =? 0)%nat then mret ""
  else
    if (1 <? length (roleMap groups))%nat then fail ErrMultipleRolesInGroups
    else
      match roleMap groups with
      | k :: _ => mret k
      | [] => fail ErrZeroRolesInGroups
      end.

Definition NeedsGroupFiltering (ctx : Ctx) (action resource : string) : Comp World bool :=
  match ensureBusinessUserOpsAllowed ctx
          [InternalTaskWorkflowApproversRole; InternalTaskWorkflowExpirationRole;
           InternalTenantProvisioningRole] with
  | Some err => if errors_Is err errInternalBypass then mret false else fail err
  | None =>
      iamIdentifiers ← lift (ExtractBusinessUserDataGroupsString ctx);
      role ← GetRoleFromIAM ctx iamIdentifiers;
      if (action ==s APIActionRead) && roleBypassesGroupFilter role resource
      then mret false else mret true
  end.

(** Whether a key configuration is managed by the caller's IAM groups. *)
Definition hasKeyConfigAccess (ctx : Ctx) (keyConfig : KeyConfiguration) (action resource : string) :
    Comp World bool :=
  iamIdentifiers ← lift (ExtractBusinessUserDataGroupsString ctx);
  role ← GetRoleFromIAM ctx iamIdentifiers;
  if (role ==s TenantAuditorRole) && (action ==s APIActionRead) then mret true
  else if (length iamIdentifiers =? 0)%nat then fail ErrKeyConfigurationNotAllowed
  else if isCreateKeyconfig keyConfig action resource
  then mret (g_IAMIdentifier (kc_AdminGroup keyConfig) ∈? iamIdentifiers)
  else
    _ ← lift (BusinessToInternalContext uuid_NewString ctx InternalBusinessAuthzRole);
    count ← map_err (wrapping ErrCheckKeyConfigManagedByIAMGroups)
      (CountManagedKeyConfigs (kc_ID keyConfig) iamIdentifiers);
    mret (0 <? count)%Z.

(** The part the three [Has...Access] methods share after the visibility check. *)
Definition authorizeKeyConfig (ctx : Ctx) (keyConfig : KeyConfiguration) (action resource : string)
    (isGroupFiltered : bool) : Comp World bool :=
  isAuthorized ← map_err (wrapping ErrGettingKeyConfigByID)
    (hasKeyConfigAccess ctx keyConfig action resource);
  if negb isAuthorized then fail ErrKeyConfigurationNotAllowed else mret isGroupFiltered.

Definition HasKeyAccess (ctx : Ctx) (action : string) (keyConfigID : uuid) : Comp World bool :=
  match ensureBusinessUserOpsAllowed ctx
          [InternalTaskWorkflowApproversRole; InternalTenantProvisioningRole;
           InternalTaskPendingStateSyncRole] with
  | Some err => if errors_Is err errInternalBypass then mret false else fail err
  | None =>
      isGroupFiltered ← NeedsGroupFiltering ctx action APIResourceTypeKey;
      authorizeKeyConfig ctx (KeyConfiguration_ofID keyConfigID) action APIResourceTypeKey
        isGroupFiltered
  end.

Definition HasKeyConfigAccess (ctx : Ctx) (action : string) (keyConfig : option KeyConfiguration) :
    Comp World bool :=
  match ensureBusinessUserOpsAllowed ctx
          [InternalTaskWorkflowApproversRole; InternalTenantProvisioningRole] with
  | Some err => if errors_Is err errInternalBypass then mret false else fail err
  | None =>
      isGroupFiltered ← NeedsGroupFiltering ctx action APIResourceTypeKeyConfiguration;
      match keyConfig with
      | None =>
          if action ==s APIActionRead then mret isGroupFiltered
          else fail ErrKeyConfigurationNotFound
      | Some keyConfig =>
          authorizeKeyConfig ctx keyConfig action APIResourceTypeKeyConfiguration isGroupFiltered
      end
  end.

Definition HasSystemAccess (ctx : Ctx) (action : string) (system : System) : Comp World bool :=
  match ensureBusinessUserOpsAllowed ctx
          [InternalTaskWorkflowApproversRole; InternalTenantProvisioningRole] with
  | Some err => if errors_Is err errInternalBypass then mret false else fail err
  | None =>
      match s_KeyConfigurationID system with
      | None => mret false
      | Some keyConfigID =>
          isGroupFiltered ← NeedsGroupFiltering ctx action APIResourceTypeSystem;
          authorizeKeyConfig ctx (KeyConfiguration_ofID keyConfigID) action APIResourceTypeSystem
            isGroupFiltered
      end
  end.

Definition GetBusinessUserInfo (ctx : Ctx) : Comp World BusinessUserInfo :=
  match ensureBusinessUserOpsAllowed ctx
          [InternalTaskWorkflowApproversRole; InternalTaskWorkflowExpirationRole;
           InternalTenantProvisioningRole] with
  | Some err => if errors_Is err errInternalBypass then mret emptyUserInfo else fail err
  | None =>
      businessUserData ← lift (ExtractBusinessUserData ctx);
      groups ← lift (ExtractBusinessUserDataGroups ctx);
      role ← GetRoleFromIAM ctx groups;
      mret (mkBusinessUserInfo (Email businessUserData) (FamilyName businessUserData)
              (GivenName businessUserData) (Identifier businessUserData) role)
  end.

Definition HasTenantAccess (ctx : Ctx) : Comp World bool :=
  iamIdentifiers ← map_err (λ _, ErrTenantNotAllowed) (lift (ExtractBusinessUserDataGroups ctx));
  _ ← lift (BusinessToInternalContext uuid_NewString ctx InternalBusinessAuthzRole);
  count ← map_err (wrapping ErrCheckTenantHasIAMGroups) (Count (where_ (byIAM iamIdentifiers)));
  mret (0 <? count)%Z.
End Users.

(** * Facts *)

(** The context of a business user of tenant [t] with data [d]. *)
Definition business_ctx (ctx : Ctx) (t : string) (d : ClientData) : Prop :=
  ctx_userType ctx = Some BusinessUser ∧ ctx_businessUserData ctx = Some d ∧
  ctx_tenant ctx = Some t ∧ t ≠ "".

(** Key configuration [id] exists and its admin group is one of [groups]. *)
Definition managed_by (d : DB) (id : uuid) (groups : list string) : Prop :=
  ∃ k g, k ∈ db_keyConfigs d ∧ kc_ID k = id ∧ g ∈ db_groups d ∧
         g_ID g = kc_AdminGroupID k ∧ g_IAMIdentifier g ∈ groups.

(** All groups of the database that the caller is in have the same role. *)
Definition single_role (d : DB) (groups : list string) : Prop :=
  ∀ g g', g ∈ db_groups d → g' ∈ db_groups d → g_IAMIdentifier g ∈ groups →
          g_IAMIdentifier g' ∈ groups → g_Role g = g_Role g'.

Lemma elem_of_joinAdminGroup d k g :
  (k, g) ∈ joinAdminGroup d ↔ k ∈ db_keyConfigs d ∧ g ∈ db_groups d ∧ g_ID g = kc_AdminGroupID k.
Proof.
  unfold joinAdminGroup. rewrite list_elem_of_bind. split.
  - intros (k' & Hin & Hk). apply list_elem_of_bind in Hin as (g' & Hg & Hin).
    apply list_elem_of_singleton in Hg as [= -> ->].
    apply list_elem_of_In, filter_In in Hin as [Hin%list_elem_of_In Heq%N.eqb_eq]. done.
  - intros (Hk & Hg & Heq). exists k. split; [|done]. apply list_elem_of_bind. exists g.
    split; [by apply list_elem_of_singleton|]. apply list_elem_of_In, filter_In.
    by rewrite <-list_elem_of_In, Heq, N.eqb_refl.
Qed.

Lemma managed_filter d id groups :
  (0 <? Z.of_nat (length (List.filter (λ p, N.eqb (kc_ID p.1) id && byIAM groups p.2)
                            (joinAdminGroup d))))%Z = true ↔ managed_by d id groups.
Proof.
  rewrite filter_nonempty. unfold managed_by, byIAM. split.
  - intros ([k g] & Hin%elem_of_joinAdminGroup & Hp). simpl in Hp.
    apply andb_true_iff in Hp as [Hk%N.eqb_eq Hg%mem_elem]. naive_solver.
  - intros (k & g & Hk & Hid & Hg & Heq & Hm). exists (k, g). split.
    + by apply elem_of_joinAdminGroup.
    + simpl. rewrite Hid, N.eqb_refl. by apply mem_elem.
Qed.

Section UserFacts.
Context {NS : NewString}.
Implicit Types (ctx : Ctx) (w : World).

(** The visibility checks only read: a relation kept by every read is kept. *)
Section Reading.
Context (R : World → World → Prop) `{!PreOrder R}.
Context (Hlist : ∀ q : Query Group, preserves R (List_ q)).

Lemma GetRoleFromIAM_reads ctx ids : preserves R (GetRoleFromIAM ctx ids).
Proof using Hlist PreOrder0.
  unfold GetRoleFromIAM. apply preserves_bind; [apply _|apply preserves_lift, _|intros _].
  apply preserves_bind; [apply _|apply preserves_map_err, Hlist|intros gs].
  repeat case_match; first [apply preserves_ret, _|apply preserves_fail, _].
Qed.

Lemma NeedsGroupFiltering_reads ctx a r : preserves R (NeedsGroupFiltering ctx a r).
Proof using Hlist PreOrder0.
  unfold NeedsGroupFiltering. case_match;
    [case_match; first [apply preserves_ret, _|apply preserves_fail, _]|].
  apply preserves_bind; [apply _|apply preserves_lift, _|intros ids].
  apply preserves_bind; [apply _|apply GetRoleFromIAM_reads|intros role].
  case_match; apply preserves_ret, _.
Qed.
End Reading.

Lemma GetRoleFromIAM_same_db ctx ids : preserves same_db (GetRoleFromIAM ctx ids).
Proof. apply GetRoleFromIAM_reads; [apply _|apply List_same_db]. Qed.
Lemma NeedsGroupFiltering_same_db ctx a r : preserves same_db (NeedsGroupFiltering ctx a r).
Proof. apply NeedsGroupFiltering_reads; [apply _|apply List_same_db]. Qed.
Lemma NeedsGroupFiltering_faults ctx a r : preserves fewer_faults (NeedsGroupFiltering ctx a r).
Proof. apply NeedsGroupFiltering_reads; [apply _|intros q; apply db_call_faults]. Qed.

Lemma business_ops ctx t d roles :
  business_ctx ctx t d → ensureBusinessUserOpsAllowed ctx roles = None.
Proof.
  intros (Hu & _ & _ & _). unfold ensureBusinessUserOpsAllowed, CheckInternalUserRoles,
    ExtractInternalRole, ExtractUserType. by rewrite Hu.
Qed.

Lemma business_to_internal ctx t d role :
  business_ctx ctx t d → ∃ c, BusinessToInternalContext uuid_NewString ctx role = inr c.
Proof.
  intros (Hu & _ & Ht & Hne). unfold BusinessToInternalContext. rewrite Hu. simpl.
  rewrite (proj2 (ExtractTenantID_ok ctx t) (conj Ht Hne)). simpl.
  destruct (GetRequestID ctx); eauto.
Qed.

Lemma roleMap_single d ids (gs : list Group) :
  single_role d ids → (∀ g, g ∈ gs → g ∈ db_groups d ∧ g_IAMIdentifier g ∈ ids) →
  length (roleMap gs) ≤ 1.
Proof.
  intros Hs Hgs. unfold roleMap.
  destruct (remove_dups (g_Role <$> gs)) as [|a [|b r]] eqn:Hr; simpl; [lia..|].
  pose proof (NoDup_remove_dups (g_Role <$> gs)) as Hnd. rewrite Hr in Hnd.
  assert (∀ x, x ∈ a :: b :: r → ∃ g, g ∈ gs ∧ g_Role g = x) as Hin.
  { intros x. rewrite <-Hr, elem_of_remove_dups, list_elem_of_fmap. naive_solver. }
  destruct (Hin a) as (ga & Hga & <-); [set_solver|].
  destruct (Hin b) as (gb & Hgb & <-); [set_solver|].
  destruct (Hgs _ Hga), (Hgs _ Hgb). apply NoDup_cons in Hnd as [Hn _]. destruct Hn.
  rewrite (Hs ga gb) by done. set_solver.
Qed.

Lemma elem_of_page (q : Group → bool) (d : DB) g :
  g ∈ applyPagination (where_ q) (select q (db_groups d)) → g ∈ db_groups d ∧ q g = true.
Proof.
  unfold applyPagination. intros (i & Hi & _)%elem_of_take.
  rewrite lookup_drop in Hi. apply list_elem_of_lookup_2, list_elem_of_In, filter_In in Hi.
  by rewrite list_elem_of_In.
Qed.

Lemma GetRoleFromIAM_eval ctx t d w ids :
  business_ctx ctx t d → w_faults w = [] → single_role (w_db w) ids →
  ∃ role, GetRoleFromIAM ctx ids w = (w, inr role).
Proof.
  intros Hb Hw Hs. destruct (business_to_internal _ _ _ InternalBusinessAuthzRole Hb) as (c & Hc).
  unfold GetRoleFromIAM, mbind, M_bind, lift, map_err. rewrite Hc. unfold List_.
  rewrite (db_call_read_eval
    (λ d, applyPagination (where_ (byIAM ids)) (select (q_where (where_ (byIAM ids))) (rows d)))) by done.
  set (gs := applyPagination _ _). destruct (Nat.eqb_spec (length gs) 0) as [|Hne]; [by eexists|].
  assert (length (roleMap gs) ≤ 1) as Hl.
  { apply (roleMap_single (w_db w) ids); [done|]. intros g Hg. apply elem_of_page in Hg as [? Hm].
    split; [done|]. by apply mem_elem. }
  destruct (Nat.ltb_spec 1 (length (roleMap gs))); [lia|].
  destruct (roleMap gs) as [|k r] eqn:Hr; [|by eexists].
  exfalso. destruct gs as [|g gs']; [done|].
  assert (g_Role g ∈ roleMap (g :: gs')) as Hin
    by (unfold roleMap; rewrite elem_of_remove_dups; set_solver).
  rewrite Hr in Hin. set_solver.
Qed.

Lemma NeedsGroupFiltering_write_eval ctx t d w a r :
  business_ctx ctx t d → w_faults w = [] → single_role (w_db w) (ClientGroups d) →
  a ≠ APIActionRead → NeedsGroupFiltering ctx a r w = (w, inr true).
Proof.
  intros Hb Hw Hs Ha. unfold NeedsGroupFiltering. rewrite (business_ops _ _ _ _ Hb).
  pose proof Hb as (_ & Hd & _). unfold ExtractBusinessUserDataGroupsString, ExtractBusinessUserData.
  rewrite Hd. unfold mbind, M_bind, lift.
  destruct (GetRoleFromIAM_eval _ _ _ w (ClientGroups d) Hb Hw Hs) as (role & ->).
  by apply String.eqb_neq in Ha as ->.
Qed.

Lemma hasKeyConfigAccess_write_eval ctx t d w id a r :
  business_ctx ctx t d → w_faults w = [] → single_role (w_db w) (ClientGroups d) →
  ClientGroups d ≠ [] → a ≠ APIActionRead → (a ==s APIActionCreate) = false →
  ∃ b, hasKeyConfigAccess ctx (KeyConfiguration_ofID id) a r w = (w, inr b) ∧
       (b = true ↔ managed_by (w_db w) id (ClientGroups d)).
Proof.
  intros Hb Hw Hs Hne Ha Hc. unfold hasKeyConfigAccess.
  pose proof Hb as (_ & Hd & _). unfold ExtractBusinessUserDataGroupsString, ExtractBusinessUserData.
  rewrite Hd. unfold mbind, M_bind, lift.
  destruct (GetRoleFromIAM_eval _ _ _ w (ClientGroups d) Hb Hw Hs) as (role & ->).
  apply String.eqb_neq in Ha as ->. rewrite andb_false_r.
  destruct (ClientGroups d) as [|g0 gs] eqn:Hg; [done|]. rewrite <-Hg. cbn [length].
  replace (length (ClientGroups d) =? 0)%nat with false by (by rewrite Hg).
  unfold isCreateKeyconfig. rewrite Hc. cbn [andb].
  destruct (business_to_internal _ _ _ InternalBusinessAuthzRole Hb) as (c & ->).
  unfold map_err, CountManagedKeyConfigs.
  rewrite (db_call_read_eval (λ d', Z.of_nat (length
    (List.filter (λ p, N.eqb (kc_ID p.1) (kc_ID (KeyConfiguration_ofID id)) &&
       byIAM (ClientGroups d) p.2) (joinAdminGroup d'))))) by done.
  eexists. split; [done|]. apply managed_filter.
Qed.
End UserFacts.

(** Only the admins of a key configuration may change its keys: for a business
    user whose groups have one role, an operation on a key that is neither a read
    nor a creation of a key configuration is accepted exactly when the key's
    configuration exists and its admin group is one of the caller's IAM groups;
    otherwise it fails and nothing is changed. *)
Theorem HasKeyAccess_write_iff `{!NewString} ctx t d w a id :
  business_ctx ctx t d → w_faults w = [] → single_role (w_db w) (ClientGroups d) →
  a ∉ [APIActionRead; APIActionCreate] →
  ((HasKeyAccess ctx a id w).2 = inr true ↔ managed_by (w_db w) id (ClientGroups d)) ∧
  (¬ managed_by (w_db w) id (ClientGroups d) → is_Some (maybe inl (HasKeyAccess ctx a id w).2)) ∧
  w_db (HasKeyAccess ctx a id w).1 = w_db w.
Proof.
  intros Hb Hw Hs Ha. apply not_elem_of_cons in Ha as [Ha1 Ha2%not_elem_of_cons].
  destruct Ha2 as [Ha2%String.eqb_neq _].
  unfold HasKeyAccess. rewrite (business_ops _ _ _ _ Hb). unfold mbind, M_bind.
  rewrite (NeedsGroupFiltering_write_eval _ _ _ _ _ _ Hb Hw Hs Ha1).
  unfold authorizeKeyConfig, mbind, M_bind, map_err.
  destruct (decide (ClientGroups d = [])) as [Hnil|Hne].
  - unfold hasKeyConfigAccess. pose proof Hb as (_ & Hd & _).
    unfold ExtractBusinessUserDataGroupsString, ExtractBusinessUserData.
    rewrite Hd. unfold mbind, M_bind, lift.
    destruct (GetRoleFromIAM_eval _ _ _ w (ClientGroups d) Hb Hw Hs) as (role & ->).
    apply String.eqb_neq in Ha1 as ->. rewrite andb_false_r, Hnil. simpl.
    unfold managed_by. split; [|split; [intros _; eexists; reflexivity|done]].
    split; [intros [=]|]. intros (k & g & _ & _ & _ & _ & Hg). by apply not_elem_of_nil in Hg.
  - destruct (hasKeyConfigAccess_write_eval ctx t d w id a APIResourceTypeKey Hb Hw Hs Hne Ha1 Ha2)
      as (b & -> & Hiff).
    destruct b; simpl; (split; [|split; [intros ?|done]]).
    + split; [intros _; by apply Hiff|done].
    + naive_solver.
    + split; [done|]. intros Hm%Hiff. done.
    + eexists; reflexivity.
Qed.
