(* ===== verification/KeyConfigs.v ===== *)
(** Key configurations and tags: internal/manager/keyconfiguration.go and tag.go,
    with the lookups of internal/repo/repository.go they share with the other
    managers. *)
From S2P Require Import Prelude Errs Json GoContext AuthzPolicies Authz Model Store Batch.
From S2P Require Import Users Events.

Definition ErrNameCannotBeEmpty := New "manager.ErrNameCannotBeEmpty" "name field cannot be empty".
Definition ErrGetTags := New "manager.ErrGetTags" "failed getting tags".
Definition ErrDeletingTags := New "manager.ErrDeletingTags" "failed to delete tags".
Definition ErrCreateKeyConfiguration :=
  New "manager.ErrCreateKeyConfiguration" "failed to create key configuration".
Definition ErrConnectedSystemToKeyConfig :=
  New "manager.ErrConnectedSystemToKeyConfig" "system is connected to keyconfig".
Definition ErrConnectedKeysToKeyConfig :=
  New "manager.ErrConnectedKeysToKeyConfig" "keys are connected to keyconfig".
Definition ErrInvalidKeyAdminGroup :=
  New "manager.ErrInvalidKeyAdminGroup" "invalid keyconfig admin group".
Definition ErrDeleteKeyConfiguration :=
  New "manager.ErrDeleteKeyConfiguration" "failed to delete key configuration".
Definition ErrUpdateKeyConfiguration :=
  New "manager.ErrUpdateKeyConfiguration" "failed to update key configuration".
Definition ErrGettingKeyByID := New "manager.ErrGettingKeyByID" "failed to get key by ID".
Definition ErrKeyIsNotEnabled := New "manager.ErrKeyIsNotEnabled" "key is not enabled".
Definition ErrKeyIsDeleted := New "manager.ErrKeyIsDeleted" "key is deleted".
Definition ErrConnectSystemNoPrimaryKey :=
  New "manager.ErrConnectSystemNoPrimaryKey" "system cannot be connect without an enabled primary key".

(** * internal/repo/repository.go *)

Definition ofKeyConfig (keyConfigID : uuid) (s : System) : bool :=
  bool_decide (s_KeyConfigurationID s = Some keyConfigID).
Definition keyOfKeyConfig (keyConfigID : uuid) (k : Key) : bool := N.eqb (k_KeyConfigurationID k) keyConfigID.

Definition HasConnectedKeys (keyConfigID : uuid) : Comp World bool :=
  count ← Count (where_ (keyOfKeyConfig keyConfigID)); mret (0 <? count)%Z.
Definition HasConnectedSystems (keyConfigID : uuid) : Comp World bool :=
  count ← Count (where_ (ofKeyConfig keyConfigID)); mret (0 <? count)%Z.

(** A configuration that is not found has no primary key. *)
Definition GetKeyConfigPrimaryKey (keyConfigID : uuid) : Comp World (option uuid) :=
  r ← try_ (First (λ k, byID keyConfigID (kc_ID k)));
  match r with
  | inl err => if negb (errors_Is err ErrNotFound) then fail err else mret None
  | inr keyConfig => mret (kc_PrimaryKeyID keyConfig)
  end.

Definition IsPrimaryKey (key : Key) : Comp World bool :=
  pkeyID ← GetKeyConfigPrimaryKey (k_KeyConfigurationID key);
  mret (bool_decide (pkeyID = Some (k_ID key))).

(** * tag.go *)

Definition DeleteTags (itemID : uuid) : Comp World unit :=
  _ ← map_err (wrapping ErrDeletingTags) (Delete (mkTag itemID JNull)); mret tt.

Definition SetTags (itemID : uuid) (values : list string) : Comp World unit :=
  if decide (values = [""]) then DeleteTags itemID
  else Set_ (mkTag itemID (JArray (JString <$> values))).

(** [json.Unmarshal] into a slice of strings; [null] elements stay empty. *)
Definition unexpectedEnd : error := External "unexpected end of JSON input".
Fixpoint decode_strings (l : list JSON) : error + list string :=
  match l with
  | [] => inr []
  | v :: l' =>
      match string_member v id "", decode_strings l' with
      | inl e, _ | _, inl e => inl e
      | inr s, inr r => inr (s :: r)
      end
  end.
Definition unmarshalStrings (v : JSON) : error + list string :=
  match v with
  | JNull => inr []
  | JArray l => decode_strings l
  | _ => inl jsonTypeError
  end.

(** The test [!errors.Is(err, err)] is never true, so after any other failure the
    empty document is read. *)
Definition GetTags (itemID : uuid) : Comp World (list string) :=
  r ← try_ (First (λ t, byID itemID (tag_ID t)));
  match r with
  | inl err => if errors_Is err ErrNotFound then mret [] else fail unexpectedEnd
  | inr tag => lift (unmarshalStrings (tag_Values tag))
  end.

(** * keyconfiguration.go *)

Record KeyConfigFilter := mkKeyConfigFilter {
  kf_Expand : bool;
  kf_Pagination : Pagination }.

Record KeyConfigurationPatch := mkKeyConfigurationPatch {
  kp_Name : option string;
  kp_Description : option string;
  kp_PrimaryKeyID : option uuid }.

(** The columns [getKeyConfigWithTotalsQuery] adds. *)
Definition getKeyConfigWithTotals (d : DB) (k : KeyConfiguration) : KeyConfiguration :=
  mkKeyConfiguration (kc_ID k) (kc_Name k) (kc_Description k) (kc_AdminGroupID k) (kc_AdminGroup k)
    (kc_CreatorID k) (kc_PrimaryKeyID k)
    (Z.of_nat (length (select (keyOfKeyConfig (kc_ID k)) (db_keys d))))
    (Z.of_nat (length (select (ofKeyConfig (kc_ID k)) (db_systems d)))).

(** [Preload("AdminGroup")] *)
Definition adminGroupOf (d : DB) (k : KeyConfiguration) : option Group :=
  head (select (λ g, N.eqb (g_ID g) (kc_AdminGroupID k)) (db_groups d)).
Definition preloadAdminGroup (d : DB) (k : KeyConfiguration) : KeyConfiguration :=
  mkKeyConfiguration (kc_ID k) (kc_Name k) (kc_Description k) (kc_AdminGroupID k)
    (default Group_zero (adminGroupOf d k)) (kc_CreatorID k) (kc_PrimaryKeyID k)
    (kc_TotalKeys k) (kc_TotalSystems k).

(** A row of such a query: the configuration with its totals and its admin group. *)
Record KeyConfigRow := mkKeyConfigRow {
  row_keyConfig : KeyConfiguration;
  row_expanded : KeyConfiguration;
  row_group : option Group }.
#[export] Instance KeyConfigRow_Resource : Resource KeyConfigRow := {
  TableName := "key_configurations";
  rows d := (λ k, let k := getKeyConfigWithTotals d k in
                  mkKeyConfigRow k (preloadAdminGroup d k) (adminGroupOf d k)) <$> db_keyConfigs d;
  set_rows _ d := d;
  same_pk x y := N.eqb (kc_ID (row_keyConfig x)) (kc_ID (row_keyConfig y));
  zero_pk x := N.eqb (kc_ID (row_keyConfig x)) 0;
  unique_clash _ _ := false;
  before_save _ x := inr x;
  before_create _ x := x;
  patch _ _ old := old;
  before_delete _ d := d;
  referenced _ _ := false }.

Section KeyConfigs.
Context {NS : NewString} {O : Orbital} {UP : UUIDParse} {US : UUIDString}.

Definition CanConnectSystems (keyConfig : KeyConfiguration) : Comp World bool :=
  if negb (IsNotNilUUID (kc_PrimaryKeyID keyConfig)) then fail ErrConnectSystemNoPrimaryKey else
  pKey ← map_err (wrapping ErrGettingKeyByID)
    (First (λ k, byID (default 0%N (kc_PrimaryKeyID keyConfig)) (k_ID k)));
  if negb (k_State pKey ==s KeyStateENABLED) then fail ErrConnectSystemNoPrimaryKey else mret true.

(** The rows the caller may see: [None] when there are none, otherwise the added
    condition. *)
Definition KeyConfig_applyIAMGroupFilter (ctx : Ctx) : Comp World (option (KeyConfigRow → bool)) :=
  iamIdentifiers ← lift (ExtractBusinessUserDataGroupsString ctx);
  isGroupFiltered ← HasKeyConfigAccess ctx APIActionRead None;
  if negb isGroupFiltered then mret (Some (λ _, true))
  else if (length iamIdentifiers =? 0)%nat then mret None
  else mret (Some (λ r, match row_group r with Some g => byIAM iamIdentifiers g | None => false end)).

Definition GetKeyConfigurations (ctx : Ctx) (filter : KeyConfigFilter) :
    Comp World (list KeyConfiguration * Z) :=
  visible ← KeyConfig_applyIAMGroupFilter ctx;
  match visible with
  | None => mret ([], 0%Z)
  | Some p =>
      r ← ListAndCount (kf_Pagination filter) (where_ p);
      mret ((if kf_Expand filter then row_expanded else row_keyConfig) <$> r.1, r.2)
  end.

Definition PostKeyConfigurations (ctx : Ctx) (keyConfiguration : KeyConfiguration) :
    Comp World KeyConfiguration :=
  r ← try_ (First (λ g, N.eqb (g_ID g) (kc_AdminGroupID keyConfiguration)));
  match r with
  | inl _ => fail ErrInvalidKeyAdminGroup
  | inr group =>
      let keyConfiguration := set_kc_AdminGroup group keyConfiguration in
      if negb (g_Role group ==s KeyAdminRole) then fail ErrInvalidKeyAdminGroup else
      _ ← HasKeyConfigAccess ctx APIActionCreate (Some keyConfiguration);
      if TrimSpace (kc_Name keyConfiguration) ==s "" then fail ErrNameCannotBeEmpty else
      _ ← map_err (wrapping ErrCreateKeyConfiguration) (Create keyConfiguration);
      mret keyConfiguration
  end.

Definition DeleteKeyConfigurationByID (ctx : Ctx) (keyConfigID : uuid) : Comp World unit :=
  let keyConfig := KeyConfiguration_ofID keyConfigID in
  _ ← HasKeyConfigAccess ctx APIActionDelete (Some keyConfig);
  exist ← HasConnectedSystems keyConfigID;
  if exist : bool then fail (Wrap ErrDeleteKeyConfiguration (Some ErrConnectedSystemToKeyConfig)) else
  exist ← HasConnectedKeys keyConfigID;
  if exist : bool then fail (Wrap ErrDeleteKeyConfiguration (Some ErrConnectedKeysToKeyConfig)) else
  Transaction
    (_ ← map_err (wrapping ErrDeleteKeyConfiguration) (Delete keyConfig);
     DeleteTags (kc_ID keyConfig)).

Definition GetKeyConfigurationByID (ctx : Ctx) (keyConfigID : uuid) : Comp World KeyConfiguration :=
  _ ← HasKeyConfigAccess ctx APIActionRead (Some (KeyConfiguration_ofID keyConfigID));
  r ← map_err (wrapping ErrGettingKeyConfigByID) (First (λ r, byID keyConfigID (kc_ID (row_keyConfig r))));
  mret (row_expanded r).

Definition validateKeyForPrimarySwitch (key : Key) : option error :=
  if (k_State key ==s KeyStateDELETED) || (k_State key ==s KeyStatePENDINGDELETION)
  then Some ErrKeyIsDeleted
  else if negb (k_State key ==s KeyStateENABLED) then Some ErrKeyIsNotEnabled
  else None.
Definition validated (key : Key) : Comp World unit :=
  match validateKeyForPrimarySwitch key with Some err => fail err | None => mret tt end.

Definition withKeyIDTo (newPkey : string) (d : SystemActionJobData) : SystemActionJobData :=
  mkSystemActionJobData (sd_SystemID d) (sd_TenantID d) newPkey (sd_KeyIDFrom d) (sd_Trigger d).
Definition withData (data : JSON) (e : Event) : Event :=
  mkEvent (e_Identifier e) (e_Type e) data (e_Status e) (e_ErrorCode e) (e_ErrorMessage e)
    (e_PreviousItemStatus e).

Definition updateEventKey (newPkey : string) (e : Event) : Comp World unit :=
  systemJobData ← lift (GetSystemJobData e);
  _ ← Patch (withData (SystemActionJobData_Marshal (withKeyIDTo newPkey systemJobData)) e) [];
  mret tt.

Definition updatePrimaryKeySystemEvents (oldPkey newPkey : string) : Comp World unit :=
  FoldInBatch (where_ (λ e, bool_decide (json_text "keyIDTo" (e_Data e) = Some oldPkey))) DefaultLimit
    (λ _ events, for_each (updateEventKey newPkey) events) tt.

Definition handleUpdatePrimaryKey (ctx : Ctx) (keyConfig : KeyConfiguration) (primaryKeyID : uuid) :
    Comp World unit :=
  targetKey ← First (λ k, byID primaryKeyID (k_ID k));
  _ ← validated targetKey;
  match kc_PrimaryKeyID keyConfig with
  | None => mret tt
  | Some oldPrimaryKeyID =>
      sourceKey ← First (λ k, byID oldPrimaryKeyID (k_ID k));
      _ ← validated sourceKey;
      _ ← updatePrimaryKeySystemEvents (uuid_String oldPrimaryKeyID) (uuid_String primaryKeyID);
      FoldInBatch (where_ (ofKeyConfig (kc_ID keyConfig))) DefaultLimit
        (λ _ systems, for_each (λ s,
           _ ← SystemSwitchNewPrimaryKey ctx s (uuid_String primaryKeyID) (uuid_String oldPrimaryKeyID);
           mret tt) systems) tt
  end.

Definition UpdateKeyConfigurationByID (ctx : Ctx) (keyConfigID : uuid)
    (patchKeyConfig : KeyConfigurationPatch) : Comp World KeyConfiguration :=
  _ ← HasKeyConfigAccess ctx APIActionUpdate (Some (KeyConfiguration_ofID keyConfigID));
  keyConfig ← map_err (wrapping ErrGettingKeyConfigByID) (First (λ k, byID keyConfigID (kc_ID k)));
  if match kp_Name patchKeyConfig with Some n => TrimSpace n ==s "" | None => false end
  then fail ErrNameCannotBeEmpty else
  let keyConfig := match kp_Name patchKeyConfig with
                   | Some n => set_kc_Name n keyConfig | None => keyConfig end in
  let keyConfig := match kp_Description patchKeyConfig with
                   | Some t => set_kc_Description t keyConfig | None => keyConfig end in
  Transaction
    (keyConfig ← match kp_PrimaryKeyID patchKeyConfig with
                 | Some primaryKeyID =>
                     _ ← map_err (wrapping ErrUpdateKeyConfiguration)
                       (handleUpdatePrimaryKey ctx keyConfig primaryKeyID);
                     mret (set_kc_PrimaryKeyID (Some primaryKeyID) keyConfig)
                 | None => mret keyConfig
                 end;
     _ ← map_err (wrapping ErrUpdateKeyConfiguration) (Patch keyConfig []);
     mret keyConfig).
End KeyConfigs.
