(* ===== verification/Labels.v ===== *)
(** The labels of a key: internal/manager/key_label.go.

    A label belongs to a key ([l_ResourceID]) and has a name ([l_Key]) and a value. *)
From S2P Require Import Prelude Errs Json Model Store Batch KeyConfigs.

Definition ErrFetchLabel := New "manager.ErrFetchLabel" "failed to fetch label".
Definition ErrUpdateLabelDB := New "manager.ErrUpdateLabelDB" "failed to update label".
Definition ErrInsertLabel := New "manager.ErrInsertLabel" "failed to insert label".
Definition ErrDeleteLabelDB := New "manager.ErrDeleteLabelDB" "failed to delete label".
Definition ErrGetKeyIDDB := New "manager.ErrGetKeyIDDB" "KeyID is required".
Definition ErrEmptyInputLabelDB := New "manager.ErrEmptyInputLabelDB" "invalid input empty label name".

(** The condition on the name and the key of a label. *)
Definition labelQuery (labelName : string) (keyID : uuid) (l : KeyLabel) : bool :=
  eqField labelName (l_Key l) && N.eqb (l_ResourceID l) keyID.

Definition DeleteLabel (keyID : uuid) (labelName : string) : Comp World bool :=
  if labelName ==s "" then fail ErrEmptyInputLabelDB else
  _ ← map_err (wrapping ErrGetKeyIDDB) (First (λ k, byID keyID (k_ID k)));
  map_err (wrapping ErrDeleteLabelDB) 
    (comparing ErrDeleteResource [labelName] (DeleteWhere (labelQuery labelName keyID))).

(** The body of the loop: insert the label, or give the stored one the new value. *)
Definition upsertLabel (keyID : uuid) (label : KeyLabel) : Comp World unit :=
  r ← try_ (comparing ErrGetResource [l_Key label] (First (labelQuery (l_Key label) keyID)));
  match r with
  | inl err =>
      if negb (errors_Is err ErrNotFound) then fail (wrapping ErrFetchLabel err)
      else _ ← map_err (wrapping ErrInsertLabel) (Create label); mret tt
  | inr l =>
      _ ← map_err (wrapping ErrUpdateLabelDB) (Patch (set_l_Value (l_Value label) l) [AllFields]);
      mret tt
  end.

(** The key is looked up by its primary key and by the condition on it. *)
Definition CreateOrUpdateLabel (keyID : uuid) (labels : list KeyLabel) : Comp World unit :=
  _ ← map_err (wrapping ErrGettingKeyByID) (First (λ k, byID keyID (k_ID k) && N.eqb (k_ID k) keyID));
  map_err (wrapping ErrUpdateLabelDB) (Transaction (for_each (upsertLabel keyID) labels)).

Definition GetKeyLabels (keyID : uuid) (pagination : Pagination) : Comp World (list KeyLabel * Z) :=
  _ ← map_err (wrapping ErrGettingKeyByID) (First (λ k, byID keyID (k_ID k)));
  ListAndCount pagination (where_ (λ l, N.eqb (l_ResourceID l) keyID)).

(** * Facts *)

(** The label [name] of key [k], and what a client reads: its value. *)
Definition isLabel (name : string) (k : uuid) (l : KeyLabel) : bool :=
  (l_Key l ==s name) && N.eqb (l_ResourceID l) k.
Definition label_value (d : DB) (k : uuid) (name : string) : option string :=
  l_Value <$> head (select (isLabel name k) (db_labels d)).

#[export] Instance KeyLabel_eq_dec : EqDecision KeyLabel.
Proof. solve_decision. Defined.

Definition labels_ok (d : DB) : Prop := NoDup (l_ID <$> db_labels d).

Lemma select_fmap {A} (p : A → bool) (f : A → A) l :
  (∀ x, x ∈ l → p (f x) = p x) → select p (f <$> l) = f <$> select p l.
Proof.
  unfold select. induction l as [|x l IH]; intros Hp; [done|]. cbn. rewrite (Hp x) by set_solver.
  rewrite IH by set_solver. by destruct (p x).
Qed.

Lemma select_head {A} (p : A → bool) l x : head (select p l) = Some x → x ∈ l ∧ p x = true.
Proof.
  intros H. rewrite list_elem_of_In. apply filter_In. unfold select in H.
  destruct (List.filter p l); [done|]. injection H as ->. by left.
Qed.

(** A row of the table with another value for one of its labels. *)
Lemma put_value_ok d l v :
  labels_ok d → l ∈ db_labels d →
  patched (set_l_Value v l) [AllFields] (db_labels d) =
    (λ y, if bool_decide (y = l) then set_l_Value v l else y) <$> db_labels d.
Proof.
  intros Hd Hl. apply list_fmap_ext. intros i y Hy%list_elem_of_lookup_2. cbn.
  destruct (N.eqb_spec (l_ID l) (l_ID y)) as [He|He].
  - rewrite (NoDup_key _ _ _ _ Hd Hl Hy He). by rewrite bool_decide_true.
  - rewrite bool_decide_false; [done|]. by intros ->.
Qed.

(** The query finds the label, unless its name means something else to it. *)
Lemma findLabel_plain name k w :
  reserved name = false →
  comparing ErrGetResource [name] (First (labelQuery name k)) w = First (isLabel name k) w.
Proof.
  intros Hn. rewrite comparing_plain by (unfold forallb; by rewrite Hn). apply First_ext.
  intros l. unfold labelQuery, isLabel. by rewrite eqField_plain.
Qed.

Definition put_label (d d' : DB) (label : KeyLabel) : Prop :=
  labels_ok d' ∧ ∀ k n, label_value d' k n =
    if isLabel n k label then Some (l_Value label) else label_value d k n.

Lemma insert_label d label :
  labels_ok d → existsb (same_pk label) (db_labels d) = false →
  (∀ l, l ∈ db_labels d → isLabel (l_Key label) (l_ResourceID label) l = false) →
  put_label d (set_labels (db_labels d ++ [label]) d) label.
Proof.
  intros Hd Hpk Hno. split.
  - unfold labels_ok. cbn. rewrite fmap_app. apply NoDup_app. split_and!; [done| |by apply NoDup_singleton].
    intros i (l & -> & Hl)%list_elem_of_fmap Hi%list_elem_of_singleton.
    assert (existsb (same_pk label) (db_labels d) = true) as Ht; [|congruence].
    apply existsb_exists. exists l. split; [by apply list_elem_of_In|]. cbn. by rewrite Hi, N.eqb_refl.
  - intros k n. unfold label_value, select. cbn. rewrite List.filter_app. cbn.
    destruct (isLabel n k label) eqn:Hn; [|by rewrite app_nil_r].
    destruct (List.filter (isLabel n k) (db_labels d)) as [|l ls] eqn:Hf; [done|].
    assert (In l (List.filter (isLabel n k) (db_labels d))) as [Hl Hm]%filter_In by (rewrite Hf; by left).
    unfold isLabel in Hn. apply andb_true_iff in Hn as [<-%String.eqb_eq <-%N.eqb_eq].
    rewrite Hno in Hm; [done|by apply list_elem_of_In].
Qed.

Lemma update_label d label l :
  labels_ok d → head (select (isLabel (l_Key label) (l_ResourceID label)) (db_labels d)) = Some l →
  put_label d (set_labels (patched (set_l_Value (l_Value label) l) [AllFields] (db_labels d)) d) label.
Proof.
  intros Hd Hh. destruct (select_head _ _ _ Hh) as [Hl Hm]. rewrite put_value_ok by done. split.
  - unfold labels_ok. cbn. rewrite <-list_fmap_compose.
    replace (_ <$> db_labels d) with (l_ID <$> db_labels d); [done|]. apply list_fmap_ext.
    intros i y _. unfold compose. case_bool_decide; by subst.
  - intros k n. unfold label_value. cbn. rewrite select_fmap.
    2:{ intros y _. case_bool_decide; by subst. }
    destruct (isLabel n k label) eqn:Hn.
    + unfold isLabel in Hn. apply andb_true_iff in Hn as [<-%String.eqb_eq <-%N.eqb_eq].
      destruct (select _ _) as [|y ys]; [done|]. injection Hh as ->. cbn. by rewrite bool_decide_true.
    + destruct (select (isLabel n k) (db_labels d)) as [|y ys] eqn:Hs; [done|]. cbn.
      case_bool_decide as Hy; [|done]. subst y.
      destruct (select_head (isLabel n k) (db_labels d) l) as [_ Hk]; [by rewrite Hs|].
      unfold isLabel in Hk, Hm, Hn.
      apply andb_true_iff in Hk as [Hk1%String.eqb_eq Hk2%N.eqb_eq].
      apply andb_true_iff in Hm as [Hm1%String.eqb_eq Hm2%N.eqb_eq].
      by rewrite <-Hm1, <-Hm2, Hk1, Hk2, String.eqb_refl, N.eqb_refl in Hn.
Qed.

Lemma upsertLabel_ok keyID label w w' :
  labels_ok (w_db w) → honest_faults w → l_ResourceID label = keyID ∧ reserved (l_Key label) = false →
  upsertLabel keyID label w = (w', inr tt) →
  put_label (w_db w) (w_db w') label ∧ honest_faults w' ∧ w_db w' = set_labels (db_labels (w_db w')) (w_db w).
Proof.
  intros Hd Hf [<- Hn]. unfold upsertLabel. intros (w1 & r & Hr%try_ok & H)%bind_ok.
  rewrite findLabel_plain in Hr by done.
  pose proof (First_db _ _ _ _ Hr) as Hdb.
  pose proof (run_honest _ _ _ _ (First_faults _) Hr Hf) as Hf1.
  destruct r as [err|l].
  - destruct (errors_Is err ErrNotFound) eqn:He; [|done]. cbn [negb] in H.
    pose proof (First_missing _ _ _ _ Hf Hr He) as Hno.
    apply bind_ok in H as (w2 & y & Hc%map_err_ok & [= <-]).
    pose proof (run_honest _ _ _ _ (db_call_faults _) Hc Hf1) as Hf2.
    destruct (Create_ok _ _ _ _ Hc) as (x' & [= <-] & -> & Hpk & Hdb'). cbn in Hpk, Hdb'.
    rewrite Hdb in *. rewrite Hdb'. split_and!; [by apply insert_label|done|done].
  - apply bind_ok in H as (w2 & y & Hp & [= <-]). apply map_err_ok in Hp.
    pose proof (run_honest _ _ _ _ (preserves_map_err _ _ _ (db_call_faults _)) Hp Hf1) as Hf2.
    destruct (Patch_ok _ _ _ _ _ Hp) as (x' & [= <-] & Hdb' & _). rewrite Hdb in *. rewrite Hdb'.
    split_and!; [by apply update_label, (First_head _ _ _ _ Hr)|done|done].
Qed.

Lemma upsertLabels_ok keyID labels w w' :
  labels_ok (w_db w) → honest_faults w → Forall (λ l, l_ResourceID l = keyID ∧ reserved (l_Key l) = false) labels →
  for_each (upsertLabel keyID) labels w = (w', inr tt) →
  labels_ok (w_db w') ∧ w_db w' = set_labels (db_labels (w_db w')) (w_db w) ∧
  ∀ k n, label_value (w_db w') k n =
    foldl (λ v l, if isLabel n k l then Some (l_Value l) else v) (label_value (w_db w) k n) labels.
Proof.
  revert w. induction labels as [|label labels IH]; intros w Hd Hf Hall.
  - intros [= <-]. split_and!; [done|by destruct (w_db w)|done].
  - apply Forall_cons in Hall as [Hl Hall]. cbn. intros (w1 & [] & H1 & H)%bind_ok.
    destruct (upsertLabel_ok _ _ _ _ Hd Hf Hl H1) as ((Hd1 & Hv) & Hf1 & Hr).
    destruct (IH w1 Hd1 Hf1 Hall H) as (Hd2 & Hr2 & Hv2). split_and!; [done|by rewrite Hr2, Hr|].
    intros k n. by rewrite Hv2, Hv.
Qed.


(** Deleting the label [not_null] of a key deletes every label the key has. *)
Theorem reserved_label_deletes_all keyID w w' ok :
  keyID ≠ 0%N → DeleteLabel keyID NotNull w = (w', inr ok) →
  select (λ l, N.eqb (l_ResourceID l) keyID) (db_labels (w_db w')) = [] ∧
  ∀ k n, k ≠ keyID → label_value (w_db w') k n = label_value (w_db w) k n.
Proof.
  intros Hk. unfold DeleteLabel. cbn [String.eqb]. intros (w1 & key & H1%map_err_ok & H)%bind_ok.
  apply First_db in H1. apply map_err_ok, comparing_ok, DeleteWhere_ok in H. cbn in H. rewrite H, H1. cbn.
  unfold label_value. cbn. generalize (db_labels (w_db w)). intros ls. unfold select. split.
  - induction ls as [|l ls IH]; [done|]. cbn. destruct (N.eqb_spec (l_ResourceID l) keyID) as [He|He]; cbn; [done|].
    by apply N.eqb_neq in He as ->.
  - intros k n Hne. induction ls as [|l ls IH]; [done|]. cbn.
    destruct (N.eqb_spec (l_ResourceID l) keyID) as [He|He]; cbn.
    + rewrite IH. unfold isLabel at 2. rewrite He. destruct (N.eqb_spec keyID k); [done|]. by rewrite andb_false_r.
    + by destruct (isLabel n k l).
Qed.
