(* ===== verification/RegistryClient.v ===== *)
(** The client of the registry service: internal/clients/registry/systems (client.go,
    mapper.go, enums.go).

    The service itself is outside the repository: a call is answered from the calls
    made before it.  The retry library repeats the function while it fails with
    [Unavailable], at most three times in all; waiting is not modelled. *)
From S2P Require Import Prelude Errs Json Model Store.

(** * gRPC errors *)

(** [status.Error(code, msg)]; [status.Code] looks for the code in the error chain. *)
Definition status_Error (code msg : string) : error := Typed msg (New ("codes." +:+ code) code).
Definition status_Code_is (err : error) (code : string) : bool := Is err ("codes." +:+ code).

Definition ErrClientGettingSystem := New "systems.ErrGettingSystem" "failed to get system".
Definition ErrClientInternalError :=
  New "systems.ErrClientInternalError" "internal error in systems client".
Definition ErrSystemsClientEmptyFilter :=
  New "systems.ErrSystemsClientEmptyFilter" "systems client requires at least one filter criterion".
Definition ErrSystemsClientFailedGettingSystems :=
  New "systems.ErrSystemsClientFailedGettingSystems" "systems client failed to list systems".
Definition ErrSystemsClientFailedUpdatingKeyClaim :=
  New "systems.ErrSystemsClientFailedUpdatingKeyClaim" "systems client failed to update keyclaim".
Definition ErrSystemsServerFailedUpdatingKeyClaim :=
  New "systems.ErrSystemsServerFailedUpdatingKeyClaim" "systems server failed to update systems key claim".
Definition ErrUnsupportSystemType :=
  New "systems.ErrUnsupportSystemType" "unsupported system type ".

(** * Messages *)

Record SystemFilter := mkSystemFilter {
  sf_Region : string;
  sf_ExternalID : string;
  sf_TenantID : string;
  sf_Limit : Z }.

Record ListSystemsRequest := mkListSystemsRequest {
  lr_Filter : SystemFilter;
  lr_Limit : Z;
  lr_PageToken : string }.

Record GrpcSystem := mkGrpcSystem {
  gs_ExternalId : string;
  gs_Region : string;
  gs_Type : string }.

(** The service: its answer to a request after others. *)
Class SystemService := {
  ListSystems : list ListSystemsRequest → ListSystemsRequest → error + list GrpcSystem * string;
  UpdateSystemL1KeyClaim : nat → SystemFilter → bool → error + bool }.

Definition defaultListSystemsLimit : Z := 100.
Definition attempts : nat := 3.

(** [getRetrier]: only an unavailable service is asked again. *)
Definition isUnavailable (err : error) : bool := status_Code_is err "Unavailable".

Section Client.
Context {SS : SystemService}.

(** The requests sent so far, and [grpcSystems], which is declared outside the retried
    function. *)
Definition ClientState : Type := list ListSystemsRequest * list GrpcSystem.

Definition callListSystems (req : ListSystemsRequest) : Comp ClientState (list GrpcSystem * string) :=
  λ s, ((req :: s.1, s.2), ListSystems s.1 req).

(** The loop over pages.  Without a limit only one page is read, so one unit of fuel is
    enough; with a limit the registry decides how many there are. *)
Fixpoint listPages (filter : SystemFilter) (limit : Z) (fuel : nat) (pageToken : string) :
    Comp ClientState unit :=
  match fuel with
  | O => fail (Panic "out of fuel")
  | S fuel =>
      resp ← map_err (λ err,
                if status_Code_is err "Internal" then wrapping ErrClientInternalError err
                else wrapping ErrSystemsClientFailedGettingSystems err)
        (callListSystems (mkListSystemsRequest filter limit pageToken));
      _ ← modify (λ s, (s.1, s.2 ++ resp.1));
      if (resp.2 ==s "") || (sf_Limit filter =? 0)%Z then mret tt
      else listPages filter limit fuel resp.2
  end.

(** enums.go and mapper.go *)
Definition upper (c : Ascii.ascii) : Ascii.ascii :=
  let n := Ascii.nat_of_ascii c in
  if (97 <=? n) && (n <=? 122) then Ascii.ascii_of_nat (n - 32) else c.
Definition toUpper (s : string) : string :=
  String.string_of_list_ascii (upper <$> String.list_ascii_of_string s).

Definition systemTypeStringMap (responseType : string) : error + string :=
  if toUpper responseType ==s "SYSTEM" then inr "SYSTEM"
  else if toUpper responseType ==s "SUBACCOUNT" then inr "SUBACCOUNT"
  else inl ErrUnsupportSystemType.

Definition mapRegistrySystemToCmkSystem (id : uuid) (grpcSystem : GrpcSystem) : error + System :=
  match systemTypeStringMap (gs_Type grpcSystem) with
  | inl err => inl err
  | inr systemType =>
      inr (mkSystem id (gs_ExternalId grpcSystem) (gs_Region grpcSystem) systemType None None None None
             ∅ "" false "" "")
  end.

(** [uuid.New()] gives [newID i] for the i-th system. *)
Fixpoint MapRegistrySystemsToCmkSystems (newID : nat → uuid) (grpcSystems : list GrpcSystem) :
    error + list System :=
  match grpcSystems with
  | [] => inr []
  | g :: gs =>
      match mapRegistrySystemToCmkSystem (newID (length gs)) g with
      | inl err => inl err
      | inr system =>
          match MapRegistrySystemsToCmkSystems newID gs with
          | inl err => inl err
          | inr systems => inr (system :: systems)
          end
      end
  end.

Definition GetSystemsWithFilter (newID : nat → uuid) (maxPages : nat) (filter : SystemFilter) :
    error + list System :=
  if (sf_TenantID filter ==s "") && (sf_ExternalID filter ==s "") && (sf_Region filter ==s "")
  then inl (Wrap ErrSystemsClientFailedGettingSystems (Some ErrSystemsClientEmptyFilter)) else
  let limit := if (sf_Limit filter =? 0)%Z then defaultListSystemsLimit else sf_Limit filter in
  match retry_Do isUnavailable (attempts - 1) (listPages filter limit maxPages "") ([], []) with
  | (_, inl err) => inl (wrapping ErrClientGettingSystem err)
  | ((_, grpcSystems), inr _) =>
      match MapRegistrySystemsToCmkSystems newID grpcSystems with
      | inl err => inl (wrapping ErrClientGettingSystem err)
      | inr systems => inr systems
      end
  end.

(** The state is the number of calls made. *)
Definition ExtendedUpdateSystemL1KeyClaim (filter : SystemFilter) (l1KeyClaim : bool) : error + unit :=
  let call : Comp (nat * bool) unit := λ s,
    match UpdateSystemL1KeyClaim s.1 filter l1KeyClaim with
    | inl err =>
        ((S s.1, s.2),
         inl (if status_Code_is err "Internal" then wrapping ErrClientInternalError err
              else wrapping ErrSystemsClientFailedUpdatingKeyClaim err))
    | inr success => ((S s.1, success), inr tt)
    end in
  match retry_Do isUnavailable (attempts - 1) call (0, false) with
  | (_, inl err) => inl err
  | ((_, success), inr _) =>
      if success then inr tt else inl ErrSystemsServerFailedUpdatingKeyClaim
  end.
End Client.
