(* ===== verification/Systems.v ===== *)
(** The system manager: internal/manager/system.go and systeminformation.go, with the
    enriched listing of internal/repo/repository.go.

    A system is read together with its properties, the names of its key
    configurations and the error of its last event, by one join; it is linked,
    unlinked or recovered by sending an event, which marks it PROCESSING.  The system
    that a method changes through a pointer is returned with its new value. *)
From S2P Require Import Prelude Errs Json GoContext AuthzPolicies Authz Model Store Batch.
From S2P Require Import Users Events JobHandlers KeyConfigs RegistryClient.

Definition ErrQuerySystemList := New "manager.ErrQuerySystemList" "failed to query system list".
Definition ErrGettingSystem := New "manager.ErrGettingSystem" "failed to get system".
Definition ErrCreatingSystem := New "manager.ErrCreatingSystem" "failed to create system".
Definition ErrGettingSystemByID := New "manager.ErrGettingSystemByID" "failed to get system by ID".
Definition ErrUpdateSystem := New "manager.ErrUpdateSystem" "failed to update system".
Definition ErrSystemNotLinked :=
  New "manager.ErrSystemNotLinked" "system is not linked to a key configuration".
Definition ErrUnlinkSystemNoPrimaryKey :=
  New "manager.ErrUnlinkSystemNoPrimaryKey" "failed to unlink system without primary key".
Definition ErrUnsupportedSystemAction :=
  New "manager.ErrUnsupportedSystemAction" "system action not supported".
Definition ErrLinkSystemProcessingOrFailed :=
  New "manager.ErrLinkSystemProcessingOrFailed" "system cannot be linked in PROCESSING/FAILED state".
Definition ErrUnlinkSystemProcessing :=
  New "manager.ErrUnlinkSystemProcessing" "system cannot be unlinked in PROCESSING state".
Definition ErrRetryNonFailedSystem :=
  New "manager.ErrRetryNonFailedSystem" "system can action only be retried on failed state".
Definition ErrIncompatibleQueryField :=
  New "manager.ErrIncompatibleQueryField" "incompatible query field".
Definition ErrUpdatingSystem := New "manager.ErrUpdatingSystem" "error updating system".
Definition ErrNoSystem := New "manager.ErrNoSystem" "no system found".
Definition ErrSystemProperties := New "repo.ErrSystemProperties" "failed getting system properties".

Definition KeyActionSetPrimary : string := "SET_PRIMARY_KEY".
Definition SystemActionDecommission : string := "SYSTEM_DECOMMISSION".
Definition ActionCANCEL : string := "CANCEL".
Definition ActionRETRY : string := "RETRY".

(** * internal/repo/repository.go: systems with their properties *)

(** [model.JoinSystem]: a row per property, or one with an empty key. *)
Record JoinSystem := mkJoinSystem {
  js_System : System;
  js_KeyConfigurationName : option string;
  js_TargetKeyConfigurationName : option string;
  js_ErrorCode : string;
  js_ErrorMessage : string;
  js_Key : string;
  js_Value : string }.

Definition nameOf (d : DB) (keyConfigID : option uuid) : option string :=
  id ← keyConfigID;
  kc_Name <$> find (λ k, N.eqb (kc_ID k) id) (db_keyConfigs d).

Section Join.
Context {US : UUIDString}.

(** The event of a system, joined on the text of its identifier. *)
Definition eventOfSystem (d : DB) (s : System) : option Event :=
  find (λ e, e_Identifier e ==s uuid_String (s_ID s)) (db_events d).

Definition joinSystem (d : DB) (s : System) : list JoinSystem :=
  let row (key value : string) :=
    mkJoinSystem s (nameOf d (s_KeyConfigurationID s)) (nameOf d (s_TargetKeyConfigurationID s))
      (default "" (e_ErrorCode <$> eventOfSystem d s)) (default "" (e_ErrorMessage <$> eventOfSystem d s))
      key value in
  match map_to_list (s_Properties s) with
  | [] => [row "" ""]
  | props => (λ p, row p.1 p.2) <$> props
  end.

(** The joined rows; they are only read. *)
#[export] Instance JoinSystem_Resource : Resource JoinSystem := {
  TableName := "systems";
  rows d := concat (joinSystem d <$> db_systems d);
  set_rows _ d := d;
  same_pk x y := N.eqb (s_ID (js_System x)) (s_ID (js_System y)) && (js_Key x ==s js_Key y);
  zero_pk x := N.eqb (s_ID (js_System x)) 0;
  unique_clash _ _ := false;
  before_save _ x := inr x;
  before_create _ x := x;
  patch _ _ old := old;
  before_delete _ d := d;
  referenced _ _ := false }.

(** The body of the callback for one row. *)
Definition addJoinRow (systemsMap : gmap N System) (row : JoinSystem) : gmap N System :=
  let id := s_ID (js_System row) in
  let sys :=
    match systemsMap !! id with
    | Some sys => sys
    | None =>
        let s := js_System row in
        mkSystem (s_ID s) (s_Identifier s) (s_Region s) (s_Type s) (s_KeyConfigurationID s)
          (s_TargetKeyConfigurationID s) (js_KeyConfigurationName row)
          (js_TargetKeyConfigurationName row) ∅ (s_Status s) (s_UnderWorkflow s)
          (js_ErrorCode row) (js_ErrorMessage row)
    end in
  if js_Key row ==s "" then <[id := sys]> systemsMap
  else <[id := set_s_Properties (<[js_Key row := js_Value row]> (s_Properties sys)) sys]> systemsMap.

Definition ListAndCountSystemWithProperties (pagination : Pagination) (query : Query System) :
    Comp World (list System * Z) :=
  r ← ListAndCount pagination query;
  let '(systems, count) := (r : list System * Z) in
  match systems with
  | [] => mret ([], count)
  | _ =>
      let loadQuery := where_ (λ row, q_where query (js_System row) &&
        existsb (λ s, N.eqb (s_ID s) (s_ID (js_System row))) systems) in
      systemsMap ← FoldInBatch loadQuery DefaultLimit
        (λ m rows, mret (foldl addJoinRow m rows)) (∅ : gmap N System);
      mret (omap (λ s, systemsMap !! s_ID s) systems, count)
  end.

Definition GetSystemByIDWithProperties (systemID : uuid) : Comp World System :=
  r ← map_err (wrapping ErrGetResource)
    (ListAndCountSystemWithProperties (mkPagination 0 0 false) (where_ (λ s, N.eqb (s_ID s) systemID)));
  match r.1 with
  | [] => fail ErrNotFound
  | s :: _ => mret s
  end.
End Join.

(** * systeminformation.go *)

(** The system information plugin, when it could be loaded, and the properties the
    configuration names. *)
Class SystemInformation := {
  GetSystemInfo : option (string → string → error + option (gmap string string));
  OptionalSystemProperties : list string }.

(** [System.UpdateSystemProperties]; the manager never has an authorization handler. *)
Definition UpdateSystemProperties `{!SystemInformation} (props : gmap string string) (m : System) :
    System * bool :=
  let chosen := filter (λ kv, kv.1 ∈ OptionalSystemProperties) props in
  (set_s_Properties (chosen ∪ s_Properties m) m, negb (bool_decide (chosen = ∅))).

Section SIS.
Context {US : UUIDString} {SI : SystemInformation}.

Definition SIS_updateSystem (system : System) : Comp World unit :=
  match GetSystemInfo with
  | None => fail nilDereference
  | Some getSystemInfo =>
      match getSystemInfo (s_Identifier system) (s_Type system) with
      | inl _ => mret tt
      | inr None => mret tt
      | inr (Some metadata) =>
          system ← map_err (λ err, if is_error err then Wrap err (Some ErrSystemProperties) else err)
            (GetSystemByIDWithProperties (s_ID system));
          let '(system, updated) := UpdateSystemProperties metadata system in
          if updated : bool
          then _ ← map_err (wrapping ErrUpdatingSystem) (Patch system []); mret tt
          else mret tt
      end
  end.

Definition UpdateSystems : Comp World unit :=
  FoldInBatch (where_ (λ _ : System, true)) DefaultLimit
    (λ _ systems, for_each SIS_updateSystem systems) tt.

(** [First] only looks at the primary key of the resource, which is zero here. *)
Definition UpdateSystemByExternalID (externalID : string) : Comp World unit :=
  r ← try_ (First (λ s : System, byID 0 (s_ID s)));
  match r with
  | inl err =>
      if errors_Is err ErrNotFound then fail (wrapping ErrNoSystem err)
      else fail (wrapping ErrGettingSystem err)
  | inr sys => SIS_updateSystem sys
  end.
End SIS.

(** * system.go *)

Record manager_SystemFilter := mkManagerSystemFilter {
  sf_KeyConfigID : uuid;
  sf_Region : string;
  sf_Type : string;
  sf_Skip : Z;
  sf_Top : Z;
  sf_Count : bool }.

Definition KeyConfigIDField : string := "key_configuration_id".
Definition RegionField : string := "region".
Definition TypeField : string := "type".

Definition SystemFilter_GetPagination (s : manager_SystemFilter) : Pagination :=
  mkPagination (sf_Skip s) (sf_Top s) (sf_Count s).
Definition SystemFilter_GetQuery (s : manager_SystemFilter) (x : System) : bool :=
  (N.eqb (sf_KeyConfigID s) uuid_Nil || ofKeyConfig (sf_KeyConfigID s) x) &&
  ((sf_Region s ==s "") || eqField (sf_Region s) (s_Region x)) &&
  ((sf_Type s ==s "") || eqField (sf_Type s) (s_Type x)).
Definition SystemFilter_GetUUID (s : manager_SystemFilter) (field : string) : error + uuid :=
  if negb (field ==s KeyConfigIDField) then inl ErrIncompatibleQueryField else inr (sf_KeyConfigID s).
Definition SystemFilter_GetString (s : manager_SystemFilter) (field : string) : error + string :=
  if field ==s RegionField then inr (sf_Region s)
  else if field ==s TypeField then inr (sf_Type s)
  else inl ErrIncompatibleQueryField.
Definition SystemFilter_mapper (s : manager_SystemFilter) : QueryMapper System :=
  mkQueryMapper (inr (λ _, SystemFilter_GetQuery s)) [sf_Region s; sf_Type s] (SystemFilter_GetUUID s)
    (SystemFilter_GetPagination s).

Record SystemRecoveryAction := mkSystemRecoveryAction {
  CanRetry : bool;
  CanCancel : bool }.

Record SystemFilters := mkSystemFilters {
  fl_KeyConfigurationName : list string;
  fl_Region : list string;
  fl_Type : list string }.

Section Systems.
Context {NS : NewString} {O : Orbital} {Rg : Registry} {UP : UUIDParse} {US : UUIDString}.

Definition GetAllSystems (params : QueryMapper System) : Comp World (list System * Z) :=
  keyConfigID ← map_err (wrapping ErrQuerySystemList) (lift (qm_GetUUID params KeyConfigIDField));
  _ ← (if N.eqb keyConfigID uuid_Nil then mret tt
       else _ ← map_err (wrapping ErrKeyConfigurationNotFound) (First (λ k, byID keyConfigID (kc_ID k)));
            mret tt);
  query ← lift (qm_GetQuery params);
  d ← gets w_db;
  map_err (wrapping ErrQuerySystemList)
    (comparing ErrListingItems (qm_compared params)
       (ListAndCountSystemWithProperties (qm_GetPagination params) (where_ (query d)))).

Definition GetSystemByID (systemID : uuid) : Comp World System :=
  map_err (wrapping ErrGettingSystemByID) (GetSystemByIDWithProperties systemID).

(** The distinct values of three columns of the systems joined with their key
    configurations. *)
Definition GetFilters : Comp World SystemFilters :=
  db_call (λ _ d, (d, inr (mkSystemFilters
    (remove_dups (omap (λ s, nameOf d (s_KeyConfigurationID s)) (db_systems d)))
    (remove_dups (s_Region <$> db_systems d)) (remove_dups (s_Type <$> db_systems d))))).

Definition selectEvent (ctx : Ctx) (system : System) (newKeyConfig : KeyConfiguration) :
    Comp World (System * Comp World (System * Job)) :=
  let oldKeyConfigID := s_KeyConfigurationID system in
  let system := set_s_TargetKeyConfigurationID (Some (kc_ID newKeyConfig)) system in
  let newKey := uuid_String (default 0%N (kc_PrimaryKeyID newKeyConfig)) in
  _ ← Patch system [];
  if negb (IsNotNilUUID oldKeyConfigID) then mret (system, SystemLink ctx system newKey) else
  let oldID := default 0%N oldKeyConfigID in
  if negb (uuid_String (kc_ID newKeyConfig) ==s uuid_String oldID) then
    oldKeyConfig ← map_err (wrapping ErrGettingKeyConfigByID) (First (λ k, byID oldID (kc_ID k)));
    if IsNotNilUUID (kc_PrimaryKeyID oldKeyConfig)
    then mret (system, SystemSwitch ctx system newKey
                         (uuid_String (default 0%N (kc_PrimaryKeyID oldKeyConfig))))
    else mret (system, SystemLink ctx system newKey)
  else mret (system, SystemLink ctx system newKey).

Definition LinkSystemAction (ctx : Ctx) (systemID keyConfigurationID : uuid) : Comp World System :=
  map_err (wrapping ErrUpdateSystem) (Transaction
    (system ← GetSystemByID systemID;
     _ ← (if N.eqb keyConfigurationID uuid_Nil then mret true
          else HasSystemAccess ctx APIActionSystemModifyLink system);
     keyConfig ← map_err (wrapping ErrGettingKeyConfigByID)
       (First (λ k, byID keyConfigurationID (kc_ID k)));
     _ ← CanConnectSystems keyConfig;
     if (s_Status system ==s SystemStatusPROCESSING) || (s_Status system ==s SystemStatusFAILED)
     then fail ErrLinkSystemProcessingOrFailed else
     chosen ← selectEvent ctx system keyConfig;
     r ← SendEvent (chosen.2 : Comp World (System * Job));
     mret r.1)).

Definition sendSystemUnlinkEvent (ctx : Ctx) (system : System) (keyConfig : KeyConfiguration)
    (trigger : string) : Comp World (System * Job) :=
  if negb (IsNotNilUUID (kc_PrimaryKeyID keyConfig)) then fail ErrUnlinkSystemNoPrimaryKey else
  let keyID := uuid_String (default 0%N (kc_PrimaryKeyID keyConfig)) in
  SendEvent
    (if trigger ==s SystemActionDecommission then SystemUnlinkDecommission ctx system keyID
     else SystemUnlink ctx system keyID).

Definition UnlinkSystemAction (ctx : Ctx) (systemID : uuid) (trigger : string) : Comp World unit :=
  Transaction
    (system ← map_err (wrapping ErrGettingSystemByID) (First (λ s, byID systemID (s_ID s)));
     if negb (IsNotNilUUID (s_KeyConfigurationID system))
     then fail (Wrap ErrUpdateSystem (Some ErrSystemNotLinked)) else
     _ ← HasSystemAccess ctx APIActionSystemModifyLink system;
     keyConfig ← map_err (wrapping ErrGettingKeyConfigByID)
       (First (λ k, byID (default 0%N (s_KeyConfigurationID system)) (kc_ID k)));
     if s_Status system ==s SystemStatusPROCESSING then fail ErrUnlinkSystemProcessing else
     _ ← sendSystemUnlinkEvent ctx system keyConfig trigger;
     mret tt).

Definition UnmapSystemFromRegistry (ctx : Ctx) (system : System) : Comp World unit :=
  tenant ← lift (ExtractTenantID ctx);
  match registry with
  | None => mret tt
  | Some _ => callRegistry (RegistryUnmap (s_Identifier system) (toLower (s_Type system)) tenant)
  end.

(** ** Recovery *)

Definition hasKeyAdminAccess (ctx : Ctx) (keyIDStr : string) : Comp World bool :=
  match uuid_Parse keyIDStr with
  | inl _ => mret false
  | inr keyID =>
      r ← try_ (First (λ k, byID keyID (k_ID k)));
      match r with
      | inl _ => mret false
      | inr key =>
          r ← try_ (HasKeyAccess ctx APIActionUpdate (k_KeyConfigurationID key));
          mret (match r with inl _ => false | inr _ => true end)
      end
  end.

Definition checkAuth (ctx : Ctx) (event : Event) (getKeyID : SystemActionJobData → string) : Comp World bool :=
  match GetSystemJobData event with
  | inl _ => mret false
  | inr jobData => hasKeyAdminAccess ctx (getKeyID jobData)
  end.

Definition determineRecoveryPermissions (ctx : Ctx) (event : Event) : Comp World SystemRecoveryAction :=
  let type := e_Type event in
  if type ==s JobTypeSystemUnlink then
    canRetry ← checkAuth ctx event sd_KeyIDFrom; mret (mkSystemRecoveryAction canRetry true)
  else if type ==s JobTypeSystemSwitch then
    match GetSystemJobData event with
    | inl _ => mret (mkSystemRecoveryAction false false)
    | inr jobData =>
        if sd_Trigger jobData ==s KeyActionSetPrimary
        then canRetry ← hasKeyAdminAccess ctx (sd_KeyIDTo jobData);
             mret (mkSystemRecoveryAction canRetry false)
        else canRetry ← hasKeyAdminAccess ctx (sd_KeyIDFrom jobData);
             mret (mkSystemRecoveryAction canRetry true)
    end
  else if type ==s JobTypeSystemSwitchNewPK then
    canRetry ← checkAuth ctx event sd_KeyIDTo; mret (mkSystemRecoveryAction canRetry false)
  else if type ==s JobTypeSystemLink then
    canRetry ← checkAuth ctx event sd_KeyIDTo; mret (mkSystemRecoveryAction canRetry true)
  else if type ==s JobTypeSystemKeyRotate then
    canRetry ← checkAuth ctx event sd_KeyIDTo; mret (mkSystemRecoveryAction canRetry true)
  else mret (mkSystemRecoveryAction false false).

Definition GetRecoveryActions (ctx : Ctx) (systemID : uuid) : Comp World SystemRecoveryAction :=
  system ← GetSystemByID systemID;
  if negb (s_Status system ==s SystemStatusFAILED) then mret (mkSystemRecoveryAction false false) else
  r ← try_ (GetLastEvent (uuid_String systemID));
  match r with
  | inl err =>
      if errors_Is err ErrNoPreviousEvent then mret (mkSystemRecoveryAction false false) else fail err
  | inr lastEvent => determineRecoveryPermissions ctx lastEvent
  end.

Definition cancelSystemAction (systemID : uuid) : Comp World unit :=
  event ← GetLastEvent (uuid_String systemID);
  _ ← Patch (set_s_Status (e_PreviousItemStatus event) (System_ofID systemID))
        [StatusField; TargetKeyConfigIDField];
  mret tt.

Definition retrySystemAction (system : System) : Comp World unit :=
  if negb (s_Status system ==s SystemStatusFAILED) then fail ErrRetryNonFailedSystem else
  lastJob ← GetLastEvent (uuid_String (s_ID system));
  _ ← SendEvent (Transaction
        (_ ← (if e_Type lastJob ==s JobTypeSystemKeyRotate then mret tt
              else _ ← Patch (set_s_Status SystemStatusPROCESSING system) []; mret tt);
         CreateJob lastJob));
  mret tt.

Definition SendRecoveryActions (ctx : Ctx) (systemID : uuid) (action : string) : Comp World unit :=
  system ← GetSystemByID systemID;
  _ ← HasSystemAccess ctx APIActionSystemModifyLink system;
  if action ==s ActionCANCEL then cancelSystemAction systemID
  else if action ==s ActionRETRY then retrySystemAction system
  else fail ErrUnsupportedSystemAction.

(** ** Synchronisation with the registry *)

Context {SI : SystemInformation}.

Definition createSystemIfNotExists (newSystem : System) : Comp World unit :=
  r ← try_ (comparing ErrGetResource [s_Identifier newSystem; s_Region newSystem]
    (Count (where_ (λ s, eqField (s_Identifier newSystem) (s_Identifier s) &&
                         eqField (s_Region newSystem) (s_Region s)))));
  let count := match r with inr n => n | inl _ => 0%Z end in
  if (0 <? count)%Z then mret tt else
  _ ← map_err (wrapping ErrCreatingSystem) (Create newSystem);
  logged (SIS_updateSystem newSystem).

Definition registryKey (s : System) : string := s_Identifier s +:+ ":" +:+ s_Region s.

Definition removeIfMissing (registrySystemsMap : list string) (dbSystem : System) : Comp World unit :=
  if registryKey dbSystem ∈? registrySystemsMap then mret tt
  else _ ← Delete (System_ofID (s_ID dbSystem)); mret tt.

Definition removeSystemsNotInRegistry (registrySystems : list System) : Comp World unit :=
  let registrySystemsMap := registryKey <$> registrySystems in
  map_err (wrapping ErrUpdateSystem)
    (FoldInBatch (where_ (λ _ : System, true)) DefaultLimit
       (λ _ systems, Transaction (for_each (removeIfMissing registrySystemsMap) systems)) tt).

(** [registrySystems]: the answer of [GetSystemsWithFilter] for the tenant. *)
Definition RefreshSystemsData (ctx : Ctx) (getSystemsWithFilter : SystemFilter → error + list System) :
    Comp World bool :=
  match registry with
  | None => mret false
  | Some _ =>
      match ExtractTenantID ctx with
      | inl _ => mret false
      | inr tenant =>
          let refresh (fetchedSystems : list System) : Comp World bool :=
            r ← try_ (for_each createSystemIfNotExists fetchedSystems);
            match r with
            | inl _ => mret false
            | inr _ =>
                r ← try_ (removeSystemsNotInRegistry fetchedSystems);
                mret (match r with inl _ => false | inr _ => true end)
            end in
          match getSystemsWithFilter (mkSystemFilter "" "" tenant 0) with
          | inl err => if status_Code_is err "NotFound" then refresh [] else mret false
          | inr fetchedSystems => refresh fetchedSystems
          end
      end
  end.
End Systems.
