(* ===== verification/LinkFacts.v ===== *)
(** From the request to the finished job: a link that the system manager accepts is
    confirmed, its job connects the system to the configuration it was asked for, and
    when the job fails instead, canceling restores the system. *)
From S2P Require Import Prelude Errs Json GoContext AuthzPolicies Authz Model Store Batch.
From S2P Require Import Users KeyAccess Events JobHandlers Reconciler JobFacts JobOutcomes EventFacts.
From S2P Require Import KeyConfigs RegistryClient Systems SystemFacts.

Section LinkFacts.
Context {NS : NewString} {O : Orbital} {OL : OrbitalLaws} {Rg : Registry}.
Context {UP : UUIDParse} {US : UUIDString} {UL : UUIDLaws} {G : GoMaps}.
Context {KM : KeyManagements} {C : EventProcessorConfig}.
Implicit Types (d : DB) (s : System) (kc : KeyConfiguration).

(** C11: linking a system is all or nothing.  When it succeeds, the system existed,
    was neither PROCESSING nor FAILED, and the configuration has an enabled primary
    key; the only rows that changed are the system, now PROCESSING towards that
    configuration, and its event, which keeps the status the system had; exactly one
    job was handed over: a switch from the primary key of the configuration the system
    has, or a link, to the new primary key.  When it fails, no table has changed. *)
Theorem link_outcome ctx id cfg w w' r :
  w_inTx w = false → NoDup (s_ID <$> db_systems (w_db w)) → LinkSystemAction ctx id cfg w = (w', r) →
  match r with
  | inl _ => w_db w' = w_db w
  | inr _ => ∃ s kc k job, linkable (w_db w) id cfg s kc k ∧
      carries ctx (linkType (w_db w) s kc) (linkData (w_db w) s kc (k_ID k)) job ∧ link_sent s kc job w w'
  end.
Proof using OL UL.
  intros Hx Hnd H. destruct r as [e|y]; [|by eapply LinkSystemAction_ok].
  apply map_err_err in H as (e' & H & _). by eapply Transaction_rollback.
Qed.

(** * The job of a link *)

Lemma carries_data ctx type data job :
  carries ctx type data job →
  ∃ t, ExtractTenantID ctx = inr t ∧ unmarshalSystemJobData job = inr (with_tenant t data) ∧
    job_Type job = type ∧ job_ExternalID job = sd_SystemID data.
Proof.
  intros (t & Ht & He & Hty & Hd). exists t. split_and!; try done.
  unfold unmarshalSystemJobData. by rewrite Hd, SystemActionJobData_roundtrip.
Qed.

Lemma linkType_connection d s kc : linkType d s kc ∈ connectionJobs ∧ linkType d s kc ≠ JobTypeSystemUnlink.
Proof. unfold linkType, connectionJobs. destruct (oldKey d s kc); split; try done; set_solver. Qed.

(** The tables after a link has been sent and its event recorded. *)
Definition link_pending s kc (job : Job) d : DB :=
  put_event (eventOf job (s_Status s)) (with_system (s_ID s) (linking kc) d).

(** A link on the tables of a tenant, in a fleet whose database works. *)
Lemma link_on_tenant ctx t id cfg f f1 y d :
  ExtractTenantID ctx = inr t → tables f t = Some d → NoDup (s_ID <$> db_systems d) → f_faults f = [] →
  onTenant t (LinkSystemAction ctx id cfg) f = (f1, inr y) →
  t ≠ "" ∧ ∃ s kc k job, linkable d id cfg s kc k ∧ f_jobs f1 = job :: f_jobs f ∧ f_faults f1 = [] ∧
    job_Type job = linkType d s kc ∧ job_ExternalID job = uuid_String id ∧
    unmarshalSystemJobData job = inr (with_tenant t (linkData d s kc (k_ID k))) ∧
    tables f1 t = Some (link_pending s kc job d).
Proof using OL UL.
  intros Ht Hd Hnd Hf H. pose proof H as H0.
  apply onTenant_inv in H as [(_ & e & [=] & _)|(schema & d0 & w & Ht0 & Hs & Hd0 & H & Hf1)].
  assert (d0 = d) as -> by (unfold tables in Hd; rewrite Hs in Hd; simpl in Hd; congruence).
  split; [done|]. pose proof H as Hl.
  apply LinkSystemAction_ok in H as (s & kc & k & job & Hlk & Hc & J & _ & F & Hdb); [|done..].
  assert (linkable d id cfg s kc k) as Hlk' by (by destruct Hlk).
  apply carries_data in Hc as (t' & Ht' & Hdata & Hty & He). assert (t' = t) as -> by congruence.
  exists s, kc, k, job. split_and!; try done.
  - by rewrite Hf1.
  - rewrite Hf1. by eapply (no_faults (world_of f d)).
  - rewrite He. simpl. by rewrite (proj2 (lk_system _ _ _ _ _ _ Hlk)).
  - destruct Hdb as [Hdb|[_ []]]; [|done].
    apply onTenant_tables in H0 as [(_ & e & [=] & _)|(d' & w' & Hd' & Hl' & Htab)].
    assert (d' = d) as -> by congruence. assert (w' = w) as -> by congruence.
    rewrite Htab by (by rewrite Hdb). rewrite Hdb. by destruct d.
Qed.
(** * Completion *)

(** The primary key of a configuration is one of its keys. *)
Definition primary_own d : Prop :=
  ∀ kc k, kc ∈ db_keyConfigs d → k ∈ db_keys d → kc_PrimaryKeyID kc = Some (k_ID k) →
    k_KeyConfigurationID k = kc_ID kc.

(** No event of the item is left. *)
Definition forget_events (item : string) d : DB :=
  set_events (select (λ e, negb (e_Identifier e ==s item)) (db_events d)) d.

Lemma linking_column kc : column_update (linking kc).
Proof. by intros []. Qed.

Lemma linking_wf s kc job d : systems_wf d → systems_wf (link_pending s kc job d).
Proof.
  intros [H1 H2 H3]. split.
  - change (db_systems (link_pending s kc job d)) with (db_systems (with_system (s_ID s) (linking kc) d)).
    by rewrite with_system_ids by apply linking_column.
  - intros x (y & -> & Hy)%list_elem_of_fmap. destruct (N.eqb _ _); by apply (H2 y).
  - revert H3. cbn. rewrite <-list_fmap_compose. intros H3. eapply eq_ind; [exact H3|].
    apply list_fmap_ext. intros i y _. cbn. by destruct (N.eqb (s_ID y) (s_ID s)).
Qed.

(** Recording an event and forgetting every event of its item. *)
Lemma forget_put (p : Event → bool) e l item :
  e_Identifier e = item → p e = true → (∀ y, e_Identifier y ≠ item → p y = false) →
  select (λ y, negb (p y))
    (if existsb (λ y, e_Identifier e ==s e_Identifier y) l
     then (λ y, if e_Identifier e ==s e_Identifier y then e else y) <$> l else l ++ [e]) =
  select (λ y, negb (e_Identifier y ==s item)) l.
Proof.
  intros He Hp Hn.
  assert (∀ l, select (λ y, negb (p y)) ((λ y, if e_Identifier e ==s e_Identifier y then e else y) <$> l) =
    select (λ y, negb (e_Identifier y ==s item)) l) as Hmap.
  { intros l'. unfold select. induction l' as [|y l' IH]; [done|].
    rewrite fmap_cons, He, (String.eqb_sym item). cbn [List.filter].
    destruct (String.eqb_spec (e_Identifier y) item) as [Hy|Hy]; [rewrite Hp|rewrite (Hn y Hy)]; cbn [negb];
      rewrite <-IH; [|f_equal]; by rewrite He. }
  destruct (existsb _ l) eqn:Hb; [apply Hmap|].
  assert ((λ y, if e_Identifier e ==s e_Identifier y then e else y) <$> l = l) as Hl.
  { clear -Hb. induction l as [|y l IH]; [done|]. cbn in Hb. apply orb_false_iff in Hb as [Hy Hb].
    by rewrite fmap_cons, Hy, IH. }
  rewrite <-Hmap, Hl. unfold select. rewrite List.filter_app. cbn [List.filter]. by rewrite Hp, app_nil_r.
Qed.

(** Settling the job of a link forgets the event the link recorded. *)
Lemma settled_link_pending s kc job d :
  job_ExternalID job = uuid_String (s_ID s) →
  settled job (s_ID s) (Some (kc_ID kc)) (link_pending s kc job d) =
  forget_events (uuid_String (s_ID s)) (with_system (s_ID s) (settle (Some (kc_ID kc))) d).
Proof.
  intros He. unfold settled, without_event, forget_events.
  pose proof (forget_put (is_event_of job) (eventOf job (s_Status s)) (db_events d) (uuid_String (s_ID s))) as Hsel.
  change (db_events (with_system (s_ID s) (settle (Some (kc_ID kc))) (link_pending s kc job d)))
    with (db_events (link_pending s kc job d)).
  unfold link_pending, put_event. cbn [db_events set_events with_system set_systems]. rewrite Hsel; [|done|..].
  - change (set_events ?l (with_system ?i ?g (set_events ?l' ?d))) with (set_events l (with_system i g d)).
    by rewrite with_system_compose by apply linking_column.
  - unfold is_event_of. simpl. by rewrite !String.eqb_refl.
  - intros y Hy%String.eqb_neq. unfold is_event_of. by rewrite He, Hy.
Qed.

(** * Cancellation *)

Definition recovered (status : string) (s : System) : System :=
  set_s_TargetKeyConfigurationID None (set_s_Status status s).

Lemma cancelSystemAction_ok id w w' :
  cancelSystemAction id w = (w', inr tt) →
  ∃ e, e ∈ db_events (w_db w) ∧ e_Identifier e = uuid_String id ∧
    w_db w' = with_system id (recovered (e_PreviousItemStatus e)) (w_db w).
Proof.
  intros (w1 & e & H1%map_err_ok & H)%bind_ok. apply bind_ok in H as (w2 & b & H2 & [= <-]).
  pose proof (First_db _ _ _ _ H1) as D1. apply First_ok in H1 as [He Hid%String.eqb_eq].
  exists e. split_and!; [done..|]. destruct (Patch_ok _ _ _ _ _ H2) as (x' & [= <-] & -> & _). rewrite D1.
  unfold with_system. f_equal. unfold patched. apply list_fmap_ext. intros i y _. simpl.
  by rewrite N.eqb_sym.
Qed.

Lemma SendRecoveryActions_cancel ctx id w w' :
  SendRecoveryActions ctx id ActionCANCEL w = (w', inr tt) →
  ∃ e, e ∈ db_events (w_db w) ∧ e_Identifier e = uuid_String id ∧
    w_db w' = with_system id (recovered (e_PreviousItemStatus e)) (w_db w).
Proof.
  intros (w1 & s & H1 & H)%bind_ok. apply bind_ok in H as (w2 & b & H2 & H).
  apply run_reads in H1 as (D1 & _); [|apply GetSystemByID_reads].
  apply run_reads in H2 as (D2 & _); [|apply HasSystemAccess_reads].
  apply cancelSystemAction_ok in H. by rewrite D2, D1 in H.
Qed.

Lemma put_event_prev e d y :
  y ∈ db_events (put_event e d) → e_Identifier y = e_Identifier e → y = e.
Proof.
  unfold put_event. cbn [db_events set_events]. destruct (existsb _ _) eqn:Hb.
  - intros (z & -> & Hz)%list_elem_of_fmap. destruct (String.eqb_spec (e_Identifier e) (e_Identifier z)); [done|].
    congruence.
  - intros [Hy|Hy]%elem_of_app Hi; [|by apply list_elem_of_singleton in Hy].
    assert (existsb (λ y, e_Identifier e ==s e_Identifier y) (db_events d) = true) as Hc; [|congruence].
    apply existsb_exists. exists y. by rewrite <-list_elem_of_In, Hi, String.eqb_refl.
Qed.

Lemma with_error_prev job m d y :
  y ∈ db_events (with_error job m d) →
  ∃ z, z ∈ db_events d ∧ e_Identifier z = e_Identifier y ∧ e_PreviousItemStatus z = e_PreviousItemStatus y.
Proof.
  intros (z & -> & Hz)%list_elem_of_fmap. exists z. by destruct (e_Identifier z ==s job_ExternalID job).
Qed.

(** Failing and canceling undoes what a link did to the systems. *)
Lemma recovered_linking st kc s :
  s_TargetKeyConfigurationID s = None → st = s_Status s →
  recovered st (set_s_Status SystemStatusFAILED (linking kc s)) = s.
Proof. intros Ht ->. destruct s. simpl in *. by subst. Qed.

Lemma fail_cancel_tables (i : uuid) (r F L : System → System) job m (e : Event) T d :
  set_events (db_events d) (set_public (db_public d) (with_system i r (set_public T
    (with_system i F (with_error job m (put_event e (with_system i L d))))))) =
  set_systems ((λ x, if N.eqb (s_ID x) i then r x else x) <$>
    ((λ x, if N.eqb (s_ID x) i then F x else x) <$>
      ((λ x, if N.eqb (s_ID x) i then L x else x) <$> db_systems d))) d.
Proof. by destruct d. Qed.

Lemma fail_cancel_systems kc s d :
  s ∈ db_systems d → NoDup (s_ID <$> db_systems d) → s_TargetKeyConfigurationID s = None →
  (λ x, if N.eqb (s_ID x) (s_ID s) then recovered (s_Status s) x else x) <$>
    ((λ x, if N.eqb (s_ID x) (s_ID s) then set_s_Status SystemStatusFAILED x else x) <$>
      ((λ x, if N.eqb (s_ID x) (s_ID s) then linking kc x else x) <$> db_systems d)) = db_systems d.
Proof.
  intros Hs Hnd Ht. rewrite <-!list_fmap_compose. rewrite <-(list_fmap_id (db_systems d)) at 2.
  apply list_fmap_ext. intros i x Hx%list_elem_of_lookup_2. cbn.
  destruct (N.eqb_spec (s_ID x) (s_ID s)) as [He|Hn]; cbn; [|apply N.eqb_neq in Hn; by rewrite !Hn].
  rewrite He, N.eqb_refl. cbn. rewrite He, N.eqb_refl.
  rewrite (NoDup_key s_ID _ x s Hnd Hx Hs He). by apply recovered_linking.
Qed.

(** A failed link can be taken back.  When a link was accepted, its job failed or
    was canceled, and the system is then recovered with CANCEL, every table but that of
    the events is exactly as before the request (provided the system was not already
    heading to another configuration). *)
Theorem link_failed_canceled ctx ctx' t id cfg f f1 f2 f3 y d job cb :
  ExtractTenantID ctx = inr t → tables f t = Some d → NoDup (s_ID <$> db_systems d) → f_faults f = [] →
  (∀ s, s ∈ db_systems d → s_ID s = id → s_TargetKeyConfigurationID s = None) →
  onTenant t (LinkSystemAction ctx id cfg) f = (f1, inr y) → head (f_jobs f1) = Some job →
  cb ∈ [jobFailedFunc; jobCanceledFunc] → cb job f1 = (f2, inr tt) →
  onTenant t (SendRecoveryActions ctx' id ActionCANCEL) f2 = (f3, inr tt) →
  ∃ d', tables f3 t = Some d' ∧ set_events (db_events d) d' = d.
Proof using OL UL.
  intros Ht Hd Hnd Hf Htarget H1 Hj Hcb H2 H3.
  eapply link_on_tenant in H1 as (Ht0 & s & kc & k & job' & Hlk & J & Hf1 & Hty & He & Hdata & Hd1); [|done..].
  rewrite J in Hj. injection Hj as ->. destruct Hlk as [[Hs <-] _ _ _].
  destruct (linkType_connection d s kc) as [Hc _]. rewrite <-Hty in Hc.
  assert (∃ m, tables f2 t = Some (failed job m (s_ID s) (link_pending s kc job d))) as (m & Hd2).
  { assert (∃ m, (cb, m) ∈ [(jobFailedFunc, failureMessage job); (jobCanceledFunc, job_ErrorMessage job)]) as (m & Hm).
    { repeat (apply elem_of_cons in Hcb as [->|Hcb]); 
        [eexists; left|eexists; right; left|by apply not_elem_of_nil in Hcb]. }
    exists m. eapply (connection_failed job _ (link_pending s kc job d) (s_ID s) cb m f1 f2 Hm Hc Hdata Hd1); try done.
    - change (db_systems (link_pending s kc job d)) with (db_systems (with_system (s_ID s) (linking kc) d)).
      by rewrite with_system_ids by apply linking_column.
    - rewrite Hf1. by intros e ?%not_elem_of_nil.
    - apply uuid_Parse_String. }
  assert (has_system (s_ID s) (link_pending s kc job d) = true) as Hh
    by (apply has_system_true; exists (linking kc s); split; [by apply with_system_elem|done]).
  unfold failed in Hd2. rewrite Hh in Hd2.
  apply onTenant_tables in H3 as [(_ & e & [=] & _)|(d2 & w & Hd2' & H3 & Hd3)].
  rewrite Hd2 in Hd2'. injection Hd2' as <-.
  apply SendRecoveryActions_cancel in H3 as (e & Hev & Hid & Hw). rewrite Hw in Hd3.
  eexists. split; [by apply Hd3|].
  apply with_error_prev in Hev as (z & Hz & Hzi & Hzp).
  apply put_event_prev in Hz; [|cbn; congruence]. subst z. cbn in Hzp. rewrite <-Hzp.
  etrans; [exact (fail_cancel_tables (s_ID s) (recovered (s_Status s)) (set_s_Status SystemStatusFAILED)
    (linking kc) job m (eventOf job (s_Status s)) (f_public f2) d)|].
  rewrite fail_cancel_systems by (done || by apply Htarget). by destruct d.
Qed.
End LinkFacts.
