(* ===== verification/KeyVersions.v ===== *)
(** Key versions and import parameters: internal/manager/keyversion.go and
    importparams.go, and the plugin interface of
    internal/pluginregistry/service/api/keymanagement. *)
From stdpp Require Import sorting.
From S2P Require Import Prelude Errs Json Model Store Batch KeyAccess.

Definition ErrNoKeyVersionsFound := New "manager.ErrNoKeyVersionsFound" "no key versions found".
Definition ErrGetKeyVersionDB :=
  New "manager.ErrGetKeyVersionDB" "failed to get key version from database".
Definition ErrCreateKeyVersionDB :=
  New "manager.ErrCreateKeyVersionDB" "failed to create key version in database".
Definition ErrBuildImportParams := New "manager.ErrBuildImportParams" "error building import parameters".
Definition ErrExtractCommonImportFields :=
  New "manager.ErrExtractCommonImportFields" "error extracting common import fields".
Definition ErrFieldMissing := New "structreader.ErrFieldMissing" "field is missing".
Definition ErrFieldEmpty := New "structreader.ErrFieldEmpty" "field is empty".
Definition ErrProviderAuthenticationFailed :=
  New "keymanagement.ErrProviderAuthenticationFailed" "failed to authenticate with the keystore provider".
Definition ErrHYOKKeyNotFound := New "keymanagement.ErrHYOKKeyNotFound" "HYOK provider key not found".

(** * The plugin interface *)

Record GetKeyResponse := mkGetKeyResponse {
  gk_KeyID : string;
  gk_AES256 : bool;
  gk_Status : string }.

Record ProviderVersion := mkProviderVersion {
  pv_ID : string;
  pv_CreationTime : option Z;
  pv_Status : string }.

Inductive PluginKeyType := UnspecifiedKeyType | SystemManaged | BYOK | HYOK.
Inductive PluginKeyAlgorithm := UnspecifiedKeyAlgorithm | AES256.

Record ValidateKeyRequest := mkValidateKeyRequest {
  vk_KeyType : PluginKeyType;
  vk_KeyAlgorithm : PluginKeyAlgorithm;
  vk_Region : string;
  vk_NativeKeyID : string }.

(** The answer to a validation: whether the data are valid, and the message. *)
Record ValidateResponse := mkValidateResponse {
  vr_IsValid : bool;
  vr_Message : string }.

(** A plugin answers from the calls made before, the configuration and the key it is
    asked for; the three validations of a request look at the request alone. *)
Record KeyManagement := mkKeyManagement {
  km_Name : string;
  km_GetKey : list Effect → gmap string JSON → string → error + GetKeyResponse;
  km_GetKeyVersions : list Effect → gmap string JSON → string → error + list ProviderVersion;
  km_CreateKey : list Effect → gmap string JSON → string → error + string * string;
  km_DeleteKey : list Effect → gmap string JSON → string → error + unit;
  km_EnableKey : list Effect → gmap string JSON → string → error + unit;
  km_DisableKey : list Effect → gmap string JSON → string → error + unit;
  km_GetImportParameters : list Effect → gmap string JSON → string → error + gmap string JSON;
  km_ImportKeyMaterial :
    list Effect → gmap string JSON → string * string * gmap string JSON → error + unit;
  km_ValidateKey : ValidateKeyRequest → error + ValidateResponse;
  km_ValidateKeyAccessData : gmap string JSON → KeyAccessData → error + ValidateResponse;
  km_ExtractKeyRegion : string → gmap string JSON → error + string }.

Record ProviderConfig := mkProviderConfig {
  pc_Values : gmap string JSON;
  pc_Client : KeyManagement;
  pc_Expiration : Z }.

(** A call to a plugin about the key [id]. *)
Definition callProvider {A B} (op id : string) (provider : ProviderConfig)
    (method : list Effect → gmap string JSON → A → error + B) (values : gmap string JSON) (arg : A) :
    Comp World B := λ w,
  (set_log (KeystoreCall op (km_Name (pc_Client provider)) id :: w_log w) w, method (w_log w) values arg).

(** [uuid.New()] *)
Class NewUUID := uuid_New : World → uuid.

(** * keyversion.go *)

(** [ORDER BY rotated_at DESC, created_at DESC] *)
Definition version_before (a b : KeyVersion) : Prop :=
  (kv_RotatedAt b < kv_RotatedAt a ∨ kv_RotatedAt b = kv_RotatedAt a ∧ kv_CreatedAt b ≤ kv_CreatedAt a)%Z.
#[export] Instance version_before_dec a b : Decision (version_before a b).
Proof. unfold version_before. apply _. Defined.

Definition versionsOf (keyID : uuid) (d : DB) : list KeyVersion :=
  merge_sort version_before (select (λ v, N.eqb (kv_KeyID v) keyID) (db_keyVersions d)).

(** [repo.ListAndCount] of the ordered versions. *)
Definition GetKeyVersions (keyID : uuid) (pagination : Pagination) : Comp World (list KeyVersion * Z) :=
  let top := if (Top pagination =? 0)%Z then DefaultLimit else Top pagination in
  let query := mkQuery (λ _ : KeyVersion, true) top (Skip pagination) in
  res ← map_err (wrapping ErrListingItems)
    (db_call (λ _ d, (d, inr (applyPagination query (versionsOf keyID d)))));
  if negb (PCount pagination) then mret (res, 0%Z)
  else
    count ← map_err (wrapping ErrCountingItem)
      (db_call (λ _ d, (d, inr (Z.of_nat (length (versionsOf keyID d))))));
    mret (res, count).

Definition GetLatestVersion (keyID : uuid) : Comp World KeyVersion :=
  r ← try_ (db_call (λ _ d,
        match versionsOf keyID d with
        | v :: _ => (d, inr v)
        | [] => (d, inl (Wrap ErrNotFound (Some ErrRecordNotFound)))
        end));
  match r with
  | inl err =>
      if errors_Is err ErrNotFound then fail ErrNoKeyVersionsFound
      else fail (wrapping ErrGetKeyVersionDB err)
  | inr version => mret version
  end.

Section KeyVersions.
Context {NU : NewUUID}.

Definition CreateVersion (keyID : uuid) (nativeID : string) (rotationTime : option Z) : Comp World KeyVersion :=
  w ← get;
  let rotatedAt := default (w_now w) rotationTime in
  r ← try_ (Create (mkKeyVersion 0 (uuid_New w) nativeID keyID rotatedAt ""));
  match r with
  | inr newVersion => mret newVersion
  | inl err =>
      if negb (errors_Is err ErrUniqueConstraint) then fail (wrapping ErrCreateKeyVersionDB err)
      else map_err (wrapping ErrGetKeyVersionDB)
             (comparing ErrGetResource [nativeID]
               (First (λ v, N.eqb (kv_KeyID v) keyID && eqField nativeID (kv_NativeID v))))
  end.

(** [Set] with [OnConflict(key_id, native_id).Update(rotated_at, updated_at, status)]. *)
Definition sameVersion (x y : KeyVersion) : bool :=
  N.eqb (kv_KeyID x) (kv_KeyID y) && (kv_NativeID x ==s kv_NativeID y).
Definition SetVersion (x : KeyVersion) : Comp World unit :=
  db_call (λ now d,
    let x := KeyVersion_BeforeCreate now x in
    if existsb (sameVersion x) (db_keyVersions d)
    then (set_keyVersions ((λ y, if sameVersion x y
                                 then mkKeyVersion (kv_CreatedAt y) (kv_ID y) (kv_NativeID y) (kv_KeyID y)
                                        (kv_RotatedAt x) (kv_Status x)
                                 else y) <$> db_keyVersions d) d, inr tt)
    else if existsb (same_pk x) (db_keyVersions d)
    then (d, inl (Wrap ErrSetResource (Some (External "duplicated key not allowed"))))
    else (set_keyVersions (db_keyVersions d ++ [x]) d, inr tt)).

Definition UpdateVersion (keyID : uuid) (k : ProviderVersion) : Comp World unit :=
  w ← get;
  match pv_CreationTime k with
  | Some creationTime => SetVersion (mkKeyVersion 0 (uuid_New w) (pv_ID k) keyID creationTime (pv_Status k))
  | None =>
      _ ← Create (mkKeyVersion 0 (uuid_New w) (pv_ID k) keyID (w_now w) (pv_Status k)); mret tt
  end.

Definition UpdateVersions (keyID : uuid) (versions : list ProviderVersion) : Comp World unit :=
  for_each (UpdateVersion keyID) versions.
End KeyVersions.

(** * importparams.go and utils/structreader *)

(** [time.Parse(time.RFC3339, s)] *)
Class ParseTime := parseRFC3339 : string → error + Z.

Definition string_value (v : JSON) : string := match v with JString s => s | _ => "" end.

Definition GetString (fields : gmap string JSON) (key : string) : error + string :=
  match fields !! key with
  | None => inl (Wrapf ErrFieldMissing key)
  | Some value =>
      if string_value value ==s "" then inl (Wrapf ErrFieldEmpty key) else inr (string_value value)
  end.
Definition GetOptionalString (fields : gmap string JSON) (key : string) : option string :=
  match fields !! key with
  | None => None
  | Some value => if string_value value ==s "" then None else Some (string_value value)
  end.

Record CommonImportFields := mkCommonImportFields {
  ci_PublicKeyPEM : string;
  ci_WrappingAlgorithm : string;
  ci_HashFunction : string }.

Definition extractCommonFields (reader : gmap string JSON) : error + CommonImportFields :=
  match GetString reader "publicKey" with
  | inl err => inl (Wrap ErrExtractCommonImportFields (Some err))
  | inr publicKey =>
      match GetString reader "wrappingAlgorithm" with
      | inl err => inl (Wrap ErrExtractCommonImportFields (Some err))
      | inr wrappingAlgorithm =>
          match GetString reader "hashFunction" with
          | inl err => inl (Wrap ErrExtractCommonImportFields (Some err))
          | inr hashFunction => inr (mkCommonImportFields publicKey wrappingAlgorithm hashFunction)
          end
      end
  end.

Section ImportParameters.
Context {PT : ParseTime}.

Definition buildProviderParams (reader : gmap string JSON) : error + JSON * option Z :=
  match GetString reader "providerParams" with
  | inl err => inl err
  | inr providerParams =>
      let params := [("providerParams", JString providerParams)] in
      let params := match GetOptionalString reader "algorithm" with
                    | Some algorithm => ("algorithm", JString algorithm) :: params
                    | None => params
                    end in
      match GetOptionalString reader "validTo" with
      | None => inr (JObject params, None)
      | Some validTo =>
          match parseRFC3339 validTo with
          | inl err => inl err
          | inr expires => inr (JObject params, Some expires)
          end
      end
  end.

Definition BuildImportParamsFromAPI (key : Key) (importParameters : gmap string JSON) : error + ImportParams :=
  match extractCommonFields importParameters with
  | inl err => inl (Wrap ErrBuildImportParams (Some err))
  | inr commonFields =>
      match buildProviderParams importParameters with
      | inl err => inl (Wrap ErrBuildImportParams (Some err))
      | inr (paramsJSON, expires) =>
          inr (mkImportParams (k_ID key) (ci_WrappingAlgorithm commonFields) (ci_HashFunction commonFields)
                 (ci_PublicKeyPEM commonFields) expires paramsJSON)
      end
  end.
End ImportParameters.
