(* ===== verification/Keys.v ===== *)
(** The key manager: internal/manager/key.go.

    The keystore plugins are outside the repository; the provider configuration (with
    the certificates and the keystore pool behind it) enters through [KeyServices].  A
    key that a method changes through a pointer is returned with its new value.  Calls
    to a plugin, audit logs and enqueued tasks are recorded in the log of the world,
    which no transaction undoes. *)
From S2P Require Import Prelude Errs Json GoContext AuthzPolicies Authz Model Store Batch.
From S2P Require Import Users KeyAccess Events JobHandlers KeyConfigs RegistryClient KeyVersions.

Definition ErrKeyCreationFailed := New "manager.ErrKeyCreationFailed" "failed to create key in provider".
Definition ErrKeyRegistration := New "manager.ErrKeyRegistration" "failed to register key from provider".
Definition ErrUnsupportedKeyAlgorithm :=
  New "manager.ErrUnsupportedKeyAlgorithm" "unsupported key algorithm".
Definition ErrInvalidKeyState := New "manager.ErrInvalidKeyState" "invalid key state".
Definition ErrHYOKKeyActionNotAllowed :=
  New "manager.ErrHYOKKeyActionNotAllowed" "HYOK key action not allowed".
Definition ErrFailedToInitProvider := New "manager.ErrFailedToInitProvider" "failed to init provider".
Definition ErrFailedToDisableProviderKey :=
  New "manager.ErrFailedToDisableProviderKey" "failed to disable provider key".
Definition ErrFailedToDeleteProvider := New "manager.ErrFailedToDeleteProvider" "failed to delete provider".
Definition ErrGetProviderKey := New "manager.ErrGetProviderKey" "failed to get provider key".
Definition ErrGetProviderKeyVersions :=
  New "manager.ErrGetProviderKeyVersions" "failed to get provider key versions".
Definition ErrGetImportParamsFromProvider :=
  New "manager.ErrGetImportParamsFromProvider" "failed to get import parameters from provider".
Definition ErrImportKeyMaterialsToProvider :=
  New "manager.ErrImportKeyMaterialsToProvider" "failed to import key materials to provider".
Definition ErrKeyInPendingState :=
  New "manager.ErrKeyInPendingState" "operation not allowed: key is in a pending state".
Definition ErrGetKeyDB := New "manager.ErrGetKeyDB" "failed to get key from database".
Definition ErrManagementDetailsUpdate :=
  New "manager.ErrManagementDetailsUpdate" "management credentials cannot be updated".
Definition ErrCryptoDetailsUpdate :=
  New "manager.ErrCryptoDetailsUpdate" "crypto access data cannot be updated".
Definition ErrNonEditableCryptoRegionUpdate :=
  New "manager.ErrNonEditableCryptoRegionUpdate" "crypto region cant be updated as it's not editable".
Definition ErrUpdateKeyDB := New "manager.ErrUpdateKeyDB" "failed to update key in database".
Definition ErrCreateKeyDB := New "manager.ErrCreateKeyDB" "failed to create key in database".
Definition ErrDeleteKeyDB := New "manager.ErrDeleteKeyDB" "failed to delete key from database".
Definition ErrSetImportParamsDB :=
  New "manager.ErrSetImportParamsDB" "failed to set import parameters in database".
Definition ErrDeleteImportParamsDB :=
  New "manager.ErrDeleteImportParamsDB" "failed to delete import parameters from database".
Definition ErrGetConfiguration := New "manager.ErrGetConfiguration" "failed to get configuration".
Definition ErrUpdatePrimary := New "manager.ErrUpdatePrimary" "failed to update key primary state".
Definition ErrInvalidKeyTypeForHYOKSync :=
  New "manager.ErrInvalidKeyTypeForHYOKSync" "invalid key type for hyok sync".
Definition ErrDeleteKey := New "manager.ErrDeleteKey" "failed to delete key".
Definition ErrInvalidKeyTypeForImportParams :=
  New "manager.ErrInvalidKeyTypeForImportParams" "invalid key type for import parameters".
Definition ErrInvalidKeyStateForImportParams :=
  New "manager.ErrInvalidKeyStateForImportParams" "invalid key state for import parameters".
Definition ErrInvalidKeyTypeForImportKeyMaterial :=
  New "manager.ErrInvalidKeyTypeForImportKeyMaterial" "invalid key type for import key materials".
Definition ErrInvalidKeyStateForImportKeyMaterial :=
  New "manager.ErrInvalidKeyStateForImportKeyMaterial" "invalid key state for import key materials".
Definition ErrEmptyKeyMaterial := New "manager.ErrEmptyKeyMaterial" "key material cannot be empty".
Definition ErrInvalidBase64KeyMaterial :=
  New "manager.ErrInvalidBase64KeyMaterial" "key material must be base64 encoded".
Definition ErrMissingOrExpiredImportParams :=
  New "manager.ErrMissingOrExpiredImportParams" "import parameters missing or expired".
Definition ErrInvalidKeystore := New "manager.ErrInvalidKeystore" "invalid keystore".
Definition ErrGrantTrustFailed := New "manager.ErrGrantTrustFailed" "failed to grant trust to certificate".
Definition ErrPoolIsDrained := New "manager.ErrPoolIsDrained" "pool is drained".

Definition KeyAlgorithmAES256 : string := "AES256".
Definition TypePendingStateSync : string := "key:pending-state-sync".
Definition createKeyRetryAttempts : nat := 5.
(** Fifteen minutes. *)
Definition pendingCreationTimeout : Z := 900.

Inductive BYOKAction := BYOKActionImportKeyMaterial | BYOKActionGetImportParams.

Definition UnavailableKeyStates : list string :=
  [KeyStatePENDINGDELETION; KeyStateDELETED; KeyStateFORBIDDEN; KeyStateUNKNOWN;
   KeyStatePENDINGCREATION; KeyStateERROR].
Definition IsUnavailableKeyState (state : string) : bool := state ∈? UnavailableKeyStates.

(** * Parameters of the methods *)

Record KeyAccessDetails := mkKeyAccessDetails {
  ad_Crypto : option KeyAccessData;
  ad_Management : option KeyAccessDetailsRegion }.

Record KeyPatch := mkKeyPatch {
  kpt_AccessDetails : option KeyAccessDetails;
  kpt_Description : option string;
  kpt_Enabled : option bool;
  kpt_Name : option string }.

Class KeyServices := {
  GetOrInitProvider : Ctx → Key → Comp World ProviderConfig;
  NeedsDefaultKeystoreProvisioning : Ctx → Comp World bool;
  getCryptoCertificates : Ctx → error + list (string * string);
  NewPluginProviderTransformer : string → error + (KeyAccessDetails → error + unit);
  keyAsyncClient : option (string → option error) }.

(** * base64.StdEncoding *)

Definition isBase64 (c : Ascii.ascii) : bool :=
  let n := Ascii.nat_of_ascii c in
  ((65 <=? n) && (n <=? 90)) || ((97 <=? n) && (n <=? 122)) || ((48 <=? n) && (n <=? 57)) ||
  (n =? 43) || (n =? 47).
Definition isPad (c : Ascii.ascii) : bool := Ascii.nat_of_ascii c =? 61.
Fixpoint base64_quads (l : list Ascii.ascii) : bool :=
  match l with
  | [] => true
  | a :: b :: c :: d :: l' =>
      if isBase64 a && isBase64 b && isBase64 c && isBase64 d then base64_quads l'
      else isBase64 a && isBase64 b && isPad d && (isBase64 c || isPad c) &&
           match l' with [] => true | _ => false end
  | _ => false
  end.
(** Line breaks are skipped. *)
Definition validBase64 (s : string) : bool :=
  base64_quads (List.filter (λ c, negb ((Ascii.nat_of_ascii c =? 10) || (Ascii.nat_of_ascii c =? 13)))
                  (String.list_ascii_of_string s)).

(** * Values of additional properties *)

(** [==] on interface values: maps and slices cannot be compared. *)
Definition anyEqual (a b : JSON) : error + bool :=
  match a, b with
  | JArray _, JArray _ | JObject _, JObject _ => inl (Panic "comparing uncomparable type")
  | JNull, JNull | JFloat, JFloat => inr true
  | JBool x, JBool y => inr (Bool.eqb x y)
  | JInt x, JInt y => inr (Z.eqb x y)
  | JString x, JString y => inr (x ==s y)
  | _, _ => inr false
  end.
Fixpoint equalEntries (l : list (string * JSON)) (m : gmap string JSON) : error + bool :=
  match l with
  | [] => inr true
  | (k, v) :: l' =>
      match m !! k with
      | None => inr false
      | Some v' =>
          match anyEqual v v' with
          | inl e => inl e
          | inr false => inr false
          | inr true => equalEntries l' m
          end
      end
  end.
Definition maps_Equal `{!GoMaps} (m m' : gmap string JSON) : error + bool :=
  if negb (size m =? size m')%nat then inr false else equalEntries (range m) m'.

Definition nilMapWrite : error := Panic "assignment to entry in nil map".

Section Keys.
Context {NS : NewString} {O : Orbital} {UP : UUIDParse} {US : UUIDString} {G : GoMaps}.
Context {NU : NewUUID} {PT : ParseTime} {KS : KeyServices}.

Definition auditKey (kind : string) (key : Key) : Comp World unit := audit kind [uuid_String (k_ID key)].
Definition sendCreateAuditLog : Key → Comp World unit := auditKey "CmkCreate".
Definition sendDeleteAuditLog : Key → Comp World unit := auditKey "CmkDelete".
Definition sendDisableAuditLog : Key → Comp World unit := auditKey "CmkDisable".
Definition sendEnableAuditLog : Key → Comp World unit := auditKey "CmkEnable".
Definition sendRotateAuditLog : Key → Comp World unit := auditKey "CmkRotate".

(** ** Events *)

Definition unlessExists (event : Comp World Job) : Comp World unit :=
  r ← try_ event;
  match r with
  | inl err => if errors_Is err ErrJobAlreadyExists then mret tt else fail err
  | inr _ => mret tt
  end.
Definition sendEnableEvent (ctx : Ctx) (key : Key) : Comp World unit :=
  SendEvent (unlessExists (KeyEnable ctx (uuid_String (k_ID key)))).
Definition sendDisableEvent (ctx : Ctx) (key : Key) : Comp World unit :=
  SendEvent (unlessExists (KeyDisable ctx (uuid_String (k_ID key)))).
Definition sendDetachEvent (ctx : Ctx) (key : Key) : Comp World unit :=
  SendEvent (unlessExists (KeyDetach ctx (uuid_String (k_ID key)))).

Definition Detach (ctx : Ctx) (key : Key) : Comp World Key :=
  Transaction
    (let key := set_k_State KeyStateDETACHING key in
     _ ← Patch key [];
     _ ← sendDetachEvent ctx key;
     mret key).

(** ** Calls to the provider *)

Definition mergeProviderConfigValuesWithKeyAccessData (provider : ProviderConfig) (key : Key) :
    error + gmap string JSON :=
  match GetManagementAccessData key with
  | inl err => inl err
  | inr management => inr (r_AdditionalProperties management ∪ pc_Values provider)
  end.

(** [*key.NativeID] *)
Definition derefNativeID (key : Key) : Comp World string :=
  match k_NativeID key with Some id => mret id | None => fail nilDereference end.

Definition getKeyFromProvider (provider : option ProviderConfig) (key : Key) : Comp World GetKeyResponse :=
  match provider with
  | None => fail ErrFailedToInitProvider
  | Some provider =>
      configValues ← lift (mergeProviderConfigValuesWithKeyAccessData provider key);
      id ← derefNativeID key;
      map_err (wrapping ErrGetProviderKey)
        (callProvider "GetKey" id provider (km_GetKey (pc_Client provider)) configValues id)
  end.

Definition getKeyVersionsFromProvider (provider : ProviderConfig) (key : Key) :
    Comp World (list ProviderVersion) :=
  configValues ← lift (mergeProviderConfigValuesWithKeyAccessData provider key);
  id ← derefNativeID key;
  map_err (wrapping ErrGetProviderKeyVersions)
    (callProvider "GetKeyVersions" id provider (km_GetKeyVersions (pc_Client provider)) configValues id).

Definition isAuthenticationFailed (err : error) : bool := errors_Is err ErrProviderAuthenticationFailed.

Definition createManagedProviderKey (key : Key) (provider : ProviderConfig) : Comp World Key :=
  keyResp ← map_err (wrapping ErrKeyCreationFailed)
    (retry_Do isAuthenticationFailed (createKeyRetryAttempts - 1)
       (callProvider "CreateKey" (uuid_String (k_ID key)) provider (km_CreateKey (pc_Client provider))
          (pc_Values provider) (uuid_String (k_ID key))));
  mret (set_k_State keyResp.2 (set_k_NativeID (Some keyResp.1) key)).

Definition recoverExistingProviderKey (key : Key) (provider : ProviderConfig) : Comp World Key :=
  keyResp ← map_err (wrapping ErrKeyCreationFailed)
    (callProvider "GetKey" (uuid_String (k_ID key)) provider (km_GetKey (pc_Client provider))
       (pc_Values provider) (uuid_String (k_ID key)));
  mret (set_k_State (gk_Status keyResp) (set_k_NativeID (Some (gk_KeyID keyResp)) key)).

(** Only what is already there is replaced. *)
Definition addCertificateSubject (m : KeyAccessData) (cert : string * string) : KeyAccessData :=
  match m !! cert.1 with
  | None => m
  | Some accessData =>
      <[cert.1 := mkRegion (Some cert.2) (r_IsEditable accessData) (r_AdditionalProperties accessData)]> m
  end.
Definition addCertificateSubjectToCryptoData (ctx : Ctx) (key : Key) : Comp World Key :=
  cryptoCerts ← lift (getCryptoCertificates ctx);
  match GetCryptoAccessData key with
  | None => mret key
  | Some cryptoAccessData =>
      mret (set_k_CryptoAccessData
              (Some (KeyAccessData_Marshal (Some (foldl addCertificateSubject cryptoAccessData cryptoCerts))))
              key)
  end.

Definition registerHYOKKey (ctx : Ctx) (key : Key) (provider : ProviderConfig) : Comp World Key :=
  configValues ← lift (mergeProviderConfigValuesWithKeyAccessData provider key);
  id ← derefNativeID key;
  keyResp ← map_err (wrapping ErrKeyRegistration)
    (callProvider "GetKey" id provider (km_GetKey (pc_Client provider)) configValues id);
  key ← map_err (wrapping ErrKeyRegistration) (addCertificateSubjectToCryptoData ctx key);
  if negb (gk_AES256 keyResp)
  then fail (Wrapf ErrUnsupportedKeyAlgorithm "0 for HYOK registration") else
  let key := set_k_Algorithm KeyAlgorithmAES256 key in
  if negb (gk_Status keyResp ==s KeyStateENABLED)
  then fail (Wrapf ErrInvalidKeyState (gk_Status keyResp +:+ " for HYOK registration")) else
  mret (set_k_State KeyStateENABLED key).

Definition initProvider (ctx : Ctx) (key : Key) : Comp World ProviderConfig :=
  map_err (wrapping ErrFailedToInitProvider) (GetOrInitProvider ctx key).

Definition reenableProviderKey (ctx : Ctx) (key : Key) : Comp World unit :=
  provider ← initProvider ctx key;
  id ← derefNativeID key;
  map_err (wrapping ErrFailedToDisableProviderKey)
    (callProvider "EnableKey" id provider (km_EnableKey (pc_Client provider)) (pc_Values provider) id).
Definition disableProviderKey (ctx : Ctx) (key : Key) : Comp World unit :=
  provider ← initProvider ctx key;
  id ← derefNativeID key;
  map_err (wrapping ErrFailedToDisableProviderKey)
    (callProvider "DisableKey" id provider (km_DisableKey (pc_Client provider)) (pc_Values provider) id).

Definition deleteInProvider (provider : ProviderConfig) (id : string) : Comp World unit :=
  map_err (wrapping ErrFailedToDeleteProvider)
    (callProvider "DeleteKey" id provider (km_DeleteKey (pc_Client provider)) (pc_Values provider) id).
Definition deleteSystemManagedProviderKey (key : Key) (provider : ProviderConfig) : Comp World unit :=
  for_each (λ kv, deleteInProvider provider (kv_NativeID kv)) (k_KeyVersions key).
Definition deleteProviderKey (ctx : Ctx) (key : Key) : Comp World unit :=
  if k_KeyType key ==s KeyTypeHYOK then mret tt
  else if k_State key ==s KeyStatePENDINGCREATION then mret tt else
  provider ← initProvider ctx key;
  if k_KeyType key ==s KeyTypeSystemManaged then deleteSystemManagedProviderKey key provider
  else if k_KeyType key ==s KeyTypeBYOK then
    match k_NativeID key with None => mret tt | Some id => deleteInProvider provider id end
  else mret tt.

(** ** Synchronisation of HYOK keys *)

Definition handleSystemsOnKeyRotation (ctx : Ctx) (key : Key) : Comp World unit :=
  FoldInBatch (where_ (ofKeyConfig (k_KeyConfigurationID key))) DefaultLimit
    (λ _ systems, for_each (λ s, _ ← SystemKeyRotate ctx s (uuid_String (k_ID key)); mret tt) systems) tt.

Definition handleNewKeyVersion (ctx : Ctx) (key : Key) (versions : list ProviderVersion) : Comp World unit :=
  _ ← UpdateVersions (k_ID key) versions;
  _ ← sendRotateAuditLog key;
  isPrimary ← IsPrimaryKey key;
  if isPrimary : bool then logged (handleSystemsOnKeyRotation ctx key) else mret tt.

Definition syncKeyVersions (ctx : Ctx) (provider : ProviderConfig) (key : Key) : Comp World unit :=
  versions ← getKeyVersionsFromProvider provider key;
  if (length versions <? 1)%nat then fail ErrNoKeyVersionsFound
  else handleNewKeyVersion ctx key versions.

Definition getKeyStateOnSyncError (key : Key) (err : error) : string :=
  if errors_Is err ErrProviderAuthenticationFailed then KeyStateFORBIDDEN
  else if errors_Is err ErrHYOKKeyNotFound then KeyStateDELETED
  else if IsAnyError err [ErrFailedToInitProvider; ErrGetProviderKey] then KeyStateUNKNOWN
  else k_State key.

Definition handleKeyStateTransition (ctx : Ctx) (key : Key) (oldKeyState : string) : Comp World unit :=
  if k_State key ==s KeyStateENABLED then
    _ ← (if negb (IsUnavailableKeyState oldKeyState) then sendEnableAuditLog key else mret tt);
    sendEnableEvent ctx key
  else if k_State key ==s KeyStatePENDINGDELETION then mret tt
  else if k_State key ==s KeyStateDISABLED then
    _ ← (if negb (IsUnavailableKeyState oldKeyState) then sendDisableAuditLog key else mret tt);
    sendDisableEvent ctx key
  else mret tt.

Definition syncHYOKKeyState (ctx : Ctx) (key : Key) : Comp World Key :=
  let oldKeyState := k_State key in
  if negb (k_KeyType key ==s KeyTypeHYOK) then fail ErrInvalidKeyTypeForHYOKSync else
  r ← try_ (GetOrInitProvider ctx key);
  let provider := match r with inl _ => None | inr p => Some p end in
  r ← try_ (getKeyFromProvider provider key);
  key ← match r, provider with
        | inr keyResp, Some provider =>
            let key := set_k_State (gk_Status keyResp) key in
            _ ← logged (syncKeyVersions ctx provider key);
            mret key
        | inl err, _ => mret (set_k_State (getKeyStateOnSyncError key err) key)
        | inr _, None => mret key
        end;
  if oldKeyState ==s k_State key then mret key else
  _ ← map_err (wrapping ErrUpdateKeyDB) (Transaction
        (_ ← Patch key []; handleKeyStateTransition ctx key oldKeyState));
  mret key.

Definition SyncHYOKKeys (ctx : Ctx) : Comp World unit :=
  FoldInBatch (where_ (λ k, k_KeyType k ==s KeyTypeHYOK)) DefaultLimit
    (λ _ keys, for_each (λ key, _ ← try_ (syncHYOKKeyState ctx key); mret tt) keys) tt.

(** ** Reading *)

Definition setEditableStatus (key : Key) : Comp World Key :=
  match GetCryptoAccessData key with
  | None => mret key
  | Some cryptoData =>
      let editable := (λ _, k_KeyType key ==s KeyTypeHYOK) <$> cryptoData in
      let key := set_k_EditableRegions (editable ∪ k_EditableRegions key) key in
      if negb (k_IsPrimary key) || negb (k_KeyType key ==s KeyTypeHYOK) then mret key else
      regions ← FoldInBatch (where_ (ofKeyConfig (k_KeyConfigurationID key))) DefaultLimit
        (λ m systems, mret (foldl (λ m s, <[s_Region s := s_Status s ==s SystemStatusFAILED]> m) m systems))
        (k_EditableRegions key);
      mret (set_k_EditableRegions regions key)
  end.

Definition Get (ctx : Ctx) (keyID : uuid) : Comp World Key :=
  key ← map_err (wrapping ErrGetKeyDB) (First (λ k, byID keyID (k_ID k)));
  isPrimary ← map_err (wrapping ErrGetKeyDB) (IsPrimaryKey key);
  let key := set_k_IsPrimary isPrimary key in
  _ ← HasKeyAccess ctx APIActionRead (k_KeyConfigurationID key);
  key ← (if k_KeyType key ==s KeyTypeBYOK then mret key
         else if k_KeyType key ==s KeyTypeHYOK then syncHYOKKeyState ctx key
         else fail ErrInvalidKeystore);
  setEditableStatus key.

(** [Preload("KeyVersions")] *)
Definition withVersions (d : DB) (k : Key) : Key :=
  mkKey (k_CreatedAt k) (k_ID k) (k_KeyConfigurationID k) (k_Name k) (k_KeyType k) (k_Description k)
    (k_Algorithm k) (k_Provider k) (k_Region k) (k_State k)
    (select (λ v, N.eqb (kv_KeyID v) (k_ID k)) (db_keyVersions d)) (k_ImportParams k) (k_NativeID k)
    (k_ManagementAccessData k) (k_CryptoAccessData k) (k_UnderWorkflow k) (k_ErrorDetail k)
    (k_IsPrimary k) (k_EditableRegions k).

Definition GetKeys (ctx : Ctx) (keyConfigID : uuid) (pagination : Pagination) : Comp World (list Key * Z) :=
  _ ← HasKeyAccess ctx APIActionRead keyConfigID;
  primaryKeyID ← GetKeyConfigPrimaryKey keyConfigID;
  r ← ListAndCount pagination (where_ (keyOfKeyConfig keyConfigID));
  d ← gets w_db;
  let keys := withVersions d <$> (r.1 : list Key) in
  match primaryKeyID with
  | None => mret (keys, r.2)
  | Some p => mret ((λ k, set_k_IsPrimary (N.eqb p (k_ID k)) k) <$> keys, r.2)
  end.

(** ** Creating *)

Definition validateKeyCreation (ctx : Ctx) (key : Key) : Comp World unit :=
  _ ← HasKeyAccess ctx APIActionCreate (k_KeyConfigurationID key);
  _ ← map_err (wrapping ErrGetConfiguration) (First (λ k, byID (k_KeyConfigurationID key) (kc_ID k)));
  mret tt.

Definition setPrimaryIfFirstKey (key : Key) : Comp World unit :=
  r ← try_ (First (keyOfKeyConfig (k_KeyConfigurationID key)));
  match r with
  | inr _ => mret tt
  | inl err =>
      if negb (errors_Is err ErrNotFound) then fail err
      else if k_State key ==s KeyStatePENDINGCREATION then mret tt
      else if k_State key ==s KeyStateDISABLED then fail ErrKeyIsNotEnabled
      else
        _ ← Patch (set_kc_PrimaryKeyID (Some (k_ID key)) (KeyConfiguration_ofID (k_KeyConfigurationID key))) [];
        mret tt
  end.

(** [repo.Create] also fills in the creation time. *)
Definition createKeyRow (key : Key) : Comp World Key :=
  row ← map_err (wrapping ErrCreateKeyDB) (Create key);
  mret (set_k_CreatedAt (k_CreatedAt row) key).

Definition persistCreatedKey (ctx : Ctx) (provider : ProviderConfig) (key : Key) : Comp World Key :=
  Transaction
    (_ ← map_err (wrapping ErrUpdatePrimary) (setPrimaryIfFirstKey key);
     key ← createKeyRow key;
     _ ← (if k_KeyType key ==s KeyTypeHYOK
          then map_err (wrapping ErrCreateKeyVersionDB) (syncKeyVersions ctx provider key)
          else mret tt);
     mret key).

Definition enqueuePendingStateSync (key : Key) : Comp World unit :=
  match keyAsyncClient with
  | None => mret tt
  | Some enqueue =>
      match enqueue (uuid_String (k_ID key)) with
      | Some _ => mret tt
      | None => modify (λ w, set_log (TaskEnqueued TypePendingStateSync (uuid_String (k_ID key)) :: w_log w) w)
      end
  end.

(** The new key when it was stored as pending. *)
Definition createPendingBYOKKeyIfNeeded (ctx : Ctx) (key : Key) : Comp World (option Key) :=
  needsProvisioning ← NeedsDefaultKeystoreProvisioning ctx;
  if negb needsProvisioning then mret None else
  let key := set_k_NativeID None (set_k_State KeyStatePENDINGCREATION key) in
  row ← map_err (wrapping ErrCreateKeyDB) (Transaction (Create key));
  let key := set_k_CreatedAt (k_CreatedAt row) key in
  _ ← sendCreateAuditLog key;
  _ ← enqueuePendingStateSync key;
  mret (Some key).

Definition createOrRegisterProviderKey (ctx : Ctx) (key : Key) (provider : ProviderConfig) : Comp World Key :=
  if k_KeyType key ==s KeyTypeBYOK then createManagedProviderKey key provider
  else if k_KeyType key ==s KeyTypeHYOK then registerHYOKKey ctx key provider
  else fail ErrInvalidKeystore.

Definition KeyManager_Create (ctx : Ctx) (key : Key) : Comp World Key :=
  _ ← validateKeyCreation ctx key;
  pending ← (if k_KeyType key ==s KeyTypeBYOK then createPendingBYOKKeyIfNeeded ctx key else mret None);
  match pending with
  | Some key => mret key
  | None =>
      provider ← initProvider ctx key;
      key ← createOrRegisterProviderKey ctx key provider;
      key ← persistCreatedKey ctx provider key;
      _ ← sendCreateAuditLog key;
      mret key
  end.

(** ** Keys waiting for provisioning *)

Definition transitionPendingKeyToError (key : Key) (code msg : string) : Comp World unit :=
  now ← gets w_now;
  let detail := JObject [("errorCode", JString code); ("errorMessage", JString msg);
                         ("errorTimestamp", JInt now)] in
  let key := set_k_ErrorDetail (Some detail) (set_k_State KeyStateERROR key) in
  _ ← map_err (wrapping ErrUpdateKeyDB) (Patch key [AllFields]);
  mret tt.

(** [None]: the key was moved to ERROR. *)
Definition initProviderForPendingKey (ctx : Ctx) (key : Key) : Comp World (option ProviderConfig) :=
  r ← try_ (GetOrInitProvider ctx key);
  match r with
  | inr provider => mret (Some provider)
  | inl err =>
      if errors_Is err ErrGrantTrustFailed then fail err
      else if errors_Is err ErrPoolIsDrained then
        _ ← transitionPendingKeyToError key "KEYSTORE_POOL_DRAINED"
          ("No keystore available for key provisioning. " +:+
           "Delete this key and re-create it once the keystore pool is replenished.");
        mret None
      else fail err
  end.

Definition createOrRecoverProviderKey (key : Key) (provider : ProviderConfig) : Comp World Key :=
  r ← try_ (createManagedProviderKey key provider);
  match r with
  | inr key => mret key
  | inl err =>
      if negb (status_Code_is err "AlreadyExists") then fail err
      else recoverExistingProviderKey key provider
  end.

Definition syncPendingCreationKey (ctx : Ctx) (key : Key) : Comp World unit :=
  now ← gets w_now;
  if (pendingCreationTimeout <? now - k_CreatedAt key)%Z
  then transitionPendingKeyToError key "PROVISIONING_TIMEOUT"
         "Key provisioning timed out. Delete this key and re-create it once the issue is resolved."
  else
    provider ← initProviderForPendingKey ctx key;
    match provider with
    | None => mret tt
    | Some provider =>
        key ← createOrRecoverProviderKey key provider;
        Transaction
          (_ ← map_err (wrapping ErrUpdatePrimary) (setPrimaryIfFirstKey key);
           _ ← map_err (wrapping ErrUpdateKeyDB) (Patch key [AllFields]);
           mret tt)
    end.

Definition SyncPendingCreationKey (ctx : Ctx) (keyID : uuid) : Comp World unit :=
  r ← try_ (Get ctx keyID);
  match r with
  | inl err => if errors_Is err ErrNotFound then mret tt else fail (wrapping ErrGetKeyDB err)
  | inr key =>
      if negb (k_State key ==s KeyStatePENDINGCREATION) then mret tt else syncPendingCreationKey ctx key
  end.

(** ** Updating *)

Definition isManagementDetailsUpdate (keyPatch : KeyPatch) : bool :=
  match kpt_AccessDetails keyPatch with
  | Some d => match ad_Management d with Some _ => true | None => false end
  | None => false
  end.

Definition newCryptoRegion (ctx : Ctx) (region : string) (properties : gmap string JSON) :
    error + KeyAccessDetailsRegion :=
  match getCryptoCertificates ctx with
  | inl err => inl err
  | inr cryptoCerts =>
      let certName := if existsb (λ c, c.1 ==s region) cryptoCerts then region else "" in
      inr (mkRegion (Some certName) None properties)
  end.

(** The body of the loop over the regions of a patch. *)
Definition patchRegion (ctx : Ctx) (key : Key) (keyCryptoData : option KeyAccessData)
    (patch : string * KeyAccessDetailsRegion) : Comp World (option KeyAccessData) :=
  let '(region, patchRegionValues) := patch in
  let old := (default ∅ keyCryptoData : KeyAccessData) !! region in
  let properties := r_AdditionalProperties patchRegionValues in
  let write (r : KeyAccessDetailsRegion) : Comp World (option KeyAccessData) :=
    match keyCryptoData with
    | None => fail nilMapWrite
    | Some m => mret (Some (<[region := r]> m))
    end in
  match k_EditableRegions key !! region with
  | None => res ← lift (newCryptoRegion ctx region properties); write res
  | Some editable =>
      equal ← (if editable : bool then (mret true : Comp World bool)
               else lift (maps_Equal (r_AdditionalProperties (default Region_zero old)) properties));
      if negb equal then fail ErrNonEditableCryptoRegionUpdate else
      let regionData := default Region_zero old in
      write (mkRegion (r_CertificateSubject regionData) (r_IsEditable regionData)
               (properties ∪ r_AdditionalProperties regionData))
  end.

Definition handleCryptoDetailsUpdate (ctx : Ctx) (keyPatch : KeyPatch) (key : Key) : Comp World Key :=
  match kpt_AccessDetails keyPatch with
  | None => mret key
  | Some details =>
      match ad_Crypto details with
      | None => mret key
      | Some crypto =>
          validateKeyAccessData ← lift (NewPluginProviderTransformer (k_Provider key));
          management ← lift (GetManagementAccessData key);
          _ ← lift (validateKeyAccessData (mkKeyAccessDetails (Some crypto) (Some management)));
          keyCryptoData ← fold_each (patchRegion ctx key) (GetCryptoAccessData key) (range crypto);
          mret (set_k_CryptoAccessData (Some (KeyAccessData_Marshal keyCryptoData)) key)
      end
  end.

Definition copyFieldsToModelKey (apiKey : KeyPatch) (dbKey : Key) : Key * bool :=
  let dbKey := match kpt_Name apiKey with Some n => set_k_Name n dbKey | None => dbKey end in
  let dbKey := match kpt_Description apiKey with Some d => set_k_Description d dbKey | None => dbKey end in
  match kpt_Enabled apiKey with
  | Some true =>
      if negb (k_State dbKey ==s KeyStateENABLED) then (set_k_State KeyStateENABLED dbKey, true)
      else (dbKey, false)
  | Some false =>
      if negb (k_State dbKey ==s KeyStateDISABLED) then (set_k_State KeyStateDISABLED dbKey, true)
      else (dbKey, false)
  | None => (dbKey, false)
  end.

Definition enableKey (ctx : Ctx) (key : Key) : Comp World unit :=
  _ ← reenableProviderKey ctx key;
  _ ← sendEnableAuditLog key;
  sendEnableEvent ctx key.
Definition disableKey (ctx : Ctx) (key : Key) : Comp World unit :=
  _ ← disableProviderKey ctx key;
  _ ← sendDisableAuditLog key;
  sendDisableEvent ctx key.

Definition applyKeyPatch (ctx : Ctx) (key : Key) (keyPatch : KeyPatch) (enablementUpdated : bool) :
    Comp World unit :=
  Transaction
    (_ ← map_err (wrapping ErrUpdateKeyDB) (Patch key [AllFields]);
     if enablementUpdated
     then if default false (kpt_Enabled keyPatch) then enableKey ctx key else disableKey ctx key
     else mret tt).

Definition UpdateKey (ctx : Ctx) (keyID : uuid) (keyPatch : KeyPatch) : Comp World Key :=
  if isManagementDetailsUpdate keyPatch then fail ErrManagementDetailsUpdate else
  key ← map_err (wrapping ErrGetKeyDB) (Get ctx keyID);
  let enabling := match kpt_Enabled keyPatch with Some _ => true | None => false end in
  if (k_State key ==s KeyStatePENDINGCREATION) && enabling then fail ErrKeyInPendingState else
  key ← map_err (wrapping ErrCryptoDetailsUpdate) (handleCryptoDetailsUpdate ctx keyPatch key);
  if (k_KeyType key ==s KeyTypeHYOK) && enabling
  then fail (Wrapf ErrHYOKKeyActionNotAllowed "update key state") else
  let '(key, enablementUpdated) := copyFieldsToModelKey keyPatch key in
  _ ← map_err (wrapping ErrUpdateKeyDB) (applyKeyPatch ctx key keyPatch enablementUpdated);
  mret key.

(** ** Deleting *)

Definition KeyManager_Delete (ctx : Ctx) (keyID : uuid) : Comp World unit :=
  key ← map_err (wrapping ErrGetKeyDB) (Get ctx keyID);
  exist ← (if k_IsPrimary key then HasConnectedSystems (k_KeyConfigurationID key) else mret false);
  if exist : bool then fail (Wrap ErrDeleteKey (Some ErrConnectedSystemToKeyConfig)) else
  _ ← deleteProviderKey ctx key;
  _ ← map_err (wrapping ErrDeleteKey) (Transaction
        (_ ← map_err (wrapping ErrDeleteKeyDB) (DeleteWhere (λ v, N.eqb (kv_KeyID v) keyID));
         _ ← map_err (wrapping ErrDeleteKeyDB) (Delete (Key_ofID keyID));
         mret tt));
  sendDeleteAuditLog key.

(** ** Import of key material *)

Definition notSupported (what value : string) : string := what +:+ value +:+ " is not supported".

(** [Preload("ImportParams")] *)
Definition preloadImportParams (d : DB) (k : Key) : Key :=
  set_k_ImportParams (find (λ p, N.eqb (ip_KeyID p) (k_ID k)) (db_importParams d)) k.

Definition validateBYOKKey (ctx : Ctx) (keyID : uuid) (action : BYOKAction) : Comp World Key :=
  key ← map_err (wrapping ErrGetKeyDB) (First (λ k, byID keyID (k_ID k)));
  d ← gets w_db;
  let key := preloadImportParams d key in
  let '(authzAction, typeErr, stateErr) :=
    match action with
    | BYOKActionGetImportParams =>
        (APIActionRead, ErrInvalidKeyTypeForImportParams, ErrInvalidKeyStateForImportParams)
    | BYOKActionImportKeyMaterial =>
        (APIActionUpdate, ErrInvalidKeyTypeForImportKeyMaterial, ErrInvalidKeyStateForImportKeyMaterial)
    end in
  if negb (k_KeyType key ==s KeyTypeBYOK)
  then fail (Wrapf typeErr (notSupported "key type " (k_KeyType key)))
  else if negb (k_State key ==s KeyStatePENDINGIMPORT)
  then fail (Wrapf stateErr (notSupported "key state " (k_State key)))
  else
    _ ← HasKeyAccess ctx authzAction (k_KeyConfigurationID key);
    mret key.

Definition fetchImportParams (ctx : Ctx) (key : Key) : Comp World ImportParams :=
  provider ← initProvider ctx key;
  id ← derefNativeID key;
  importParamsResp ← map_err (wrapping ErrGetImportParamsFromProvider)
    (callProvider "GetImportParameters" id provider (km_GetImportParameters (pc_Client provider))
       (pc_Values provider) id);
  importParams ← lift (BuildImportParamsFromAPI key importParamsResp);
  _ ← Transaction (map_err (wrapping ErrSetImportParamsDB) (Set_ importParams));
  mret importParams.

Definition GetImportParams (ctx : Ctx) (keyID : uuid) : Comp World ImportParams :=
  key ← validateBYOKKey ctx keyID BYOKActionGetImportParams;
  now ← gets w_now;
  match k_ImportParams key with
  | Some p => if ImportParams_IsExpired now p then fetchImportParams ctx key else mret p
  | None => fetchImportParams ctx key
  end.

Definition importProviderKeyMaterial (ctx : Ctx) (key : Key) (params : ImportParams)
    (wrappedKeyMaterial : string) : Comp World Key :=
  provider ← initProvider ctx key;
  providerParamsMap ← lift (decode_map decode_any (ip_ProviderParameters params));
  id ← derefNativeID key;
  _ ← map_err (wrapping ErrImportKeyMaterialsToProvider)
    (callProvider "ImportKeyMaterial" id provider (km_ImportKeyMaterial (pc_Client provider))
       (pc_Values provider) (id, wrappedKeyMaterial, default ∅ providerParamsMap));
  keyResp ← map_err (wrapping ErrGetProviderKey)
    (callProvider "GetKey" id provider (km_GetKey (pc_Client provider)) (pc_Values provider) id);
  mret (set_k_State (gk_Status keyResp) key).

Definition ImportKeyMaterial (ctx : Ctx) (keyID : uuid) (wrappedKeyMaterial : string) : Comp World Key :=
  if wrappedKeyMaterial ==s "" then fail ErrEmptyKeyMaterial
  else if negb (validBase64 wrappedKeyMaterial) then fail ErrInvalidBase64KeyMaterial else
  key ← validateBYOKKey ctx keyID BYOKActionImportKeyMaterial;
  now ← gets w_now;
  match k_ImportParams key with
  | None => fail ErrMissingOrExpiredImportParams
  | Some p =>
      if ImportParams_IsExpired now p then fail ErrMissingOrExpiredImportParams else
      key ← importProviderKeyMaterial ctx key p wrappedKeyMaterial;
      _ ← Transaction
        (_ ← map_err (wrapping ErrUpdateKeyDB) (Patch key []);
         _ ← map_err (wrapping ErrDeleteImportParamsDB) (Delete (mkImportParams keyID "" "" "" None JNull));
         mret tt);
      mret key
  end.
End Keys.
