(* ===== verification/TenantConfig.v ===== *)
(** The workflow configuration of a tenant: the workflow part of
    internal/manager/tenantconfigs.go, with the JSON encoding of
    [model.WorkflowConfig] and [repo.GetTenant].

    A [jsonb] column holds a document, so [json.Marshal] and [json.Unmarshal] are
    modelled between the record and the document, as [Json] says. *)
From S2P Require Import Prelude Errs Json GoContext Model Store.

Definition ErrGetWorkflowConfig :=
  New "manager.ErrGetWorkflowConfig" "failed to get workflow config".
Definition ErrSetWorkflowConfig :=
  New "manager.ErrSetWorkflowConfig" "failed to set workflow config".
Definition ErrUnmarshalConfig :=
  New "manager.ErrUnmarshalConfig" "error unmarshalling tenant config".
Definition ErrRetentionLessThanMinimum :=
  New "manager.ErrRetentionLessThanMinimum" "retention is less than the minimum allowed (30 day)".
Definition ErrWorkflowEnableDisableNotAllowed :=
  New "manager.ErrWorkflowEnableDisableNotAllowed"
    "workflow enable/disable is only allowed for ROLE_TEST tenants".
Definition ErrDefaultExpiryExceedsMax :=
  New "manager.ErrDefaultExpiryExceedsMax"
    "defaultExpiryPeriodDays must be less than or equal to maxExpiryPeriodDays".
Definition ErrMinimumApprovalsTooLow :=
  New "manager.ErrMinimumApprovalsTooLow" "minimumApprovals must be at least 2".

Definition minimumRetentionPeriodDays : Z := 30.
Definition WorkflowConfigKey : string := "WORKFLOW_CONFIG".
Definition DefaultMinimumApprovalCount : Z := 2.
Definition DefaultRetentionPeriodDays : Z := 30.
Definition DefaultMaxExpiryPeriodDays : Z := 30.
Definition Role_ROLE_LIVE : string := "ROLE_LIVE".
Definition Role_ROLE_TEST : string := "ROLE_TEST".

(** * JSON *)

Definition json_Marshal (c : WorkflowConfig) : JSON :=
  JObject [("Enabled", JBool (Enabled c)); ("MinimumApprovals", JInt (MinimumApprovals c));
           ("RetentionPeriodDays", JInt (RetentionPeriodDays c));
           ("DefaultExpiryPeriodDays", JInt (DefaultExpiryPeriodDays c));
           ("MaxExpiryPeriodDays", JInt (MaxExpiryPeriodDays c))].

(** One member of the object. *)
Definition json_member (c : WorkflowConfig) (kv : string * JSON) : error + WorkflowConfig :=
  let '(k, v) := kv in
  let '(mkWorkflowConfig e m r d x) := c in
  if EqualFold k "Enabled" then bool_member v (λ e, mkWorkflowConfig e m r d x) c
  else if EqualFold k "MinimumApprovals" then int_member v (λ m, mkWorkflowConfig e m r d x) c
  else if EqualFold k "RetentionPeriodDays" then int_member v (λ r, mkWorkflowConfig e m r d x) c
  else if EqualFold k "DefaultExpiryPeriodDays" then int_member v (λ d, mkWorkflowConfig e m r d x) c
  else if EqualFold k "MaxExpiryPeriodDays" then int_member v (λ x, mkWorkflowConfig e m r d x) c
  else inr c.

Definition json_Unmarshal : JSON → error + WorkflowConfig :=
  decode_struct json_member (mkWorkflowConfig false 0 0 0 0).

(** * The tenant *)

Definition GetTenantByID (tenantID : string) : Comp World Tenant :=
  map_err (λ err, if errors_Is err ErrNotFound then ErrTenantNotFound else wrapping ErrGetResource err)
    (comparing ErrGetResource [tenantID] (First (λ t, eqField tenantID (t_ID t)))).

Definition GetTenant (ctx : Ctx) : Comp World Tenant :=
  tenantID ← lift (ExtractTenantID ctx);
  GetTenantByID tenantID.

(** * The configuration *)

(** The [Workflow] section of the deployment configuration. *)
Record DeploymentWorkflow := mkDeployment {
  DefaultMinimumApprovals : Z;
  DeploymentRetentionPeriodDays : Z;
  DeploymentExpiryPeriodDays : Z;
  DeploymentMaxExpiryPeriodDays : Z }.

(** [cmkapi.TenantWorkflowConfiguration]: the fields of a merge patch. *)
Record TenantWorkflowConfiguration := mkUpdate {
  u_Enabled : option bool;
  u_MinimumApprovals : option Z;
  u_RetentionPeriodDays : option Z;
  u_DefaultExpiryPeriodDays : option Z;
  u_MaxExpiryPeriodDays : option Z }.

Definition positiveOr (n def : Z) : Z := if (0 <? n)%Z then n else def.

Definition applyDeploymentConfigOverrides (cfg : DeploymentWorkflow) (c : WorkflowConfig) :
    WorkflowConfig :=
  mkWorkflowConfig (Enabled c)
    (positiveOr (DefaultMinimumApprovals cfg) (MinimumApprovals c))
    (positiveOr (DeploymentRetentionPeriodDays cfg) (RetentionPeriodDays c))
    (positiveOr (DeploymentExpiryPeriodDays cfg) (DefaultExpiryPeriodDays c))
    (positiveOr (DeploymentMaxExpiryPeriodDays cfg) (MaxExpiryPeriodDays c)).

Definition ptr_or {A} (p : option A) (old : A) : A := match p with Some v => v | None => old end.

Definition mergeWorkflowConfig (existing : WorkflowConfig)
    (update : option TenantWorkflowConfiguration) : WorkflowConfig :=
  match update with
  | None => existing
  | Some u =>
      mkWorkflowConfig (ptr_or (u_Enabled u) (Enabled existing))
        (ptr_or (u_MinimumApprovals u) (MinimumApprovals existing))
        (ptr_or (u_RetentionPeriodDays u) (RetentionPeriodDays existing))
        (ptr_or (u_DefaultExpiryPeriodDays u) (DefaultExpiryPeriodDays existing))
        (ptr_or (u_MaxExpiryPeriodDays u) (MaxExpiryPeriodDays existing))
  end.

(** The deployment configuration of the [TenantConfigManager], when there is one. *)
Class Deployment := deployment : option DeploymentWorkflow.

Section TenantConfig.
Context {Dp : Deployment}.

Definition getDefaultWorkflowConfig (defaultEnabled : bool) : WorkflowConfig :=
  let c := mkWorkflowConfig defaultEnabled DefaultMinimumApprovalCount DefaultRetentionPeriodDays
             DefaultExpiryPeriodDaysConst DefaultMaxExpiryPeriodDays in
  match deployment with
  | None => c
  | Some cfg => applyDeploymentConfigOverrides cfg c
  end.

Definition SetWorkflowConfig (ctx : Ctx) (workflowConfig : option WorkflowConfig) :
    Comp World WorkflowConfig :=
  workflowConfig ←
    match workflowConfig with
    | Some c => mret c
    | None =>
        t ← GetTenant ctx;
        mret (getDefaultWorkflowConfig (t_Role t ==s Role_ROLE_LIVE))
    end;
  if (RetentionPeriodDays workflowConfig <? minimumRetentionPeriodDays)%Z
  then fail (Wrap ErrSetWorkflowConfig (Some ErrRetentionLessThanMinimum))
  else if (MaxExpiryPeriodDays workflowConfig <? DefaultExpiryPeriodDays workflowConfig)%Z
  then fail (Wrap ErrSetWorkflowConfig (Some ErrDefaultExpiryExceedsMax))
  else if (MinimumApprovals workflowConfig <? 2)%Z
  then fail (Wrap ErrSetWorkflowConfig (Some ErrMinimumApprovalsTooLow))
  else
    _ ← map_err (wrapping ErrSetWorkflowConfig)
      (Set_ (mkTenantConfig WorkflowConfigKey (json_Marshal workflowConfig)));
    mret workflowConfig.

Definition convertToWorkflowConfig (config : TenantConfig) : error + WorkflowConfig :=
  json_Unmarshal (tc_Value config).

Definition GetWorkflowConfig (ctx : Ctx) : Comp World WorkflowConfig :=
  found ← attempt (First (λ c, tc_Key c ==s WorkflowConfigKey));
  match found with
  | inl err =>
      if errors_Is err ErrNotFound then SetWorkflowConfig ctx None
      else fail (wrapping ErrGetWorkflowConfig err)
  | inr tenantConfig =>
      map_err (wrapping ErrUnmarshalConfig) (lift (convertToWorkflowConfig tenantConfig))
  end.

Definition UpdateWorkflowConfig (ctx : Ctx) (update : option TenantWorkflowConfiguration) :
    Comp World WorkflowConfig :=
  existingConfig ← GetWorkflowConfig ctx;
  _ ← match update ≫= u_Enabled with
      | Some enabled =>
          if negb (eqb enabled (Enabled existingConfig)) then
            t ← GetTenant ctx;
            if negb (t_Role t ==s Role_ROLE_TEST)
            then fail (Wrap ErrSetWorkflowConfig (Some ErrWorkflowEnableDisableNotAllowed))
            else mret tt
          else mret tt
      | None => mret tt
      end;
  SetWorkflowConfig ctx (Some (mergeWorkflowConfig existingConfig update)).
End TenantConfig.

(** * Facts *)

(** What every accepted configuration satisfies. *)
Definition config_valid (c : WorkflowConfig) : Prop :=
  (minimumRetentionPeriodDays ≤ RetentionPeriodDays c ∧
   DefaultExpiryPeriodDays c ≤ MaxExpiryPeriodDays c ∧ 2 ≤ MinimumApprovals c)%Z.

(** Every stored workflow configuration decodes to a valid one. *)
Definition stored_ok (d : DB) : Prop :=
  ∀ r, r ∈ db_tenantConfigs d → tc_Key r = WorkflowConfigKey →
    ∃ c, json_Unmarshal (tc_Value r) = inr c ∧ config_valid c.

Lemma json_roundtrip c : json_Unmarshal (json_Marshal c) = inr c.
Proof. by destruct c. Qed.

Section ConfigFacts.
Context {Dp : Deployment}.
Implicit Types (ctx : Ctx) (w : World).

Lemma GetTenant_db ctx w w' r : GetTenant ctx w = (w', r) → w_db w' = w_db w.
Proof.
  unfold GetTenant, mbind, M_bind, lift. destruct (ExtractTenantID ctx) as [e|t]; [by intros [= <- <-]|].
  unfold GetTenantByID. intros (r' & H & _)%map_err_result. 
  exact (preserves_run same_db _ _ _ _ (comparing_same_db _ _ _ (First_same_db _)) H).
Qed.

Lemma GetTenant_ok ctx w w' t :
  GetTenant ctx w = (w', inr t) →
  t ∈ db_tenants (w_db w) ∧
  ∀ id, ExtractTenantID ctx = inr id → reserved id = false → t_ID t = id.
Proof.
  unfold GetTenant. intros (w1 & id & Hid & H)%bind_ok. unfold lift in Hid. injection Hid as -> Hid.
  apply map_err_ok, comparing_ok, First_ok in H as [? Heq]. split; [done|].
  intros id' Hid'. rewrite Hid' in Hid. injection Hid as ->. by apply eqField_eq.
Qed.

(** The effect of storing configuration [c]. *)
Definition stores w w' (c : WorkflowConfig) : Prop :=
  (∀ r, r ∈ db_tenantConfigs (w_db w') →
     r = mkTenantConfig WorkflowConfigKey (json_Marshal c) ∨
     r ∈ db_tenantConfigs (w_db w) ∧ tc_Key r ≠ WorkflowConfigKey) ∧
  (∃ r, r ∈ db_tenantConfigs (w_db w') ∧ tc_Key r = WorkflowConfigKey) ∧
  db_tenants (w_db w') = db_tenants (w_db w).

Lemma same_key_spec (x y : TenantConfig) : reflect (tc_Key x = tc_Key y) (same_pk x y).
Proof. apply String.eqb_spec. Qed.

Lemma Set_config_stores c w w' :
  Set_ (mkTenantConfig WorkflowConfigKey (json_Marshal c)) w = (w', inr tt) → stores w w' c.
Proof.
  set (x := mkTenantConfig _ _). unfold stores.
  intros (x' & [= <-] & [(He & ->)|(He & ->)])%Set_ok;
    change (db_tenantConfigs (set_rows ?l ?d)) with l; change (db_tenants (set_rows ?l ?d)) with (db_tenants d).
  - split_and!; [|..|done].
    + intros r. rewrite list_elem_of_fmap. intros (y & -> & Hy).
      destruct (same_key_spec x y) as [Heq|Hne]; [by left|right].
      split; [done|]. by intros Hk.
    + apply existsb_exists in He as (y & Hy%list_elem_of_In & Heq). exists x. split; [|done].
      apply list_elem_of_fmap. exists y. by rewrite Heq.
  - split_and!; [|..|done].
    + intros r [Hr|Hr]%elem_of_app; [right|left; by apply list_elem_of_singleton in Hr].
      split; [done|]. intros Hk. apply not_true_iff_false in He. destruct He.
      apply existsb_exists. exists r. rewrite <-list_elem_of_In. split; [done|].
      by destruct (same_key_spec x r) as [|[]].
    + exists x. split; [|done]. apply elem_of_app. right. by apply list_elem_of_singleton.
Qed.

Lemma SetWorkflowConfig_cases ctx oc w w' r :
  SetWorkflowConfig ctx oc w = (w', r) →
  (∃ e, r = inl e ∧ w_db w' = w_db w) ∨
  (∃ c, r = inr c ∧ config_valid c ∧ stores w w' c ∧ (∀ c0, oc = Some c0 → c = c0)).
Proof.
  unfold SetWorkflowConfig, mbind at 1, M_bind at 1.
  assert (∃ w1 r1, match oc with
          | Some c => mret c
          | None => t ← GetTenant ctx; mret (getDefaultWorkflowConfig (t_Role t ==s Role_ROLE_LIVE))
          end w = (w1, r1) ∧ w_db w1 = w_db w ∧ (∀ c0, oc = Some c0 → r1 = inr c0)) as
    (w1 & r1 & Hr1 & Hdb & Hc).
  { destruct oc as [c|]; [eexists _, _; split_and!; [done|done|naive_solver]|].
    unfold mbind, M_bind. destruct (GetTenant ctx w) as [w1 [e|t]] eqn:Ht;
      apply GetTenant_db in Ht; eexists _, _; (split_and!; [reflexivity|done|naive_solver]). }
  rewrite Hr1. destruct r1 as [e|c]; [intros [= <- <-]; eauto|].
  destruct (Z.ltb_spec (RetentionPeriodDays c) minimumRetentionPeriodDays); [intros [= <- <-]; eauto|].
  destruct (Z.ltb_spec (MaxExpiryPeriodDays c) (DefaultExpiryPeriodDays c)); [intros [= <- <-]; eauto|].
  destruct (Z.ltb_spec (MinimumApprovals c) 2); [intros [= <- <-]; eauto|].
  unfold mbind, M_bind, map_err.
  destruct (Set_ _ w1) as [w2 [e|[]]] eqn:Hs; intros [= <- <-].
  - left. eexists. split; [done|]. apply Set_err in Hs. congruence.
  - right. exists c. split_and!; [done|split_and!; lia| |].
    + apply Set_config_stores in Hs. unfold stores in *. by rewrite Hdb in Hs.
    + intros c0 Hoc. specialize (Hc c0 Hoc). naive_solver.
Qed.

Lemma stores_ok w w' c : config_valid c → stores w w' c → stored_ok (w_db w) → stored_ok (w_db w').
Proof.
  intros Hc (Hs & _ & _) Hok r Hr Hk. destruct (Hs r Hr) as [->|[? ?]]; [|done].
  exists c. split; [apply json_roundtrip|done].
Qed.

Lemma GetWorkflowConfig_cases ctx w w' r :
  GetWorkflowConfig ctx w = (w', r) →
  w_db w' = w_db w ∧
    (∀ c, r = inr c → ∃ row, row ∈ db_tenantConfigs (w_db w) ∧ tc_Key row = WorkflowConfigKey ∧
                             json_Unmarshal (tc_Value row) = inr c) ∨
  (∃ w1, w_db w1 = w_db w ∧ SetWorkflowConfig ctx None w1 = (w', r)).
Proof.
  unfold GetWorkflowConfig, mbind, M_bind, attempt.
  destruct (First _ w) as [w1 [e|row]] eqn:Hf.
  - apply First_db in Hf. destruct (errors_Is e ErrNotFound); [eauto|].
    intros [= <- <-]. left. split; [done|naive_solver].
  - pose proof (First_db _ _ _ _ Hf). apply First_ok in Hf as [Hin Hk%String.eqb_eq].
    intros (r' & [= -> <-] & Hr)%map_err_result. left. split; [done|].
    intros c ->. exists row. split_and!; [done..|]. by apply Hr.
Qed.

(** One of the three operations on the configuration. *)
Inductive config_op ctx : Comp World WorkflowConfig → Prop :=
| op_get : config_op ctx (GetWorkflowConfig ctx)
| op_set c : config_op ctx (SetWorkflowConfig ctx c)
| op_update u : config_op ctx (UpdateWorkflowConfig ctx u).

Lemma Set_preserves ctx oc w w' r :
  stored_ok (w_db w) → SetWorkflowConfig ctx oc w = (w', r) →
  stored_ok (w_db w') ∧ ∀ c, r = inr c → config_valid c.
Proof.
  intros Hok [(e & -> & Hdb)|(c & -> & Hv & Hs & _)]%SetWorkflowConfig_cases.
  - rewrite Hdb. naive_solver.
  - split; [by eapply stores_ok|naive_solver].
Qed.

Lemma Get_preserves ctx w w' r :
  stored_ok (w_db w) → GetWorkflowConfig ctx w = (w', r) →
  stored_ok (w_db w') ∧ (∀ c, r = inr c → config_valid c) ∧
  db_tenants (w_db w') = db_tenants (w_db w).
Proof.
  intros Hok [[Hdb Hr]|(w1 & Hdb & Hset)]%GetWorkflowConfig_cases.
  - rewrite Hdb. split_and!; [done| |done]. intros c Hc. destruct (Hr c Hc) as (row & Hin & Hk & Hj).
    destruct (Hok row Hin Hk) as (c' & Hj' & Hv). congruence.
  - pose proof (SetWorkflowConfig_cases _ _ _ _ _ Hset) as Hcases.
    apply Set_preserves in Hset as [? ?]; [|by rewrite Hdb]. split_and!; [done..|].
    destruct Hcases as [(e & _ & ->)|(c & _ & _ & (_ & _ & ->) & _)]; by rewrite Hdb.
Qed.

(** The check of [UpdateWorkflowConfig] before the enabled flag changes. *)
Definition enableCheck ctx (update : option TenantWorkflowConfiguration) (c0 : WorkflowConfig) :
    Comp World unit :=
  match update ≫= u_Enabled with
  | Some enabled =>
      if negb (eqb enabled (Enabled c0)) then
        t ← GetTenant ctx;
        if negb (t_Role t ==s Role_ROLE_TEST)
        then fail (Wrap ErrSetWorkflowConfig (Some ErrWorkflowEnableDisableNotAllowed))
        else mret tt
      else mret tt
  | None => mret tt
  end.

Lemma enableCheck_db ctx u c0 w w' r : enableCheck ctx u c0 w = (w', r) → w_db w' = w_db w.
Proof.
  unfold enableCheck. destruct (u ≫= u_Enabled); [|by intros [= <- <-]].
  case_match; [|by intros [= <- <-]]. unfold mbind, M_bind.
  destruct (GetTenant ctx w) as [w1 [e|t]] eqn:Ht; apply GetTenant_db in Ht; [by intros [= <- <-]|].
  case_match; by intros [= <- <-].
Qed.

Lemma enableCheck_ok ctx u c0 w w' tenant :
  ExtractTenantID ctx = inr tenant → reserved tenant = false →
  (∀ t, t ∈ db_tenants (w_db w) → t_ID t = tenant → t_Role t ≠ Role_ROLE_TEST) →
  enableCheck ctx u c0 w = (w', inr tt) →
  Enabled (mergeWorkflowConfig c0 u) = Enabled c0.
Proof.
  intros Ht Hplain Hrole. unfold enableCheck. destruct u as [u|]; [|done]. simpl.
  destruct (u_Enabled u) as [b|]; [|done]. destruct (eqb b (Enabled c0)) eqn:Hb; simpl.
  { apply eqb_prop in Hb. done. }
  intros (w1 & t & HT & H)%bind_ok. apply GetTenant_ok in HT as [Hin HT].
  destruct (String.eqb_spec (t_Role t) Role_ROLE_TEST); [|discriminate H].
  destruct (Hrole t Hin); [by apply HT|done].
Qed.
End ConfigFacts.

(** C40: the workflow configuration of a tenant is always usable: reading (which
    creates the default), setting or updating it keeps every stored configuration
    decodable and within the limits, and what they return is within the limits: at
    least two approvals, at least 30 days of retention, a default expiry not above
    the maximum.  This holds whichever database call fails. *)
Theorem workflow_config_valid `{!Deployment} ctx m w w' r :
  config_op ctx m → stored_ok (w_db w) → m w = (w', r) →
  stored_ok (w_db w') ∧ ∀ c, r = inr c → config_valid c.
Proof.
  intros Hop Hok Hrun. destruct Hop as [|oc|u].
  - by apply Get_preserves in Hrun as (? & ? & _).
  - by eapply Set_preserves.
  - unfold UpdateWorkflowConfig, mbind at 1, M_bind at 1 in Hrun.
    destruct (GetWorkflowConfig ctx w) as [w1 r1] eqn:Hget.
    apply Get_preserves in Hget as (Hok1 & Hv1 & _); [|done].
    destruct r1 as [e|c0]; [injection Hrun as <- <-; naive_solver|].
    unfold mbind, M_bind in Hrun. fold (enableCheck ctx u c0) in Hrun.
    change (match enableCheck ctx u c0 w1 with
            | (s', inl e) => (s', inl e)
            | (s', inr _) => SetWorkflowConfig ctx (Some (mergeWorkflowConfig c0 u)) s'
            end = (w', r)) in Hrun.
    destruct (enableCheck ctx u c0 w1) as [w2 [e|[]]] eqn:Hch; apply enableCheck_db in Hch.
    + injection Hrun as <- <-. rewrite Hch. naive_solver.
    + eapply Set_preserves; [|exact Hrun]. by rewrite Hch.
Qed.

(** A productive tenant cannot switch approval workflows off: when the tenant's
    role is not ROLE_TEST, an update of the configuration that succeeds leaves the
    enabled flag as it was. *)
Theorem workflow_enabled_locked `{!Deployment} ctx u tenant w w1 c0 w' c :
  ExtractTenantID ctx = inr tenant → reserved tenant = false →
  (∀ t, t ∈ db_tenants (w_db w) → t_ID t = tenant → t_Role t ≠ Role_ROLE_TEST) →
  stored_ok (w_db w) →
  GetWorkflowConfig ctx w = (w1, inr c0) →
  UpdateWorkflowConfig ctx u w = (w', inr c) →
  Enabled c = Enabled c0.
Proof.
  intros Ht Hplain Hrole Hok Hget Hrun. unfold UpdateWorkflowConfig in Hrun.
  apply bind_ok in Hrun as (w1' & c0' & Hget' & Hrun). rewrite Hget in Hget'. injection Hget' as <- <-.
  apply bind_ok in Hrun as (w2 & [] & Hch & Hset).
  apply Get_preserves in Hget as (_ & _ & Htn); [|done].
  apply (enableCheck_ok ctx u c0 w1 w2 tenant Ht) in Hch; [|done|by rewrite Htn].
  apply SetWorkflowConfig_cases in Hset as [(e & [=] & _)|(c' & [= <-] & _ & _ & Hc)].
  by rewrite (Hc _ eq_refl).
Qed.

(** What has been stored is what is read: after a configuration was set, reading
    it returns exactly that configuration. *)
Theorem workflow_config_roundtrip `{!Deployment} ctx oc w w1 c :
  SetWorkflowConfig ctx oc w = (w1, inr c) → w_faults w1 = [] →
  GetWorkflowConfig ctx w1 = (w1, inr c).
Proof.
  intros Hset Hw.
  apply SetWorkflowConfig_cases in Hset as [(e & [=] & _)|(c' & [= <-] & _ & (Hs & Hex & _) & _)].
  unfold GetWorkflowConfig, mbind, M_bind, attempt, First, db_call. rewrite Hw. simpl.
  destruct (select _ (db_tenantConfigs (w_db w1))) as [|r l] eqn:Hsel.
  - exfalso. destruct Hex as (r & Hr & Hk).
    assert (In r (select (λ c, tc_Key c ==s WorkflowConfigKey) (db_tenantConfigs (w_db w1)))) as Hin.
    { apply filter_In. rewrite <-list_elem_of_In, Hk. done. }
    by rewrite Hsel in Hin.
  - assert (In r (select (λ c, tc_Key c ==s WorkflowConfigKey) (db_tenantConfigs (w_db w1)))) as Hin
      by (rewrite Hsel; by left).
    apply filter_In in Hin as [Hin%list_elem_of_In Hk%String.eqb_eq].
    destruct (Hs r Hin) as [->|[_ ?]]; [|done]. unfold map_err, lift, convertToWorkflowConfig.
    cbn [tc_Value]. rewrite json_roundtrip. f_equal. destruct w1; simpl in *. by subst.
Qed.
