(* ===== verification/Certificates.v ===== *)
(** The certificate manager: internal/manager/certificate.go, with the client
    certificates of internal/model/certificate.go.

    The issuer is a plugin, keys and certificates come from Go's crypto packages: both
    enter as [CertificateEnv].  A certificate that was issued is recorded in the log of
    the world. *)
From S2P Require Import Prelude Errs Json GoContext Model Store Batch KeyVersions.

Definition ErrInvalidCertEmptyChain := New "manager.ErrInvalidCertEmptyChain" "empty certificate chain".
Definition ErrCertificateManager := New "manager.ErrCertificateManager" "certificate manager error".
Definition ErrCertificatePublicKey :=
  New "manager.ErrCertificatePublicKey" "could not find a certificate with given public key".
Definition ErrCannotRotateOldCerts :=
  New "manager.ErrCannotRotateOldCerts" "cannot rotate old tenant default certificates".
Definition ErrDefaultTenantCertificateAlreadyExists :=
  New "manager.ErrDefaultTenantCertificateAlreadyExists"
    "default tenant certificate already exists; only one is allowed per tenant".
Definition ErrDefaultTenantError := New "manager.ErrDefaultTenantError" "default tenant cert error".
Definition ErrGetTenantFromCtx := New "manager.ErrGetTenantFromCtx" "failed to get tenant from context".
Definition ErrGetDefaultTenantCertificate :=
  New "manager.ErrGetDefaultTenantCertificate" "failed to get default tenant HYOK certificate".
Definition ErrGetDefaultKeystoreCertificate :=
  New "manager.ErrGetDefaultKeystoreCertificate" "failed to get default keystore certificate".
Definition ErrLoadCryptoCerts := New "manager.ErrLoadCryptoCerts" "failed to load crypto certs".
Definition ErrUnmarshalCryptoCerts :=
  New "manager.ErrUnmarshalCryptoCerts" "failed to unmarshal crypto certs".

(** * internal/model/certificate.go *)

Definition CertificateStateActive : string := "ACTIVE".
Definition CertificateStateExpired : string := "EXPIRED".
Definition CertificatePurposeGeneric : string := "GENERIC".
Definition CertificatePurposeHYOKManagement : string := "TENANT_DEFAULT".
Definition CertificatePurposeRoleManagement : string := "ROLE_MANAGEMENT".
Definition CertificatePurposeKeyManagement : string := "KEY_MANAGEMENT".
Definition CertificatePurposeCrypto : string := "CRYPTO".
Definition SingletonCertificatePurposes : list string :=
  [CertificatePurposeHYOKManagement; CertificatePurposeRoleManagement; CertificatePurposeKeyManagement].

Record RequestCertArgs := mkRequestCertArgs {
  ra_CertPurpose : string;
  ra_Supersedes : option uuid;
  ra_CommonName : string;
  ra_Locality : list string }.

Record CertificateSubject := mkCertificateSubject {
  cs_Locality : list string;
  cs_OrganizationalUnit : list string;
  cs_Organization : list string;
  cs_Country : list string;
  cs_CommonName : string }.

Record ClientCertificate := mkClientCertificate {
  cl_Name : string;
  cl_RootCA : string;
  cl_Subject : CertificateSubject }.

(** [config.CryptoCert]: the subject with the prefix of its common name. *)
Record CryptoCert := mkCryptoCert {
  ct_Name : string;
  ct_RootCA : string;
  ct_Locality : list string;
  ct_OrganizationalUnit : list string;
  ct_Organization : list string;
  ct_Country : list string;
  ct_CommonNamePrefix : string }.

Definition NewClientCertificate (value : CryptoCert) (tenant : string) : ClientCertificate :=
  mkClientCertificate (ct_Name value) (ct_RootCA value)
    (mkCertificateSubject (ct_Locality value) (ct_OrganizationalUnit value) (ct_Organization value)
       (ct_Country value) (ct_CommonNamePrefix value +:+ tenant)).

(** * Cryptography and configuration *)

(** [rsa.PrivateKey]: its modulus and public exponent. *)
Record PrivateKey := mkPrivateKey {
  pk_N : Z;
  pk_E : Z }.

Inductive PublicKey :=
| RSAPublicKey (n e : Z)
| OtherPublicKey.

(** What the code uses of [x509.Certificate]. *)
Record X509Certificate := mkX509Certificate {
  x_Raw : string;
  x_PublicKey : PublicKey;
  x_CommonName : string;
  x_Locality : list string;
  x_NotBefore : Z;
  x_NotAfter : Z }.

Record PEMBlock := mkPEMBlock {
  b_Type : string;
  b_Bytes : string }.

Class CertificateEnv := {
  (** encoding/pem, crypto/x509, crypto/sha256, utils/crypto *)
  pem_Decode : string → option (PEMBlock * string);
  x509_ParseCertificate : string → error + X509Certificate;
  sha256_hex : string → string;
  GeneratePrivateKey : World → error + PrivateKey;
  privateKeyPEM : PrivateKey → string;
  (** the issuer plugin, when there is one: common name, localities, validity, key *)
  certIssuer : option (list Effect → string → list string → Z → string → error + string);
  (** the configuration *)
  RotationThresholdDays : Z;
  ValidityDays : Z;
  DefaultTenantCertPrefix : string;
  Landscape_Region : string;
  CertX509Trusts : error + string;
  yaml_Unmarshal : string → error + list (option CryptoCert);
  (** crypto/x509/pkix and regexp: the name, and the name with its units replaced *)
  pkix_Name_String : CertificateSubject → string;
  replaceUnits : string → string → string }.

(** [CertificateSubject.String]: several organizational units are written as one. *)
Definition CertificateSubject_String `{!CertificateEnv} (subject : CertificateSubject) : string :=
  if (length (cs_OrganizationalUnit subject) <=? 1)%nat then pkix_Name_String subject
  else replaceUnits (pkix_Name_String subject)
         ("OU=" +:+ String.concat "/" (cs_OrganizationalUnit subject)).

(** [pem.Decode] consumes what it decodes. *)
Class CertificateEnvLaws `{!CertificateEnv} := {
  pem_Decode_shorter s b rest : pem_Decode s = Some (b, rest) → String.length rest < String.length s }.

Section Certificates.
Context {E : CertificateEnv} {NU : NewUUID}.

Definition getFingerprint (cert : X509Certificate) : string := sha256_hex (x_Raw cert).

Definition buildCertificateModel (id : uuid) (cert : X509Certificate) (pKeyPem purpose clientCertChain : string)
    (supersedes : option uuid) : Certificate :=
  mkCertificate id (getFingerprint cert) (x_CommonName cert) CertificateStateActive purpose (x_NotBefore cert)
    (x_NotAfter cert) clientCertChain pKeyPem false supersedes.

Definition verifyCertificateWithPrivateKey (cert : X509Certificate) (privateKey : PrivateKey) : bool :=
  match x_PublicKey cert with
  | RSAPublicKey n e => Z.eqb n (pk_N privateKey) && Z.eqb e (pk_E privateKey)
  | OtherPublicKey => false
  end.

(** The certificates of a chain; blocks of another type are skipped.  Each round
    consumes a block, so the length of the text is enough fuel. *)
Fixpoint chainCertificates (fuel : nat) (chain : string) : error + list X509Certificate :=
  match fuel with
  | O => inr []
  | S fuel =>
      match pem_Decode chain with
      | None => inr []
      | Some (block, rest) =>
          if b_Type block ==s "CERTIFICATE" then
            match x509_ParseCertificate (b_Bytes block) with
            | inl err => inl (Wrap ErrCertificateManager (Some err))
            | inr cert => match chainCertificates fuel rest with inl e => inl e | inr l => inr (cert :: l) end
            end
          else chainCertificates fuel rest
      end
  end.
Definition certificatesOf (chain : string) : error + list X509Certificate :=
  chainCertificates (S (String.length chain)) chain.

Definition extractPublicKeyFromChain (certificateChainPEM : string) (privateKey : PrivateKey) :
    error + X509Certificate :=
  match certificatesOf certificateChainPEM with
  | inl err => inl err
  | inr certs =>
      match find (λ cert, verifyCertificateWithPrivateKey cert privateKey) certs with
      | Some cert => inr cert
      | None => inl ErrCertificatePublicKey
      end
  end.

Definition decodeCertificateChain (chainPEM : string) : error + list X509Certificate * string :=
  match certificatesOf chainPEM with
  | inl err => inl err
  | inr [] => inl ErrInvalidCertEmptyChain
  | inr certs => inr (certs, chainPEM)
  end.

(** * Reading *)

Definition GetCertificate (certificateID : uuid) : Comp World Certificate :=
  map_err (wrapping ErrCertificateManager) (First (λ c, byID certificateID (c_ID c))).

Definition isCertWithPurposeExist (purpose : string) : Comp World bool :=
  count ← map_err (wrapping ErrDefaultTenantError) (Count (where_ (λ c, c_Purpose c ==s purpose)));
  mret (0 <? count)%Z.

(** The first of [ORDER BY creation_date DESC]. *)
Definition latest (l : list Certificate) : option Certificate :=
  foldl (λ acc c,
    match acc with
    | None => Some c
    | Some b => if (c_CreationDate b <? c_CreationDate c)%Z then Some c else Some b
    end) None l.

(** [None]: there is none (the caller gets the zero certificate). *)
Definition getCertificateByPurpose (purpose : string) : Comp World (option Certificate) :=
  r ← try_ (db_call (λ _ d,
        match latest (select (λ c, c_Purpose c ==s purpose) (db_certificates d)) with
        | Some c => (d, inr c)
        | None => (d, inl (Wrap ErrNotFound (Some ErrRecordNotFound)))
        end));
  match r with
  | inr cert => mret (Some cert)
  | inl err =>
      if negb (errors_Is err ErrNotFound) then fail (wrapping ErrCertificateManager err) else mret None
  end.

(** * Changing *)

Definition UpdateCertificate (certificateID : uuid) (autoRotate : bool) : Comp World Certificate :=
  cert ← map_err (wrapping ErrCertificateManager) (GetCertificate certificateID);
  _ ← (if autoRotate then
         defaultCert ← map_err (wrapping ErrCertificateManager) (getCertificateByPurpose (c_Purpose cert));
         let defaultID := match defaultCert with Some c => c_ID c | None => 0%N end in
         if negb (N.eqb defaultID certificateID)
         then fail (Wrap ErrCertificateManager (Some ErrCannotRotateOldCerts)) else mret tt
       else mret tt);
  let cert := set_c_AutoRotate autoRotate cert in
  _ ← map_err (wrapping ErrCertificateManager) (Patch cert [AllFields]);
  mret cert.

Definition generatePrivateKey : Comp World PrivateKey :=
  w ← get;
  match GeneratePrivateKey w with
  | inl err => fail (wrapping ErrCertificateManager err)
  | inr privateKey => mret privateKey
  end.

Definition issueCertificate (args : RequestCertArgs) (pKeyPem : string) : Comp World string := λ w,
  match certIssuer with
  | None => (w, inl nilDereference)
  | Some issue =>
      (set_log (CertificateIssued (ra_CommonName args) (ra_Locality args) :: w_log w) w,
       issue (w_log w) (ra_CommonName args) (ra_Locality args) ValidityDays pKeyPem)
  end.

Definition getNewCertificate (privateKey : option PrivateKey) (args : RequestCertArgs) :
    Comp World (Certificate * PrivateKey) :=
  privateKey ← match privateKey with
               | Some k => mret k
               | None => map_err (wrapping ErrCertificateManager) generatePrivateKey
               end;
  let pKeyPem := privateKeyPEM privateKey in
  certificationChain ← map_err (wrapping ErrCertificateManager) (issueCertificate args pKeyPem);
  chain ← map_err (wrapping ErrCertificateManager) (lift (decodeCertificateChain certificationChain));
  cert ← map_err (wrapping ErrCertificateManager) (lift (extractPublicKeyFromChain chain.2 privateKey));
  w ← get;
  let certificate := buildCertificateModel (uuid_New w) cert pKeyPem (ra_CertPurpose args) chain.2
                       (ra_Supersedes args) in
  certificate ← map_err (wrapping ErrCertificateManager) (Create certificate);
  mret (certificate, privateKey).

Definition RequestNewCertificate (privateKey : option PrivateKey) (args : RequestCertArgs) :
    Comp World (Certificate * PrivateKey) :=
  exist ← map_err (wrapping ErrCertificateManager) (isCertWithPurposeExist (ra_CertPurpose args));
  if exist : bool then fail ErrDefaultTenantCertificateAlreadyExists else getNewCertificate privateKey args.

Definition RotateCertificate (args : RequestCertArgs) : Comp World (Certificate * PrivateKey) :=
  r ← map_err (wrapping ErrCertificateManager) (getNewCertificate None args);
  match ra_Supersedes args with
  | None => fail nilDereference
  | Some supersedes =>
      _ ← map_err (wrapping ErrCertificateManager) (UpdateCertificate supersedes false);
      mret r
  end.

Definition resolveRotationLocality (certPEM : string) : list string :=
  match pem_Decode certPEM with
  | None => [Landscape_Region]
  | Some (block, _) =>
      match x509_ParseCertificate (b_Bytes block) with
      | inl _ => [Landscape_Region]
      | inr parsed => match x_Locality parsed with [] => [Landscape_Region] | l => l end
      end
  end.

Definition rotationArgs (cert : Certificate) : RequestCertArgs :=
  mkRequestCertArgs (c_Purpose cert) (Some (c_ID cert)) (c_CommonName cert)
    (resolveRotationLocality (c_CertPEM cert)).

(** The certificates to rotate by [rotateDate]. *)
Definition dueForRotation (rotateDate : Z) (c : Certificate) : bool :=
  c_AutoRotate c && (c_Purpose c ∈? SingletonCertificatePurposes) && (c_ExpirationDate c <? rotateDate)%Z.

Definition RotateExpiredCertificates : Comp World unit :=
  now ← gets w_now;
  FoldInBatch (where_ (dueForRotation (now + RotationThresholdDays * day))) DefaultLimit
    (λ _ certs, for_each (λ cert, _ ← RotateCertificate (rotationArgs cert); mret tt) certs) tt.

(** * Default certificates *)

Definition getDefaultHYOKClientCert (ctx : Ctx) : Comp World Certificate :=
  existing ← map_err (wrapping ErrGetDefaultTenantCertificate)
    (getCertificateByPurpose CertificatePurposeHYOKManagement);
  tenantID ← map_err (wrapping ErrGetTenantFromCtx) (lift (ExtractTenantID ctx));
  now ← gets w_now;
  match existing with
  | None =>
      r ← map_err (wrapping ErrGetDefaultTenantCertificate)
        (RequestNewCertificate None
           (mkRequestCertArgs CertificatePurposeHYOKManagement None (DefaultTenantCertPrefix +:+ tenantID)
              [Landscape_Region]));
      mret r.1
  | Some cert =>
      if (c_ExpirationDate cert <? now)%Z
      then r ← RotateCertificate (rotationArgs cert); mret r.1
      else mret cert
  end.

Definition getDefaultKeystoreClientCert (localityID commonName purpose : string) : Comp World Certificate :=
  if negb (purpose ==s CertificatePurposeRoleManagement) && negb (purpose ==s CertificatePurposeKeyManagement)
  then fail (Wrapf ErrGetDefaultKeystoreCertificate "unsupported certificate purpose") else
  existing ← map_err (wrapping ErrGetDefaultKeystoreCertificate) (getCertificateByPurpose purpose);
  match existing with
  | Some cert => mret cert
  | None =>
      r ← map_err (wrapping ErrGetDefaultKeystoreCertificate)
        (RequestNewCertificate None (mkRequestCertArgs purpose None commonName [localityID]));
      mret r.1
  end.

(** The body of the loop over the configured certificates. *)
Fixpoint clientCertificates (tenantID : string) (l : list (option CryptoCert)) :
    error + list ClientCertificate :=
  match l with
  | [] => inr []
  | None :: _ => inl nilDereference
  | Some certCfg :: l' =>
      match clientCertificates tenantID l' with
      | inl err => inl err
      | inr certs => inr (NewClientCertificate certCfg tenantID :: certs)
      end
  end.

Definition getCryptoCertificates (ctx : Ctx) : error + list ClientCertificate :=
  match CertX509Trusts with
  | inl err => inl (wrapping ErrLoadCryptoCerts err)
  | inr bytes =>
      match yaml_Unmarshal bytes with
      | inl err => inl (wrapping ErrUnmarshalCryptoCerts err)
      | inr certConfigurations =>
          match ExtractTenantID ctx with
          | inl err => inl err
          | inr tenantID => clientCertificates tenantID certConfigurations
          end
      end
  end.
End Certificates.
