(* ===== verification/CertificateFacts.v ===== *)
(** Certificates: what a request and a rotation store, and that reading a chain always
    comes to an end. *)
From S2P Require Import Prelude Errs Json GoContext Model Store Batch KeyVersions Certificates.

Section CertificateFacts.
Context {E : CertificateEnv} {NU : NewUUID}.
Implicit Types (w : World) (c : Certificate).

(** * Chains *)

(** More fuel than the text is long changes nothing: the loop of the code ends by itself. *)
Lemma chainCertificates_fuel `{!CertificateEnvLaws} n m chain :
  String.length chain < n → String.length chain < m → chainCertificates n chain = chainCertificates m chain.
Proof.
  revert m chain. induction n as [|n IH]; intros [|m] chain Hn Hm; try lia. cbn.
  destruct (pem_Decode chain) as [[b rest]|] eqn:Hd; [|done]. apply pem_Decode_shorter in Hd.
  rewrite (IH m rest) by lia. done.
Qed.

(** The certificate of a chain that belongs to a private key. *)
Definition belongs (chain : string) (k : PrivateKey) (x : X509Certificate) : Prop :=
  ∃ l, certificatesOf chain = inr l ∧ x ∈ l ∧ verifyCertificateWithPrivateKey x k = true.

Lemma extract_belongs chain k x : extractPublicKeyFromChain chain k = inr x → belongs chain k x.
Proof.
  unfold extractPublicKeyFromChain, belongs. destruct (certificatesOf chain) as [e|l]; [done|].
  destruct (find _ l) as [y|] eqn:Hf; [|done]. intros [= ->]. apply find_some in Hf as [Hi Hv].
  exists l. by rewrite list_elem_of_In.
Qed.
Lemma decode_chain chain l s : decodeCertificateChain chain = inr (l, s) → s = chain.
Proof.
  unfold decodeCertificateChain. destruct (certificatesOf chain) as [e|[|x l']]; try done. by intros [= _ <-].
Qed.

(** * New certificates *)

(** The row that is stored for a key. *)
Definition issued (args : RequestCertArgs) (k : PrivateKey) c : Prop :=
  ∃ x, belongs (c_CertPEM c) k x ∧ c_Fingerprint c = sha256_hex (x_Raw x) ∧ c_CommonName c = x_CommonName x ∧
    c_CreationDate c = x_NotBefore x ∧ c_ExpirationDate c = x_NotAfter x ∧
    c_PrivateKeyPEM c = privateKeyPEM k ∧ c_Purpose c = ra_CertPurpose args ∧
    c_SupersedesID c = ra_Supersedes args ∧ c_AutoRotate c = true.

Lemma getNewCertificate_err pk args w w' e : getNewCertificate pk args w = (w', inl e) → w_db w' = w_db w.
Proof.
  intros H. apply bind_inv in H as [(e1 & H & _)|(w1 & k1 & H1 & H)].
  { destruct pk; [done|]. apply map_err_err in H as (e2 & H & _). unfold generatePrivateKey in H.
    apply bind_inv in H as [(e1' & [=] & _)|(w2 & a & [= <- <-] & H)].
    destruct (GeneratePrivateKey _); by injection H as <-. }
  assert (w_db w1 = w_db w) as <-.
  { destruct pk; [by injection H1 as <-|]. apply map_err_ok in H1. unfold generatePrivateKey in H1.
    apply bind_ok in H1 as (w2 & a & [= <- <-] & H1). destruct (GeneratePrivateKey _); [done|]. by injection H1 as <-. }
  clear H1. cbv zeta in H.
  assert (∀ w2 r2 pem, issueCertificate args pem w1 = (w2, r2) → w_db w2 = w_db w1) as Hi.
  { intros w2 r2 pem H2. unfold issueCertificate in H2. destruct certIssuer; by injection H2 as <-. }
  apply bind_inv in H as [(e1 & H & _)|(w2 & ch & H2%map_err_ok & H)].
  { apply map_err_err in H as (e2 & H & _). by apply Hi in H. }
  apply Hi in H2 as <-. apply bind_inv in H as [(e1 & H & _)|(w3 & p & H3%map_err_ok & H)].
  { apply map_err_err in H as (e2 & H & _). unfold lift in H. by destruct (decodeCertificateChain ch); injection H as <-. }
  unfold lift in H3. destruct (decodeCertificateChain ch); [done|]. injection H3 as <- <-.
  apply bind_inv in H as [(e1 & H & _)|(w4 & x & H4%map_err_ok & H)].
  { apply map_err_err in H as (e2 & H & _). unfold lift in H. by destruct (extractPublicKeyFromChain _ _); injection H as <-. }
  unfold lift in H4. destruct (extractPublicKeyFromChain _ _); [done|]. injection H4 as <- <-.
  apply bind_inv in H as [(e1 & [=] & _)|(w5 & a & [= <- <-] & H)].
  apply bind_inv in H as [(e1 & H & _)|(w6 & row & H6 & [=])].
  apply map_err_err in H as (e2 & H & _). by apply Create_err in H.
Qed.

Lemma getNewCertificate_db pk args w w' r :
  getNewCertificate pk args w = (w', r) →
  match r with
  | inl _ => w_db w' = w_db w
  | inr (c, k) => issued args k c ∧ (∀ k0, pk = Some k0 → k = k0) ∧
      c_ID c ∉ c_ID <$> db_certificates (w_db w) ∧
      w_db w' = set_certificates (db_certificates (w_db w) ++ [c]) (w_db w)
  end.
Proof.
  intros H. destruct r as [e|[c k]].
  - pose proof (getNewCertificate_err pk args w w' e H). done.
  - apply bind_ok in H as (w1 & k1 & H1 & H). cbv zeta in H.
    assert (w_db w1 = w_db w ∧ ∀ k0, pk = Some k0 → k1 = k0) as [D1 Hk].
    { destruct pk as [k0|]; [by injection H1 as <- <-; split; [|intros ? [= ->]]|].
      apply map_err_ok in H1. unfold generatePrivateKey in H1. apply bind_ok in H1 as (w2 & a & [= <- <-] & H1).
      destruct (GeneratePrivateKey _); [done|]. by injection H1 as <- _. }
    apply bind_ok in H as (w2 & ch & H2%map_err_ok & H). apply bind_ok in H as (w3 & [l s] & H3%map_err_ok & H).
    apply bind_ok in H as (w4 & x & H4%map_err_ok & H). apply bind_ok in H as (w5 & a & [= <- <-] & H).
    apply bind_ok in H as (w6 & row & H6%map_err_ok & [= <- <- <-]).
    assert (w_db w2 = w_db w1) as D2 by (unfold issueCertificate in H2; destruct certIssuer; by injection H2 as <-).
    unfold lift in H3, H4. cbn [snd] in H4. destruct (decodeCertificateChain ch) as [|p] eqn:Hd; [done|].
    injection H3 as <- ->. destruct (extractPublicKeyFromChain s k1) as [|y] eqn:Hx; [done|]. injection H4 as <- <-.
    destruct (Create_ok _ _ _ _ H6) as (z & [= <-] & -> & Hn & D6). split_and!; [|done| |].
    + exists y. split_and!; try done. by apply extract_belongs.
    + rewrite <-D1, <-D2. intros (c' & Hc & Hi)%list_elem_of_fmap. apply not_true_iff_false in Hn. apply Hn.
      apply existsb_exists. exists c'. split; [by apply list_elem_of_In|]. cbn. by apply N.eqb_eq.
    + by rewrite D6, D2, D1.
Qed.

(** A request stores exactly one certificate, the one that belongs to its private
    key, with the dates, name and fingerprint of that certificate, and only when there
    was none for the purpose; a failure stores nothing. *)
Theorem request_certificate_outcome pk args w w' r :
  RequestNewCertificate pk args w = (w', r) →
  match r with
  | inl _ => w_db w' = w_db w
  | inr (c, k) => issued args k c ∧ (∀ k0, pk = Some k0 → k = k0) ∧
      (∀ c0, c0 ∈ db_certificates (w_db w) → c_Purpose c0 ≠ ra_CertPurpose args) ∧
      w_db w' = set_certificates (db_certificates (w_db w) ++ [c]) (w_db w)
  end.
Proof.
  intros H. apply bind_inv in H as [(e & H & ->)|(w1 & b & H1%map_err_ok & H)].
  { apply map_err_err in H as (e1 & H & _). apply bind_inv in H as [(e2 & H & _)|(w2 & n & H2 & [=])].
    apply map_err_err in H as (e3 & H & _). pose proof (Count_same_db (where_ (λ c, c_Purpose c ==s ra_CertPurpose args)) w) as Hd.
    by rewrite H in Hd. }
  apply bind_ok in H1 as (w2 & n & H2%map_err_ok & [= <- <-]).
  pose proof (Count_same_db (where_ (λ c, c_Purpose c ==s ra_CertPurpose args)) w) as Hd. rewrite H2 in Hd. cbn in Hd.
  unfold same_db in Hd. apply Count_ok in H2. cbn [q_where where_ rows Certificate_Resource] in H2.
  destruct (0 <? n)%Z eqn:Hn; [by injection H as <- <-|]. apply getNewCertificate_db in H.
  destruct r as [e|[c k]]; [congruence|]. destruct H as (Hi & Hk & _ & D).
  rewrite Hd in D. split_and!; try done.
  intros c0 Hc Hp. apply Z.ltb_ge in Hn.
  assert (In c0 (select (λ c, c_Purpose c ==s ra_CertPurpose args) (db_certificates (w_db w)))) as Hi0.
  { apply filter_In. split; [by apply list_elem_of_In|]. by apply String.eqb_eq. }
  destruct (select _ (db_certificates (w_db w))); [done|]. cbn in H2. lia.
Qed.

(** * Rotation *)

(** A certificate is taken out of rotation. *)
Definition retire (id : uuid) (l : list Certificate) : list Certificate :=
  (λ c, if N.eqb id (c_ID c) then set_c_AutoRotate false c else c) <$> l.

Lemma UpdateCertificate_retires id w w' r :
  id ≠ 0%N → NoDup (c_ID <$> db_certificates (w_db w)) → UpdateCertificate id false w = (w', r) →
  match r with
  | inl _ => w_db w' = w_db w
  | inr _ => w_db w' = set_certificates (retire id (db_certificates (w_db w))) (w_db w) ∧
      ∃ c, c ∈ db_certificates (w_db w) ∧ c_ID c = id
  end.
Proof.
  intros H0 Hnd H. unfold UpdateCertificate in H. apply bind_inv in H as [(e & H & ->)|(w1 & c & H1 & H)].
  { do 2 (apply map_err_err in H as (? & H & _)). by apply First_db in H. }
  do 2 apply map_err_ok in H1. pose proof (First_db _ _ _ _ H1) as D1. apply First_ok in H1 as [Hc Hid].
  assert (c_ID c = id) as <-.
  { unfold byID in Hid. rewrite (proj2 (N.eqb_neq _ _) H0) in Hid. cbn in Hid. by apply N.eqb_eq. }
  apply bind_inv in H as [(e & [=] & _)|(w2 & [] & [= <-] & H)].
  apply bind_inv in H as [(e & H & ->)|(w3 & b & H3%map_err_ok & [= <- <-])].
  - apply map_err_err in H as (e1 & H & _). by rewrite (Patch_err _ _ _ _ _ H).
  - destruct (Patch_ok _ _ _ _ _ H3) as (x & [= <-] & D3 & _). split; [|by exists c]. rewrite D3, D1.
    f_equal. unfold patched, retire. apply list_fmap_ext. intros i y Hy. cbn.
    destruct (N.eqb_spec (c_ID c) (c_ID y)) as [He|]; [|done].
    assert (y = c) as ->; [|by destruct c].
    eapply (NoDup_key c_ID); [exact Hnd|by eapply list_elem_of_lookup_2|done|done].
Qed.

(** A rotation that succeeds stores the new certificate, which belongs to a fresh
    private key, and takes the superseded one out of rotation; no other certificate
    changes.  A rotation that fails loses nothing: the old certificates are as they
    were, at worst with the new one beside them. *)
Theorem rotate_certificate_outcome args old w w' r :
  ra_Supersedes args = Some old → old ≠ 0%N → NoDup (c_ID <$> db_certificates (w_db w)) →
  old ∈ c_ID <$> db_certificates (w_db w) → RotateCertificate args w = (w', r) →
  match r with
  | inl _ => ∃ added, length added ≤ 1 ∧ db_certificates (w_db w') = db_certificates (w_db w) ++ added
  | inr (c, k) => issued args k c ∧ c_ID c ≠ old ∧
      db_certificates (w_db w') = retire old (db_certificates (w_db w)) ++ [c]
  end.
Proof.
  intros Ha H0 Hnd Hold H. apply bind_inv in H as [(e & H & ->)|(w1 & [c k] & H1%map_err_ok & H)].
  { apply map_err_err in H as (e1 & H%getNewCertificate_err & _). exists [].
    rewrite H, app_nil_r. split; [cbn; lia|done]. }
  apply getNewCertificate_db in H1 as (Hi & _ & Hf & D1). rewrite Ha in H.
  assert (NoDup (c_ID <$> db_certificates (w_db w1))) as Hnd1.
  { rewrite D1. cbn. rewrite fmap_app. apply NoDup_app. split_and!; [done| |apply NoDup_singleton].
    intros x Hx ->%list_elem_of_singleton. done. }
  assert (c_ID c ≠ old) as Hne by (intros <-; done).
  apply bind_inv in H as [(e & H & ->)|(w2 & b & H2%map_err_ok & [= <- <-])].
  - apply map_err_err in H as (e1 & H & _). apply UpdateCertificate_retires in H; [|done..].
    exists [c]. rewrite H, D1. split; [cbn; lia|done].
  - apply UpdateCertificate_retires in H2 as [D2 _]; [|done..]. split_and!; [done..|].
    rewrite D2, D1. cbn. unfold retire. rewrite fmap_app. cbn.
    by rewrite (proj2 (N.eqb_neq _ _)) by congruence.
Qed.
End CertificateFacts.
