(* ===== verification/Keystores.v ===== *)
(** Keystores: the pool of internal/manager/keystorepool.go, the keystore part of
    internal/manager/tenantconfigs.go and internal/manager/providerconfigmanager.go.

    A keystore is created through a plugin and kept in a pool that all tenants share;
    a tenant takes one from the pool when it first needs it, then trust is granted to
    its key-management role and to the crypto certificates.  From the result a
    provider configuration is built, which the process caches.  The plugins and their
    catalog enter as [PluginCatalog]; a configuration that a method changes through a
    pointer is returned with its new value.  The mutexes serialise the calls and are
    not modelled. *)
From stdpp Require Import sorting.
From S2P Require Import Prelude Errs Json GoContext Model Store Batch KeyAccess.
From S2P Require Import KeyVersions Keys Certificates TenantConfig.

Definition ErrCreateKeystore := New "manager.ErrCreateKeystore" "failed to create keystore".
Definition ErrAddConfigToPool :=
  New "manager.ErrAddConfigToPool" "failed to add keystore configuration to pool".
Definition ErrCountKeystorePool := New "manager.ErrCountKeystorePool" "failed to get keystore pool size".
Definition ErrGetDefaultKeystore := New "manager.ErrGetDefaultKeystore" "failed to get default keystore".
Definition ErrSetDefaultKeystore := New "manager.ErrSetDefaultKeystore" "failed to set default keystore".
Definition ErrGetKeystoreFromPool :=
  New "manager.ErrGetKeystoreFromPool" "failed to get keystore config from pool".
Definition ErrCouldNotSaveConfiguration :=
  New "manager.ErrCouldNotSaveConfiguration" "could not save configuration".
Definition ErrCouldNotRemoveConfiguration :=
  New "manager.ErrCouldNotRemoveConfiguration" "could not remove configuration".
Definition ErrConfigNotFound := New "manager.ErrConfigNotFound" "config not found".
Definition ErrPluginNotFound := New "manager.ErrPluginNotFound" "plugin not found".

Definition HYOKKeyStore : string := "HYOK_KEYSTORE".
Definition AuthTypeCertificate : string := "AUTH_TYPE_CERTIFICATE".
Definition defaultKeystoreCertInfix : string := "byok-".
Definition allowBYOKFeatureGateKey : string := "allow-byok".
Definition TrustTypeManagement : string := "MANAGEMENT".
Definition TrustTypeCrypto : string := "CRYPTO".

(** * The plugins *)

Record PluginInfo := mkPluginInfo {
  pi_Name : string;
  pi_Tags : list string }.

(** [keystoremanagement.CreateKeystoreResponse] *)
Record CreateKeystoreResponse := mkCreateKeystoreResponse {
  cr_RoleManagementConfig : ManagementConfig;
  cr_KeyManagementConfig : ManagementConfig;
  cr_SupportedRegions : option (list ConfigRegion) }.

Record KeystoreManagement := mkKeystoreManagement {
  km_CreateKeystore : list Effect → error + CreateKeystoreResponse;
  km_GrantTrust : list Effect → gmap string JSON → string → string → string →
    error + option (gmap string JSON) }.

Record Catalog := mkCatalog {
  KeyManagementList : error + list PluginInfo;
  cat_KeyManagements : error + gmap string KeyManagement;
  KeystoreManagements : error + gmap string KeystoreManagement }.

(** The catalog, when there is one, and the configuration of the deployment. *)
Class PluginCatalog := {
  svcCatalog : option Catalog;
  FeatureGates : option (gmap string bool);
  KeystorePool_SupportedRegions : option (list ConfigRegion) }.

(** utils/plugins: [HasTag] *)
Fixpoint HasTag (tags : list string) (target : string) : bool :=
  match tags with
  | [] => false
  | tag :: tags' => if EqualFold tag target then true else HasTag tags' target
  end.

(** [CreateKeystoreResponse.ToKeystoreConfig], as a document. *)
Definition toConfig (c : ManagementConfig) : JSON :=
  JObject [("localityID", JString (mc_LocalityID c)); ("commonName", JString (mc_CommonName c));
           ("accessData", any_map_Marshal (mc_AccessData c))].
Definition ToKeystoreConfig (c : CreateKeystoreResponse) : JSON :=
  JObject [("roleManagementConfig", toConfig (cr_RoleManagementConfig c));
           ("keyManagementConfig", toConfig (cr_KeyManagementConfig c));
           ("supportedRegions", regions_Marshal (cr_SupportedRegions c))].

(** * keystorepool.go *)

Definition Pool_Count : Comp World Z := Count (where_ (λ _ : Keystore, true)).

Definition Pool_Add (ks : Keystore) : Comp World Keystore :=
  map_err (wrapping ErrCouldNotSaveConfiguration) (Create ks).

(** The first of [ORDER BY created_at DESC]. *)
Definition newestKeystore (l : list Keystore) : option Keystore :=
  foldl (λ acc k,
    match acc with
    | None => Some k
    | Some b => if (ks_CreatedAt b <? ks_CreatedAt k)%Z then Some k else Some b
    end) None l.

Definition Pool_Pop : Comp World Keystore :=
  ks ← map_err (wrapping ErrPoolIsDrained) (db_call (λ _ d,
         match newestKeystore (db_keystores d) with
         | Some k => (d, inr k)
         | None => (d, inl (Wrap ErrNotFound (Some ErrRecordNotFound)))
         end));
  _ ← map_err (wrapping ErrCouldNotRemoveConfiguration) (Delete ks);
  mret ks.

Section Keystores.
Context {E : CertificateEnv} {NU : NewUUID} {PC : PluginCatalog}.

(** * tenantconfigs.go: the default keystore of a tenant *)

Definition getStoredDefaultKeystoreConfig : Comp World (option KeystoreConfig) :=
  r ← try_ (First (λ c, tc_Key c ==s DefaultKeyStore));
  match r with
  | inl err =>
      if negb (errors_Is err ErrNotFound) then fail (wrapping ErrGetDefaultKeystore err) else mret None
  | inr cfg =>
      keystore ← map_err (wrapping ErrUnmarshalConfig) (lift (KeystoreConfig_Unmarshal (tc_Value cfg)));
      mret (Some keystore)
  end.

Definition setDefaultKeystore (keystore : KeystoreConfig) : Comp World unit :=
  map_err (wrapping ErrSetDefaultKeystore)
    (Set_ (mkTenantConfig DefaultKeyStore (KeystoreConfig_Marshal keystore))).

Definition getKeystoreConfigFromPool : Comp World KeystoreConfig :=
  cfg ← map_err (wrapping ErrGetKeystoreFromPool) Pool_Pop;
  map_err (wrapping ErrUnmarshalConfig) (lift (KeystoreConfig_Unmarshal (ks_Config cfg))).

Definition initDefaultKeystoreFromPool : Comp World KeystoreConfig :=
  Transaction
    (keystore ← getKeystoreConfigFromPool;
     _ ← setDefaultKeystore keystore;
     mret keystore).

Definition NeedsDefaultKeystoreProvisioning : Comp World bool :=
  keystore ← getStoredDefaultKeystoreConfig;
  match keystore with
  | None => mret true
  | Some k =>
      let c := kc_KeyManagementConfig k in
      mret ((mc_LocalityID c ==s "") || (size (default ∅ (mc_AccessData c)) =? 0)%nat)
  end.

Definition isBYOKAllowed : bool :=
  match FeatureGates with
  | None => false
  | Some gates => default false (gates !! allowBYOKFeatureGateKey)
  end.

(** The names of the plugins with a tag, in the order of the list. *)
Definition taggedProviders (tag : string) (plugins : list PluginInfo) : list string :=
  pi_Name <$> List.filter (λ p, HasTag (pi_Tags p) tag) plugins.

Record HYOKKeystore := mkHYOKKeystore {
  hk_Provider : list string;
  hk_Allow : bool }.
Record TenantKeystores := mkTenantKeystores {
  tk_BYOK : KeystoreConfig;
  tk_AllowBYOK : bool;
  tk_HYOK : HYOKKeystore }.

Definition string_le (a b : string) : Prop := String.leb a b = true.
#[export] Instance string_le_dec a b : Decision (string_le a b).
Proof. apply bool_eq_dec. Defined.

Definition getTenantConfigsHyokKeystore : HYOKKeystore :=
  match svcCatalog with
  | None => mkHYOKKeystore [] false
  | Some catalog =>
      match KeyManagementList catalog with
      | inl _ => mkHYOKKeystore [] false
      | inr plugins =>
          match taggedProviders KeyTypeHYOK plugins with
          | [] => mkHYOKKeystore [] false
          | providers => mkHYOKKeystore (merge_sort string_le providers) true
          end
      end
  end.

Definition set_SupportedRegions (l : option (list ConfigRegion)) (k : KeystoreConfig) : KeystoreConfig :=
  mkKeystoreConfig (kc_RoleManagementConfig k) (kc_KeyManagementConfig k) (kc_CryptoAccessData k) l.

Definition GetTenantsKeystores : Comp World TenantKeystores :=
  defaultKeystore ← getStoredDefaultKeystoreConfig;
  let byokKeystore := default KeystoreConfig_zero defaultKeystore in
  let byokKeystore := if isBYOKAllowed then set_SupportedRegions KeystorePool_SupportedRegions byokKeystore
                      else byokKeystore in
  mret (mkTenantKeystores byokKeystore isBYOKAllowed getTenantConfigsHyokKeystore).

(** ** Trust *)

(** The first tagged plugin that has a keystore-management client. *)
Fixpoint firstClient (clients : gmap string KeystoreManagement) (plugins : list PluginInfo) :
    option KeystoreManagement :=
  match plugins with
  | [] => None
  | plugin :: plugins' =>
      if HasTag (pi_Tags plugin) DefaultKeyStore
      then match clients !! pi_Name plugin with
           | Some client => Some client
           | None => firstClient clients plugins'
           end
      else firstClient clients plugins'
  end.

Definition getKeystoreManagementClient : Comp World KeystoreManagement :=
  match svcCatalog with
  | None => fail nilDereference
  | Some catalog =>
      clients ← map_err (wrapping ErrGetDefaultKeystore) (lift (KeystoreManagements catalog));
      match KeyManagementList catalog with
      | inl _ | inr [] => fail (Wrapf ErrGetDefaultKeystore "no keystore plugins found")
      | inr plugins =>
          match firstClient clients plugins with
          | Some client => mret client
          | None => fail (Wrapf ErrGetDefaultKeystore "no default keystore management client found")
          end
      end
  end.

(** The configuration map of a certificate, overwritten by the access data. *)
Definition certConfigMap (cert : Certificate) (accessData : option (gmap string JSON)) : gmap string JSON :=
  default ∅ accessData ∪
  <["authType" := JString AuthTypeCertificate]>
    (<["clientCert" := JString (c_CertPEM cert)]> (<["privateKey" := JString (c_PrivateKeyPEM cert)]> ∅)).

Definition getRoleManagementCert (ksConfig : KeystoreConfig) : Comp World Certificate :=
  getDefaultKeystoreClientCert (mc_LocalityID (kc_RoleManagementConfig ksConfig))
    (mc_CommonName (kc_RoleManagementConfig ksConfig)) CertificatePurposeRoleManagement.

Definition buildRoleManagementConfigMap (ksConfig : KeystoreConfig) : Comp World (gmap string JSON) :=
  cert ← getRoleManagementCert ksConfig;
  mret (certConfigMap cert (mc_AccessData (kc_RoleManagementConfig ksConfig))).

Definition grantTrust (client : KeystoreManagement) (config : gmap string JSON) (subject region type : string) :
    Comp World (option (gmap string JSON)) := λ w,
  (set_log (TrustGranted type subject region :: w_log w) w,
   km_GrantTrust client (w_log w) config subject region type).

Definition set_KeyManagementConfig (c : ManagementConfig) (k : KeystoreConfig) : KeystoreConfig :=
  mkKeystoreConfig (kc_RoleManagementConfig k) c (kc_CryptoAccessData k) (kc_SupportedRegions k).
Definition set_CryptoAccessData (m : option (gmap string CryptoConfig)) (k : KeystoreConfig) : KeystoreConfig :=
  mkKeystoreConfig (kc_RoleManagementConfig k) (kc_KeyManagementConfig k) m (kc_SupportedRegions k).

Definition provisionKeyManagementRole (ctx : Ctx) (ksConfig : KeystoreConfig) : Comp World KeystoreConfig :=
  tenantID ← map_err (wrapping ErrGetTenantFromCtx) (lift (ExtractTenantID ctx));
  client ← getKeystoreManagementClient;
  configMap ← buildRoleManagementConfigMap ksConfig;
  let keyMgmtCN := DefaultTenantCertPrefix +:+ defaultKeystoreCertInfix +:+ tenantID in
  let locality := mc_LocalityID (kc_RoleManagementConfig ksConfig) in
  accessData ← map_err (wrapping ErrGrantTrustFailed)
    (grantTrust client configMap keyMgmtCN locality TrustTypeManagement);
  mret (set_KeyManagementConfig (mkManagementConfig locality keyMgmtCN accessData) ksConfig).

Definition grantCryptoRoleTrust (subject region : string) (ksConfig : KeystoreConfig) :
    Comp World (option (gmap string JSON)) :=
  client ← getKeystoreManagementClient;
  configMap ← buildRoleManagementConfigMap ksConfig;
  map_err (wrapping ErrGrantTrustFailed) (grantTrust client configMap subject region TrustTypeCrypto).

(** The configuration and whether it changed; the map is not nil here. *)
Definition syncCert (st : KeystoreConfig * bool) (cert : ClientCertificate) : Comp World (KeystoreConfig * bool) :=
  let '(ksConfig, updated) := st in
  let data := default ∅ (kc_CryptoAccessData ksConfig) in
  match data !! cl_Name cert with
  | Some _ => mret (ksConfig, updated)
  | None =>
      let subject := CertificateSubject_String (cl_Subject cert) in
      accessData ← grantCryptoRoleTrust subject (cl_Name cert) ksConfig;
      mret (set_CryptoAccessData (Some (<[cl_Name cert := mkCryptoConfig subject accessData]> data)) ksConfig, true)
  end.

Definition syncCryptoAccessData (ctx : Ctx) (ksConfig : KeystoreConfig) : Comp World (KeystoreConfig * bool) :=
  cryptoCerts ← lift (getCryptoCertificates ctx);
  match cryptoCerts with
  | [] => mret (ksConfig, false)
  | _ =>
      let ksConfig := set_CryptoAccessData (Some (default ∅ (kc_CryptoAccessData ksConfig))) ksConfig in
      fold_each syncCert (ksConfig, false) cryptoCerts
  end.

Definition ensureKeystoreProvisioned (ctx : Ctx) (ksConfig : KeystoreConfig) : Comp World (KeystoreConfig * bool) :=
  let missing := mc_LocalityID (kc_KeyManagementConfig ksConfig) ==s "" in
  ksConfig ← (if missing then provisionKeyManagementRole ctx ksConfig else mret ksConfig);
  r ← syncCryptoAccessData ctx ksConfig;
  mret (r.1, missing || r.2).

(** Every manager is made with a certificate manager. *)
Definition GetDefaultKeystoreConfig (ctx : Ctx) : Comp World KeystoreConfig :=
  stored ← getStoredDefaultKeystoreConfig;
  match stored with
  | None => initDefaultKeystoreFromPool
  | Some keystore =>
      match svcCatalog with
      | None => mret keystore
      | Some _ =>
          r ← ensureKeystoreProvisioned ctx keystore;
          if negb r.2 then mret r.1
          else _ ← setDefaultKeystore r.1; mret r.1
      end
  end.

(** * providerconfigmanager.go *)

Definition GetDefaultKeystoreFromCatalog : Comp World string :=
  match svcCatalog with
  | None => fail (Wrapf ErrGetDefaultKeystore "no plugin catalog available")
  | Some catalog =>
      match KeyManagementList catalog with
      | inl _ | inr [] => fail (Wrapf ErrGetDefaultKeystore "no keystore plugins found in catalog")
      | inr plugins =>
          match taggedProviders DefaultKeyStore plugins with
          | [] => fail (Wrapf ErrGetDefaultKeystore "no keystore provider selected as default")
          | [provider] => mret provider
          | providers =>
              fail (Wrapf ErrGetDefaultKeystore
                      ("multiple keystore providers found as default: [" +:+ String.concat " " providers +:+ "]"))
          end
      end
  end.

Definition getDefaultKeystoreConfig (ctx : Ctx) : Comp World (gmap string JSON * Z) :=
  ksConfig ← GetDefaultKeystoreConfig ctx;
  let c := kc_KeyManagementConfig ksConfig in
  keyManagementCert ← getDefaultKeystoreClientCert (mc_LocalityID c) (mc_CommonName c)
    CertificatePurposeKeyManagement;
  mret (certConfigMap keyManagementCert (mc_AccessData c), c_ExpirationDate keyManagementCert).

Definition getHYOKKeystoreConfig (ctx : Ctx) : Comp World (gmap string JSON * Z) :=
  cert ← getDefaultHYOKClientCert ctx;
  mret (certConfigMap cert None, c_ExpirationDate cert).

Definition getKeystoreConfig (ctx : Ctx) (keystoreName : string) : Comp World (gmap string JSON * Z) :=
  if keystoreName ==s DefaultKeyStore then getDefaultKeystoreConfig ctx
  else if keystoreName ==s HYOKKeyStore then getHYOKKeystoreConfig ctx
  else fail ErrInvalidKeystore.

(** [ProviderConfig.IsExpired] *)
Definition ProviderConfig_IsExpired (now : Z) (c : gmap string JSON * Z) : bool := (c.2 <? now)%Z.

Definition pluginClient (provider : string) : Comp World KeyManagement :=
  match svcCatalog with
  | None => fail nilDereference
  | Some catalog =>
      match cat_KeyManagements catalog with
      | inl _ => fail (Wrapf ErrPluginNotFound provider)
      | inr keyManagements =>
          match keyManagements !! provider with
          | Some client => mret client
          | None => fail (Wrapf ErrPluginNotFound provider)
          end
      end
  end.

(** What is cached is the configuration; the client of a provider is the one of the
    catalog, which does not change. *)
Definition GetOrInitProvider (ctx : Ctx) (key : Key) : Comp World ProviderConfig :=
  tenant ← map_err (wrapping ErrGetTenantFromCtx) (lift (ExtractTenantID ctx));
  let keystoreName := if k_KeyType key ==s KeyTypeHYOK then HYOKKeyStore else DefaultKeyStore in
  provider ← (if keystoreName ==s DefaultKeyStore then GetDefaultKeystoreFromCatalog else mret (k_Provider key));
  let compositeKey := (keystoreName, provider, tenant) in
  w ← get;
  let init : Comp World ProviderConfig :=
    config ← map_err (wrapping ErrConfigNotFound) (getKeystoreConfig ctx keystoreName);
    client ← pluginClient provider;
    _ ← modify (λ w, set_providers (<[compositeKey := config]> (w_providers w)) w);
    mret (mkProviderConfig config.1 client config.2) in
  match w_providers w !! compositeKey with
  | Some cfg =>
      if ProviderConfig_IsExpired (w_now w) cfg then init
      else client ← pluginClient provider; mret (mkProviderConfig cfg.1 client cfg.2)
  | None => init
  end.

(** ** Filling the pool *)

Definition createKeystoreCall (provider : string) (client : KeystoreManagement) :
    Comp World CreateKeystoreResponse := λ w,
  (set_log (KeystoreCreated provider :: w_log w) w, km_CreateKeystore client (w_log w)).

Definition CreateKeystore : Comp World (string * JSON) :=
  provider ← GetDefaultKeystoreFromCatalog;
  match svcCatalog with
  | None => fail nilDereference
  | Some catalog =>
      match KeystoreManagements catalog with
      | inl _ => fail (Wrapf ErrPluginNotFound provider)
      | inr keystoreManagements =>
          match keystoreManagements !! provider with
          | None => fail (Wrapf ErrPluginNotFound provider)
          | Some client =>
              resp ← map_err (λ err, if is_error err
                                     then Wrapf ErrCreateKeystore
                                            ("provider: " +:+ provider +:+ ", error: " +:+ Error err)
                                     else err)
                (createKeystoreCall provider client);
              mret (provider, ToKeystoreConfig resp)
          end
      end
  end.

Definition AddKeystoreToPool (provider : string) (config : JSON) : Comp World unit :=
  w ← get;
  _ ← map_err (wrapping ErrAddConfigToPool) (Pool_Add (mkKeystore 0 (uuid_New w) provider config));
  mret tt.

Definition fillOne : Comp World unit :=
  r ← CreateKeystore; AddKeystoreToPool r.1 r.2.

Definition FillKeystorePool (size : Z) : Comp World unit :=
  count ← map_err (wrapping ErrCountKeystorePool) Pool_Count;
  for_each (λ _ : nat, fillOne) (seq 0 (Z.to_nat (size - count))).
End Keystores.
