(* ===== verification/KeystoreFacts.v ===== *)
(** Certificates, the keystore pool and the provisioning of a tenant's keystore. *)
From S2P Require Import Prelude Errs Json GoContext Model Store Batch Frames KeyAccess.
From S2P Require Import KeyVersions Keys Certificates TenantConfig Keystores.

(** * Preparing a keystore

    It writes certificates, the tenant's configuration and the pool, and nothing else. *)
Definition prov_frame (d : DB) : DB :=
  set_certificates [] (set_tenantConfigs [] (set_public (mkPublic (db_tenants d) []) d)).

Section Certificates.
Context {E : CertificateEnv} {NU : NewUUID}.
Context {Y} (frame : DB → Y) (R : World → World → Prop) `{!FrameRule frame R}.
Hypothesis Hcerts : ∀ l d, frame (set_certificates l d) = frame d.

Lemma getCertificateByPurpose_frame purpose : preserves R (getCertificateByPurpose purpose).
Proof using FrameRule0.
  unfold getCertificateByPurpose. framed. eapply fr_call. intros now d. by destruct (latest _).
Qed.
Lemma issueCertificate_frame args pem : preserves R (issueCertificate args pem).
Proof using FrameRule0. intros w. unfold issueCertificate. destruct certIssuer; [by eapply fr_log|done]. Qed.
#[local] Hint Resolve getCertificateByPurpose_frame issueCertificate_frame : cmk.
Lemma getNewCertificate_frame pk args : preserves R (getNewCertificate pk args).
Proof using FrameRule0 Hcerts. unfold getNewCertificate, generatePrivateKey. framed. Qed.
Lemma UpdateCertificate_frame id b : preserves R (UpdateCertificate id b).
Proof using FrameRule0 Hcerts. unfold UpdateCertificate, GetCertificate. framed. Qed.
#[local] Hint Resolve getNewCertificate_frame UpdateCertificate_frame : cmk.
Lemma RequestNewCertificate_frame pk args : preserves R (RequestNewCertificate pk args).
Proof using FrameRule0 Hcerts. unfold RequestNewCertificate, isCertWithPurposeExist. framed. Qed.
#[local] Hint Resolve RequestNewCertificate_frame : cmk.
Lemma getDefaultKeystoreClientCert_frame l n u : preserves R (getDefaultKeystoreClientCert l n u).
Proof using FrameRule0 Hcerts. unfold getDefaultKeystoreClientCert. framed. Qed.
Lemma getHYOKKeystoreConfig_frame ctx : preserves R (getHYOKKeystoreConfig ctx).
Proof using FrameRule0 Hcerts.
  unfold getHYOKKeystoreConfig, getDefaultHYOKClientCert, RotateCertificate. framed.
Qed.
End Certificates.

Section Provision.
Context {E : CertificateEnv} {NU : NewUUID} {PC : PluginCatalog}.
Context (R : World → World → Prop) `{!FrameRule prov_frame R}.

#[local] Hint Extern 2 (preserves _ (getDefaultKeystoreClientCert _ _ _)) =>
  by eapply (getDefaultKeystoreClientCert_frame prov_frame) : cmk.
#[local] Hint Extern 2 (preserves _ (getHYOKKeystoreConfig _)) =>
  by eapply (getHYOKKeystoreConfig_frame prov_frame) : cmk.

Lemma Pool_Pop_frame : preserves R Pool_Pop.
Proof using All.
  unfold Pool_Pop. framed.
  - eapply fr_call. intros now d. by destruct (newestKeystore _).
  - by eapply Delete_frame.
Qed.
Lemma grantTrust_frame c m s r t : preserves R (grantTrust c m s r t).
Proof using All. intros w. by eapply fr_log. Qed.
Lemma getKeystoreManagementClient_frame : preserves R getKeystoreManagementClient.
Proof using All. unfold getKeystoreManagementClient. framed. Qed.
#[local] Hint Resolve Pool_Pop_frame grantTrust_frame getKeystoreManagementClient_frame : cmk.
Lemma setDefaultKeystore_frame ks : preserves R (setDefaultKeystore ks).
Proof using All. unfold setDefaultKeystore. framed. Qed.
#[local] Hint Resolve setDefaultKeystore_frame : cmk.
Lemma syncCert_frame st c : preserves R (syncCert st c).
Proof using All.
  unfold syncCert, grantCryptoRoleTrust, buildRoleManagementConfigMap, getRoleManagementCert. framed.
Qed.
#[local] Hint Resolve syncCert_frame : cmk.
Lemma ensureKeystoreProvisioned_frame ctx c : preserves R (ensureKeystoreProvisioned ctx c).
Proof using All.
  unfold ensureKeystoreProvisioned, provisionKeyManagementRole, buildRoleManagementConfigMap,
    getRoleManagementCert, syncCryptoAccessData. framed.
Qed.
#[local] Hint Resolve ensureKeystoreProvisioned_frame : cmk.
Lemma getDefaultKeystoreConfig_frame ctx : preserves R (getDefaultKeystoreConfig ctx).
Proof using All.
  unfold getDefaultKeystoreConfig, GetDefaultKeystoreConfig, getStoredDefaultKeystoreConfig,
    initDefaultKeystoreFromPool, getKeystoreConfigFromPool. framed.
Qed.
#[local] Hint Resolve getDefaultKeystoreConfig_frame : cmk.

Lemma GetOrInitProvider_frame ctx key : preserves R (Keystores.GetOrInitProvider ctx key).
Proof using All.
  unfold Keystores.GetOrInitProvider, getKeystoreConfig, pluginClient, GetDefaultKeystoreFromCatalog. framed.
Qed.
End Provision.

(** * Documents *)

Lemma decode_members_map {A} (value : JSON → error + A) (enc : A → JSON) (l : list (string * A))
    (acc : gmap string A) :
  (∀ a, value (enc a) = inr a) → NoDup l.*1 →
  decode_members
    (λ m kv, match value kv.2 with inl e => inl e | inr a => inr (<[kv.1 := a]> m) end) acc
    (prod_map id enc <$> l) = inr ((list_to_map l : gmap string A) ∪ acc).
Proof.
  intros Hv. revert acc. induction l as [|[k a] l IH]; intros acc Hnd; cbn.
  { by rewrite map_empty_union. }
  apply NoDup_cons in Hnd as [Hk Hnd]. rewrite Hv, IH by done. f_equal.
  rewrite <-insert_union_l, insert_union_r; [done|]. by apply not_elem_of_list_to_map.
Qed.

Lemma decode_map_roundtrip {A} (value : JSON → error + A) (enc : A → JSON) (m : gmap string A) :
  (∀ a, value (enc a) = inr a) →
  decode_map value (JObject (prod_map id enc <$> map_to_list m)) = inr (Some m).
Proof.
  intros Hv. unfold decode_map. rewrite decode_members_map; [|done|apply NoDup_fst_map_to_list].
  by rewrite list_to_map_to_list, map_union_empty.
Qed.
Lemma any_map_roundtrip (m : option (gmap string JSON)) : decode_map decode_any (any_map_Marshal m) = inr m.
Proof.
  destruct m as [m|]; [|done]. cbn [any_map_Marshal]. rewrite <-(decode_map_roundtrip decode_any id m) by done.
  f_equal. f_equal. rewrite <-(list_fmap_id (map_to_list m)) at 1. apply list_fmap_ext. by intros ? [].
Qed.
Lemma decode_list_roundtrip {A} (value : JSON → error + A) (enc : A → JSON) (l : list A) :
  (∀ a, value (enc a) = inr a) → decode_list value (JArray (enc <$> l)) = inr (Some l).
Proof.
  intros Hv. cbn. assert (decode_each value (enc <$> l) = inr l) as ->; [|done].
  induction l as [|a l IH]; cbn; [done|]. by rewrite Hv, IH.
Qed.

Lemma ManagementConfig_roundtrip c zero :
  decode_struct ManagementConfig_member zero (ManagementConfig_Marshal c) = inr c.
Proof.
  destruct c as [l n a], zero. unfold ManagementConfig_Marshal. cbn -[decode_map any_map_Marshal].
  unfold doc_member. by rewrite any_map_roundtrip.
Qed.
Lemma CryptoConfig_roundtrip c zero :
  decode_struct CryptoConfig_member zero (CryptoConfig_Marshal c) = inr c.
Proof.
  destruct c as [s a], zero. unfold CryptoConfig_Marshal. cbn -[decode_map any_map_Marshal].
  unfold doc_member. by rewrite any_map_roundtrip.
Qed.
Lemma regions_roundtrip l :
  decode_list (decode_struct ConfigRegion_member (mkConfigRegion "" "")) (regions_Marshal l) = inr l.
Proof. destruct l as [l|]; [|done]. apply decode_list_roundtrip. by intros []. Qed.

(** Compare the names of members that are known. *)
Ltac fold_names :=
  repeat match goal with
  | |- context [EqualFold ?a ?b] => let v := eval vm_compute in (EqualFold a b) in change (EqualFold a b) with v
  end; cbv iota.

Lemma crypto_roundtrip (d : option (gmap string CryptoConfig)) :
  decode_map (decode_struct CryptoConfig_member (mkCryptoConfig "" None))
    match d with None => JNull | Some m => JObject (prod_map id CryptoConfig_Marshal <$> map_to_list m) end = inr d.
Proof.
  destruct d as [d|]; [|done]. apply decode_map_roundtrip. intros c. apply CryptoConfig_roundtrip.
Qed.

Lemma keystore_config_roundtrip c : KeystoreConfig_Unmarshal (KeystoreConfig_Marshal c) = inr c.
Proof.
  destruct c as [r m d g]. unfold KeystoreConfig_Unmarshal, KeystoreConfig_Marshal, decode_struct at 1.
  cbn [kc_RoleManagementConfig kc_KeyManagementConfig kc_CryptoAccessData kc_SupportedRegions].
  cbn [decode_members KeystoreConfig_zero KeystoreConfig_member]. fold_names. unfold doc_member.
  rewrite ManagementConfig_roundtrip. cbn [decode_members KeystoreConfig_member]. fold_names.
  rewrite ManagementConfig_roundtrip. cbn [decode_members KeystoreConfig_member]. fold_names.
  rewrite crypto_roundtrip. cbn [decode_members KeystoreConfig_member]. fold_names.
  by rewrite regions_roundtrip.
Qed.

(** What a keystore plugin answers is read back from the pool as it was given. *)
Definition config_of (c : CreateKeystoreResponse) : KeystoreConfig :=
  mkKeystoreConfig (cr_RoleManagementConfig c) (cr_KeyManagementConfig c) None (cr_SupportedRegions c).
Lemma toConfig_roundtrip c zero : decode_struct ManagementConfig_member zero (toConfig c) = inr c.
Proof.
  destruct c as [l n a], zero. unfold toConfig. cbn -[decode_map any_map_Marshal].
  unfold doc_member. by rewrite any_map_roundtrip.
Qed.
Lemma pool_config_roundtrip c : KeystoreConfig_Unmarshal (ToKeystoreConfig c) = inr (config_of c).
Proof.
  destruct c as [r m g]. unfold KeystoreConfig_Unmarshal, ToKeystoreConfig, decode_struct at 1, config_of.
  cbn [cr_RoleManagementConfig cr_KeyManagementConfig cr_SupportedRegions].
  cbn [decode_members KeystoreConfig_zero KeystoreConfig_member]. fold_names. unfold doc_member.
  rewrite toConfig_roundtrip. cbn [decode_members KeystoreConfig_member]. fold_names.
  rewrite toConfig_roundtrip. cbn [decode_members KeystoreConfig_member]. fold_names.
  by rewrite regions_roundtrip.
Qed.

(** * The pool *)

Section Pool.
Context {E : CertificateEnv} {NU : NewUUID} {PC : PluginCatalog}.

(** How often a keystore was asked for. *)
Definition is_created (e : Effect) : bool := match e with KeystoreCreated _ => true | _ => false end.
Definition created (w : World) : nat := length (List.filter is_created (w_log w)).
Definition pool (w : World) : list Keystore := db_keystores (w_db w).

Lemma Create_log {T} `{!Resource T} (x : T) w w' r : Create x w = (w', r) → w_log w' = w_log w.
Proof.
  unfold Create, db_call. destruct (head _) as [[e|]|]; [by intros [= <- _]|..];
    match goal with |- context [let '(d, r) := ?x in _] => destruct x as [? [|]] end; by intros [= <- _].
Qed.

Lemma Count_db {T} `{!Resource T} (q : Query T) w w' r :
  Count q w = (w', r) → w_db w' = w_db w ∧ w_log w' = w_log w.
Proof. unfold Count, db_call. destruct (head _) as [[e|]|]; by intros [= <- _]. Qed.
Lemma select_all {T} (l : list T) : select (λ _, true) l = l.
Proof. induction l; [done|]. cbn. by f_equal. Qed.

Lemma CreateKeystore_pool w w' r :
  CreateKeystore w = (w', r) → w_db w' = w_db w ∧ created w ≤ created w' ≤ S (created w).
Proof.
  assert (∀ w : World, w_db w = w_db w ∧ created w ≤ created w ≤ S (created w)) as Hid by (split; [done|lia]).
  unfold CreateKeystore. intros H. apply bind_inv in H as [(e & H & ->)|(w1 & p & H1 & H)].
  { unfold GetDefaultKeystoreFromCatalog in H. repeat case_match; injection H as <- _; apply Hid. }
  assert (w1 = w) as ->.
  { unfold GetDefaultKeystoreFromCatalog in H1. repeat case_match; try discriminate H1; by injection H1 as <-. }
  destruct svcCatalog as [c|]; [|injection H as <- _; apply Hid].
  destruct (KeystoreManagements c) as [e|ms]; [injection H as <- _; apply Hid|].
  destruct (ms !! p) as [client|]; [|injection H as <- _; apply Hid].
  assert (w' = set_log (KeystoreCreated p :: w_log w) w) as ->.
  { apply bind_inv in H as [(e & H & ->)|(w1 & resp & H2%map_err_ok & H)].
    - apply map_err_err in H as (e' & H & _). by injection H as <-.
    - injection H2 as <- _. by injection H as <-. }
  unfold created. cbn. split; [done|lia].
Qed.

Lemma AddKeystoreToPool_pool p c w w' r :
  AddKeystoreToPool p c w = (w', r) →
  w_log w' = w_log w ∧ match r with inl _ => pool w' = pool w | inr _ => ∃ ks, pool w' = pool w ++ [ks] end.
Proof.
  intros H. unfold AddKeystoreToPool, Pool_Add in H.
  apply bind_inv in H as [(e & [=] & _)|(w2 & a & [= <- <-] & H)].
  apply bind_inv in H as [(e & H & ->)|(w3 & b & H & H3)].
  - do 2 (apply map_err_err in H as (? & H & _)). split; [apply (Create_log _ _ _ _ H)|].
    unfold pool. by rewrite (Create_err _ _ _ _ H).
  - do 2 apply map_err_ok in H. injection H3 as <- <-. split; [apply (Create_log _ _ _ _ H)|].
    destruct (Create_ok _ _ _ _ H) as (x & _ & _ & _ & D). exists b. unfold pool. by rewrite D.
Qed.

Lemma fillOne_pool w w' r :
  fillOne w = (w', r) →
  created w ≤ created w' ≤ S (created w) ∧
  match r with inl _ => pool w' = pool w | inr _ => ∃ ks, pool w' = pool w ++ [ks] end.
Proof.
  intros H. apply bind_inv in H as [(e & H & ->)|(w1 & [p c] & H1 & H)].
  { apply CreateKeystore_pool in H as [Hd Hc]. split; [done|]. unfold pool. by rewrite Hd. }
  apply CreateKeystore_pool in H1 as [D1 C1]. apply AddKeystoreToPool_pool in H as [Hl Hp].
  unfold created in *. rewrite Hl. split; [done|]. unfold pool in *. by rewrite <-D1.
Qed.

Lemma fill_pool l w w' r :
  for_each (λ _ : nat, fillOne) l w = (w', r) →
  created w ≤ created w' ≤ created w + length l ∧
  ∃ added, pool w' = pool w ++ added ∧ length added ≤ length l ∧ (r = inr tt → length added = length l).
Proof.
  revert w. induction l as [|x l IH]; intros w H.
  { injection H as <- <-. split; [cbn; lia|]. exists []. by rewrite app_nil_r. }
  apply bind_inv in H as [(e & H & ->)|(w1 & [] & H1 & H)].
  - apply fillOne_pool in H as [Hc Hp]. split; [cbn; lia|]. exists []. rewrite app_nil_r. split_and!; [done|cbn; lia|done].
  - apply fillOne_pool in H1 as [Hc (ks & Hp)]. apply IH in H as (Hc' & added & Hp' & Hl & Hr).
    split; [cbn; lia|]. exists (ks :: added). rewrite Hp', Hp, <-app_assoc. split_and!; [done|cbn; lia|].
    intros ->. cbn. by rewrite Hr.
Qed.

(** C22: filling the pool stops at its size.  The keystores that were there stay, new
    ones are added after them, never more than the configured size asks for, and never
    more are requested from the provider than are missing; a run that succeeds leaves
    exactly the larger of the old number and the size. *)
Theorem fill_pool_bounds (n : Z) w :
  let '(w', r) := FillKeystorePool n w in
  let old := Z.of_nat (length (pool w)) in
  (∃ added, pool w' = pool w ++ added) ∧
  (old ≤ Z.of_nat (length (pool w')) ≤ Z.max old n)%Z ∧
  (Z.of_nat (created w') ≤ Z.of_nat (created w) + Z.max 0 (n - old))%Z ∧
  (r = inr tt → Z.of_nat (length (pool w')) = Z.max old n).
Proof.
  destruct (FillKeystorePool n w) as [w' r] eqn:H. cbv zeta.
  apply bind_inv in H as [(e & H & ->)|(w1 & c & H1%map_err_ok & H)].
  - apply map_err_err in H as (e' & H & _). pose proof (Count_db _ _ _ _ H) as [Hd Hl].
    unfold pool, created. rewrite Hd, Hl. split_and!; [by exists []; rewrite app_nil_r|lia..|done].
  - pose proof (Count_db _ _ _ _ H1) as [Hd Hl]. apply Count_ok in H1. cbn in H1. rewrite select_all in H1.
    apply fill_pool in H as (Hc & added & Hp & Hn & Hr). rewrite length_seq in *.
    unfold pool, created in *. rewrite Hd, Hl in *. rewrite Hp, length_app. split_and!; [by eexists|lia..|].
    intros ->. specialize (Hr eq_refl). lia.
Qed.

(** ** From the pool to a tenant *)

(** After a value was saved, every row of its key holds it, and there is one. *)
Lemma Set_config k v w w' :
  Set_ (mkTenantConfig k v) w = (w', inr tt) →
  (∃ l, w_db w' = set_tenantConfigs l (w_db w)) ∧
  ∃ c l, select (λ c, tc_Key c ==s k) (db_tenantConfigs (w_db w')) = c :: l ∧ tc_Value c = v.
Proof.
  intros H. apply Set_ok in H as (x & [= <-] & [[He D]|[He D]]); rewrite D; (split; [by eexists|]); cbn.
  - apply existsb_exists in He as (c & Hc & Hk). cbn in Hk. clear D.
    change (rows (w_db w)) with (db_tenantConfigs (w_db w)) in Hc |- *.
    induction (db_tenantConfigs (w_db w)) as [|y l IH]; [done|]. cbn. destruct (String.eqb_spec k (tc_Key y)) as [Hy|Hy].
    + cbn. rewrite String.eqb_refl. by eexists _, _.
    + rewrite (proj2 (String.eqb_neq _ _)) by congruence. apply IH. destruct Hc as [->|Hc]; [|done].
      by apply String.eqb_eq in Hk.
  - exists (mkTenantConfig k v). unfold select. rewrite List.filter_app. cbn. rewrite String.eqb_refl.
    destruct (List.filter _ _) as [|y l] eqn:Hl; [by eexists|]. exfalso.
    assert (In y (List.filter (λ c, tc_Key c ==s k) (db_tenantConfigs (w_db w)))) as Hi by (rewrite Hl; by left).
    apply filter_In in Hi as [Hi Hk]. apply not_true_iff_false in He. apply He, existsb_exists.
    exists y. split; [done|]. cbn. by rewrite String.eqb_sym.
Qed.

Lemma Pool_Pop_ok w w' ks :
  Pool_Pop w = (w', inr ks) →
  newestKeystore (pool w) = Some ks ∧
  w_db w' = set_keystores (select (λ k, negb (N.eqb (ks_ID ks) (ks_ID k))) (pool w)) (w_db w).
Proof.
  intros (w1 & k & H1%map_err_ok & H)%bind_ok. apply db_call_ok in H1.
  apply bind_ok in H as (w2 & b & H2%map_err_ok & [= <- <-]).
  destruct (newestKeystore (db_keystores (w_db w))) as [k0|] eqn:Hk; [|done]. injection H1 as D1 ->.
  split; [done|]. apply Delete_ok in H2 as [_ D2]. rewrite D2, <-D1. done.
Qed.

Lemma stored_keystore w c l cfg :
  w_faults w = [] → select (λ c, tc_Key c ==s DefaultKeyStore) (db_tenantConfigs (w_db w)) = c :: l →
  tc_Value c = KeystoreConfig_Marshal cfg → (getStoredDefaultKeystoreConfig w).2 = inr (Some cfg).
Proof.
  intros Hf Hs Hv. unfold getStoredDefaultKeystoreConfig.
  assert (∃ w1, First (λ c, tc_Key c ==s DefaultKeyStore) w = (w1, inr c)) as (w1 & H).
  { unfold First, db_call. rewrite Hf. cbn [head]. change (rows (w_db w)) with (db_tenantConfigs (w_db w)).
    rewrite Hs. by eexists. }
  unfold mbind, M_bind at 1, try_. rewrite H, Hv. unfold M_bind, map_err, lift. by rewrite keystore_config_roundtrip.
Qed.

(** C21: a tenant gets its keystore from the pool exactly once.  Taking one removes the
    newest keystore from the pool and nothing else, and from then on the tenant's
    stored configuration is the one that keystore was created with; when any step
    fails, the keystore is still in the pool and the database is unchanged. *)
Theorem keystore_handover w w' r :
  w_inTx w = false → initDefaultKeystoreFromPool w = (w', r) →
  match r with
  | inl _ => w_db w' = w_db w
  | inr cfg => ∃ ks, newestKeystore (pool w) = Some ks ∧ KeystoreConfig_Unmarshal (ks_Config ks) = inr cfg ∧
      pool w' = select (λ k, negb (N.eqb (ks_ID ks) (ks_ID k))) (pool w) ∧
      ∀ w2, w_db w2 = w_db w' → w_faults w2 = [] → (getStoredDefaultKeystoreConfig w2).2 = inr (Some cfg)
  end.
Proof.
  intros Hx H. destruct r as [e|cfg]; [by apply (Transaction_rollback _ _ _ _ Hx H)|].
  apply Transaction_commit in H as (w1 & H & ->); [|done]. apply bind_ok in H as (w2 & c & H2 & H).
  apply bind_ok in H2 as (w3 & ks & H3%map_err_ok & H2). apply map_err_ok in H2.
  apply Pool_Pop_ok in H3 as [Hks D3]. apply bind_ok in H as (w4 & [] & H4%map_err_ok & [= <- <-]).
  destruct (KeystoreConfig_Unmarshal (ks_Config ks)) as [e|c'] eqn:Hc; [done|]. injection H2 as <- <-.
  apply Set_config in H4 as [(l & D4) (row & l' & Hrow & Hv)]. exists ks. split_and!; [done..| |].
  - unfold pool. cbn. rewrite D4, D3. done.
  - intros w5 D5 Hf. eapply stored_keystore; [done| |exact Hv]. by rewrite D5.
Qed.
End Pool.
