(* ===== verification/Groups.v ===== *)
(** The group manager: internal/manager/group.go, with the identity-management
    plugin (outside the repository) as a parameter.  The theorems show that the
    mandatory groups of a tenant cannot be changed or removed and that no key
    configuration loses its admin group. *)
From S2P Require Import Prelude Errs Json GoContext AuthzPolicies Authz Model Store Batch Users.

Definition ErrCreateGroups := New "manager.ErrCreateGroups" "failed to create group from database".
Definition ErrUpdateGroups := New "manager.ErrUpdateGroups" "failed to update group from database".
Definition ErrDeleteGroups := New "manager.ErrDeleteGroups" "failed to delete group from database".
Definition ErrInvalidGroupUpdate := New "manager.ErrInvalidGroupUpdate" "group cannot be updated".
Definition ErrInvalidGroupDelete := New "manager.ErrInvalidGroupDelete" "group cannot be deleted".
Definition ErrNameCannotBeEmpty := New "manager.ErrNameCannotBeEmpty" "name field cannot be empty".
Definition ErrGroupRole := New "manager.ErrGroupRole" "unsupported role for group creation".
Definition ErrOnboardingInProgress :=
  New "manager.ErrOnboardingInProgress" "another onboarding is already in progress".
Definition ErrCreatingGroups :=
  New "manager.ErrCreatingGroups" "creating user groups for existing tenant".
Definition ErrEmptyTenantID := New "manager.ErrEmptyTenantID" "tenantID cannot be empty".
Definition ErrInvalidGroupType := New "manager.ErrInvalidGroupType" "invalid group type".
Definition ErrLoadIdentityManagementPlugin :=
  New "manager.ErrLoadIdentityManagementPlugin" "failed to load identity management plugin".
Definition ErrAutoAssignApprover :=
  New "manager.ErrAutoAssignApprover" "failed to auto assign approver".
Definition ErrCheckIAMExistenceOfGroups :=
  New "manager.ErrCheckIAMExistenceOfGroups" "failed to check IAM existence of groups".

Definition TenantAdminGroup : string := "TenantAdministrator".
Definition TenantAuditorGroup : string := "TenantAuditor".

(** The identity-management plugin of the service registry; its answers do not
    change during one request.  A group is looked up by name and its members are
    listed by the identifier the lookup returned. *)
Class IDM := {
  svcRegistry : option (error + unit);
  idm_GetGroup : string → gmap string string → error + string;
  idm_ListGroupUsers : string → gmap string string → error + list string;
  idm_GetUser : string → gmap string string → error + string;
  idm_isNotFound : error → bool }.

(** [cmkapi.GroupPatch] *)
Record GroupPatch := mkGroupPatch {
  gp_Name : option string;
  gp_Description : option string;
  gp_IAMIdentifier : option string }.

Definition isMandatoryGroup (group : Group) : bool :=
  (g_Name group ==s TenantAdminGroup) || (g_Name group ==s TenantAuditorGroup).

Definition isReservedName (patchGroup : GroupPatch) : bool :=
  match gp_Name patchGroup with
  | None => false
  | Some name => isMandatoryGroup (mkGroup 0 name "" "" "")
  end.

Definition isSupportedRole (group : Group) : bool :=
  g_Role group ∈? [TenantAdminRole; TenantAuditorRole; KeyAdminRole].

(** The condition [applyIAMGroupFilter] adds; a failed extraction is only logged and
    leaves the list of identifiers empty. *)
Definition applyIAMGroupFilter (ctx : Ctx) (g : Group) : bool :=
  match ExtractBusinessUserDataGroupsString ctx with
  | inl _ => byIAM [] g
  | inr iamIdentifiers => byIAM iamIdentifiers g
  end.

Definition BuildIAMIdentifier (groupType tenantID : string) : error + string :=
  if tenantID ==s "" then inl ErrEmptyTenantID
  else if negb (groupType ==s TenantAdminGroup) && negb (groupType ==s TenantAuditorGroup)
  then inl ErrInvalidGroupType
  else inr (NewIAMIdentifier groupType tenantID).

Section Groups.
Context {NS : NewString} {I : IDM}.

Definition GetIdentityManagementPlugin : error + unit :=
  match svcRegistry with
  | None => inl (Wrapf ErrLoadIdentityManagementPlugin "plugin catalog is not initialized")
  | Some r => r
  end.

Definition GetGroups (ctx : Ctx) (pagination : Pagination) : Comp World (list Group * Z) :=
  isGroupFiltered ← NeedsGroupFiltering ctx APIActionRead APIResourceTypeUserGroup;
  ListAndCount pagination
    (where_ (λ g, if (isGroupFiltered : bool) then applyIAMGroupFilter ctx g else true)).

Definition CreateGroup (group : Group) : Comp World Group :=
  if negb (isSupportedRole group) then fail ErrGroupRole
  else map_err (wrapping ErrCreateGroups) (Create group).

Definition GetGroupByID (ctx : Ctx) (id : uuid) : Comp World Group :=
  isGroupFiltered ← NeedsGroupFiltering ctx APIActionRead APIResourceTypeUserGroup;
  map_err (wrapping ErrGetGroups)
    (First (λ g, byID id (g_ID g) &&
                 (if (isGroupFiltered : bool) then applyIAMGroupFilter ctx g else true))).

Definition DeleteGroupByID (ctx : Ctx) (id : uuid) : Comp World unit :=
  group ← map_err (wrapping ErrDeleteGroups) (GetGroupByID ctx id);
  if isMandatoryGroup group then fail ErrInvalidGroupDelete
  else
    found ← attempt (First (λ k, N.eqb (kc_AdminGroupID k) id));
    match found with
    | inr _ => fail ErrInvalidGroupDelete
    | inl err =>
        if negb (errors_Is err ErrNotFound) then fail (wrapping ErrGetGroups err)
        else
          _ ← map_err (wrapping ErrDeleteGroups) (Delete (mkGroup id "" "" "" ""));
          mret tt
    end.

Definition UpdateGroup (ctx : Ctx) (id : uuid) (patchGroup : GroupPatch) : Comp World Group :=
  group ← GetGroupByID ctx id;
  if isMandatoryGroup group || isReservedName patchGroup then fail ErrInvalidGroupUpdate
  else
    if bool_decide (gp_Name patchGroup = Some "") then fail (Wrap ErrNameCannotBeEmpty None)
    else
      let ptr_or (p : option string) (old : string) := match p with Some v => v | None => old end in
      let group := mkGroup (g_ID group) (ptr_or (gp_Name patchGroup) (g_Name group))
        (ptr_or (gp_Description patchGroup) (g_Description group)) (g_Role group)
        (ptr_or (gp_IAMIdentifier patchGroup) (g_IAMIdentifier group)) in
      _ ← map_err (wrapping ErrUpdateGroups) (Patch group []);
      mret group.

Definition createDefaultGroup (group : Group) : Comp World unit :=
  _ ← map_err (λ err,
        wrapping ErrCreatingGroups
          (if errors_Is err ErrUniqueConstraint then wrapping ErrOnboardingInProgress err else err))
      (CreateGroup group);
  mret tt.

(** [adminID] and [auditorID] are the values of [uuid.New()]. *)
Definition CreateDefaultGroups (adminID auditorID : uuid) (ctx : Ctx) : Comp World unit :=
  tenantID ← map_err (wrapping ErrCreateGroups) (lift (ExtractTenantID ctx));
  let iamAdmin := NewIAMIdentifier TenantAdminGroup tenantID in
  let iamAuditor := NewIAMIdentifier TenantAuditorGroup tenantID in
  Transaction
    (_ ← createDefaultGroup (mkGroup adminID TenantAdminGroup "" TenantAdminRole iamAdmin);
     createDefaultGroup (mkGroup auditorID TenantAuditorGroup "" TenantAuditorRole iamAuditor)).

(** Whether each group exists in the identity management. *)
Fixpoint checkExistence (authCtx : gmap string string) (iamIdentifiers : list string) :
    error + list (string * bool) :=
  match iamIdentifiers with
  | [] => inr []
  | name :: rest =>
      match idm_GetGroup name authCtx with
      | inl err =>
          if idm_isNotFound err then
            match checkExistence authCtx rest with
            | inl e => inl e
            | inr result => inr ((name, false) :: result)
            end
          else inl (Wrap ErrCheckIAMExistenceOfGroups (Some err))
      | inr _ =>
          match checkExistence authCtx rest with
          | inl e => inl e
          | inr result => inr ((name, true) :: result)
          end
      end
  end.

Definition CheckIAMExistenceOfGroups (ctx : Ctx) (iamIdentifiers : list string) :
    error + list (string * bool) :=
  match ExtractBusinessUserDataAuthContext ctx with
  | inl err => inl (Wrap ErrAutoAssignApprover (Some err))
  | inr authCtx =>
      match GetIdentityManagementPlugin with
      | inl err => inl err
      | inr _ => checkExistence authCtx iamIdentifiers
      end
  end.
End Groups.

(** * Facts *)

(** Primary keys are unique. *)
Definition groups_ok (d : DB) : Prop := NoDup (g_ID <$> db_groups d).
(** Every key configuration has its admin group. *)
Definition admins_exist (d : DB) : Prop :=
  ∀ k, k ∈ db_keyConfigs d → ∃ g, g ∈ db_groups d ∧ g_ID g = kc_AdminGroupID k.
(** What changes of the groups must keep. *)
Definition keeps_groups (d d' : DB) : Prop :=
  groups_ok d' ∧
  (∀ g, g ∈ db_groups d → isMandatoryGroup g = true → g ∈ db_groups d') ∧
  (admins_exist d → admins_exist d').

Lemma keeps_groups_refl d : groups_ok d → keeps_groups d d.
Proof. intros H. split; [exact H|split; auto]. Qed.

Lemma groups_set (l : list Group) d : db_groups (set_rows l d) = l.
Proof. done. Qed.

Lemma groups_ok_inj d g g' :
  groups_ok d → g ∈ db_groups d → g' ∈ db_groups d → g_ID g = g_ID g' → g = g'.
Proof. apply NoDup_key. Qed.

Lemma keeps_groups_create d (x : Group) :
  groups_ok d → existsb (same_pk x) (rows d) = false →
  keeps_groups d (set_rows (rows d ++ [x]) d).
Proof.
  intros Hok Hx. split; [|split].
  - red. rewrite groups_set. rewrite fmap_app.
    apply NoDup_app. split_and!; [done| |apply NoDup_singleton].
    intros id (g & -> & Hg)%list_elem_of_fmap Heq%list_elem_of_singleton.
    apply not_true_iff_false in Hx. destruct Hx. apply existsb_exists. exists g.
    split; [by apply list_elem_of_In|]. simpl. rewrite Heq. apply N.eqb_refl.
  - intros g Hg _. apply elem_of_app. by left.
  - intros Ha k Hk. destruct (Ha k Hk) as (g & Hg & Heq). exists g. split; [|done].
    apply elem_of_app. by left.
Qed.

Lemma keeps_groups_patch d (x old : Group) :
  groups_ok d → old ∈ db_groups d → g_ID x = g_ID old → isMandatoryGroup old = false →
  keeps_groups d (set_rows (patched x [] (rows d)) d).
Proof.
  intros Hok Hold Hid Hm.
  assert (g_ID <$> patched x [] (db_groups d) = g_ID <$> db_groups d) as Hids.
  { unfold patched. rewrite <-list_fmap_compose. apply list_fmap_ext. intros i y _.
    simpl. by destruct (N.eqb (g_ID x) (g_ID y)). }
  split; [|split].
  - change (NoDup (g_ID <$> patched x [] (db_groups d))). by rewrite Hids.
  - intros g Hg Hmg. apply list_elem_of_fmap.
    exists g. split; [|done]. simpl. destruct (N.eqb_spec (g_ID x) (g_ID g)) as [He|]; [|done].
    assert (old = g) as -> by (eapply groups_ok_inj; eauto; congruence). congruence.
  - intros Ha k Hk. destruct (Ha k Hk) as (g & Hg & Heq).
    assert (kc_AdminGroupID k ∈ g_ID <$> patched x [] (db_groups d)) as Hin.
    { rewrite Hids, <-Heq. by apply list_elem_of_fmap_2. }
    apply list_elem_of_fmap in Hin as (g' & ? & ?). exists g'. done.
Qed.

Lemma keeps_groups_delete d id old :
  groups_ok d → old ∈ db_groups d → g_ID old = id → isMandatoryGroup old = false →
  (∀ k, k ∈ db_keyConfigs d → N.eqb (kc_AdminGroupID k) id = false) →
  keeps_groups d (set_rows (select (λ y, negb (same_pk (mkGroup id "" "" "" "") y)) (rows d)) d).
Proof.
  intros Hok Hold Hid Hm Hk.
  assert (∀ g, g ∈ select (λ y, negb (N.eqb id (g_ID y))) (db_groups d) ↔
               g ∈ db_groups d ∧ g_ID g ≠ id) as Hin.
  { intros g. rewrite !list_elem_of_In. unfold select. rewrite filter_In, negb_true_iff, N.eqb_neq. naive_solver. }
  split; [|split].
  - red. rewrite groups_set. change (rows d) with (db_groups d). clear Hin Hk Hold Hm.
    unfold groups_ok in Hok. induction (db_groups d) as [|y l IH]; [constructor|].
    apply NoDup_cons in Hok as [Hn Hd]. simpl.
    destruct (negb _); [|by apply IH]. simpl. constructor; [|by apply IH].
    intros (z & Hz & Hin)%list_elem_of_fmap. destruct Hn. rewrite Hz. apply list_elem_of_fmap_2.
    apply list_elem_of_In in Hin. apply filter_In in Hin as [? _]. by apply list_elem_of_In.
  - intros g Hg Hmg. apply Hin. split; [done|]. intros Heq.
    assert (old = g) as -> by (eapply groups_ok_inj; eauto; congruence). congruence.
  - intros Ha k Hkk. destruct (Ha k Hkk) as (g & Hg & Heq). exists g. split; [|done].
    apply Hin. split; [done|]. rewrite Heq. by apply N.eqb_neq, Hk.
Qed.

Section GroupFacts.
Context {NS : NewString} {I : IDM}.
Implicit Types (ctx : Ctx) (w : World).

Lemma GetGroupByID_db ctx id : preserves same_db (GetGroupByID ctx id).
Proof.
  unfold GetGroupByID. apply preserves_bind; [apply _|apply NeedsGroupFiltering_same_db|].
  intros b. apply preserves_map_err, First_same_db.
Qed.

Lemma GetGroupByID_ok ctx id w w' g :
  GetGroupByID ctx id w = (w', inr g) →
  g ∈ db_groups (w_db w) ∧ byID id (g_ID g) = true ∧ w_db w' = w_db w.
Proof.
  intros H. pose proof (GetGroupByID_db ctx id w) as Hdb. rewrite H in Hdb. unfold same_db in Hdb.
  simpl in Hdb. unfold GetGroupByID in H. apply bind_ok in H as (w1 & b & Hn & H).
  pose proof (NeedsGroupFiltering_same_db ctx APIActionRead APIResourceTypeUserGroup w) as Hdb1.
  rewrite Hn in Hdb1. unfold same_db in Hdb1. simpl in Hdb1.
  apply map_err_ok, First_ok in H as [Hg Hp]. apply andb_true_iff in Hp as [Hp _].
  rewrite <-Hdb1. split_and!; [done..|congruence].
Qed.

Lemma GetGroupByID_faults ctx id : preserves fewer_faults (GetGroupByID ctx id).
Proof.
  unfold GetGroupByID. apply preserves_bind; [apply _|apply NeedsGroupFiltering_faults|].
  intros b. apply preserves_map_err, db_call_faults.
Qed.

Lemma preserves_same_db_eq {A} (m : Comp World A) w w' r :
  preserves same_db m → m w = (w', r) → w_db w' = w_db w.
Proof. intros Hm H. specialize (Hm w). by rewrite H in Hm. Qed.

Lemma CreateGroup_keeps g w w' r :
  groups_ok (w_db w) → CreateGroup g w = (w', r) → keeps_groups (w_db w) (w_db w').
Proof.
  intros Hok. unfold CreateGroup. destruct (negb _); [intros [= <- <-]; by apply keeps_groups_refl|].
  unfold map_err. destruct (Create g w) as [w1 [e|y]] eqn:Hc; intros [= <- <-].
  - rewrite (Create_err _ _ _ _ Hc). by apply keeps_groups_refl.
  - destruct (Create_ok _ _ _ _ Hc) as (x' & _ & _ & Hx & ->). by apply keeps_groups_create.
Qed.

Lemma UpdateGroup_keeps ctx id p w w' r :
  groups_ok (w_db w) → UpdateGroup ctx id p w = (w', r) → keeps_groups (w_db w) (w_db w').
Proof.
  intros Hok. unfold UpdateGroup, mbind at 1, M_bind at 1.
  destruct (GetGroupByID ctx id w) as [w1 [e|g]] eqn:Hg.
  { intros [= <- <-]. rewrite (preserves_same_db_eq _ _ _ _ (GetGroupByID_db ctx id) Hg).
    by apply keeps_groups_refl. }
  apply GetGroupByID_ok in Hg as (Hin & _ & Hdb). rewrite <-Hdb in *.
  destruct (isMandatoryGroup g || isReservedName p) eqn:Hm;
    [intros [= <- <-]; by apply keeps_groups_refl|].
  apply orb_false_iff in Hm as [Hm _].
  case_bool_decide; [intros [= <- <-]; by apply keeps_groups_refl|].
  unfold mbind, M_bind, map_err. set (x := mkGroup (g_ID g) _ _ _ _).
  destruct (Patch x [] w1) as [w2 [e|b]] eqn:Hp; intros [= <- <-].
  - rewrite (Patch_err _ _ _ _ _ Hp). by apply keeps_groups_refl.
  - destruct (Patch_ok _ _ _ _ _ Hp) as (x' & Hb & -> & _). simpl in Hb. unfold Group_BeforeSave in Hb.
    repeat case_match; simplify_eq. by eapply keeps_groups_patch.
Qed.

Lemma DeleteGroupByID_keeps ctx id w w' r :
  honest_faults w → groups_ok (w_db w) → DeleteGroupByID ctx id w = (w', r) →
  keeps_groups (w_db w) (w_db w').
Proof.
  intros Hhf Hok. unfold DeleteGroupByID, mbind at 1, M_bind at 1, map_err at 1.
  destruct (GetGroupByID ctx id w) as [w1 [e|g]] eqn:Hg.
  { intros [= <- <-]. rewrite (preserves_same_db_eq _ _ _ _ (GetGroupByID_db ctx id) Hg).
    by apply keeps_groups_refl. }
  assert (honest_faults w1) as Hhf1.
  { eapply honest_faults_mono; [|exact Hhf]. pose proof (GetGroupByID_faults ctx id w) as Hf.
    by rewrite Hg in Hf. }
  apply GetGroupByID_ok in Hg as (Hin & Hid & Hdb). rewrite <-Hdb in *.
  destruct (isMandatoryGroup g) eqn:Hm; [intros [= <- <-]; by apply keeps_groups_refl|].
  unfold mbind at 1, M_bind at 1, attempt.
  destruct (First _ w1) as [w2 [e|k]] eqn:Hf; pose proof (First_db _ _ _ _ Hf) as Hdb2.
  2:{ intros [= <- <-]. rewrite Hdb2. by apply keeps_groups_refl. }
  destruct (errors_Is e ErrNotFound) eqn:Hnf; simpl.
  2:{ intros [= <- <-]. rewrite Hdb2. by apply keeps_groups_refl. }
  pose proof (First_missing _ _ _ _ Hhf1 Hf Hnf) as Hnone.
  unfold mbind, M_bind, map_err.
  destruct (Delete _ w2) as [w3 [e3|b]] eqn:Hd; intros [= <- <-].
  - rewrite (Delete_err _ _ _ _ Hd), Hdb2. by apply keeps_groups_refl.
  - destruct (Delete_ok _ _ _ _ Hd) as (Hz & ->). rewrite Hdb2.
    apply (keeps_groups_delete _ _ g); [done|done| |done|exact Hnone].
    simpl in Hz. unfold byID in Hid. rewrite Hz in Hid. by apply N.eqb_eq in Hid.
Qed.
End GroupFacts.

(** A change of the groups by a client of the manager. *)
Inductive group_op `{!NewString} : Comp World Group → Prop :=
| op_create_group g : group_op (CreateGroup g)
| op_update_group ctx id p : group_op (UpdateGroup ctx id p)
| op_delete_group ctx id : group_op (_ ← DeleteGroupByID ctx id; mret Group_zero).

(** A sequence of such changes; each may fail. *)
Inductive group_history `{!NewString} : World → World → Prop :=
| history_nil w : group_history w w
| history_cons m w w1 w2 r : group_op m → m w = (w1, r) → group_history w1 w2 → group_history w w2.

Section History.
Context {NS : NewString}.

Lemma group_op_keeps m w w' r :
  group_op m → honest_faults w → groups_ok (w_db w) → m w = (w', r) →
  keeps_groups (w_db w) (w_db w').
Proof.
  intros Hop Hhf Hok Hrun. destruct Hop as [g|ctx id p|ctx id].
  - by eapply CreateGroup_keeps.
  - by eapply UpdateGroup_keeps.
  - unfold mbind, M_bind in Hrun. destruct (DeleteGroupByID ctx id w) as [w1 [e|[]]] eqn:Hd;
      injection Hrun as <- <-; by eapply DeleteGroupByID_keeps.
Qed.

Lemma bind_faults {A B} (m : Comp World A) (f : A → Comp World B) :
  preserves fewer_faults m → (∀ a, preserves fewer_faults (f a)) → preserves fewer_faults (m ≫= f).
Proof. apply preserves_bind, _. Qed.

Lemma group_op_faults m : group_op m → preserves fewer_faults m.
Proof.
  intros [g|ctx id p|ctx id].
  - unfold CreateGroup. case_match; [apply preserves_fail, _|].
    apply preserves_map_err, db_call_faults.
  - unfold UpdateGroup. apply bind_faults; [apply GetGroupByID_faults|intros g].
    do 2 (case_match; [apply preserves_fail, _|]).
    apply bind_faults; [do 2 apply preserves_map_err; apply db_call_faults|intros _; apply preserves_ret, _].
  - apply bind_faults; [|intros _; apply preserves_ret, _]. unfold DeleteGroupByID.
    apply bind_faults; [apply preserves_map_err, GetGroupByID_faults|intros g].
    case_match; [apply preserves_fail, _|].
    apply bind_faults; [apply preserves_attempt, db_call_faults|intros [e|k]].
    + case_match; [apply preserves_fail, _|].
      apply bind_faults; [apply preserves_map_err, db_call_faults|intros _; apply preserves_ret, _].
    + apply preserves_fail, _.
Qed.
End History.

(** C39: the mandatory groups are indestructible: whatever sequence of group
    creations, updates and deletions is attempted (each by any user, succeeding or
    failing at any database call), the tenant administrator and auditor groups stay
    stored exactly as they were, identifiers stay unique, and every key
    configuration keeps an existing admin group. *)
Theorem group_changes_safe `{!NewString} w w' :
  group_history w w' → honest_faults w → groups_ok (w_db w) → keeps_groups (w_db w) (w_db w').
Proof.
  induction 1 as [w|m w w1 w2 r Hop Hrun _ IH]; intros Hhf Hok; [by apply keeps_groups_refl|].
  pose proof (group_op_keeps _ _ _ _ Hop Hhf Hok Hrun) as (Hok1 & Hm1 & Ha1).
  assert (honest_faults w1) as Hhf1.
  { eapply honest_faults_mono; [|exact Hhf]. pose proof (group_op_faults m Hop w) as Hf. by rewrite Hrun in Hf. }
  destruct (IH Hhf1 Hok1) as (Hok2 & Hm2 & Ha2). split; [done|split; auto].
Qed.

(** Onboarding creates both mandatory groups or none: when [CreateDefaultGroups]
    succeeds the database holds the administrator and the auditor group of this
    tenant with their roles and IAM identifiers; when it fails, at whichever call,
    the database is as before. *)
Theorem CreateDefaultGroups_atomic adminID auditorID ctx tenant w w' r :
  w_inTx w = false → ExtractTenantID ctx = inr tenant →
  CreateDefaultGroups adminID auditorID ctx w = (w', r) →
  match r with
  | inr _ =>
      mkGroup adminID TenantAdminGroup "" TenantAdminRole (NewIAMIdentifier TenantAdminGroup tenant)
        ∈ db_groups (w_db w') ∧
      mkGroup auditorID TenantAuditorGroup "" TenantAuditorRole (NewIAMIdentifier TenantAuditorGroup tenant)
        ∈ db_groups (w_db w')
  | inl _ => w_db w' = w_db w
  end.
Proof.
  intros Htx Ht. unfold CreateDefaultGroups, mbind at 1, M_bind at 1, map_err at 1, lift. rewrite Ht.
  set (g1 := mkGroup adminID _ _ _ _). set (g2 := mkGroup auditorID _ _ _ _).
  assert (∀ g v v', createDefaultGroup g v = (v', inr tt) →
    db_groups (w_db v') = db_groups (w_db v) ++ [g]) as Hcreate.
  { intros g v v' (v1 & y & Hc & [= <-])%bind_ok. apply map_err_ok in Hc. unfold CreateGroup in Hc.
    destruct (negb _); [done|]. apply map_err_ok, Create_ok in Hc as (x' & Hb & -> & _ & ->).
    simpl in Hb. unfold Group_BeforeSave in Hb. repeat case_match; simplify_eq. done. }
  destruct r as [e|[]]; intros Hrun; [by eapply Transaction_rollback|].
  apply Transaction_commit in Hrun as (w1 & Hrun & ->); [|done].
  apply bind_ok in Hrun as (w2 & [] & H1 & H2). apply Hcreate in H1, H2. simpl in *.
  rewrite H2, H1. split; [|set_solver]. rewrite !elem_of_app. left; right. by apply list_elem_of_singleton.
Qed.
