(* ===== verification/Tenants.v ===== *)
(** The tenant manager: internal/manager/tenant.go, with what it uses of the schema
    names (internal/db/db.go, internal/multitenancy/namespace), of the migrator
    (internal/db/migrator.go) and of the removal of a schema
    (internal/multitenancy/postgres).

    Offboarding works on the tables of one tenant.  A tenant is created and deleted in
    the shared tables and by schema: there the state is the [Fleet].  Schemas are made
    and dropped on connections of their own, outside the repository's transactions. *)
From S2P Require Import Prelude Errs Json GoContext AuthzPolicies Authz Model Store Batch.
From S2P Require Import Users KeyAccess Events JobHandlers KeyConfigs RegistryClient Systems.
From S2P Require Import KeyVersions Keys TenantConfig Groups.

Definition ErrGetTenantInfo := New "manager.ErrGetTenantInfo" "failed to get tenant info".
Definition ErrOnboardingTenant := New "repo.ErrOnboardingTenant" "onboarding tenant failed".
Definition ErrValidatingTenant := New "manager.ErrValidatingTenant" "tenant validation failed".
Definition ErrCreatingTenant := New "manager.ErrCreatingTenant" "creating tenant failed".
Definition ErrInvalidSchema := New "db.ErrInvalidSchema" "invalid schema name pattern".
Definition ErrSchemaNameLength :=
  New "db.ErrSchemaNameLength" "schema name length must be between 3 and 63 characters".
Definition ErrInvalidPattern := New "namespace.ErrInvalidPattern"
  "tenant name must start with an underscore or a letter, followed by at least two characters that can be underscores, letters, or numbers".
Definition ErrReservedPrefix := New "namespace.ErrReservedPrefix"
  "tenant name must not start with 'pg_' as it is reserved for system schemas in PostgreSQL".
Definition ErrInvalidTenantRole :=
  Global "model.ErrInvalidTenantRole" (Errorf_ws ErrModelValidation "tenant role is not valid").
Definition ErrInvalidTenantStatus :=
  Global "model.ErrInvalidTenantStatus" (Errorf_ws ErrModelValidation "tenant status is not valid").

(** * Schema names *)

Definition isLetter (c : Ascii.ascii) : bool :=
  let n := Ascii.nat_of_ascii c in
  ((65 <=? n) && (n <=? 90)) || ((97 <=? n) && (n <=? 122)).
Definition isDigit (c : Ascii.ascii) : bool :=
  let n := Ascii.nat_of_ascii c in (48 <=? n) && (n <=? 57).
Definition isUnderscore (c : Ascii.ascii) : bool := Ascii.nat_of_ascii c =? 95.

(** [^[_a-zA-Z][_a-zA-Z0-9]{2,}$] *)
Definition namespaceRegex (s : string) : bool :=
  match String.list_ascii_of_string s with
  | [] => false
  | c :: cs =>
      (isUnderscore c || isLetter c) && (2 <=? length cs) &&
      forallb (λ c, isUnderscore c || isLetter c || isDigit c) cs
  end.

Definition gmt (err : error) : error := Typed ("multitenancy: " +:+ Error err) err.

Definition checkPattern (tenantID : string) : option error :=
  if negb (namespaceRegex tenantID)
  then Some (Errorf_ws ErrInvalidPattern
    ("got '" +:+ tenantID +:+ "' (pattern " +:+ quoted "^[_a-zA-Z][_a-zA-Z0-9]{2,}$" +:+ ")"))
  else None.
Definition checkPrefix (tenantID : string) : option error :=
  if String.prefix "pg_" tenantID
  then Some (Errorf_ws ErrReservedPrefix ("got '" +:+ tenantID +:+ "'"))
  else None.

Definition namespace_Validate (tenantID : string) : option error :=
  match checkPattern tenantID with
  | Some err => Some (gmt err)
  | None => gmt <$> checkPrefix tenantID
  end.

Definition ValidateSchema (schema : string) : option error :=
  match namespace_Validate schema with
  | Some err => Some (Wrap ErrInvalidSchema (Some err))
  | None =>
      if (String.length schema <? 3) || (63 <? String.length schema) then Some ErrSchemaNameLength
      else None
  end.

(** The names of the enums of the registry's protocol. *)
Class TenantEnums := {
  validTenantStatuses : list string;
  validTenantRoles : list string }.

Definition TenantStatus_Validate `{!TenantEnums} (s : string) : option error :=
  if s ∈? validTenantStatuses then None else Some ErrInvalidTenantStatus.
Definition TenantRole_Validate `{!TenantEnums} (s : string) : option error :=
  if s ∈? validTenantRoles then None else Some ErrInvalidTenantRole.

(** [ValidateAll] *)
Fixpoint ValidateAll (v : list (option error)) : option error :=
  match v with
  | [] => None
  | Some err :: _ => Some err
  | None :: v => ValidateAll v
  end.

Definition Tenant_Validate `{!TenantEnums} (m : Tenant) : option error :=
  ValidateAll [TenantStatus_Validate (t_Status m); TenantRole_Validate (t_Role m)].

(** * Reading tenants *)

Definition STATUS_ACTIVE : string := "STATUS_ACTIVE".

Definition GetTenant `{!NewString} (ctx : Ctx) : Comp World Tenant :=
  accessible ← HasTenantAccess ctx;
  if negb accessible then fail ErrTenantNotAllowed
  else map_err (wrapping ErrGetTenantInfo) (TenantConfig.GetTenant ctx).

Definition GetTenantByID (tenantID : string) : Comp World Tenant := TenantConfig.GetTenantByID tenantID.

Definition ListTenantInfo (issuerURL : option string) (pagination : Pagination) :
    Comp World (list Tenant * Z) :=
  ListAndCount pagination (where_ (λ t,
    (t_Status t ==s STATUS_ACTIVE) &&
    match issuerURL with Some u => t_IssuerURL t ==s u | None => true end)).

(** * Offboarding *)

Inductive OffboardingStatus :=
| OffboardingGoToNextStep
| OffboardingContinueAndWait
| OffboardingFailed
| OffboardingSuccess.
#[export] Instance OffboardingStatus_eq_dec : EqDecision OffboardingStatus.
Proof. solve_decision. Defined.

(** strings.Contains *)
Definition strings_Contains (s substr : string) : bool :=
  match String.index 0 substr s with Some _ => true | None => false end.

(** The message of a status is the text of its error. *)
Definition unmapSystemErrorCanContinue (r : option error) : OffboardingStatus :=
  match r with
  | None => OffboardingGoToNextStep
  | Some err =>
      if status_Code_is err "FailedPrecondition" &&
         strings_Contains (Error err) "system is not linked to the tenant" then OffboardingGoToNextStep
      else if status_Code_is err "NotFound" && strings_Contains (Error err) "system not found"
      then OffboardingGoToNextStep
      else if status_Code_is err "InvalidArgument" then OffboardingFailed
      else OffboardingContinueAndWait
  end.

Definition escalateOffboardingStatus (current target : OffboardingStatus) : OffboardingStatus :=
  if bool_decide (current = OffboardingFailed) || bool_decide (target = OffboardingFailed)
  then OffboardingFailed
  else if bool_decide (current = OffboardingContinueAndWait) ||
          bool_decide (target = OffboardingContinueAndWait)
  then OffboardingContinueAndWait
  else OffboardingGoToNextStep.

(** The conditions of the queries. *)
Definition isLinked (s : System) : bool :=
  match s_KeyConfigurationID s with Some _ => true | None => false end.
Definition toUnlink (s : System) : bool := isLinked s && negb (s_Status s ==s SystemStatusPROCESSING).

(** The join with the key configuration of a key, where it has a primary key. *)
Definition ofConfigWithPrimary (d : DB) (k : Key) : bool :=
  existsb (λ c, N.eqb (kc_ID c) (k_KeyConfigurationID k) &&
                match kc_PrimaryKeyID c with Some _ => true | None => false end) (db_keyConfigs d).
Definition checkKeyDetatchingQuery (d : DB) : Query Key :=
  where_ (λ k, ofConfigWithPrimary d k && negb (k_State k ==s KeyStateDETACHING) &&
               negb (k_State k ==s KeyStateDETACHED)).
Definition notDetached (d : DB) (k : Key) : bool :=
  ofConfigWithPrimary d k && negb (k_State k ==s KeyStateDETACHED).

Section Tenants.
Context {NS : NewString} {O : Orbital} {Rg : Registry} {UP : UUIDParse} {US : UUIDString}.

Definition sendUnlinkForConnectedSystems (ctx : Ctx) : Comp World unit :=
  FoldInBatch (where_ toUnlink) DefaultLimit
    (λ _ sys, for_each (λ s, UnlinkSystemAction ctx (s_ID s) SystemActionDecommission) sys) tt.

Definition checkAllSystemsUnlinked : Comp World bool :=
  count ← Count (where_ isLinked);
  mret (count =? 0)%Z.

(** The callback changes no key configuration, so the query is the same in every round. *)
Definition detachPrimaryKeys (ctx : Ctx) : Comp World unit :=
  d ← gets w_db;
  FoldInBatch (checkKeyDetatchingQuery d) DefaultLimit
    (λ _ keys, for_each (λ k, _ ← Detach ctx k; mret tt) keys) tt.

Definition checkAllPrimaryKeysProcessed : Comp World bool :=
  d ← gets w_db;
  count ← Count (checkKeyDetatchingQuery d);
  mret (count =? 0)%Z.

(** A failure to unmap one system does not stop the others. *)
Definition unmapSystem (ctx : Ctx) (worstStatus : OffboardingStatus) (s : System) :
    Comp World OffboardingStatus :=
  r ← try_ (UnmapSystemFromRegistry ctx s);
  let st := unmapSystemErrorCanContinue (match r with inl err => Some err | inr _ => None end) in
  mret (escalateOffboardingStatus worstStatus st).

Definition unmapAllSystemsFromRegistry (ctx : Ctx) : Comp World OffboardingStatus :=
  r ← try_ (FoldInBatch (where_ (λ _ : System, true)) DefaultLimit
              (λ worst systems, fold_each (unmapSystem ctx) worst systems) OffboardingGoToNextStep);
  mret (match r with inl _ => OffboardingContinueAndWait | inr worstStatus => worstStatus end).

Definition checkAllPrimaryKeysDetached : Comp World bool :=
  d ← gets w_db;
  count ← Count (where_ (notDetached d));
  mret (count =? 0)%Z.

Definition OffboardTenant (ctx : Ctx) : Comp World OffboardingStatus :=
  _ ← sendUnlinkForConnectedSystems ctx;
  systemsUnlinked ← checkAllSystemsUnlinked;
  if negb systemsUnlinked then mret OffboardingContinueAndWait else
  _ ← detachPrimaryKeys ctx;
  keysProcessed ← checkAllPrimaryKeysProcessed;
  if negb keysProcessed then mret OffboardingContinueAndWait else
  st ← unmapAllSystemsFromRegistry ctx;
  if bool_decide (st = OffboardingFailed) || bool_decide (st = OffboardingContinueAndWait)
  then mret st else
  keysDetached ← checkAllPrimaryKeysDetached;
  if negb keysDetached then mret OffboardingContinueAndWait else mret OffboardingSuccess.
End Tenants.

(** * Creating and deleting tenants *)

Definition set_f_public (p : Public) (f : Fleet) : Fleet :=
  mkFleet p (f_schemas f) (f_now f) (f_faults f) (f_jobs f) (f_log f) (f_providers f).
Definition set_f_schemas (m : gmap string DB) (f : Fleet) : Fleet :=
  mkFleet (f_public f) m (f_now f) (f_faults f) (f_jobs f) (f_log f) (f_providers f).
Definition set_f_faults (l : list (option error)) (f : Fleet) : Fleet :=
  mkFleet (f_public f) (f_schemas f) (f_now f) l (f_jobs f) (f_log f) (f_providers f).
Definition set_f_log (l : list Effect) (f : Fleet) : Fleet :=
  mkFleet (f_public f) (f_schemas f) (f_now f) (f_faults f) (f_jobs f) l (f_providers f).

(** Repository calls on the shared tables. *)
Definition public_world (inTx : bool) (f : Fleet) : World :=
  mkWorld (set_public (f_public f) DB_empty) (f_now f) inTx (f_faults f) (f_jobs f) (f_log f)
    (f_providers f).
Definition onPublic {A} (inTx : bool) (m : Comp World A) : Comp Fleet A := λ f,
  let '(w, r) := m (public_world inTx f) in
  (mkFleet (db_public (w_db w)) (f_schemas f) (w_now w) (w_faults w) (w_jobs w) (w_log w)
     (w_providers w), r).

(** [Transaction] of a function that changes only shared tables. *)
Definition publicTransaction {A} (txFunc : Comp Fleet A) : Comp Fleet A := λ f,
  match txFunc f with
  | (f', inl e) => (set_f_public (f_public f) f', inl (wrapping ErrTransaction e))
  | (f', inr a) => (f', inr a)
  end.

(** One statement on a connection of its own. *)
Definition exec (stmt : Fleet → Fleet) : Comp Fleet unit := λ f,
  let f' := set_f_faults (tail (f_faults f)) f in
  match head (f_faults f) with
  | Some (Some e) => (f', inl e)
  | _ => (stmt f', inr tt)
  end.

(** goose, run on the tables of a schema, and how often a failed DROP is attempted. *)
Inductive GooseResult :=
| GooseNoMigrations
| GooseFailed (e : error)
| GooseUp (d : DB).
Class Migrations := {
  goose_Up : string → option DB → GooseResult;
  maxRetries : nat }.

Section Schemas.
Context {Mg : Migrations} {TE : TenantEnums}.

(** [runMigration] of a tenant's schema with goose's [Up].  [CREATE SCHEMA IF NOT EXISTS]
    makes no table, so it shows only in what goose makes of it. *)
Definition runMigration (schema : string) : Comp Fleet unit :=
  _ ← exec id;
  match ValidateSchema schema with
  | Some err => fail err
  | None =>
      _ ← exec id;
      f ← get;
      match goose_Up schema (f_schemas f !! schema) with
      | GooseNoMigrations => mret tt
      | GooseFailed err => fail err
      | GooseUp d => modify (λ f, set_f_schemas (<[schema := d]> (f_schemas f)) f)
      end
  end.

Definition MigrateTenantToLatest (tenant : Tenant) : Comp Fleet unit := runMigration (t_SchemaName tenant).

Definition createTenantRow (tenant : Tenant) : Comp Fleet unit :=
  _ ← map_err (λ err, wrapping ErrCreatingTenant
          (if errors_Is err ErrUniqueConstraint then wrapping ErrOnboardingInProgress err else err))
      (onPublic true (Create tenant));
  mret tt.

Definition CreateTenant (tenant : Tenant) : Comp Fleet unit :=
  match ValidateSchema (t_SchemaName tenant) with
  | Some err => fail (Wrap ErrOnboardingTenant (Some err))
  | None =>
      match Tenant_Validate tenant with
      | Some err => fail (Wrap ErrValidatingTenant (Some err))
      | None => publicTransaction (_ ← createTenantRow tenant; MigrateTenantToLatest tenant)
      end
  end.

(** [DROP SCHEMA IF EXISTS ... CASCADE] *)
Definition DropSchemaForTenant (tenant : string) : Comp Fleet unit :=
  retry_Do (λ _, true) (maxRetries - 1)
    (map_err (λ err, Typed ("multitenancy/postgres: " +:+ Error err) err)
       (map_err (Errorf_sw ("failed to drop schema for tenant " +:+ tenant))
          (exec (λ f, set_f_schemas (delete tenant (f_schemas f)) f)))).

Definition repo_OffboardTenant (tenantID : string) : Comp Fleet unit := DropSchemaForTenant tenantID.

(** The row of a tenant, by its primary key. *)
Definition tenantRef (tenantID issuerURL : string) : Tenant := mkTenant "" "" tenantID "" "" "" "" issuerURL "".

Definition DeleteTenant (ctx : Ctx) : Comp Fleet unit :=
  publicTransaction
    (tenantID ← lift (ExtractTenantID ctx);
     _ ← onPublic true (Delete (tenantRef tenantID ""));
     _ ← repo_OffboardTenant tenantID;
     modify (λ f, set_f_log (AuditLog "CmkTenantDelete" [tenantID] :: f_log f) f)).
End Schemas.
