(* ===== verification/Operator.v ===== *)
(** The tenant operator: internal/operator/operator.go and probe.go, with the schema
    names of utils/base62.

    The orbital library calls a handler for a task and calls it again as long as it asks
    to be continued; a handler's answer is the response it fills.  The protobuf decoder,
    the base62 encoder, the session manager, the registry's tenant service and the
    library's decoding of a working state are outside the repository. *)
From S2P Require Import Prelude Errs Json GoContext AuthzPolicies Authz Model Store Batch.
From S2P Require Import Users KeyAccess Events JobHandlers KeyConfigs RegistryClient Systems.
From S2P Require Import KeyVersions Keys Groups Tenants.

Definition ErrInvalidData := New "operator.ErrInvalidData" "invalid data".
Definition ErrFailedResponse := New "operator.ErrFailedResponse" "failed response".
Definition ErrTenantOffboarding := New "operator.ErrTenantOffboarding" "tenant offboarding error".
Definition ErrTerminationTimeout := New "operator.ErrTerminationTimeout" "tenant termination timed out".
Definition ErrInvalidTenantID := New "operator.ErrInvalidTenantID" "invalid tenant ID".
Definition ErrInvalidAuthProps := New "operator.ErrInvalidAuthProps" "invalid authentication properties".
Definition ErrFailedApplyOIDC := New "operator.ErrFailedApplyOIDC" "failed apply OIDC".
Definition ErrCheckingTenantExistence :=
  New "operator.ErrCheckingTenantExistence" "checking tenant existence failed".
Definition ErrGroupNotFound := New "operator.ErrGroupNotFound" "group not found".
Definition ErrSchemaNotFound := New "operator.ErrSchemaNotFound" "schema not found".
Definition ErrMissingProperties :=
  New "operator.ErrMissingProperties" "missing required properties in auth request".
Definition ErrMissingIssuer := New "operator.ErrMissingIssuer" "missing required issuer property".
Definition ErrBase62EmptyTenantID := New "base62.ErrEmptyTenantID" "empty tenant ID".
Definition ErrEncodedSchemaNameLength :=
  New "base62.ErrEncodedSchemaNameLength" "encoded schema name has invalid length".

Definition WorkingStateSchemaEncodingFailed : string := "schema encoding failed".
Definition WorkingStateUnmarshallingFailed : string := "unmarshalling task data failed".
Definition WorkingStateInvalidTaskData : string := "invalid task data".
Definition WorkingStateOIDCApplyFailed : string := "failed to apply OIDC configuration".
Definition WorkingStateOIDCBlockFailed : string := "failed to block OIDC mapping".
Definition WorkingStateOIDCUnblockFailed : string := "failed to unblock OIDC mapping".
Definition WorkingStateOIDCMappingRemoveFailed : string := "failed to remove OIDC mapping".
Definition WorkingStateTenantCreating : string := "tenant is being created".
Definition WorkingStateTenantCreatedSuccessfully : string := "tenant created successfully".
Definition WorkingStateSchemaCreationFailed : string := "schema creation failed".
Definition WorkingStateGroupsCreationFailed : string := "group creation failed".
Definition WorkingStateSendingGroupsFailed : string := "failed to send groups to registry".
Definition WorkingStateWaitingTenantOffboarding : string := "waiting for tenant offboarding to complete".
Definition WorkingStateTenantOffboardingFailed : string := "tenant offboarding failed".
Definition WorkingStateTenantProbingFailed : string := "tenant probing failed".
Definition WorkingStateTenantTerminationTimeout : string := "tenant termination timed out".
Definition reconcileAfterSecProcessing : Z := 3.
Definition reconcileAfterSecError : Z := 15.
Definition defaultTerminationTimeout : Z := 48 * 3600.

(** * Tasks and responses *)

Record HandlerRequest := mkHandlerRequest {
  TaskData : string;
  TaskCreatedAt : Z }.

Inductive TaskResult :=
| ContinueAndWaitFor (seconds : Z)
| FailTask (reason : string)
| CompleteTask.

(** [hr_State] is the working state once it has been decoded. *)
Record HandlerResponse := mkHandlerResponse {
  hr_Result : option TaskResult;
  hr_RawWorkingState : string;
  hr_State : option (gmap string string) }.

Definition respond (r : TaskResult) (resp : HandlerResponse) : HandlerResponse :=
  mkHandlerResponse (Some r) (hr_RawWorkingState resp) (hr_State resp).
Definition UseRawWorkingState (raw : string) (resp : HandlerResponse) : HandlerResponse :=
  mkHandlerResponse (hr_Result resp) raw None.

Record TenantProto := mkTenantProto {
  tp_Id : string;
  tp_Name : string;
  tp_OwnerType : string;
  tp_OwnerId : string;
  tp_Role : string }.
(** A map without entries is nil. *)
Record AuthProto := mkAuthProto {
  ap_TenantId : string;
  ap_Properties : option (gmap string string) }.

Class OperatorEnv := {
  unmarshalTenant : string → error + TenantProto;
  unmarshalAuth : string → error + AuthProto;
  base62_EncodeToString : string → string;
  decodeWorkingState : string → option (gmap string string);
  (** the answers to a call after others: whether it succeeded, and a message *)
  sessionManager : list Effect → Effect → error + bool * string;
  tenantService : list Effect → Effect → error + bool;
  TerminationTimeout : Z }.

(** [NewTenantOperator]: zero stands for the default. *)
Definition terminationTimeout `{!OperatorEnv} : Z :=
  if (TerminationTimeout =? 0)%Z then defaultTerminationTimeout else TerminationTimeout.

Section Responses.
Context {OE : OperatorEnv}.

Definition WorkingState (resp : HandlerResponse) : option (gmap string string) :=
  match hr_State resp with
  | Some m => Some m
  | None => decodeWorkingState (hr_RawWorkingState resp)
  end.

(** [err] may be nil, and its text is asked for all the same. *)
Definition setWorkingState (err : option error) (state : string) (resp : HandlerResponse) :
    Comp Fleet HandlerResponse :=
  match WorkingState resp with
  | None => mret resp
  | Some m =>
      match err with
      | None => fail nilDereference
      | Some err =>
          mret (mkHandlerResponse (hr_Result resp) (hr_RawWorkingState resp)
                  (Some (<["error" := Error err]> (<["state" := state]> m))))
      end
  end.

Definition setErrorStateAndContinue (err : option error) (state : string) (resp : HandlerResponse) :
    Comp Fleet HandlerResponse :=
  resp ← setWorkingState err state resp;
  mret (respond (ContinueAndWaitFor reconcileAfterSecError) resp).

Definition setErrorStateAndFail (err : error) (state : string) (resp : HandlerResponse) :
    Comp Fleet HandlerResponse :=
  resp ← setWorkingState (Some err) state resp;
  mret (respond (FailTask (Error err)) resp).

Definition isIrrecoverable (err : error) : bool := errors_Is err ErrModelValidation.

Definition setErrorState (err : error) (state : string) (resp : HandlerResponse) :
    Comp Fleet HandlerResponse :=
  if isIrrecoverable err then setErrorStateAndFail err state resp
  else setErrorStateAndContinue (Some err) state resp.

Definition callSessionManager (e : Effect) : Comp Fleet (bool * string) := λ f,
  (set_f_log (e :: f_log f) f, sessionManager (f_log f) e).
Definition callTenantService (e : Effect) : Comp Fleet bool := λ f,
  (set_f_log (e :: f_log f) f, tenantService (f_log f) e).

(** * utils/base62 *)

Definition SchemaNamePrefix : string := "_".
Definition EncodeSchemaNameBase62 (input : string) : error + string :=
  if input ==s "" then inl ErrBase62EmptyTenantID else
  let encoded := base62_EncodeToString input in
  if (String.length encoded <? 3) || (62 <? String.length encoded)
  then inl (Errorf_w_s ErrEncodedSchemaNameLength ("got " +:+ pretty (String.length encoded)))
  else inr (SchemaNamePrefix +:+ encoded).

(** [oops.Wrapf] *)
Definition oops_Wrapf (err : error) (msg : string) : error := Typed (msg +:+ ": " +:+ Error err) err.

Definition unmarshalTenantData (data : string) : error + Tenant :=
  match unmarshalTenant data with
  | inl err => inl (oops_Wrapf err WorkingStateUnmarshallingFailed)
  | inr tenantProto =>
      match EncodeSchemaNameBase62 (tp_Id tenantProto) with
      | inl err => inl (oops_Wrapf err WorkingStateSchemaEncodingFailed)
      | inr encodedSchemaName =>
          inr (mkTenant encodedSchemaName encodedSchemaName (tp_Id tenantProto) (tp_Name tenantProto)
                 STATUS_ACTIVE (tp_OwnerType tenantProto) (tp_OwnerId tenantProto) ""
                 (tp_Role tenantProto))
      end
  end.

(** * probe.go *)

(** The result that goes with an error is not read. *)
Inductive SchemaExistenceStatus := SchemaNotFound | SchemaExists | SchemaCheckFailed.
Inductive GroupsExistenceStatus := GroupsNotFound | GroupsExist | GroupsCheckFailed.
#[export] Instance SchemaExistenceStatus_eq_dec : EqDecision SchemaExistenceStatus.
Proof. solve_decision. Defined.
#[export] Instance GroupsExistenceStatus_eq_dec : EqDecision GroupsExistenceStatus.
Proof. solve_decision. Defined.

Record TenantProbeResult := mkProbeResult {
  SchemaStatus : SchemaExistenceStatus;
  GroupsStatus : GroupsExistenceStatus }.

Definition schemaExists (schemaName : string) : Comp Fleet bool :=
  r ← try_ (onPublic true (First (λ t, t_SchemaName t ==s schemaName)));
  match r with
  | inr _ => mret true
  | inl err => if errors_Is err ErrNotFound then mret false
               else fail (wrapping ErrCheckingTenantExistence err)
  end.

Definition groupExists (groupType tenantID : string) : Comp Fleet bool :=
  r ← try_ (onTenant tenantID (First (λ g, g_Name g ==s groupType)));
  match r with
  | inr _ => mret true
  | inl err => if errors_Is err ErrNotFound then mret false else fail (wrapping ErrGroupNotFound err)
  end.

Definition checkTenantSchemaExistenceStatus (schemaName : string) : Comp Fleet SchemaExistenceStatus :=
  exists_ ← schemaExists schemaName;
  mret (if negb exists_ then SchemaNotFound else SchemaExists).

Definition checkTenantGroupsExistenceStatus (tenantID : string) : Comp Fleet GroupsExistenceStatus :=
  adminExists ← groupExists TenantAdminGroup tenantID;
  auditorExists ← groupExists TenantAuditorGroup tenantID;
  mret (if negb adminExists || negb auditorExists then GroupsNotFound else GroupsExist).

Definition probe_Check (tenant : Tenant) : Comp Fleet TenantProbeResult :=
  r ← try_ (checkTenantSchemaExistenceStatus (t_SchemaName tenant));
  match r with
  | inl err =>
      if errors_Is err ErrSchemaNotFound then mret (mkProbeResult SchemaNotFound GroupsNotFound)
      else fail err
  | inr schemaStatus =>
      if bool_decide (schemaStatus = SchemaNotFound)
      then mret (mkProbeResult schemaStatus GroupsNotFound) else
      groupsStatus ← checkTenantGroupsExistenceStatus (t_ID tenant);
      mret (mkProbeResult schemaStatus groupsStatus)
  end.

Definition isProvisioningComplete (result : TenantProbeResult) : bool :=
  bool_decide (SchemaStatus result = SchemaExists) && bool_decide (GroupsStatus result = GroupsExist).

(** * Provisioning *)

Context {Mg : Migrations} {TE : TenantEnums}.

Definition sendTenantUserGroupsToRegistry (tenantID : string) : Comp Fleet bool :=
  callTenantService (RegistryUserGroups tenantID
    [NewIAMIdentifier TenantAdminGroup tenantID; NewIAMIdentifier TenantAuditorGroup tenantID]).

(** The error is nil when the registry only says that it did not succeed. *)
Definition finalizeTenantProvisioning (tenantID : string) (resp : HandlerResponse) :
    Comp Fleet HandlerResponse :=
  r ← try_ (sendTenantUserGroupsToRegistry tenantID);
  match r with
  | inl err => setErrorStateAndContinue (Some err) WorkingStateSendingGroupsFailed resp
  | inr false => setErrorStateAndContinue None WorkingStateSendingGroupsFailed resp
  | inr true => mret (respond CompleteTask (UseRawWorkingState WorkingStateTenantCreatedSuccessfully resp))
  end.

Definition unlessOnboarding (m : Comp Fleet unit) : Comp Fleet unit :=
  r ← try_ m;
  match r with
  | inl err => if errors_Is err ErrOnboardingInProgress then mret tt else fail err
  | inr _ => mret tt
  end.
Definition createTenantSchema (tenant : Tenant) : Comp Fleet unit := unlessOnboarding (CreateTenant tenant).
(** [adminID] and [auditorID] are the values of [uuid.New()]. *)
Definition createTenantGroups (adminID auditorID : uuid) (ctx : Ctx) (tenant : Tenant) : Comp Fleet unit :=
  let groupCtx := CreateTenantContext ctx (t_ID tenant) in
  unlessOnboarding (onTenant (t_ID tenant) (CreateDefaultGroups adminID auditorID groupCtx)).

Definition handleCreateTenant (adminID auditorID : uuid) (ctx : Ctx) (req : HandlerRequest)
    (resp : HandlerResponse) : Comp Fleet HandlerResponse :=
  match unmarshalTenantData (TaskData req) with
  | inl err => setErrorStateAndFail (Wrap ErrInvalidData (Some err)) WorkingStateInvalidTaskData resp
  | inr tenant =>
      r ← try_ (probe_Check tenant);
      match r with
      | inl err => setErrorStateAndContinue (Some err) WorkingStateTenantProbingFailed resp
      | inr probeResult =>
          if isProvisioningComplete probeResult
          then finalizeTenantProvisioning (t_ID tenant) resp else
          r ← (if bool_decide (SchemaStatus probeResult ≠ SchemaExists)
               then try_ (createTenantSchema tenant) else mret (inr tt));
          match r with
          | inl err => setErrorState err WorkingStateSchemaCreationFailed resp
          | inr _ =>
              r ← (if bool_decide (GroupsStatus probeResult ≠ GroupsExist)
                   then try_ (createTenantGroups adminID auditorID ctx tenant) else mret (inr tt));
              match r with
              | inl err => setErrorState err WorkingStateGroupsCreationFailed resp
              | inr _ =>
                  mret (respond (ContinueAndWaitFor reconcileAfterSecProcessing)
                          (UseRawWorkingState WorkingStateTenantCreating resp))
              end
          end
      end
  end.

(** * Authentication *)

Record OIDCConfig := mkOIDCConfig {
  oc_Issuer : string;
  oc_JwksURI : string;
  oc_Audiences : list string;
  oc_ClientID : string;
  oc_AdditionalProperties : gmap string string }.

Definition keyIssuer : string := "issuer".
Definition keyJWKSURI : string := "jwks_uri".
Definition keyAudiences : string := "audiences".
Definition keyClientID : string := "client_id".

(** strings.SplitSeq(value, ",") *)
Definition isComma (c : Ascii.ascii) : bool := Ascii.nat_of_ascii c =? 44.
Fixpoint splitComma (l : list Ascii.ascii) : list (list Ascii.ascii) :=
  match l with
  | [] => [[]]
  | c :: l =>
      if isComma c then [] :: splitComma l
      else match splitComma l with
           | part :: parts => (c :: part) :: parts
           | [] => [[c]]
           end
  end.
Definition SplitSeq (s : string) : list string :=
  String.string_of_list_ascii <$> splitComma (String.list_ascii_of_string s).

Definition parseCommaSeparatedValues (value : string) : list string :=
  if value ==s "" then []
  else omap (λ v, let trimmed := TrimSpace v in if trimmed ==s "" then None else Some trimmed)
         (SplitSeq value).

(** The loop over the map: the named properties, and the others. *)
Definition extractOIDCConfig (properties : option (gmap string string)) : error + OIDCConfig :=
  match properties with
  | None => inl ErrMissingProperties
  | Some properties =>
      let value k := default "" (properties !! k) in
      if value keyIssuer ==s "" then inl ErrMissingIssuer else
      inr (mkOIDCConfig (value keyIssuer) (value keyJWKSURI)
             (parseCommaSeparatedValues (value keyAudiences)) (value keyClientID)
             (delete keyIssuer (delete keyJWKSURI (delete keyAudiences (delete keyClientID properties)))))
  end.

Definition applyOIDC (tenantID : string) (cfg : OIDCConfig) : Comp Fleet unit :=
  publicTransaction
    (success ← onPublic true (Patch (tenantRef tenantID (oc_Issuer cfg)) []);
     if negb success
     then fail (Wrapf ErrFailedApplyOIDC "could not update tenant issuer URL in database") else
     resp ← callSessionManager (OIDCApply tenantID (oc_Issuer cfg) (oc_JwksURI cfg) (oc_ClientID cfg)
              (oc_Audiences cfg) (oc_AdditionalProperties cfg));
     let '(success, message) := resp : bool * string in
     if negb success then fail (Wrapf ErrFailedApplyOIDC message) else mret tt).

Definition handleApplyTenantAuth (req : HandlerRequest) (resp : HandlerResponse) :
    Comp Fleet HandlerResponse :=
  match unmarshalAuth (TaskData req) with
  | inl err => setErrorStateAndFail (Wrap ErrInvalidData (Some err)) WorkingStateInvalidTaskData resp
  | inr authProto =>
      let tenantID := ap_TenantId authProto in
      if tenantID ==s "" then setErrorStateAndFail ErrInvalidTenantID WorkingStateInvalidTaskData resp else
      match extractOIDCConfig (ap_Properties authProto) with
      | inl err => setErrorStateAndFail (Wrap ErrInvalidAuthProps (Some err)) WorkingStateInvalidTaskData resp
      | inr oidcConfig =>
          r ← try_ (applyOIDC tenantID oidcConfig);
          match r with
          | inl err =>
              if errors_Is err ErrFailedApplyOIDC
              then setErrorStateAndFail err WorkingStateOIDCApplyFailed resp
              else setErrorStateAndContinue (Some err) WorkingStateOIDCApplyFailed resp
          | inr _ => mret (respond CompleteTask resp)
          end
      end
  end.

(** The response and whether it was set because of an error.  After an internal error
    the message is empty: there is no answer to take it from. *)
Definition removeOIDCMapping (resp : HandlerResponse) (tenantID : string) :
    Comp Fleet (HandlerResponse * bool) :=
  r ← try_ (callSessionManager (OIDCRemove tenantID));
  let notRemoved (message : string) : Comp Fleet (HandlerResponse * bool) :=
    resp ← setErrorStateAndFail
      (Wrapf ErrFailedResponse ("session manager could not remove OIDC mapping: " +:+ message))
      WorkingStateOIDCMappingRemoveFailed resp;
    mret (resp, true) in
  match r with
  | inl err =>
      if status_Code_is err "Internal" then notRemoved ""
      else
        resp ← setErrorStateAndContinue (Some err) WorkingStateOIDCMappingRemoveFailed resp;
        mret (resp, true)
  | inr (success, message) => if negb success then notRemoved message else mret (resp, false)
  end.

Definition handleRemoveTenantAuth (req : HandlerRequest) (resp : HandlerResponse) :
    Comp Fleet HandlerResponse :=
  match unmarshalAuth (TaskData req) with
  | inl err => setErrorStateAndFail (Wrap ErrInvalidData (Some err)) WorkingStateInvalidTaskData resp
  | inr authProto =>
      let tenantID := ap_TenantId authProto in
      if tenantID ==s "" then setErrorStateAndFail ErrInvalidTenantID WorkingStateInvalidTaskData resp else
      r ← removeOIDCMapping resp tenantID;
      let '(resp, hasErr) := r : HandlerResponse * bool in
      if hasErr then mret resp else mret (respond CompleteTask resp)
  end.

(** * Blocking *)

Definition handleBlockTenant (req : HandlerRequest) (resp : HandlerResponse) :
    Comp Fleet HandlerResponse :=
  match unmarshalTenant (TaskData req) with
  | inl err => setErrorStateAndFail (Wrap ErrInvalidData (Some err)) WorkingStateInvalidTaskData resp
  | inr tenantProto =>
      r ← try_ (callSessionManager (OIDCBlock (tp_Id tenantProto)));
      match r with
      | inl err => mret (respond (ContinueAndWaitFor reconcileAfterSecError) resp)
      | inr (success, _) =>
          if negb success
          then setErrorStateAndFail (Wrapf ErrFailedResponse "session manager could not block OIDC mapping")
                 WorkingStateOIDCBlockFailed resp
          else mret (respond CompleteTask resp)
      end
  end.

Definition handleUnblockTenant (req : HandlerRequest) (resp : HandlerResponse) :
    Comp Fleet HandlerResponse :=
  match unmarshalTenant (TaskData req) with
  | inl err => setErrorStateAndFail (Wrap ErrInvalidData (Some err)) WorkingStateInvalidTaskData resp
  | inr tenantProto =>
      r ← try_ (callSessionManager (OIDCUnblock (tp_Id tenantProto)));
      match r with
      | inl err => setErrorStateAndContinue (Some err) WorkingStateOIDCUnblockFailed resp
      | inr (success, _) =>
          if negb success
          then setErrorStateAndFail (Wrapf ErrFailedResponse "session manager could not unblock OIDC mapping")
                 WorkingStateOIDCUnblockFailed resp
          else mret (respond CompleteTask resp)
      end
  end.

(** * Termination *)

Context {NS : NewString} {O : Orbital} {Rg : Registry} {UP : UUIDParse} {US : UUIDString}.

Definition terminateTenant (ctx : Ctx) (tenantID : string) : Comp Fleet OffboardingStatus :=
  let tenantCtx := CreateTenantContext ctx tenantID in
  result ← onTenant tenantID (OffboardTenant tenantCtx);
  if negb (bool_decide (result = OffboardingSuccess)) then mret result else
  _ ← DeleteTenant tenantCtx;
  mret result.

Definition handleTerminateTenant (ctx : Ctx) (req : HandlerRequest) (resp : HandlerResponse) :
    Comp Fleet HandlerResponse :=
  now ← gets f_now;
  if (terminationTimeout <? now - TaskCreatedAt req)%Z
  then setErrorStateAndFail ErrTerminationTimeout WorkingStateTenantTerminationTimeout resp else
  match unmarshalTenant (TaskData req) with
  | inl err => setErrorStateAndFail (Wrap ErrInvalidData (Some err)) WorkingStateInvalidTaskData resp
  | inr tenantProto =>
      let tenantId := tp_Id tenantProto in
      if tenantId ==s "" then setErrorStateAndFail ErrInvalidTenantID WorkingStateInvalidTaskData resp else
      r ← removeOIDCMapping resp tenantId;
      let '(resp, hasErr) := r : HandlerResponse * bool in
      if hasErr then mret resp else
      result ← try_ (terminateTenant ctx tenantId);
      match result with
      | inl err => setErrorStateAndContinue (Some err) WorkingStateWaitingTenantOffboarding resp
      | inr OffboardingFailed =>
          setErrorStateAndFail ErrTenantOffboarding WorkingStateTenantOffboardingFailed resp
      | inr OffboardingContinueAndWait =>
          mret (respond (ContinueAndWaitFor reconcileAfterSecProcessing)
                  (UseRawWorkingState WorkingStateWaitingTenantOffboarding resp))
      | inr OffboardingSuccess => mret (respond CompleteTask resp)
      | inr _ =>
          setErrorStateAndFail ErrTenantOffboarding "unexpected error: unknown offboarding status" resp
      end
  end.

(** * Dispatch *)

Definition injectInternalUser {A} (newID : string) (next : Ctx → A) (ctx : Ctx) : A :=
  next (match InjectInternalUserData newID ctx InternalTenantProvisioningRole with
        | inl _ => ctx
        | inr ctx => ctx
        end).

(** The handlers that [registerHandlers] registers, by the name of the task. *)
Definition handle (newID : string) (adminID auditorID : uuid) (action : string) (ctx : Ctx)
    (req : HandlerRequest) (resp : HandlerResponse) : option (Comp Fleet HandlerResponse) :=
  if action ==s "ACTION_PROVISION_TENANT"
  then Some (injectInternalUser newID (λ ctx, handleCreateTenant adminID auditorID ctx req resp) ctx)
  else if action ==s "ACTION_BLOCK_TENANT"
  then Some (injectInternalUser newID (λ _, handleBlockTenant req resp) ctx)
  else if action ==s "ACTION_UNBLOCK_TENANT"
  then Some (injectInternalUser newID (λ _, handleUnblockTenant req resp) ctx)
  else if action ==s "ACTION_TERMINATE_TENANT"
  then Some (injectInternalUser newID (λ ctx, handleTerminateTenant ctx req resp) ctx)
  else if action ==s "AUTH_ACTION_APPLY_AUTH"
  then Some (injectInternalUser newID (λ _, handleApplyTenantAuth req resp) ctx)
  else if action ==s "AUTH_ACTION_REMOVE_AUTH"
  then Some (injectInternalUser newID (λ _, handleRemoveTenantAuth req resp) ctx)
  else None.
End Responses.
