(* ===== verification/WorkflowManager.v ===== *)
(** The workflow manager: internal/manager/workflow.go (with
    internal/workflow/notification.go and [GetKeyConfigurationByID] of
    internal/manager/keyconfiguration.go), which creates workflows, assigns their
    approvers, applies transitions with the votes of the approvers and cleans up.

    An operation that is handed a [*model.Workflow] and changes it works on a
    [WState], the database together with that object; the lifecycle it creates
    shares the object.  The key and system managers behind [KeyActions_Get],
    [GetSystemByID] and the workflow actions, the plugin, the task queue, and the
    JSON decoding of the legacy approver groups are parameters. *)
From stdpp Require Import sorting.
From S2P Require Import Prelude Errs Json GoContext AuthzPolicies Authz Model Store Batch Fsm.
From S2P Require Import Lifecycle Users TenantConfig Groups.

Definition ErrWorkflowApproverDecision :=
  New "manager.ErrWorkflowApproverDecision" "workflow approver decision".
Definition ErrWorkflowNotAllowed :=
  New "manager.ErrWorkflowNotAllowed" "user has no permission to access workflow".
Definition ErrWorkflowCreationNotAllowed :=
  New "manager.ErrWorkflowCreationNotAllowed" "user has no permission to create workflow".
Definition ErrIncompatibleQueryField :=
  New "manager.ErrIncompatibleQueryField" "incompatible query field".
Definition ErrConnectSystemNoPrimaryKey :=
  New "manager.ErrConnectSystemNoPrimaryKey" "system cannot be connect without an enabled primary key".
Definition ErrNotAllSystemsConnected :=
  New "manager.ErrNotAllSystemsConnected" "keyconfig contains systems not connected".
Definition ErrAlreadyPrimaryKey := New "manager.ErrAlreadyPrimaryKey" "key is already primary key".
Definition ErrUpdateNonBYOKKeyStatus :=
  New "manager.ErrUpdateNonBYOKKeyStatus" "key status update is only supported for byok".
Definition ErrPrimaryKeyDisabled :=
  New "manager.ErrPrimaryKeyDisabled" "primary key must be enabled to perform switch action".
Definition ErrUnsuportedWorkflow :=
  New "manager.ErrUnsuportedWorkflow" "workflow artifact type and action type set is not supported".
Definition ErrGetWorkflowDB := New "manager.ErrGetWorkflowDB" "failed to get workflow".
Definition ErrOngoingWorkflowExist :=
  New "manager.ErrOngoingWorkflowExist" "ongoing workflow for artifact already exists".
Definition ErrCreateWorkflowDB := New "manager.ErrCreateWorkflowDB" "failed to create workflow".
Definition ErrCheckWorkflow := New "manager.ErrCheckWorkflow" "failed to check workflow".
Definition ErrCheckOngoingWorkflow :=
  New "manager.ErrCheckOngoingWorkflow" "failed to check ongoing workflow for artifact".
Definition ErrValidateActor :=
  New "manager.ErrValidateActor" "failed to validate actor for workflow transition".
Definition ErrAddApproversDB := New "manager.ErrAddApproversDB" "failed to add approvers to workflow".
Definition ErrApplyTransition :=
  New "manager.ErrApplyTransition" "failed to apply transition to workflow".
Definition ErrInDBTransaction :=
  New "manager.ErrInDBTransaction" "error when executing sequence of operations in a transaction".
Definition ErrWorkflowCannotTransitionDB :=
  New "manager.ErrWorkflowCannotTransitionDB" "workflow cannot transition to specified state".
Definition ErrUpdateApproverDecision :=
  New "manager.ErrUpdateApproverDecision" "failed to update approver decision".
Definition ErrGetKeyConfigFromArtifact :=
  New "manager.ErrGetKeyConfigFromArtifact" "failed to get key configuration from artifact".
Definition ErrCreateApproverAssignTask :=
  New "manager.ErrCreateApproverAssignTask" "failed to create auto approver assignment task".
Definition ErrCheckWorkflowEligibility :=
  New "manager.ErrCheckWorkflowEligibility" "failed to check workflow eligibility".

Definition WorkflowSystemArtifactPropertyKey : string := "NAME".

Record WorkflowStatus := mkStatus {
  st_Enabled : bool;
  st_Exists : bool;
  st_Valid : bool;
  st_CanCreate : bool;
  st_ErrDetails : option error }.

Record WorkflowEligibility := mkEligibility {
  InsufficientApprovers : bool;
  InitiatorIneligible : bool }.

(** What the manager calls outside this file: the system lookup of the system
    manager, the optional properties of its configuration (name and display name,
    in iteration order), the task queue (absent when no client is configured), the
    notification service, [json.Unmarshal] of a list of identifiers, and the n-th
    value of [uuid.New()]. *)
Class ManagerEnv := {
  GetSystemByID : Ctx → uuid → Comp World System;
  OptionalProperties : list (string * string);
  asyncClient : option (string → option error);
  createNotification : Workflow → string → list string → option error;
  unmarshalIDs : string → error + list uuid;
  uuid_New : nat → uuid }.

(** * The filter of a workflow listing *)

Record WorkflowFilter := mkFilter {
  f_State : string;
  f_ArtifactType : string;
  f_ArtifactID : uuid;
  f_ArtifactName : string;
  f_ParametersResourceName : string;
  f_ActionType : string;
  f_Skip : Z;
  f_Top : Z;
  f_Count : bool }.

Definition validateFilterEnums (state artifactType actionType : string) :
    error + (string * string * string) :=
  if negb (state ==s "") && negb (WorkflowState_Valid state)
  then inl (Errorf_ws ErrInvalidWorkflowState (quoted state))
  else if negb (artifactType ==s "") && negb (WorkflowArtifactType_Valid artifactType)
  then inl (Errorf_ws ErrInvalidWorkflowArtifactType (quoted artifactType))
  else if negb (actionType ==s "") && negb (WorkflowActionType_Valid actionType)
  then inl (Errorf_ws ErrInvalidWorkflowActionType (quoted actionType))
  else inr (state, artifactType, actionType).

(** The rows [WorkflowFilter.GetQuery] selects: a field that is not set adds no
    condition. *)
Definition GetQuery (f : WorkflowFilter) (w : Workflow) : bool :=
  ((f_State f ==s "") || (wf_State w ==s f_State f)) &&
  ((f_ArtifactType f ==s "") || (wf_ArtifactType w ==s f_ArtifactType f)) &&
  (N.eqb (f_ArtifactID f) uuid_Nil || N.eqb (wf_ArtifactID w) (f_ArtifactID f)) &&
  ((f_ArtifactName f ==s "") || eqNullable (f_ArtifactName f) (wf_ArtifactName w)) &&
  ((f_ParametersResourceName f ==s "") ||
     eqNullable (f_ParametersResourceName f) (wf_ParametersResourceName w)) &&
  ((f_ActionType f ==s "") || (wf_ActionType w ==s f_ActionType f)).

Definition Filter_GetPagination (f : WorkflowFilter) : Pagination :=
  mkPagination (f_Skip f) (f_Top f) (f_Count f).

Definition Filter_GetUUID (f : WorkflowFilter) (field : string) : error + uuid :=
  if field ==s "artifact_id" then inr (f_ArtifactID f) else inl ErrIncompatibleQueryField.

Definition Filter_GetString (f : WorkflowFilter) (field : string) : error + string :=
  if field ==s "state" then inr (f_State f)
  else if field ==s "artifact_type" then inr (f_ArtifactType f)
  else if field ==s "action_type" then inr (f_ActionType f)
  else if field ==s "artifact_name" then inr (f_ArtifactName f)
  else if field ==s "parameters_resource_name" then inr (f_ParametersResourceName f)
  else inl ErrIncompatibleQueryField.

(** * Classification of workflows *)

Definition isSupportedWorkflow (workflow : Workflow) : bool :=
  if wf_ArtifactType workflow ==s WorkflowArtifactTypeKey then
    wf_ActionType workflow ∈? [WorkflowActionTypeUpdateState; WorkflowActionTypeDelete]
  else if wf_ArtifactType workflow ==s WorkflowArtifactTypeSystem then
    wf_ActionType workflow ∈? [WorkflowActionTypeLink; WorkflowActionTypeUnlink; WorkflowActionTypeSwitch]
  else if wf_ArtifactType workflow ==s WorkflowArtifactTypeKeyConfiguration then
    wf_ActionType workflow ==s WorkflowActionTypeUpdatePrimary
  else false.

Definition isKeyStateChange (workflow : Workflow) : bool :=
  (wf_ArtifactType workflow ==s WorkflowArtifactTypeKey) &&
  (wf_ActionType workflow ==s WorkflowActionTypeUpdateState).
Definition isPrimaryKeySwitch (workflow : Workflow) : bool :=
  (wf_ArtifactType workflow ==s WorkflowArtifactTypeKeyConfiguration) &&
  (wf_ActionType workflow ==s WorkflowActionTypeUpdatePrimary).
Definition isSystemConnect (workflow : Workflow) : bool :=
  (wf_ArtifactType workflow ==s WorkflowArtifactTypeSystem) &&
  ((wf_ActionType workflow ==s WorkflowActionTypeLink) ||
   (wf_ActionType workflow ==s WorkflowActionTypeSwitch)).

Definition isInvalidAction (err : error) : bool :=
  IsAnyError err
    [ErrConnectSystemNoPrimaryKey; ErrNotAllSystemsConnected; ErrAlreadyPrimaryKey;
     ErrUpdateNonBYOKKeyStatus; ErrPrimaryKeyDisabled; ErrUnsuportedWorkflow].

Definition transformCheckWorkflowError (status : WorkflowStatus) (err : option error) :
    error + WorkflowStatus :=
  let with_details (canCreate : bool) (e : error) :=
    mkStatus (st_Enabled status) (st_Exists status) (st_Valid status) canCreate (Some e) in
  if negb (st_CanCreate status) && st_Exists status
  then inr (with_details (st_CanCreate status) ErrOngoingWorkflowExist)
  else
    match err with
    | None => inr status
    | Some err =>
        if isInvalidAction err then inr (with_details false err)
        else inl (wrapping ErrCheckWorkflow err)
    end.

Definition checkInitiatorIneligible (workflow : Workflow) (eligibleUserIDs : gset string) : bool :=
  negb (bool_decide (wf_InitiatorID workflow ∈ eligibleUserIDs)).

(** * Artifacts *)

(** [HandleTerminalWorkflow]: clear the flag of the artifact of a finished workflow. *)
Definition HandleTerminalWorkflow (workflow : Workflow) : Comp World unit :=
  if negb (is_terminal (wf_State workflow)) then mret tt
  else if wf_ArtifactType workflow ==s WorkflowArtifactTypeSystem then
    _ ← Patch (set_s_UnderWorkflow false (System_ofID (wf_ArtifactID workflow))) [UnderWorkflowField];
    mret tt
  else if wf_ArtifactType workflow ==s WorkflowArtifactTypeKey then
    _ ← Patch (set_k_UnderWorkflow false (Key_ofID (wf_ArtifactID workflow))) [UnderWorkflowField];
    mret tt
  else mret tt.

Definition handleNewWorkflow (workflow : Workflow) : Comp World unit :=
  if wf_ArtifactType workflow ==s WorkflowArtifactTypeSystem then
    _ ← Patch (set_s_UnderWorkflow true (System_ofID (wf_ArtifactID workflow))) [];
    mret tt
  else if wf_ArtifactType workflow ==s WorkflowArtifactTypeKey then
    _ ← Patch (set_k_UnderWorkflow true (Key_ofID (wf_ArtifactID workflow))) [];
    mret tt
  else mret tt.

(** A non-terminal workflow of the same artifact. *)
Definition ongoingFor (workflow row : Workflow) : bool :=
  (wf_ArtifactType row ==s wf_ArtifactType workflow) &&
  N.eqb (wf_ArtifactID row) (wf_ArtifactID workflow) &&
  (wf_State row ∈? WorkflowNonTerminalStates).

Definition checkOngoingWorkflowForArtifact (workflow : Workflow) : Comp World bool :=
  count ← map_err (wrapping ErrCheckOngoingWorkflow) (Count (where_ (ongoingFor workflow)));
  mret (0 <? count)%Z.

(** The name of a system: the property displayed as NAME, else its identifier. *)
Definition upper (c : Ascii.ascii) : Ascii.ascii :=
  let n := Ascii.nat_of_ascii c in
  if (97 <=? n) && (n <=? 122) then Ascii.ascii_of_nat (n - 32) else c.
Definition ToUpper (s : string) : string :=
  String.string_of_list_ascii (upper <$> String.list_ascii_of_string s).

Section Manager.
Context {F : FSM} {Act : Actions} {UP : UUIDParse} {NS : NewString} {Dp : Deployment} {I : IDM}
  {Env : ManagerEnv}.

(** * Configuration *)

Definition getWorkflowConfig (ctx : Ctx) : Comp World WorkflowConfig :=
  map_err (wrapping ErrGetWorkflowConfig) (GetWorkflowConfig ctx).

Definition IsWorkflowRequired (ctx : Ctx) : Comp World bool :=
  workflowConfig ← getWorkflowConfig ctx;
  mret (Enabled workflowConfig).

Definition getMinimumApprovals (ctx : Ctx) : Comp World Z :=
  config ← attempt (GetWorkflowConfig ctx);
  match config with
  | inl _ => mret DefaultMinimumApprovalCount
  | inr config =>
      if (0 <? MinimumApprovals config)%Z then mret (MinimumApprovals config)
      else mret DefaultMinimumApprovalCount
  end.

(** * Approver groups *)

(** The groups joined with the workflow's rows of the junction table. *)
Definition joinApproverGroups (id : uuid) (d : DB) : list Group :=
  g ← db_groups d;
  _ ← List.filter (λ a, N.eqb (wag_GroupID a) (g_ID g) && N.eqb (wag_WorkflowID a) id)
        (db_approverGroups d);
  [g].

Definition ListApproverGroups (id : uuid) : Comp World (list Group) :=
  db_call (λ _ d, (d, inr (applyPagination (where_ (λ _ : Group, true)) (joinApproverGroups id d)))).

Definition placeholderGroup (id : uuid) : Group := mkGroup id "NOT_AVAILABLE" "" KeyAdminRole "".

Definition expandGroup (ctx : Ctx) (groups : list Group) (id : uuid) : Comp World (list Group) :=
  group ← attempt (GetGroupByID ctx id);
  match group with
  | inl _ => mret (groups ++ [placeholderGroup id])
  | inr group => mret (groups ++ [group])
  end.

Definition getApproverGroupsFromLegacyField (ctx : Ctx) (workflow : Workflow) :
    Comp World (list Group) :=
  match wf_ApproverGroupIDs workflow with
  | None => mret []
  | Some raw =>
      ids ← lift (unmarshalIDs raw);
      fold_each (expandGroup ctx) [] ids
  end.

Definition GetWorkflowApproverGroups (ctx : Ctx) (workflow : Workflow) : Comp World (list Group) :=
  groups ← ListApproverGroups (wf_ID workflow);
  if (length groups =? 0)%nat then getApproverGroupsFromLegacyField ctx workflow else mret groups.

(** The caller's IAM groups as internal group identifiers. *)
Definition resolveUserGroupIDs (ctx : Ctx) : Comp World (gset uuid) :=
  userIAMGroups ← lift (ExtractBusinessUserDataGroupsString ctx);
  if (length userIAMGroups =? 0)%nat then mret ∅
  else
    groups ← List_ (SetLimit (Z.of_nat (length userIAMGroups)) (where_ (byIAM userIAMGroups)));
    mret (list_to_set (g_ID <$> groups)).

Definition resolveActorApproverGroupIDs (ctx : Ctx) (workflow : Workflow) :
    Comp World (option (list uuid)) :=
  groups ← GetWorkflowApproverGroups ctx workflow;
  if (length groups =? 0)%nat then mret None
  else
    userGroupIDs ← resolveUserGroupIDs ctx;
    mret (Some (List.filter (λ id, bool_decide (id ∈ userGroupIDs)) (g_ID <$> groups))).

(** * Eligibility *)

Definition authContextOf (ctx : Ctx) : gmap string string :=
  match ExtractBusinessUserDataAuthContext ctx with inr c => c | inl _ => ∅ end.

(** One group of [queryGroupMembersFromIAM]. *)
Definition groupMembers (ctx : Ctx) (authCtx : gmap string string) (eligible : gset string)
    (group : Group) : Comp World (gset string) :=
  found ← attempt (GetGroupByID ctx (g_ID group));
  match found with
  | inl err =>
      if IsAnyError err [ErrNotFound; ErrGetGroups] then mret eligible
      else fail (wrapping ErrCheckWorkflowEligibility err)
  | inr group =>
      idmGroup ← map_err (wrapping ErrCheckWorkflowEligibility)
        (lift (idm_GetGroup (g_IAMIdentifier group) authCtx));
      users ← map_err (wrapping ErrCheckWorkflowEligibility)
        (lift (idm_ListGroupUsers idmGroup authCtx));
      mret (eligible ∪ list_to_set users)
  end.

Definition queryGroupMembersFromIAM (ctx : Ctx) (authCtx : gmap string string)
    (groups : list Group) : Comp World (gset string) :=
  fold_each (groupMembers ctx authCtx) ∅ groups.

(** [None] is the nil map: no restriction. *)
Definition getEligibleUserIDsForWorkflow (ctx : Ctx) (workflow : Workflow) :
    Comp World (option (gset string)) :=
  groups ← map_err (wrapping ErrCheckWorkflowEligibility) (GetWorkflowApproverGroups ctx workflow);
  if (length groups =? 0)%nat then mret None
  else
    _ ← map_err (wrapping ErrCheckWorkflowEligibility) (lift GetIdentityManagementPlugin);
    eligible ← queryGroupMembersFromIAM ctx (authContextOf ctx) groups;
    mret (Some eligible).

Definition getWorkflowLifecycleWithEligibility (ctx : Ctx) (workflow : Workflow) (userID : string)
    (eligibleApproverIDs : option (gset string)) : Comp World Lifecycle :=
  minimumApprovals ←
    (if (wf_MinimumApprovalCount workflow =? 0)%Z then
       workflowConfig ← map_err (wrapping ErrGetWorkflowConfig) (getWorkflowConfig ctx);
       mret (MinimumApprovals workflowConfig)
     else mret (wf_MinimumApprovalCount workflow));
  mret (set_l_EligibleApproverIDs eligibleApproverIDs (NewLifecycle workflow userID minimumApprovals)).

Definition getWorkflowLifecycle (ctx : Ctx) (workflow : Workflow) (userID : string) :
    Comp World Lifecycle :=
  getWorkflowLifecycleWithEligibility ctx workflow userID None.

(** A read-only method of a fresh lifecycle. *)
Definition readLifecycle {A} (l : Lifecycle) (m : Comp LState A) : Comp World A := λ w,
  let '(s, r) := m (w, l) in (s.1, r).

Definition checkInsufficientApprovers (ctx : Ctx) (workflow : Workflow)
    (eligibleUserIDs : gset string) : Comp World bool :=
  lifecycle ← map_err (wrapping ErrCheckWorkflowEligibility) (getWorkflowLifecycle ctx workflow "");
  allApprovers ← map_err (wrapping ErrCheckWorkflowEligibility)
    (readLifecycle lifecycle GetAllApprovers);
  mret (CheckInsufficientApprovers (l_MinimumApproverCount lifecycle)
          (List.filter (λ a, bool_decide (wa_UserID a ∈ eligibleUserIDs)) allApprovers)).

Definition checkWorkflowEligibility (ctx : Ctx) (workflow : Workflow) : Comp World (bool * bool) :=
  eligibleUserIDs ← getEligibleUserIDsForWorkflow ctx workflow;
  match eligibleUserIDs with
  | None => mret (false, false)
  | Some eligibleUserIDs =>
      insufficientApprovers ← checkInsufficientApprovers ctx workflow eligibleUserIDs;
      mret (insufficientApprovers, checkInitiatorIneligible workflow eligibleUserIDs)
  end.

Definition checkApproverEligibility (ctx : Ctx) (workflow : Workflow) (userID : string)
    (approver : WorkflowApprover) : Comp World unit :=
  groups ← map_err (wrapping ErrCheckWorkflowEligibility) (GetWorkflowApproverGroups ctx workflow);
  if (length groups =? 0)%nat then mret tt
  else
    _ ← map_err (wrapping ErrCheckWorkflowEligibility) (lift GetIdentityManagementPlugin);
    eligibleUserIDs ← queryGroupMembersFromIAM ctx (authContextOf ctx) groups;
    if negb (bool_decide (userID ∈ eligibleUserIDs))
    then fail (NewApproverNoLongerEligibleError userID) else mret tt.

(** * Votes and transitions *)

Definition fetchEligibilityForVote (ctx : Ctx) (workflow : Workflow) (transition : string) :
    Comp World (option (gset string)) :=
  if negb (wf_State workflow ==s WorkflowStateWaitApproval) then mret None
  else if negb (transition ∈? [TransitionApprove; TransitionReject]) then mret None
  else
    eligible ← attempt (getEligibleUserIDsForWorkflow ctx workflow);
    match eligible with inl _ => mret None | inr ids => mret ids end.

Definition fetchAndValidateApprover (ctx : Ctx) (workflow : Workflow) (userID : string) :
    Comp World WorkflowApprover :=
  approver ← map_err (wrapping ErrCheckWorkflowEligibility)
    (comparing ErrGetResource [userID]
       (First (λ a, eqField userID (wa_UserID a) && N.eqb (wa_WorkflowID a) (wf_ID workflow))));
  _ ← checkApproverEligibility ctx workflow userID approver;
  mret approver.

Definition updateApproverDecision (approver : option WorkflowApprover) (approved : bool) :
    Comp World unit :=
  map_err (wrapping ErrWorkflowApproverDecision)
    (Transaction
      (match approver with
       | None => fail nilDereference
       | Some approver =>
           _ ← map_err (wrapping ErrUpdateApproverDecision)
             (Patch (set_wa_Approved (Some approved) approver) []);
           mret tt
       end)).

Definition recordTransitionInDB (transition : string) (approver : option WorkflowApprover) :
    Comp World unit :=
  if transition ==s TransitionApprove then updateApproverDecision approver true
  else if transition ==s TransitionReject then updateApproverDecision approver false
  else if transition ∈? [TransitionCreate; TransitionExpire; TransitionExecute; TransitionFail]
  then fail ErrWorkflowCannotTransitionDB
  else mret tt.

(** The database and the workflow object of the caller. *)
Definition WState : Type := World * Workflow.
Definition onDB {A} (m : Comp World A) : Comp WState A := zoom fst (λ w s, (w, s.2)) m.
Definition theWorkflow : Comp WState Workflow := gets snd.
Definition inTransaction {A} (m : Comp WState A) : Comp WState A :=
  TransactionOn fst (λ w s, (w, s.2)) m.

(** A method of lifecycle [l], which works on the caller's workflow object. *)
Definition withLifecycle {A} (l : Lifecycle) (m : Comp LState A) : Comp WState (Lifecycle * A) := λ s,
  match m (s.1, set_l_Workflow s.2 l) with
  | ((w, l'), inl e) => ((w, l_Workflow l'), inl e)
  | ((w, l'), inr a) => ((w, l_Workflow l'), inr (l', a))
  end.

(** Errors are logged only. *)
Definition attemptAutoReject (ctx : Ctx) (transition : string)
    (eligibleApproverIDs : option (gset string)) : Comp WState unit :=
  workflow ← theWorkflow;
  if negb (wf_State workflow ==s WorkflowStateWaitApproval) then mret tt
  else if negb (transition ∈? [TransitionApprove; TransitionReject]) then mret tt
  else
    lifecycle ← attempt (onDB (getWorkflowLifecycleWithEligibility ctx workflow "" eligibleApproverIDs));
    match lifecycle with
    | inl _ => mret tt
    | inr internalLifecycle =>
        _ ← attempt (withLifecycle internalLifecycle (ApplyTransition ctx TransitionReject));
        mret tt
    end.

(** The function that [applyTransition] runs in a transaction. *)
Definition applyTransitionTx (ctx : Ctx) (userID transition : string) : Comp WState unit :=
  workflow ← theWorkflow;
  eligibleApproverIDs ← onDB (fetchEligibilityForVote ctx workflow transition);
  lifecycle ← onDB (getWorkflowLifecycleWithEligibility ctx workflow userID eligibleApproverIDs);
  groupIDs ← onDB (resolveActorApproverGroupIDs ctx workflow);
  let lifecycle := set_l_ActorApproverGroupIDs groupIDs lifecycle in
  validated ← map_err (wrapping ErrValidateActor)
    (withLifecycle lifecycle (ValidateActor ctx transition));
  approver ←
    (if transition ∈? [TransitionApprove; TransitionReject] then
       approver ← onDB (fetchAndValidateApprover ctx workflow userID);
       mret (Some approver)
     else mret None);
  _ ← onDB (recordTransitionInDB transition approver);
  _ ← map_err (wrapping ErrApplyTransition)
    (withLifecycle validated.1 (ValidateAndApplyTransition ctx transition));
  workflow ← theWorkflow;
  _ ← onDB (HandleTerminalWorkflow workflow);
  attemptAutoReject ctx transition eligibleApproverIDs.

Definition applyTransition (ctx : Ctx) (userID transition : string) : Comp WState unit :=
  map_err (wrapping ErrInDBTransaction) (inTransaction (applyTransitionTx ctx userID transition)).

(** * Notifications *)

Definition userName (ctx : Ctx) : string → error + string :=
  GetUserName (λ id, idm_GetUser id (authContextOf ctx)) idm_isNotFound
    (match ExtractBusinessUserDataAuthContext ctx with inl e => Some e | inr _ => None end).

Fixpoint GetApproverUserNames (ctx : Ctx) (approvers : list WorkflowApprover) :
    error + list string :=
  match approvers with
  | [] => inr []
  | approver :: rest =>
      let name :=
        if negb (wa_userName approver ==s "") then inr (wa_userName approver)
        else userName ctx (wa_UserID approver) in
      match name with
      | inl err => inl err
      | inr name =>
          match GetApproverUserNames ctx rest with
          | inl err => inl err
          | inr names => inr (if negb (name ==s "") then name :: names else names)
          end
      end
  end.

Definition GetNotificationRecipients (ctx : Ctx) (workflow : Workflow) (transition : string) :
    error + list string :=
  if transition ==s TransitionCreate then GetApproverUserNames ctx (wf_Approvers workflow)
  else if transition ∈? [TransitionApprove; TransitionReject] then
    let initiatorName :=
      if negb (wf_initiatorName workflow ==s "") then inr (wf_initiatorName workflow)
      else userName ctx (wf_InitiatorID workflow) in
    match initiatorName with
    | inl err => inl err
    | inr name => inr (if negb (name ==s "") then [name] else [])
    end
  else if transition ∈? [TransitionConfirm; TransitionRevoke] then
    GetApproverUserNames ctx
      (List.filter (λ a, bool_decide (is_Some (wa_Approved a))) (wf_Approvers workflow))
  else inr [].

(** [svcRegistry.IdentityManagement()]; calling it on a missing registry panics. *)
Definition registryIDM : error + unit :=
  match svcRegistry with None => inl nilDereference | Some r => r end.

Definition createWorkflowTransitionNotificationTask (ctx : Ctx) (workflow : Workflow)
    (transition : string) (recipients : list string) : Comp World unit :=
  match asyncClient with
  | None => mret tt
  | Some _ =>
      _ ← GetTenant ctx;
      _ ← lift registryIDM;
      if (length recipients =? 0)%nat then mret tt
      else
        match createNotification workflow transition recipients with
        | Some err => fail err
        | None => mret tt
        end
  end.

Definition createAutoAssignApproversAsyncTask (workflow : Workflow) : Comp World unit :=
  match asyncClient with
  | None => mret tt
  | Some Enqueue =>
      match Enqueue (pretty (wf_ID workflow)) with
      | Some err => fail (wrapping ErrCreateApproverAssignTask err)
      | None => mret tt
      end
  end.

(** [First(ctx, workflow)], with [Preload("Approvers")] when asked. *)
Definition firstWorkflow (preload : bool) (id : uuid) : Comp World Workflow :=
  map_err (wrapping ErrGetWorkflowDB)
    (db_call (λ _ d,
      match select (λ x, byID id (wf_ID x)) (db_workflows d) with
      | x :: _ =>
          (d, inr (if preload
                   then set_wf_Approvers (select (byWorkflow (wf_ID x)) (db_approvers d)) x else x))
      | [] => (d, inl (Wrap ErrNotFound (Some ErrRecordNotFound)))
      end)).

(** * Operations on a stored workflow *)

(** Work on a workflow object of one's own and return it. *)
Definition onObject (workflow : Workflow) (m : Comp WState unit) : Comp World Workflow := λ w,
  match m (w, workflow) with
  | (s, inl err) => (s.1, inl err)
  | (s, inr _) => (s.1, inr s.2)
  end.

Definition TransitionWorkflow (ctx : Ctx) (workflowID : uuid) (transition : string) :
    Comp World Workflow :=
  userID ← lift (ExtractUserIdentifier ctx);
  workflow ← firstWorkflow true workflowID;
  workflow ← onObject workflow (applyTransition ctx userID transition);
  _ ← lift registryIDM;
  recipients ← lift (GetNotificationRecipients ctx workflow transition);
  _ ← attempt (createWorkflowTransitionNotificationTask ctx workflow transition recipients);
  mret workflow.

Definition expireTx (ctx : Ctx) : Comp WState unit :=
  userID ← lift (ExtractUserIdentifier ctx);
  workflow ← theWorkflow;
  lifecycle ← onDB (getWorkflowLifecycle ctx workflow userID);
  _ ← withLifecycle lifecycle Expire;
  workflow ← theWorkflow;
  onDB (HandleTerminalWorkflow workflow).

Definition ExpireWorkflow (ctx : Ctx) (workflowID : uuid) : Comp World Workflow :=
  workflow ← firstWorkflow false workflowID;
  onObject workflow (inTransaction (expireTx ctx)).

Definition GetWorkflowAvailableTransitions (ctx : Ctx) (workflow : Workflow) :
    Comp World (list string) :=
  userID ← lift (ExtractUserIdentifier ctx);
  lifecycle ← getWorkflowLifecycle ctx workflow userID;
  readLifecycle lifecycle AvailableBusinessUserTransitions.

Definition WorkflowCanExpire (ctx : Ctx) (workflow : Workflow) : Comp World bool :=
  userID ← lift (ExtractUserIdentifier ctx);
  lifecycle ← getWorkflowLifecycle ctx workflow userID;
  mret (CanExpire lifecycle).

Definition GetWorkflowApprovalSummary (ctx : Ctx) (workflow : Workflow) : Comp World ApprovalSummary :=
  userID ← lift (ExtractUserIdentifier ctx);
  lifecycle ← getWorkflowLifecycle ctx workflow userID;
  readLifecycle lifecycle GetApprovalSummary.

(** * Listing *)

(** The rows that joining the approvers of workflow [x] gives: one without a user when
    there are none. *)
Definition joinedApprovers (d : DB) (x : Workflow) : list (option string) :=
  match List.filter (byWorkflow (wf_ID x)) (db_approvers d) with
  | [] => [None]
  | approvers => Some ∘ wa_UserID <$> approvers
  end.

(** [filterByInitiatorOrApprover]: two alternatives for the value [me], but three of the
    reserved words are never alternatives. *)
Definition initiatorOrApprover (me : string) (x : Workflow) (user : option string) : bool :=
  let initiator := eqField me (wf_InitiatorID x) in
  if me ∈? [NotNull; NotEmpty; Empty] then initiator && eqNullable me user
  else initiator || eqNullable me user.

(** Whether the joins and conditions of [getWorkflows] select workflow [x] for the
    user [me] with IAM groups [groups]. *)
Definition visibleTo (d : DB) (me : string) (groups : list string) (x : Workflow) : bool :=
  existsb (initiatorOrApprover me x) (joinedApprovers d x) &&
  (existsb (λ a, N.eqb (wag_WorkflowID a) (wf_ID x) &&
                 existsb (λ g, N.eqb (g_ID g) (wag_GroupID a) && byIAM groups g) (db_groups d))
     (db_approverGroups d) ||
   negb (existsb (λ a, N.eqb (wag_WorkflowID a) (wf_ID x)) (db_approverGroups d))).

(** [ORDER BY created_at DESC]; workflows created at the same time stay in the order of the
    table. *)
Definition not_older (x y : Workflow) : Prop := (wf_CreatedAt y ≤ wf_CreatedAt x)%Z.
#[export] Instance not_older_dec x y : Decision (not_older x y) := Z_le_dec (wf_CreatedAt y) (wf_CreatedAt x).
Definition newestFirst : list Workflow → list Workflow := merge_sort not_older.

Definition getWorkflows (ctx : Ctx) (pagination : Pagination) (compared : list string)
    (order : list Workflow → list Workflow) (query : Workflow → bool) :
    Comp World (list Workflow * Z) :=
  isGroupFiltered ← map_err (wrapping ErrGetWorkflowDB)
    (NeedsGroupFiltering ctx APIActionRead APIResourceTypeWorkFlow);
  restrict ←
    (if (isGroupFiltered : bool) then
       userIAMGroups ← map_err (wrapping ErrGetWorkflowDB)
         (lift (ExtractBusinessUserDataGroupsString ctx));
       iamIdentifier ← lift (ExtractBusinessUserDataIdentifier ctx);
       mret ([iamIdentifier], λ d, visibleTo d iamIdentifier userIAMGroups)
     else mret ([], λ _ _, true));
  let '(identifiers, restrict) := restrict : list string * (DB → Workflow → bool) in
  let matching (d : DB) : list Workflow := select (λ x, query x && restrict d x) (db_workflows d) in
  let q : Query Workflow := SetOffset (Skip pagination) (SetLimit (Top pagination) (where_ query)) in
  workflows ← map_err (wrapping ErrGetWorkflowDB)
    (comparing ErrListingItems (compared ++ identifiers)
       (db_call (λ _ d, (d, inr (applyPagination q (order (matching d)))))));
  count ← map_err (wrapping ErrGetWorkflowDB)
    (db_call (λ _ d, (d, inr (Z.of_nat (length (matching d))))));
  mret (workflows, count).

Definition GetWorkflows (ctx : Ctx) (f : WorkflowFilter) : Comp World (list Workflow * Z) :=
  getWorkflows ctx (Filter_GetPagination f) [f_ArtifactName f; f_ParametersResourceName f] newestFirst (GetQuery f).

(** All results of [GetWorkflowByID]: the workflow comes along with the error of the
    eligibility check. *)
Definition findWorkflowByID (ctx : Ctx) (workflowID : uuid) :
    Comp World (Workflow * (error + WorkflowEligibility)) :=
  found ← getWorkflows ctx (mkPagination 0 0 false) [] id (λ x, N.eqb (wf_ID x) workflowID);
  match found.1 with
  | [] => fail (Wrap ErrWorkflowNotAllowed None)
  | workflow :: _ =>
      eligibility ← try_ (checkWorkflowEligibility ctx workflow);
      mret (workflow, match eligibility with
                      | inl err => inl err
                      | inr e => inr (mkEligibility e.1 e.2)
                      end)
  end.

Definition GetWorkflowByID (ctx : Ctx) (workflowID : uuid) :
    Comp World (Workflow * WorkflowEligibility) :=
  found ← findWorkflowByID ctx workflowID;
  match found.2 with
  | inl err => fail err
  | inr eligibility => mret (found.1, eligibility)
  end.

Definition ListWorkflowApprovers (ctx : Ctx) (id : uuid) (decisionMade : bool)
    (pagination : Pagination) : Comp World (list WorkflowApprover * Z) :=
  _ ← GetWorkflowByID ctx id;
  ListAndCount pagination
    (where_ (λ a, byWorkflow id a &&
                  (if decisionMade then bool_decide (is_Some (wa_Approved a)) else true))).

(** * Key configurations of an artifact *)

(** [KeyConfigManager.GetKeyConfigurationByID]; the admin group is preloaded. *)
Definition GetKeyConfigurationByID (ctx : Ctx) (keyConfigID : uuid) : Comp World KeyConfiguration :=
  _ ← HasKeyConfigAccess ctx APIActionRead (Some (KeyConfiguration_ofID keyConfigID));
  map_err (wrapping ErrGettingKeyConfigByID)
    (db_call (λ _ d,
      match select (λ k, byID keyConfigID (kc_ID k)) (db_keyConfigs d) with
      | k :: _ =>
          let group := match select (λ g, N.eqb (g_ID g) (kc_AdminGroupID k)) (db_groups d) with
                       | g :: _ => g | [] => Group_zero end in
          (d, inr (set_kc_AdminGroup group k))
      | [] => (d, inl (Wrap ErrNotFound (Some ErrRecordNotFound)))
      end)).

Definition getKeyConfigFromSystem (ctx : Ctx) (workflow : Workflow) : Comp World (list KeyConfiguration) :=
  current ←
    (if wf_ActionType workflow ∈? [WorkflowActionTypeUnlink; WorkflowActionTypeSwitch] then
       system ← map_err (wrapping ErrGetKeyConfigFromArtifact)
         (GetSystemByID ctx (wf_ArtifactID workflow));
       match s_KeyConfigurationID system with
       | None => fail nilDereference
       | Some id =>
           keyConfig ← map_err (wrapping ErrGetKeyConfigFromArtifact) (GetKeyConfigurationByID ctx id);
           mret [keyConfig]
       end
     else mret []);
  target ←
    (if wf_ActionType workflow ∈? [WorkflowActionTypeLink; WorkflowActionTypeSwitch] then
       keyConfigID ← map_err (λ err, Wrapf ErrGetKeyConfigFromArtifact
           ("invalid key configuration ID in workflow parameters: " +:+ Error err))
         (lift (uuid_Parse (wf_Parameters workflow)));
       keyConfig ← map_err (wrapping ErrGetKeyConfigFromArtifact)
         (GetKeyConfigurationByID ctx keyConfigID);
       mret [keyConfig]
     else mret []);
  mret (current ++ target).

Definition getKeyConfigFromKey (ctx : Ctx) (workflow : Workflow) : Comp World KeyConfiguration :=
  key ← map_err (wrapping ErrGetKeyConfigFromArtifact) (KeyActions_Get ctx (wf_ArtifactID workflow));
  map_err (wrapping ErrGetKeyConfigFromArtifact) (GetKeyConfigurationByID ctx (k_KeyConfigurationID key)).

Definition getKeyConfigurationsFromArtifact (ctx : Ctx) (workflow : Workflow) :
    Comp World (list KeyConfiguration) :=
  if wf_ArtifactType workflow ==s WorkflowArtifactTypeKeyConfiguration then
    keyConfig ← map_err (wrapping ErrGetKeyConfigFromArtifact)
      (GetKeyConfigurationByID ctx (wf_ArtifactID workflow));
    mret [keyConfig]
  else if wf_ArtifactType workflow ==s WorkflowArtifactTypeSystem then
    getKeyConfigFromSystem ctx workflow
  else if wf_ArtifactType workflow ==s WorkflowArtifactTypeKey then
    keyConfig ← getKeyConfigFromKey ctx workflow;
    mret [keyConfig]
  else fail (Wrapf ErrGetKeyConfigFromArtifact
               ("unsupported artifact type: " +:+ wf_ArtifactType workflow)).

(** * Approvers *)

Definition approversAndGroups : Type := gmap string WorkflowApprover * gmap string Group.

(** Add the members of one admin group, without the initiator. *)
Definition addMembers (initiatorID : string) (users : list string)
    (approverMap : gmap string WorkflowApprover) : gmap string WorkflowApprover :=
  foldl (λ m userID,
    if userID ==s initiatorID then m else <[userID := mkApprover 0 userID "" None]> m)
    approverMap users.

Definition keyConfigApprovers (ctx : Ctx) (workflow : Workflow) (acc : approversAndGroups)
    (keyConfig : KeyConfiguration) : Comp World approversAndGroups :=
  let group := kc_AdminGroup keyConfig in
  if N.eqb (g_ID group) uuid_Nil
  then fail (Wrapf ErrAutoAssignApprover "admin group not loaded for key configuration")
  else
    let authCtx := authContextOf ctx in
    idmGroup ← map_err (wrapping ErrAutoAssignApprover)
      (lift (idm_GetGroup (g_IAMIdentifier group) authCtx));
    users ← map_err (wrapping ErrAutoAssignApprover) (lift (idm_ListGroupUsers idmGroup authCtx));
    mret (addMembers (wf_InitiatorID workflow) users acc.1, <[g_IAMIdentifier group := group]> acc.2).

(** The maps are iterated in an unspecified order; the model fixes one. *)
Definition getApproversAndGroupsFromKeyConfigs (ctx : Ctx) (workflow : Workflow)
    (keyConfigs : list KeyConfiguration) : Comp World (list WorkflowApprover * list Group) :=
  _ ← lift GetIdentityManagementPlugin;
  acc ← fold_each (keyConfigApprovers ctx workflow) (∅, ∅) keyConfigs;
  mret ((map_to_list acc.1).*2, (map_to_list acc.2).*2).

Definition validateApproverCount (ctx : Ctx) (workflow : Workflow) (minimumApprovals : Z) :
    Comp World bool :=
  keyConfigs ← map_err (wrapping ErrCheckWorkflow) (getKeyConfigurationsFromArtifact ctx workflow);
  approversGroups ← map_err (wrapping ErrCheckWorkflow)
    (getApproversAndGroupsFromKeyConfigs ctx workflow keyConfigs);
  let eligibleCount := Z.of_nat (length approversGroups.1) in
  if (eligibleCount <? minimumApprovals)%Z
  then fail (NewInsufficientApproversError minimumApprovals eligibleCount) else mret true.

(** The loop of [addApproversAndGroupAssociations] over the groups; [n] counts the
    identifiers drawn so far. *)
Fixpoint associateGroups (n : nat) (workflowID : uuid) (groups : list Group) : Comp World unit :=
  match groups with
  | [] => mret tt
  | g :: rest =>
      _ ← Set_ (mkApproverGroup (uuid_New n) workflowID (g_ID g));
      associateGroups (S n) workflowID rest
  end.

Definition addApproversTx (ctx : Ctx) (userID : string) (approvers : list WorkflowApprover)
    (groups : list Group) : Comp WState unit :=
  workflow ← theWorkflow;
  lifecycle ← onDB (getWorkflowLifecycle ctx workflow userID);
  _ ← onDB (for_each (λ approver,
        map_err (wrapping ErrAddApproversDB) (Set_ (set_wa_WorkflowID (wf_ID workflow) approver)))
        approvers);
  _ ← onDB (associateGroups 0 (wf_ID workflow) groups);
  _ ← map_err (wrapping ErrApplyTransition)
    (withLifecycle lifecycle (ValidateAndApplyTransition ctx TransitionCreate));
  mret tt.

Definition addApproversAndGroupAssociations (ctx : Ctx) (userID : string)
    (approvers : list WorkflowApprover) (groups : list Group) : Comp WState unit :=
  map_err (wrapping ErrInDBTransaction) (inTransaction (addApproversTx ctx userID approvers groups)).

Definition AutoAssignApprovers (ctx : Ctx) (workflowID : uuid) : Comp World Workflow :=
  workflow ← firstWorkflow false workflowID;
  keyConfigs ← getKeyConfigurationsFromArtifact ctx workflow;
  approversGroups ← getApproversAndGroupsFromKeyConfigs ctx workflow keyConfigs;
  let '(approvers, groups) := approversGroups in
  workflow ← map_err (wrapping ErrAddApproversDB)
    (onObject workflow
      (addApproversAndGroupAssociations ctx (wf_InitiatorID workflow) approvers groups));
  _ ← lift registryIDM;
  approverUserNames ← lift (GetApproverUserNames ctx approvers);
  _ ← attempt (createWorkflowTransitionNotificationTask ctx workflow TransitionCreate approverUserNames);
  mret workflow.

(** * Creation *)

Definition primaryKeyEnabled (kc : KeyConfiguration) : Comp World unit :=
  match kc_PrimaryKeyID kc with
  | Some id =>
      if N.eqb id uuid_Nil then fail ErrConnectSystemNoPrimaryKey
      else
        key ← First (λ k, byID id (k_ID k));
        if negb (k_State key ==s KeyStateENABLED) then fail ErrConnectSystemNoPrimaryKey else mret tt
  | None => fail ErrConnectSystemNoPrimaryKey
  end.

Definition allConnected (systems : list System) : Comp World unit :=
  for_each (λ s, if negb (s_Status s ==s SystemStatusCONNECTED)
                 then fail ErrNotAllSystemsConnected else mret tt) systems.

Definition ofKeyConfig (id : uuid) (s : System) : bool :=
  match s_KeyConfigurationID s with Some k => N.eqb k id | None => false end.

(** The batch loop needs at most one round per system and one more. *)
Definition checkSystemsConnected (keyConfigID : uuid) : Comp World unit :=
  n ← gets (λ w, length (db_systems (w_db w)));
  done ← ProcessInBatch (where_ (ofKeyConfig keyConfigID)) DefaultLimit allConnected (S n);
  match done with Some _ => mret tt | None => fail (Panic "unreachable: batch loop") end.

Definition validatePrimaryKeySwitch (workflow : Workflow) (keyConfigs : list KeyConfiguration) :
    Comp World unit :=
  targetKeyID ← lift (uuid_Parse (wf_Parameters workflow));
  match keyConfigs with
  | [] => fail indexOutOfRange
  | kc :: _ =>
      match kc_PrimaryKeyID kc with
      | None => fail ErrPrimaryKeyDisabled
      | Some primary =>
          targetKey ← First (λ k, byID targetKeyID (k_ID k));
          if negb (k_State targetKey ==s KeyStateENABLED) then fail ErrPrimaryKeyDisabled
          else
            sourceKey ← First (λ k, byID primary (k_ID k));
            if negb (k_State sourceKey ==s KeyStateENABLED) then fail ErrPrimaryKeyDisabled
            else if N.eqb primary (k_ID targetKey) then fail ErrAlreadyPrimaryKey
            else checkSystemsConnected (wf_ArtifactID workflow)
      end
  end.

(** The key type is looked at before the error of the lookup. *)
Definition validateKeyStateChange (workflow : Workflow) : Comp World unit :=
  found ← attempt (First (λ k, byID (wf_ArtifactID workflow) (k_ID k)));
  let keyType := match found with inr key => k_KeyType key | inl _ => "" end in
  if negb (keyType ==s KeyTypeBYOK) then fail ErrUpdateNonBYOKKeyStatus
  else match found with inl err => fail err | inr _ => mret tt end.

Definition validateWorkflow (ctx : Ctx) (workflow : Workflow) : Comp World bool :=
  keyConfigs ← getKeyConfigurationsFromArtifact ctx workflow;
  _ ← (if isSystemConnect workflow then for_each primaryKeyEnabled keyConfigs
       else if isPrimaryKeySwitch workflow then validatePrimaryKeySwitch workflow keyConfigs
       else if isKeyStateChange workflow then validateKeyStateChange workflow
       else mret tt);
  mret true.

(** The status comes with an error; a panic is an error of the computation. *)
Definition checkWorkflow (ctx : Ctx) (workflow : Workflow) (enabled : bool) :
    Comp World (WorkflowStatus * option error) :=
  if negb enabled then mret (mkStatus false false false false None, None)
  else if negb (isSupportedWorkflow workflow)
  then mret (mkStatus enabled false false false None, Some ErrUnsuportedWorkflow)
  else
    valid ← try_ (validateWorkflow ctx workflow);
    match valid with
    | inl err => mret (mkStatus enabled false false false None, Some err)
    | inr isValid =>
        ongoing ← try_ (checkOngoingWorkflowForArtifact workflow);
        match ongoing with
        | inl err => mret (mkStatus enabled false isValid false None, Some err)
        | inr exists_ =>
            if negb (negb exists_ && isValid)
            then mret (mkStatus enabled exists_ isValid false None, None)
            else
              minimumApprovals ← getMinimumApprovals ctx;
              counted ← try_ (validateApproverCount ctx workflow minimumApprovals);
              match counted with
              | inr canCreate => mret (mkStatus enabled exists_ isValid canCreate None, None)
              | inl errDetails =>
                  if negb (errors_Is errDetails ErrWorkflowGroupNotSufficientMembers)
                  then mret (mkStatus enabled exists_ isValid false None, Some errDetails)
                  else mret (mkStatus enabled exists_ isValid false (Some errDetails), None)
              end
        end
    end.

Definition checkPermissionToCreateWorkflow (ctx : Ctx) (workflow : Workflow) : Comp World bool :=
  if wf_ArtifactType workflow ∈?
       [WorkflowArtifactTypeKeyConfiguration; WorkflowArtifactTypeSystem; WorkflowArtifactTypeKey] then
    found ← try_ (getKeyConfigurationsFromArtifact ctx workflow);
    match found with
    | inl err =>
        if errors_Is err ErrKeyConfigurationNotAllowed || errors_Is err ErrNotFound
        then mret false else fail err
    | inr _ =>
        userinfo ← GetBusinessUserInfo ctx;
        if ui_Role userinfo ==s TenantAuditorRole then mret false else mret true
    end
  else fail (Wrapf ErrGetKeyConfigFromArtifact
               ("unsupported artifact type: " +:+ wf_ArtifactType workflow)).

Definition CheckWorkflow (ctx : Ctx) (workflow : Workflow) : Comp World WorkflowStatus :=
  workflowConfig ← getWorkflowConfig ctx;
  allowed ← map_err (wrapping ErrCheckWorkflow) (checkPermissionToCreateWorkflow ctx workflow);
  if negb allowed then fail (Wrap ErrCheckWorkflow (Some ErrWorkflowCreationNotAllowed))
  else
    status ← checkWorkflow ctx workflow (Enabled workflowConfig);
    lift (transformCheckWorkflowError status.1 status.2).

Fixpoint propertyNamed (props : list (string * string)) (system : System) : option string :=
  match props with
  | [] => None
  | (propertyName, displayName) :: rest =>
      if ToUpper displayName ==s WorkflowSystemArtifactPropertyKey
      then s_Properties system !! propertyName
      else propertyNamed rest system
  end.

Definition getWorkflowSystemArtifactName (system : System) : option string :=
  match propertyNamed OptionalProperties system with
  | Some name => Some name
  | None => Some (s_Identifier system)
  end.

Definition populateArtifact (ctx : Ctx) (workflow : Workflow) : Comp World Workflow :=
  if wf_ArtifactType workflow ==s WorkflowArtifactTypeKey then
    key ← KeyActions_Get ctx (wf_ArtifactID workflow);
    mret (set_wf_ArtifactName (Some (k_Name key)) workflow)
  else if wf_ArtifactType workflow ==s WorkflowArtifactTypeKeyConfiguration then
    keyConfig ← GetKeyConfigurationByID ctx (wf_ArtifactID workflow);
    mret (set_wf_ArtifactName (Some (kc_Name keyConfig)) workflow)
  else if wf_ArtifactType workflow ==s WorkflowArtifactTypeSystem then
    system ← GetSystemByID ctx (wf_ArtifactID workflow);
    mret (set_wf_ArtifactName (getWorkflowSystemArtifactName system) workflow)
  else mret workflow.

Definition populateParametersResource (ctx : Ctx) (workflow : Workflow) : Comp World Workflow :=
  if wf_ArtifactType workflow ==s WorkflowArtifactTypeKeyConfiguration then
    if wf_ActionType workflow ==s WorkflowActionTypeUpdatePrimary then
      keyID ← lift (uuid_Parse (wf_Parameters workflow));
      key ← KeyActions_Get ctx keyID;
      mret (set_wf_ParametersResource (Some WorkflowParametersResourceTypeKey) (Some (k_Name key)) workflow)
    else mret workflow
  else if wf_ArtifactType workflow ==s WorkflowArtifactTypeSystem then
    if wf_ActionType workflow ∈? [WorkflowActionTypeLink; WorkflowActionTypeSwitch] then
      keyConfigID ← lift (uuid_Parse (wf_Parameters workflow));
      keyConfig ← GetKeyConfigurationByID ctx keyConfigID;
      mret (set_wf_ParametersResource (Some WorkflowParametersResourceTypeKeyConfiguration)
              (Some (kc_Name keyConfig)) workflow)
    else mret workflow
  else mret workflow.

(** The function [CreateWorkflow] runs in a transaction. *)
Definition createTx (workflow : Workflow) : Comp World Workflow :=
  created ← map_err (wrapping ErrCreateWorkflowDB) (Create workflow);
  _ ← map_err (wrapping ErrCreateWorkflowDB) (handleNewWorkflow created);
  _ ← createAutoAssignApproversAsyncTask created;
  mret created.

Definition CreateWorkflow (ctx : Ctx) (workflow : Workflow) : Comp World Workflow :=
  let workflow := set_wf_State WorkflowStateInitial workflow in
  minimumApprovals ← getMinimumApprovals ctx;
  let workflow := set_wf_MinimumApprovalCount minimumApprovals workflow in
  status ← CheckWorkflow ctx workflow;
  if st_Exists status then fail ErrOngoingWorkflowExist
  else
    match st_ErrDetails status with
    | Some err => fail err
    | None =>
        workflow ← populateArtifact ctx workflow;
        workflow ← populateParametersResource ctx workflow;
        map_err (wrapping ErrInDBTransaction) (Transaction (createTx workflow))
    end.

(** * Cleanup *)

Definition Workflow_ofID (id : uuid) : Workflow :=
  mkWorkflow 0 id "" "" "" [] None "" 0 None "" "" None None "" None 0.

Definition deleteWorkflows (workflows : list Workflow) : Comp World unit :=
  if (length workflows =? 0)%nat then mret tt
  else Transaction (for_each (λ x, _ ← Delete (Workflow_ofID (wf_ID x)); mret tt) workflows).

Definition expired (cutoffDate : Z) (x : Workflow) : bool :=
  (wf_State x ∈? WorkflowTerminalStates) && (wf_CreatedAt x <? cutoffDate)%Z.

(** One round of fuel per stored workflow and one more. *)
Definition CleanupTerminalWorkflows (ctx : Ctx) : Comp World (option unit) :=
  workflowConfig ← getWorkflowConfig ctx;
  world ← get;
  let cutoffDate := (w_now world - RetentionPeriodDays workflowConfig * day)%Z in
  ProcessInBatchWithOptions (where_ (expired cutoffDate)) DefaultLimit (mkBatchOptions true false)
    deleteWorkflows (S (length (db_workflows (w_db world)))).
End Manager.
