(* ===== verification/QueryFacts.v ===== *)
(** What the queries of internal/repo/query.go select, and that the conditions on rows with
    which the other files model the queries of the workflow manager and of the label manager
    are what the statements built for those queries select. *)
From S2P Require Import Prelude Errs Json GoContext AuthzPolicies Model Store Batch.
From S2P Require Import Users KeyAccess Events JobHandlers KeyConfigs Labels RegistryClient Systems Fsm Lifecycle TenantConfig Groups.
From S2P Require Import WorkflowManager.
From S2P Require Import Queries.
#[local] Open Scope Z_scope.

(** * Truth *)

Lemma forallb_mono {A} (p q : A → bool) l :
  (∀ x, p x = true → q x = true) → forallb p l = true → forallb q l = true.
Proof. rewrite !forallb_forall. naive_solver. Qed.

Lemma forallb_map {A B} (f : A → B) (p : B → bool) l : forallb p (map f l) = forallb (λ x, p (f x)) l.
Proof. induction l as [|x l IH]; [done|]. cbn. by rewrite IH. Qed.

Definition holds (t : truth) : bool := match t with Some true => true | _ => false end.

Lemma holds_and3 a b : holds (and3 a b) = holds a && holds b.
Proof. by destruct a as [[]|], b as [[]|]. Qed.

Lemma holds_or3 a b : holds (or3 a b) = holds a || holds b.
Proof. by destruct a as [[]|], b as [[]|]. Qed.

Lemma evalSeries_and run ts :
  holds (evalSeries run (map (pair false) ts)) = holds run && forallb holds ts.
Proof.
  revert run. induction ts as [|t ts IH]; intros run; cbn; [by rewrite andb_true_r|].
  by rewrite IH, holds_and3, andb_assoc.
Qed.

Lemma evalSeries_or run ts :
  holds (evalSeries run (map (pair true) ts)) = holds run || existsb holds ts.
Proof.
  revert run. induction ts as [|t ts IH]; intros run; cbn; [by rewrite orb_false_r|].
  by rewrite holds_or3, IH.
Qed.

(** How a series of conditions joined in one way is read. *)
Definition joined {A} (isStrict : bool) (p : A → bool) (l : list A) : bool :=
  match l with [] => true | _ => if isStrict then forallb p l else existsb p l end.

Lemma evalJoined_uniform (or : bool) ts :
  holds (evalJoined (map (pair or) ts)) = joined (negb or) holds ts.
Proof.
  destruct ts as [|t ts]; [done|]. destruct or; cbn; [apply evalSeries_or|apply evalSeries_and].
Qed.

(** * Conditions and keys *)

(** The comparisons of one condition: usually one, two for a text that must not be empty. *)
Definition atoms (field : string) (key : QKey) : list Atom :=
  match qk_Operation key, qk_Value key with
  | Equal, QString s =>
      if s ==s Null then [IsNull field]
      else if s ==s NotNull then [IsNotNull field]
      else if s ==s NotEmpty then [IsNotNull field; Compare field NotEqual (QString "")]
      else if s ==s Empty then [NullOr field (QString "")]
      else if s ==s FalseNull then [NullOr field (QBool false)]
      else [Compare field Equal (QString s)]
  | Equal, QSlice l => [IsIn field l]
  | op, v => [Compare field op v]
  end.

(** The conditions that are alternatives in a key that is not strict. *)
Definition alternative (key : QKey) : bool :=
  match qk_Operation key, qk_Value key with
  | Equal, QString s => negb (s ∈? [NotNull; NotEmpty; Empty; FalseNull])
  | _, _ => true
  end.

Lemma applyFieldCondition_app field key isStrict tx :
  applyFieldCondition field key isStrict tx = tx ++ applyFieldCondition field key isStrict [].
Proof.
  unfold applyFieldCondition, applyFieldEqualCondition, applyCondition, tx_Where, tx_Or.
  by repeat case_match; rewrite <-?app_assoc.
Qed.

Lemma strict_condition field key :
  applyFieldCondition field key true [] = map (λ a, (false, At a)) (atoms field key).
Proof. unfold applyFieldCondition, applyFieldEqualCondition, atoms. by repeat case_match. Qed.

Lemma alternative_condition field key :
  alternative key = true →
  ∃ a, atoms field key = [a] ∧ applyFieldCondition field key false [] = [(true, At a)].
Proof.
  unfold alternative, applyFieldCondition, applyFieldEqualCondition, atoms.
  destruct key as [v []]; cbn [qk_Value qk_Operation]; try (intros _; by eexists).
  destruct v; try (intros _; by eexists). unfold mem. cbn [existsb].
  destruct (s ==s Null), (s ==s NotNull), (s ==s NotEmpty), (s ==s Empty), (s ==s FalseNull);
    intros H; try discriminate H; by eexists.
Qed.

(** The other conditions are joined with AND in any key. *)
Lemma never_alternative field key :
  alternative key = false → applyFieldCondition field key false [] = applyFieldCondition field key true [].
Proof.
  unfold alternative, applyFieldCondition, applyFieldEqualCondition.
  destruct key as [v []]; cbn [qk_Value qk_Operation]; try done. destruct v; try done.
  intros H%negb_false_iff%mem_elem. by repeat (apply elem_of_cons in H as [->|H]); [..|apply not_elem_of_nil in H].
Qed.

Definition wellFormed (c : Condition) : bool := match en_Err (cd_Value c) with None => true | Some _ => false end.

Section Selection.
Variable tableName : string.
Variable row : Row.

(** The column that a condition names, in a table that is not shared. *)
Definition fieldOf (c : Condition) : string :=
  match cutDot (cd_Field c) with Some _ => cd_Field c | None => dquoted tableName +:+ "." +:+ cd_Field c end.

Definition condHolds (c : Condition) : bool :=
  forallb (λ a, holds (evalAtom row a)) (atoms (fieldOf c) (en_Key (cd_Value c))).

(** A key reads as a conjunction when it is strict, and when none of its conditions can be an
    alternative. *)
Definition conjunctive (key : CompositeKey) : bool :=
  ck_IsStrict key || forallb (λ c, negb (alternative (en_Key (cd_Value c)))) (ck_Conds key).

(** What a key selects: all of its conditions, or one of them. *)
Definition keyHolds (key : CompositeKey) : bool := joined (conjunctive key) condHolds (ck_Conds key).

(** The keys that read as conjunctions or disjunctions. *)
Definition regular (key : CompositeKey) : bool :=
  forallb wellFormed (ck_Conds key) &&
  (conjunctive key || forallb (λ c, alternative (en_Key (cd_Value c))) (ck_Conds key)).

Lemma handleConditions_exact isStrict conds tx :
  forallb wellFormed conds = true →
  handleConditions tableName false isStrict conds tx =
    inr (tx ++ concat (map (λ c, applyFieldCondition (fieldOf c) (en_Key (cd_Value c)) isStrict []) conds)).
Proof.
  revert tx. induction conds as [|c conds IH]; intros tx; cbn; [by rewrite app_nil_r|].
  intros [Hc Hw]%andb_true_iff. unfold handleCondition, qualified. cbn [negb].
  unfold wellFormed in Hc. destruct (en_Err (cd_Value c)) eqn:He; [done|].
  assert (match cutDot (cd_Field c) with
    | Some _ => inr (cd_Field c) | None => inr (dquoted tableName +:+ "." +:+ cd_Field c) end
    = (inr (fieldOf c) : error + string)) as -> by (unfold fieldOf; by case_match).
  rewrite IH by done. rewrite (applyFieldCondition_app _ _ isStrict tx). by rewrite <-app_assoc.
Qed.

(** A part of a series of conditions that were all added with AND. *)
Lemma evalConds_strict conds :
  holds (evalConds row (concat (map (λ c, applyFieldCondition (fieldOf c) (en_Key (cd_Value c)) true []) conds)))
  = forallb condHolds conds.
Proof.
  assert (concat (map (λ c, applyFieldCondition (fieldOf c) (en_Key (cd_Value c)) true []) conds) =
    map (λ a, (false, At a)) (concat (map (λ c, atoms (fieldOf c) (en_Key (cd_Value c))) conds))) as ->.
  { induction conds as [|c conds IH]; [done|]. cbn. by rewrite strict_condition, IH, map_app. }
  unfold evalConds. cbn [eval]. rewrite map_map.
  rewrite <-(map_map (λ a, evalAtom row a) (pair false)), evalJoined_uniform.
  transitivity (forallb holds (map (evalAtom row) (concat (map (λ c, atoms (fieldOf c) (en_Key (cd_Value c))) conds)))).
  { by destruct (map _ _). }
  rewrite forallb_map. induction conds as [|c conds IH]; [done|]. cbn. by rewrite forallb_app, IH.
Qed.

Lemma evalConds_alternatives conds :
  forallb (λ c, alternative (en_Key (cd_Value c))) conds = true →
  holds (evalConds row (concat (map (λ c, applyFieldCondition (fieldOf c) (en_Key (cd_Value c)) false []) conds)))
  = joined false condHolds conds.
Proof.
  intros H.
  assert (∃ l, concat (map (λ c, applyFieldCondition (fieldOf c) (en_Key (cd_Value c)) false []) conds) =
    map (λ a, (true, At a)) l ∧ map condHolds conds = map (λ a, holds (evalAtom row a)) l) as (l & -> & Hl).
  { induction conds as [|c conds IH]; [by exists []|]. cbn in H |- *. apply andb_true_iff in H as [Hc H].
    destruct (alternative_condition (fieldOf c) _ Hc) as (a & Ea & ->). destruct (IH H) as (l & -> & E).
    exists (a :: l). split; [done|]. cbn. rewrite E. f_equal. unfold condHolds. rewrite Ea. cbn. apply andb_true_r. }
  unfold evalConds. cbn [eval]. rewrite map_map.
  rewrite <-(map_map (λ a, evalAtom row a) (pair true)), evalJoined_uniform.
  assert (∀ A (p : A → bool) m, joined false p m = joined false (λ b, b) (map p m)) as Hj.
  { intros A p m. destruct m as [|x m]; [done|]. cbn. f_equal. induction m as [|y m IH]; [done|]. cbn. by rewrite IH. }
  rewrite (Hj _ condHolds), Hl, (Hj _ holds), map_map. done.
Qed.

(** A key that does not mix alternatives with other conditions selects the rows that meet all
    of its conditions, or one of them; without conditions it selects every row. *)
Lemma handleCompositeKey_exact key :
  regular key = true →
  ∃ tx, handleCompositeKey tableName false key = inr tx ∧ holds (evalConds row tx) = keyHolds key.
Proof.
  unfold regular, handleCompositeKey, keyHolds. intros [Hw H]%andb_true_iff.
  rewrite handleConditions_exact by done. eexists. split; [done|]. cbn [app].
  destruct (conjunctive key) eqn:Hc; unfold conjunctive in Hc.
  - transitivity (forallb condHolds (ck_Conds key)); [|by destruct (ck_Conds key)].
    rewrite <-evalConds_strict. do 3 f_equal. destruct (ck_IsStrict key); [done|]. cbn [orb] in Hc.
    apply map_ext_in. intros c Hin. rewrite forallb_forall in Hc.
    by apply never_alternative, negb_true_iff, Hc.
  - apply orb_false_iff in Hc as [-> _]. by apply evalConds_alternatives.
Qed.

(** Groups that are all strict. *)
Lemma applyGroups_exact first groups ts :
  forallb (λ g, cg_IsStrict g && regular (cg_CompositeKey g)) groups = true →
  ∃ l, applyGroups tableName false first groups (map (λ e, (false, e)) ts) = inr (map (λ e, (false, e)) (ts ++ l)) ∧
       forallb (λ e, holds (eval row e)) l = forallb (λ g, keyHolds (cg_CompositeKey g)) groups.
Proof.
  revert first ts. induction groups as [|g groups IH]; intros first ts.
  { intros _. exists []. by rewrite app_nil_r. }
  cbn [forallb applyGroups]. intros [[Hs Hr]%andb_true_iff Hg]%andb_true_iff.
  destruct (handleCompositeKey_exact _ Hr) as (tx & -> & Htx). rewrite Hs, andb_false_r, <-Htx.
  unfold addGroup. destruct tx as [|c tx].
  - destruct (IH false ts Hg) as (l & -> & Hl). by exists l.
  - destruct (IH false (ts ++ [Nested (c :: tx)]) Hg) as (l & E & Hl). rewrite map_app in E. cbn [map] in E.
    rewrite E. exists (Nested (c :: tx) :: l). rewrite <-app_assoc. split; [done|]. cbn [forallb]. by rewrite Hl.
Qed.

(** A query whose groups are all strict selects the rows that all of its keys select. *)
Lemma selects_exact query :
  forallb (λ g, cg_IsStrict g && regular (cg_CompositeKey g)) (rq_CompositeKeyGroup query) = true →
  selectsRow tableName false query row =
    inr (forallb (λ g, keyHolds (cg_CompositeKey g)) (rq_CompositeKeyGroup query)).
Proof.
  intros H. unfold selectsRow, applyQuery.
  destruct (applyGroups_exact true _ [] H) as (l & E & Hl). cbn [map app] in E. rewrite E, <-Hl. f_equal.
  change (holds (evalConds row (addGroup false (map (λ e, (false, e)) l) [])) = forallb (λ e, holds (eval row e)) l).
  assert (holds (evalConds row (map (λ e, (false, e)) l)) = forallb (λ e, holds (eval row e)) l) as <-.
  { unfold evalConds. cbn [eval]. rewrite map_map, <-(map_map (eval row) (pair false)), evalJoined_uniform.
    rewrite <-forallb_map. by destruct l. }
  unfold addGroup. by destruct l.
Qed.
End Selection.

(** * The queries of the workflow manager *)

Lemma where_conds (p : Condition → bool) (b : bool) field v key :
  forallb p (ck_Conds (if b then key else CompositeKey_Where field v [] key)) =
  forallb p (ck_Conds key) && (b || p (mkCondition field (mkKeyEntry (mkQKey v Equal) None))).
Proof. destruct b; cbn; [by rewrite andb_true_r|]. rewrite forallb_app. cbn. by rewrite andb_true_r. Qed.

Lemma where_strict (b : bool) field v key :
  ck_IsStrict (if b then key else CompositeKey_Where field v [] key) = ck_IsStrict key.
Proof. by destruct b. Qed.

Definition WorkflowApproverGroupTable : string := "workflow_approver_groups".

(** [WorkflowFilter.GetQuery] as the code builds it.  States, artifact types and actions have
    types of their own. *)
Definition filterKey (w : WorkflowFilter) : CompositeKey :=
  let ck := NewCompositeKey in
  let ck := if f_State w ==s "" then ck else CompositeKey_Where "state" (QNamed (f_State w)) [] ck in
  let ck := if f_ArtifactType w ==s "" then ck
            else CompositeKey_Where "artifact_type" (QNamed (f_ArtifactType w)) [] ck in
  let ck := if N.eqb (f_ArtifactID w) uuid_Nil then ck
            else CompositeKey_Where "artifact_id" (QUUID (f_ArtifactID w)) [] ck in
  let ck := if f_ArtifactName w ==s "" then ck
            else CompositeKey_Where "artifact_name" (QString (f_ArtifactName w)) [] ck in
  let ck := if f_ParametersResourceName w ==s "" then ck
            else CompositeKey_Where "parameters_resource_name" (QString (f_ParametersResourceName w)) [] ck in
  if f_ActionType w ==s "" then ck else CompositeKey_Where "action_type" (QNamed (f_ActionType w)) [] ck.

Definition filterQuery (w : WorkflowFilter) : RepoQuery :=
  let ck := filterKey w in
  let query := NewQuery in
  let query := if (0 <? length (ck_Conds ck))%nat then query_Where [NewCompositeKeyGroup ck] query else query in
  query_Order [mkOrderField "created_at" Desc] query.

Definition filterByInitiatorOrApprover (iamIdentifier : string) (query : RepoQuery) : RepoQuery :=
  let orCK := set_ck_IsStrict false
    (CompositeKey_Where (WorkflowApproverTable +:+ "." +:+ "user_id") (QString iamIdentifier) []
      (CompositeKey_Where "initiator_id" (QString iamIdentifier) [] NewCompositeKey)) in
  query_Where [NewCompositeKeyGroup orCK]
    (query_Join LeftJoin (mkJoinCondition WorkflowTable "id" WorkflowApproverTable "workflow_id" "") query).

(** The restriction of [getWorkflows] to the workflows that concern a user. *)
Definition groupFilteredQuery (iamIdentifier : string) (userIAMGroups : list string) (query : RepoQuery) : RepoQuery :=
  let query := filterByInitiatorOrApprover iamIdentifier query in
  let groupFilterCK := set_ck_IsStrict false
    (CompositeKey_Where (WorkflowApproverGroupTable +:+ "." +:+ "workflow_id") (QString Null) []
      (CompositeKey_Where (GroupTable +:+ "." +:+ "iam_identifier") (QSlice (QString <$> userIAMGroups)) []
        NewCompositeKey)) in
  query_Where [NewCompositeKeyGroup groupFilterCK]
    (query_Join LeftJoin (mkJoinCondition WorkflowApproverGroupTable "group_id" GroupTable "id" "")
      (query_Join LeftJoin (mkJoinCondition WorkflowTable "id" WorkflowApproverGroupTable "workflow_id" "") query)).

(** A row of the workflow table, joined with an approver, an approver group and its group. *)
Definition joinedRow (x : Workflow) (user : option string) (ag : option WorkflowApproverGroup) (g : option Group) : Row :=
  λ field,
  let own (c : string) : bool := field ==s dquoted WorkflowTable +:+ "." +:+ c in
  if own "state" then Some (CText (wf_State x))
  else if own "artifact_type" then Some (CText (wf_ArtifactType x))
  else if own "artifact_id" then Some (CUUID (wf_ArtifactID x))
  else if own "artifact_name" then CText <$> wf_ArtifactName x
  else if own "parameters_resource_name" then CText <$> wf_ParametersResourceName x
  else if own "action_type" then Some (CText (wf_ActionType x))
  else if own "initiator_id" then Some (CText (wf_InitiatorID x))
  else if own "created_at" then Some (CTime (wf_CreatedAt x))
  else if field ==s "workflow_approvers.user_id" then CText <$> user
  else if field ==s "workflow_approver_groups.workflow_id" then CUUID ∘ wag_WorkflowID <$> ag
  else if field ==s "groups.iam_identifier" then CText ∘ g_IAMIdentifier <$> g
  else None.

(** The rows of a left join: one without a partner when there is none. *)
Definition leftJoin {A} (l : list A) : list (option A) := match l with [] => [None] | _ => Some <$> l end.

(** The rows of workflow [x] after the three joins. *)
Definition joinedRows (d : DB) (x : Workflow) : list Row :=
  a ← leftJoin (List.filter (byWorkflow (wf_ID x)) (db_approvers d));
  ag ← leftJoin (List.filter (λ r, N.eqb (wag_WorkflowID r) (wf_ID x)) (db_approverGroups d));
  g ← leftJoin (match ag with
                | None => []
                | Some r => List.filter (λ g, N.eqb (g_ID g) (wag_GroupID r)) (db_groups d)
                end);
  [joinedRow x (wa_UserID <$> a) ag g].

(** Whether a statement selects one of the rows; rows of one workflow are grouped. *)
Definition selectsSome (tableName : string) (query : RepoQuery) (l : list Row) : error + bool :=
  match applyQuery tableName false query with
  | inl e => inl e
  | inr tx => inr (existsb (λ row, holds (evalConds row tx)) l)
  end.

(** ** Columns *)

Lemma text_holds (column : option string) row field v :
  row field = CText <$> column → (v ==s FalseNull) = false →
  forallb (λ a, holds (evalAtom row a)) (atoms field (mkQKey (QString v) Equal)) = eqNullable v column.
Proof.
  intros Hr Hv. unfold atoms, eqNullable. cbn [qk_Operation qk_Value]. rewrite Hv.
  destruct column as [c|]; repeat case_match; cbn [forallb evalAtom]; rewrite ?Hr; cbn; try done;
    match goal with |- context [String.eqb c ?v] => by destruct (String.eqb c v) end.
Qed.

Lemma named_holds c row field v :
  row field = Some (CText c) →
  forallb (λ a, holds (evalAtom row a)) (atoms field (mkQKey (QNamed v) Equal)) = (c ==s v).
Proof. intros Hr. cbn. rewrite Hr. cbn. rewrite andb_true_r. by destruct (_ ==s _). Qed.

Lemma uuid_holds u row field v :
  row field = Some (CUUID u) →
  forallb (λ a, holds (evalAtom row a)) (atoms field (mkQKey (QUUID v) Equal)) = N.eqb u v.
Proof. intros Hr. cbn. rewrite Hr. cbn. rewrite andb_true_r. by destruct (N.eqb _ _). Qed.

Lemma before_holds t row field v :
  row field = Some (CTime t) →
  forallb (λ a, holds (evalAtom row a)) (atoms field (Lt (QTime v))) = (t <? v).
Proof. intros Hr. cbn -[Z.ltb]. rewrite Hr, andb_true_r. cbn -[Z.ltb]. by destruct (_ <? _). Qed.

Lemma texts_holds (column : option string) row field (inject : string → QValue) (values : list string) :
  (∀ c v, column_eq (CText c) (inject v) = Some (c ==s v)) →
  row field = CText <$> column →
  forallb (λ a, holds (evalAtom row a)) (atoms field (mkQKey (QSlice (inject <$> values)) Equal)) =
  match column with None => false | Some c => c ∈? values end.
Proof.
  intros Hi Hr. unfold atoms. cbn [qk_Operation qk_Value forallb evalAtom]. rewrite Hr, andb_true_r.
  destruct column as [c|]; [|done]. change (CText <$> Some c) with (Some (CText c)).
  assert (∀ l, holds (foldr (λ v t, or3 (column_eq (CText c) v) t) (Some false) (inject <$> l)) = (c ∈? l)) as H.
  { intros l. induction l as [|v l IH]; [done|]. rewrite fmap_cons. cbn [foldr]. rewrite holds_or3, Hi, IH.
    unfold mem. cbn [existsb]. by destruct (c ==s v). }
  rewrite <-H. by destruct values.
Qed.

(** ** Joins *)

Lemma existsb_bind {A B} (p : B → bool) (f : A → list B) l :
  existsb p (l ≫= f) = existsb (λ x, existsb p (f x)) l.
Proof. induction l as [|x l IH]; [done|]. cbn. by rewrite existsb_app, <-IH. Qed.

Lemma existsb_and {A} (b : bool) (p : A → bool) l : existsb (λ x, b && p x) l = b && existsb p l.
Proof. induction l as [|x l IH]; cbn; [by rewrite andb_false_r|]. rewrite IH. by destruct b. Qed.

Lemma existsb_filter {A} (p q : A → bool) l : existsb p (List.filter q l) = existsb (λ x, q x && p x) l.
Proof. induction l as [|x l IH]; [done|]. cbn. destruct (q x); cbn; by rewrite IH. Qed.

Lemma existsb_leftJoin {A} (p : option A → bool) l :
  p None = false → existsb p (leftJoin l) = existsb (λ x, p (Some x)) l.
Proof.
  intros H. unfold leftJoin. destruct l as [|x l]; [cbn; by rewrite H|]. cbn. f_equal.
  induction l as [|y l IH]; [done|]. cbn. by rewrite IH.
Qed.

Lemma existsb_ext_all {A} (p q : A → bool) l : (∀ x, p x = q x) → existsb p l = existsb q l.
Proof. intros H. induction l as [|x l IH]; [done|]. cbn. by rewrite H, IH. Qed.

(** The groups of an approver group, and a search through the groups of a workflow. *)
Definition groupsOf (d : DB) (ag : option WorkflowApproverGroup) : list (option Group) :=
  leftJoin (match ag with
            | None => []
            | Some r => List.filter (λ g, N.eqb (g_ID g) (wag_GroupID r)) (db_groups d)
            end).
Definition anyGroup (d : DB) (x : Workflow) (p : option WorkflowApproverGroup → option Group → bool) : bool :=
  existsb (λ ag, existsb (p ag) (groupsOf d ag))
    (leftJoin (List.filter (λ r, N.eqb (wag_WorkflowID r) (wf_ID x)) (db_approverGroups d))).

(** The rows of the joins that meet a condition on the approver and one on the groups. *)
Lemma existsb_joinedRows d x (p : Row → bool) b (onUser : option string → bool) onGroup :
  (∀ a ag g, p (joinedRow x a ag g) = b && (onUser a && onGroup ag g)) →
  existsb p (joinedRows d x) = b && (existsb onUser (joinedApprovers d x) && anyGroup d x onGroup).
Proof.
  intros H. unfold joinedRows. rewrite existsb_bind.
  transitivity (existsb (λ a, b && (anyGroup d x onGroup && onUser (wa_UserID <$> a)))
    (leftJoin (List.filter (byWorkflow (wf_ID x)) (db_approvers d)))).
  - apply existsb_ext_all. intros a. unfold anyGroup.
    rewrite existsb_bind, (andb_comm _ (onUser _)), andb_assoc, <-existsb_and.
    apply existsb_ext_all. intros ag. rewrite existsb_bind, <-existsb_and. apply existsb_ext_all. intros g.
    cbn. by rewrite H, orb_false_r, andb_assoc.
  - rewrite existsb_and, existsb_and. f_equal. rewrite andb_comm. f_equal. unfold joinedApprovers, leftJoin.
    destruct (List.filter _ _) as [|r l]; [done|]. cbn. f_equal.
    induction l as [|y l IH]; [done|]. cbn. by rewrite IH.
Qed.

Definition groupCondition (groups : list string) (ag : option WorkflowApproverGroup) (g : option Group) : bool :=
  match g with Some g => byIAM groups g | None => false end || match ag with None => true | Some _ => false end.

Lemma anyGroup_condition d x groups :
  anyGroup d x (groupCondition groups) =
  existsb (λ a, N.eqb (wag_WorkflowID a) (wf_ID x) &&
                existsb (λ g, N.eqb (g_ID g) (wag_GroupID a) && byIAM groups g) (db_groups d)) (db_approverGroups d) ||
  negb (existsb (λ a, N.eqb (wag_WorkflowID a) (wf_ID x)) (db_approverGroups d)).
Proof.
  rewrite <-existsb_filter.
  replace (existsb (λ a, N.eqb (wag_WorkflowID a) (wf_ID x)) (db_approverGroups d))
    with (existsb (λ _, true) (List.filter (λ a, N.eqb (wag_WorkflowID a) (wf_ID x)) (db_approverGroups d)))
    by (rewrite existsb_filter; apply existsb_ext_all; intros ?; apply andb_true_r).
  unfold anyGroup. set (l := List.filter _ _).
  assert (∀ l', existsb (λ ag, existsb (groupCondition groups ag) (groupsOf d ag)) (Some <$> l')
    = existsb (λ a, existsb (λ g, N.eqb (g_ID g) (wag_GroupID a) && byIAM groups g) (db_groups d)) l') as H.
  { intros l'. induction l' as [|r l' IH]; [done|]. rewrite fmap_cons. cbn [existsb]. rewrite IH. f_equal.
    unfold groupsOf. rewrite existsb_leftJoin by done. rewrite existsb_filter. apply existsb_ext_all. intros g.
    unfold groupCondition. by rewrite orb_false_r. }
  destruct l as [|r l]; [done|]. cbn [leftJoin]. rewrite H. cbn [existsb orb negb]. by rewrite orb_false_r.
Qed.

(** ** Refinement *)

Lemma selectsSome_exact tableName query l :
  forallb (λ g, cg_IsStrict g && regular (cg_CompositeKey g)) (rq_CompositeKeyGroup query) = true →
  selectsSome tableName query l =
    inr (existsb (λ row, forallb (λ g, keyHolds tableName row (cg_CompositeKey g)) (rq_CompositeKeyGroup query)) l).
Proof.
  intros H. pose proof (λ row, selects_exact tableName row query H) as E.
  unfold selectsSome. unfold selectsRow in E. destruct (applyQuery tableName false query) as [e|tx].
  - by specialize (E (λ _, None)).
  - f_equal. apply existsb_ext_all. intros row. specialize (E row). by injection E.
Qed.

Lemma filterQuery_groups f :
  rq_CompositeKeyGroup (filterQuery f) =
  if (0 <? length (ck_Conds (filterKey f)))%nat then [NewCompositeKeyGroup (filterKey f)] else [].
Proof. unfold filterQuery. by case_match. Qed.

Lemma filterKey_strict f : ck_IsStrict (filterKey f) = true.
Proof. unfold filterKey. by rewrite !where_strict. Qed.

Lemma filterKey_regular f : regular (filterKey f) = true.
Proof.
  unfold regular, conjunctive. rewrite filterKey_strict. cbn [orb]. rewrite andb_true_r.
  unfold filterKey. rewrite !where_conds. cbn. by rewrite !orb_true_r.
Qed.

Lemma filterKey_holds f x a ag g :
  (FalseNull ∈? [f_ArtifactName f; f_ParametersResourceName f]) = false →
  forallb (λ g', keyHolds WorkflowTable (joinedRow x a ag g) (cg_CompositeKey g')) (rq_CompositeKeyGroup (filterQuery f))
  = GetQuery f x.
Proof.
  unfold mem. cbn [existsb]. intros [H1 [H2 _]%orb_false_iff]%orb_false_iff.
  rewrite String.eqb_sym in H1, H2. rewrite filterQuery_groups.
  transitivity (forallb (condHolds WorkflowTable (joinedRow x a ag g)) (ck_Conds (filterKey f))).
  { unfold keyHolds, conjunctive. destruct (ck_Conds (filterKey f)) eqn:E; cbn [length]; [done|].
    cbn [Nat.ltb Nat.leb forallb cg_CompositeKey NewCompositeKeyGroup].
    rewrite filterKey_strict, E. cbn [orb joined]. by rewrite andb_true_r. }
  unfold filterKey. rewrite !where_conds. unfold GetQuery, condHolds. cbn [en_Key cd_Value].
  rewrite (named_holds (wf_State x)), (named_holds (wf_ArtifactType x)), (uuid_holds (wf_ArtifactID x)),
    (text_holds (wf_ArtifactName x)), (text_holds (wf_ParametersResourceName x)), (named_holds (wf_ActionType x)); done.
Qed.

Lemma initiatorOrApprover_holds me x a ag g :
  (me ==s FalseNull) = false →
  keyHolds WorkflowTable (joinedRow x a ag g)
    (set_ck_IsStrict false
      (CompositeKey_Where (WorkflowApproverTable +:+ "." +:+ "user_id") (QString me) []
        (CompositeKey_Where "initiator_id" (QString me) [] NewCompositeKey)))
  = initiatorOrApprover me x a.
Proof.
  intros Hme. unfold keyHolds, initiatorOrApprover, conjunctive.
  cbn [set_ck_IsStrict CompositeKey_Where ck_IsStrict ck_Conds NewCompositeKey app forallb orb].
  unfold alternative, condHolds. cbn [en_Key cd_Value qk_Operation qk_Value].
  cbn [joined existsb forallb en_Key cd_Value].
  rewrite (text_holds (Some (wf_InitiatorID x))), (text_holds a) by done.
  rewrite !negb_involutive, andb_true_r, orb_false_r, andb_diag. unfold eqField, mem. cbn [existsb].
  rewrite Hme, !orb_false_r. by case_match; rewrite ?andb_true_r.
Qed.

Lemma groupFilter_holds groups x a ag g :
  keyHolds WorkflowTable (joinedRow x a ag g)
    (set_ck_IsStrict false
      (CompositeKey_Where (WorkflowApproverGroupTable +:+ "." +:+ "workflow_id") (QString Null) []
        (CompositeKey_Where (GroupTable +:+ "." +:+ "iam_identifier") (QSlice (QString <$> groups)) []
          NewCompositeKey)))
  = groupCondition groups ag g.
Proof.
  unfold keyHolds, conjunctive, condHolds.
  cbn [set_ck_IsStrict CompositeKey_Where ck_IsStrict ck_Conds NewCompositeKey app forallb orb joined existsb
    en_Key cd_Value].
  rewrite (texts_holds (g_IAMIdentifier <$> g)) by (done || by destruct g).
  unfold groupCondition. rewrite orb_false_r. by destruct g, ag.
Qed.

Lemma groupFiltered_groups me groups query :
  rq_CompositeKeyGroup (groupFilteredQuery me groups query) =
  rq_CompositeKeyGroup query ++
  [NewCompositeKeyGroup (set_ck_IsStrict false
     (CompositeKey_Where (WorkflowApproverTable +:+ "." +:+ "user_id") (QString me) []
       (CompositeKey_Where "initiator_id" (QString me) [] NewCompositeKey)));
   NewCompositeKeyGroup (set_ck_IsStrict false
     (CompositeKey_Where (WorkflowApproverGroupTable +:+ "." +:+ "workflow_id") (QString Null) []
       (CompositeKey_Where (GroupTable +:+ "." +:+ "iam_identifier") (QSlice (QString <$> groups)) []
         NewCompositeKey)))].
Proof.
  assert (∀ t c q, rq_CompositeKeyGroup (query_Join t c q) = rq_CompositeKeyGroup q) as Hj.
  { intros t c q. unfold query_Join. by case_match. }
  unfold groupFilteredQuery, filterByInitiatorOrApprover. cbn [rq_CompositeKeyGroup query_Where].
  rewrite !Hj. cbn [rq_CompositeKeyGroup query_Where]. by rewrite Hj, <-app_assoc.
Qed.

Lemma filterQuery_regular f :
  forallb (λ g, cg_IsStrict g && regular (cg_CompositeKey g)) (rq_CompositeKeyGroup (filterQuery f)) = true.
Proof. rewrite filterQuery_groups. case_match; [|done]. cbn. by rewrite filterKey_regular. Qed.

(** ** The other conditions *)

Definition ongoingQuery (workflow : Workflow) : RepoQuery :=
  query_Where [NewCompositeKeyGroup
    (CompositeKey_Where "state" (QSlice (QNamed <$> WorkflowNonTerminalStates)) []
      (CompositeKey_Where ("artifact" +:+ "_" +:+ "id") (QUUID (wf_ArtifactID workflow)) []
        (CompositeKey_Where ("artifact" +:+ "_" +:+ "type") (QNamed (wf_ArtifactType workflow)) [] NewCompositeKey)))]
    NewQuery.

Definition expiredQuery (cutoffDate : Z) : RepoQuery :=
  query_Where [NewCompositeKeyGroup
    (CompositeKey_Where "created_at" (QTime cutoffDate) [Lt]
      (CompositeKey_Where "state" (QSlice (QNamed <$> WorkflowTerminalStates)) [] NewCompositeKey))] NewQuery.

(** [one_key] turns the selection of a query with one strict key into its conditions. *)
Ltac one_key :=
  rewrite selects_exact by done; f_equal; unfold keyHolds, conjunctive, condHolds;
  cbn [CompositeKey_Where ck_IsStrict ck_Conds NewCompositeKey app forallb orb joined
    en_Key cd_Value rq_CompositeKeyGroup query_Where NewQuery cg_CompositeKey NewCompositeKeyGroup].

(** The uniqueness check and the cleanup of workflows run the queries that the model says. *)
Lemma ongoing_query_refines workflow x :
  selectsRow WorkflowTable false (ongoingQuery workflow) (joinedRow x None None None) = inr (ongoingFor workflow x).
Proof.
  unfold ongoingQuery. one_key.
  rewrite (named_holds (wf_ArtifactType x)), (uuid_holds (wf_ArtifactID x)), (texts_holds (Some (wf_State x))) by done.
  unfold ongoingFor. by rewrite !andb_true_r, andb_assoc.
Qed.

Lemma expired_query_refines cutoffDate x :
  selectsRow WorkflowTable false (expiredQuery cutoffDate) (joinedRow x None None None) = inr (expired cutoffDate x).
Proof.
  unfold expiredQuery. one_key.
  rewrite (texts_holds (Some (wf_State x))) by done. rewrite (before_holds (wf_CreatedAt x)) by done.
  unfold expired. by rewrite !andb_true_r.
Qed.

(** The query for a label of a key. *)
Definition labelRow (l : KeyLabel) : Row := λ field,
  if field ==s dquoted KeyLabelTable +:+ ".key" then Some (CText (l_Key l))
  else if field ==s dquoted KeyLabelTable +:+ ".resource_id" then Some (CUUID (l_ResourceID l))
  else None.

Definition labelNameQuery (labelName : string) (keyID : uuid) : RepoQuery :=
  query_Where [NewCompositeKeyGroup
    (CompositeKey_Where "resource_id" (QUUID keyID) []
      (CompositeKey_Where "key" (QString labelName) [] NewCompositeKey))] NewQuery.

Lemma label_query_refines labelName keyID l :
  (labelName ==s FalseNull) = false →
  selectsRow KeyLabelTable false (labelNameQuery labelName keyID) (labelRow l) = inr (labelQuery labelName keyID l).
Proof.
  intros H. unfold labelNameQuery. one_key.
  rewrite (text_holds (Some (l_Key l))), (uuid_holds (l_ResourceID l)) by done.
  unfold labelQuery, eqField. by rewrite !andb_true_r.
Qed.

(** C25: the list of workflows is filtered in the database as the model says: the statement built
    for a filter selects a workflow exactly when it meets the filter, and with the joins and
    conditions added for a user, one of the joined rows of a workflow is selected exactly when
    the workflow meets the filter and concerns the user, as its initiator or approver who is
    in one of its approver groups, if it has any; this for every text that is compared, also
    the reserved words that the query language reads in another way, but for the one that the
    database refuses. *)
Theorem list_query_refines f me groups d x :
  (FalseNull ∈? [f_ArtifactName f; f_ParametersResourceName f; me]) = false →
  selectsSome WorkflowTable (filterQuery f) [joinedRow x None None None] = inr (GetQuery f x) ∧
  selectsSome WorkflowTable (groupFilteredQuery me groups (filterQuery f)) (joinedRows d x) =
    inr (GetQuery f x && visibleTo d me groups x).
Proof.
  intros Hn. assert ((FalseNull ∈? [f_ArtifactName f; f_ParametersResourceName f]) = false ∧ (me ==s FalseNull) = false)
    as [Hf Hme].
  { unfold mem in *. cbn [existsb] in *. rewrite (String.eqb_sym me). rewrite !orb_false_r in *.
    apply orb_false_iff in Hn as [? [? ?]%orb_false_iff]. rewrite orb_false_iff. done. }
  split.
  - rewrite selectsSome_exact by apply filterQuery_regular. f_equal. cbn [existsb].
    by rewrite orb_false_r, filterKey_holds.
  - rewrite selectsSome_exact; rewrite groupFiltered_groups.
    + f_equal. unfold visibleTo. rewrite <-anyGroup_condition. apply existsb_joinedRows. intros a ag g.
      rewrite forallb_app, filterKey_holds by done. f_equal.
      cbn [forallb cg_CompositeKey NewCompositeKeyGroup].
      by rewrite initiatorOrApprover_holds, groupFilter_holds, andb_true_r by done.
    + rewrite forallb_app, filterQuery_regular. unfold regular, conjunctive, alternative. cbn -[mem].
      by destruct (mem me _).
Qed.
