(* ===== verification/Filters.v ===== *)
(** The filters of the list endpoints: the schemas of
    internal/controllers/cmk/workflow_controller.go and system_controller.go, and the
    workflow filter that internal/manager/workflow.go makes of a parsed request. *)
From Stdlib Require Import Ascii.
From S2P Require Import Prelude Errs Json GoContext AuthzPolicies Model Store Batch OData ODataFacts.
From S2P Require Import Users KeyAccess Events JobHandlers KeyConfigs RegistryClient Systems Fsm Lifecycle TenantConfig Groups.
From S2P Require Import WorkflowManager.

Definition ErrBadOdataFilter := New "apierrors.ErrBadOdataFilter" "bad odata filter".
Definition ErrGetWorkflow := New "apierrors.ErrGetWorkflow" "failed to get workflow".
Definition QueryMaxLengthSystem : nat := 50.
Definition QueryMaxLengthName : nat := 255.

Definition MaxLengthValidator (maxLength : nat) (s : string) : bool := String.length s <=? maxLength.
Definition odata_ToUpper (s : string) : string * bool := (ToUpper s, true).

Definition ArtifactIDField : string := "artifact_id".
Definition ArtifactTypeField : string := "artifact_type".
Definition ArtifactNameField : string := "artifact_name".
Definition ParamResourceNameField : string := "parameters_resource_name".
Definition ActionTypeField : string := "action_type".
Definition StateField : string := "state".

Definition GetWorkflowsSchema : FilterSchema Workflow :=
  [mkEntry "artifactId" KUUID ArtifactIDField None None None;
   mkEntry "artifactType" KString ArtifactTypeField None (Some odata_ToUpper) (Some WorkflowArtifactType_Valid);
   mkEntry "artifactName" KString ArtifactNameField None None (Some (MaxLengthValidator QueryMaxLengthName));
   mkEntry "parametersResourceName" KString ParamResourceNameField None None
     (Some (MaxLengthValidator QueryMaxLengthName));
   mkEntry "actionType" KString ActionTypeField None (Some odata_ToUpper) (Some WorkflowActionType_Valid);
   mkEntry "state" KString StateField None (Some odata_ToUpper) (Some WorkflowState_Valid)].

(** The condition on the name of the joined key configuration *)
Definition keyConfigurationNameQuery (d : DB) (entry : FilterValue) (s : System) : bool :=
  columnEq entry (TextColumn (nameOf d (s_KeyConfigurationID s))).

Definition getSystemsSchema : FilterSchema System :=
  [mkEntry "keyConfigurationID" KUUID KeyConfigIDField None None None;
   mkEntry "keyConfigurationName" KString "" (Some keyConfigurationNameQuery) None
     (Some (MaxLengthValidator QueryMaxLengthSystem));
   mkEntry "targetKeyConfigurationID" KUUID TargetKeyConfigIDField None None None;
   mkEntry "region" KString RegionField None None (Some (MaxLengthValidator QueryMaxLengthSystem));
   mkEntry "type" KString TypeField None (Some odata_ToUpper) (Some (MaxLengthValidator QueryMaxLengthSystem));
   mkEntry "status" KString StatusField None (Some odata_ToUpper) (Some (MaxLengthValidator QueryMaxLengthSystem))].

(** The columns of a system that the schema names *)
Definition systemColumn (field : string) (s : System) : Column :=
  if field ==s KeyConfigIDField then UUIDColumn (s_KeyConfigurationID s)
  else if field ==s TargetKeyConfigIDField then UUIDColumn (s_TargetKeyConfigurationID s)
  else if field ==s RegionField then TextColumn (Some (s_Region s))
  else if field ==s TypeField then TextColumn (Some (s_Type s))
  else if field ==s StatusField then TextColumn (Some (s_Status s))
  else TextColumn None.

(** The optional parameters of a list request *)
Record ListParams := mkListParams {
  lp_Filter : option string;
  lp_Skip : option Z;
  lp_Top : option Z;
  lp_Count : option bool }.

Definition NewWorkflowFilterFromOData {T} (queryMapper : QueryOdataMapper T) : error + WorkflowFilter :=
  let skip := default DefaultSkip (om_skip queryMapper) in
  let top := default DefaultTop (om_top queryMapper) in
  let count := default false (om_count queryMapper) in
  state ← mapper_GetString queryMapper StateField;
  artifactType ← mapper_GetString queryMapper ArtifactTypeField;
  artifactID ← mapper_GetUUID queryMapper ArtifactIDField;
  artifactName ← mapper_GetString queryMapper ArtifactNameField;
  actionType ← mapper_GetString queryMapper ActionTypeField;
  parametersResourceName ← mapper_GetString queryMapper ParamResourceNameField;
  '(wfState, wfArtifactType, wfActionType) ← validateFilterEnums state artifactType actionType;
  inr (mkFilter wfState wfArtifactType artifactID artifactName parametersResourceName wfActionType skip top count).

Section Endpoints.
Context {UP : UUIDParse}.

(** The filter of a request: the first half of the controller's [GetWorkflows] *)
Definition workflowFilterOf (params : ListParams) : error + WorkflowFilter :=
  match ParseFilter (lp_Filter params) (NewQueryOdataMapper GetWorkflowsSchema) with
  | (_, inl err) => inl (wrapping ErrBadOdataFilter err)
  | (mf, inr _) =>
      match NewWorkflowFilterFromOData (SetPaging (lp_Skip params) (lp_Top params) (lp_Count params) mf) with
      | inl err => inl (wrapping ErrBadOdataFilter err)
      | inr filter => inr filter
      end
  end.

Definition systemMapperOf (params : ListParams) : error + QueryMapper System :=
  match ParseFilter (lp_Filter params) (NewQueryOdataMapper getSystemsSchema) with
  | (_, inl err) => inl (wrapping ErrBadOdataFilter err)
  | (mf, inr _) =>
      inr (odata_mapper systemColumn (SetPaging (lp_Skip params) (lp_Top params) (lp_Count params) mf))
  end.
End Endpoints.

Section Lists.
Context {F : FSM} {Act : Actions} {UP : UUIDParse} {NS : NewString} {Dp : Deployment} {I : IDM}
  {Env : ManagerEnv} {O : Orbital} {Rg : Registry} {US : UUIDString} {SI : SystemInformation}.

(** What the controllers list, before it is rendered as JSON *)
Definition controller_GetWorkflows (ctx : Ctx) (params : ListParams) : Comp World (list Workflow * Z) :=
  filter ← lift (workflowFilterOf params);
  map_err (wrapping ErrGetWorkflow) (GetWorkflows ctx filter).

Definition controller_GetAllSystems (ctx : Ctx) (getSystemsWithFilter : SystemFilter → error + list System)
    (params : ListParams) : Comp World (bool * (list System * Z)) :=
  refreshed ← RefreshSystemsData ctx getSystemsWithFilter;
  queryMapper ← lift (systemMapperOf params);
  systems ← GetAllSystems queryMapper;
  mret (refreshed, systems).
End Lists.

(** * What a filter selects *)

Section Selection.
Context {UP : UUIDParse}.
Implicit Types (w : Workflow).

Lemma upper_quote (c : ascii) : isQuote (upper c) = isQuote c ∧ (isQuote c = true → upper c = c).
Proof. destruct c as [[] [] [] [] [] [] [] []]; by vm_compute. Qed.

Lemma escape_upper (v : bytes) : escape (upper <$> v) = upper <$> escape v.
Proof.
  induction v as [|c v IH]; [done|]. rewrite fmap_cons. cbn [escape].
  destruct (upper_quote c) as [Hq _]. rewrite Hq. destruct (isQuote c); by rewrite !fmap_cons, IH.
Qed.

Lemma enum_entry {T} (e : FilterSchemaEntry T) (v : string) valid :
  FilterType e = KString → ValueModifier e = Some odata_ToUpper → ValueValidator e = Some valid →
  valid (ToUpper (escaped v)) = true → entry_apply e (literal (lit v)) = inr (VString (ToUpper v)).
Proof.
  intros Ht Hm Hv Hok. unfold entry_apply. rewrite preProcess_literal by (by left). cbn [mbind sum_bind].
  unfold entry_modify, entry_convert. rewrite Hm, Ht, Hv. cbn [mbind sum_bind odata_ToUpper negb].
  change (text (escape (lit v))) with (escaped v).
  assert (lit (ToUpper (escaped v)) = escape (upper <$> lit v)) as ->.
  { unfold ToUpper, escaped. rewrite !String.list_ascii_of_string_of_list_ascii. by rewrite escape_upper. }
  rewrite convert_escape. cbn [mbind sum_bind].
  unfold ToUpper, escaped in Hok. rewrite !String.list_ascii_of_string_of_list_ascii in Hok.
  rewrite <-escape_upper in Hok. by rewrite Hok.
Qed.

Lemma uuid_entry {T} (e : FilterSchemaEntry T) (v : string) u :
  FilterType e = KUUID → ValueModifier e = None → ValueValidator e = None → uuid_Parse v = inr u →
  entry_apply e (literal (lit v)) = inr (VUUID u).
Proof.
  intros Ht Hm Hv Hu. unfold entry_apply. rewrite preProcess_literal by (by right). cbn [mbind sum_bind].
  unfold entry_modify, entry_convert. rewrite Hm, Ht, Hv. cbn [mbind sum_bind].
  unfold convertUUID. rewrite convert_escape, text_lit. cbn [mbind sum_bind]. by rewrite Hu.
Qed.

(** A comparison that the endpoint accepts, with the value it compares with. *)
Inductive acceptable : string → string → string → FilterValue → Prop :=
| acc_name v : v ≠ "" → String.length (escaped v) ≤ QueryMaxLengthName → reserved v = false →
    acceptable "artifactName" v ArtifactNameField (VString v)
| acc_resource v : v ≠ "" → String.length (escaped v) ≤ QueryMaxLengthName → reserved v = false →
    acceptable "parametersResourceName" v ParamResourceNameField (VString v)
| acc_state v : WorkflowState_Valid (ToUpper v) = true →
    acceptable "state" v StateField (VString (ToUpper v))
| acc_type v : WorkflowArtifactType_Valid (ToUpper v) = true →
    acceptable "artifactType" v ArtifactTypeField (VString (ToUpper v))
| acc_action v : WorkflowActionType_Valid (ToUpper v) = true →
    acceptable "actionType" v ActionTypeField (VString (ToUpper v))
| acc_id v u : uuid_Parse v = inr u → u ≠ uuid_Nil → acceptable "artifactId" v ArtifactIDField (VUUID u).

(** What the column of a workflow has to be. *)
Definition holds (field : string) (value : FilterValue) (w : Workflow) : bool :=
  match value with
  | VString s =>
      if field ==s ArtifactNameField then bool_decide (wf_ArtifactName w = Some s)
      else if field ==s ParamResourceNameField then bool_decide (wf_ParametersResourceName w = Some s)
      else if field ==s StateField then wf_State w ==s s
      else if field ==s ArtifactTypeField then wf_ArtifactType w ==s s
      else if field ==s ActionTypeField then wf_ActionType w ==s s
      else false
  | VUUID u => N.eqb (wf_ArtifactID w) u
  | _ => false
  end.

Lemma schema_entry {T} (schema : FilterSchema T) f v e field value :
  find (λ e, f ==s FilterName e) schema = Some e → DBName e = field →
  entry_apply e (literal (lit v)) = inr value →
  schema_apply schema (lit f) (literal (lit v)) = inr (field, value).
Proof. intros Hf <- He. unfold schema_apply. rewrite text_lit, Hf, He. done. Qed.

Lemma escape_id (l : bytes) : existsb isQuote l = false → escape l = l.
Proof. induction l as [|c l IH]; [done|]. cbn. intros [-> H]%orb_false_iff. by rewrite IH. Qed.

(** The words of an enumeration have no quotes. *)
Lemma escaped_word (words : list string) v :
  forallb (λ x, negb (existsb isQuote (lit x))) words = true → (ToUpper v ∈? words) = true → escaped v = v.
Proof.
  intros Hw Hv%mem_elem. apply (forallb_elem _ _ Hw), negb_true_iff in Hv.
  unfold escaped. rewrite escape_id; [apply text_lit|].
  unfold ToUpper in Hv. rewrite String.list_ascii_of_string_of_list_ascii in Hv.
  induction (lit v) as [|c l IH]; [done|]. cbn in *. apply orb_false_iff in Hv as [Hc Hl].
  destruct (upper_quote c) as [Hq _]. rewrite Hq in Hc. by rewrite Hc, IH.
Qed.

Lemma state_escaped v : WorkflowState_Valid (ToUpper v) = true → escaped v = v.
Proof. by apply escaped_word. Qed.
Lemma type_escaped v : WorkflowArtifactType_Valid (ToUpper v) = true → escaped v = v.
Proof. by apply escaped_word. Qed.
Lemma action_escaped v : WorkflowActionType_Valid (ToUpper v) = true → escaped v = v.
Proof. by apply escaped_word. Qed.

Lemma acceptable_apply f v field value :
  acceptable f v field value → schema_apply GetWorkflowsSchema (lit f) (literal (lit v)) = inr (field, value).
Proof.
  destruct 1; (eapply schema_entry; [reflexivity|reflexivity|]).
  1-2: apply string_entry; [done..|]; by apply Nat.leb_le.
  - eapply enum_entry; [done..|]. by rewrite state_escaped.
  - eapply enum_entry; [done..|]. by rewrite type_escaped.
  - eapply enum_entry; [done..|]. by rewrite action_escaped.
  - by apply uuid_entry.
Qed.

Lemma acceptable_plain f v field value : acceptable f v field value → plainField (lit f).
Proof. destruct 1; (split; [discriminate|]); (split; [reflexivity|]); decided. Qed.

(** A request: the comparisons with the columns and values they stand for. *)
Definition request : Type := list (string * string * (string * FilterValue)).
Definition accepted (r : request) : Prop :=
  Forall (λ x, acceptable x.1.1 x.1.2 x.2.1 x.2.2) r ∧ NoDup ((λ x, x.2.1) <$> r).

Definition filled (mf : QueryOdataMapper Workflow) (r : request) : QueryOdataMapper Workflow :=
  mkMapper (filterSchema mf) (om_skip mf) (om_top mf) (om_count mf) (parseFilterFields mf ++ (snd <$> r))
    (foldl (λ m x, <[x.2.1 := x.2.2]> m) (parseFilterMap mf) r).

Lemma apply_all (r : request) mf :
  filterSchema mf = GetWorkflowsSchema → Forall (λ x, acceptable x.1.1 x.1.2 x.2.1 x.2.2) r →
  for_each (λ comparison : bytes * bytes,
    mf ← get;
    y ← lift (schema_apply (filterSchema mf) comparison.1 comparison.2);
    let '(convertedField, convertedValue) := y : string * FilterValue in
    setFieldValue convertedField convertedValue)
    ((λ x : bytes * bytes, (x.1, literal x.2)) <$> (as_bytes ∘ fst <$> r)) mf = (filled mf r, inr tt).
Proof.
  intros Hs Hall. revert mf Hs. induction Hall as [|[[f v] [field value]] r Hx _ IH]; intros mf Hs.
  - unfold filled. cbn. rewrite app_nil_r. by destruct mf.
  - rewrite !fmap_cons. cbn [for_each]. unfold mbind at 1, M_bind at 1.
    unfold mbind at 1, M_bind at 1, get. cbn [fst snd compose as_bytes] in *. rewrite Hs.
    unfold mbind at 1, M_bind at 1, lift. rewrite (acceptable_apply _ _ _ _ Hx).
    unfold setFieldValue at 1, modify. rewrite IH by done. unfold filled. cbn.
    by rewrite <-(assoc_L (++)), Hs.
Qed.

(** ** The map of a request *)

Definition valuesOf (r : request) : gmap string FilterValue := foldl (λ m x, <[x.2.1 := x.2.2]> m) ∅ r.

Lemma values_from (r : request) (m : gmap string FilterValue) field :
  NoDup ((λ x, x.2.1) <$> r) →
  foldl (λ m x, <[x.2.1 := x.2.2]> m) m r !! field =
  match find (λ x, field ==s x.2.1) r with Some x => Some x.2.2 | None => m !! field end.
Proof.
  revert m. induction r as [|x r IH]; intros m; [done|]. rewrite fmap_cons. intros [Hx Hr]%NoDup_cons.
  cbn [foldl find]. rewrite IH by done. destruct (String.eqb_spec field x.2.1) as [->|Hne].
  - replace (find _ r) with (None : option (string * string * (string * FilterValue))); [by rewrite lookup_insert_eq|].
    symmetry. destruct (find _ r) as [y|] eqn:Hy; [|done]. apply find_some in Hy as [Hy%list_elem_of_In Hk%String.eqb_eq].
    destruct Hx. rewrite Hk. by apply (list_elem_of_fmap_2 (λ x : string * string * (string * FilterValue), x.2.1)).
  - destruct (find _ r); [done|]. by rewrite lookup_insert_ne.
Qed.

Lemma values_lookup (r : request) field value :
  NoDup ((λ x, x.2.1) <$> r) → (valuesOf r !! field = Some value ↔ ∃ x, x ∈ r ∧ x.2 = (field, value)).
Proof.
  intros Hd. unfold valuesOf. rewrite values_from by done. split.
  - destruct (find _ r) as [x|] eqn:Hf; [|by rewrite lookup_empty]. intros [= <-].
    apply find_some in Hf as [Hx%list_elem_of_In ->%String.eqb_eq]. exists x. split; [done|]. by destruct (x.2).
  - intros (x & Hx & Heq). destruct (find _ r) as [y|] eqn:Hf.
    + apply find_some in Hf as [Hy%list_elem_of_In Hk%String.eqb_eq].
      rewrite (NoDup_key (λ x : string * string * (string * FilterValue), x.2.1) r y x Hd Hy Hx); [by rewrite Heq|].
      by rewrite <-Hk, Heq.
    + apply list_elem_of_In in Hx. apply (find_none _ _ Hf) in Hx. by rewrite Heq, String.eqb_refl in Hx.
Qed.

Definition workflowFields : list string :=
  [StateField; ArtifactTypeField; ArtifactIDField; ArtifactNameField; ParamResourceNameField; ActionTypeField].

(** The condition that the map has for a column *)
Definition selects (r : request) (field : string) (w : Workflow) : bool :=
  match valuesOf r !! field with Some value => holds field value w | None => true end.

Lemma forallb_fields (r : request) w :
  accepted r → forallb (λ x, holds x.2.1 x.2.2 w) r = forallb (λ field, selects r field w) workflowFields.
Proof.
  intros [Ha Hd]. apply eq_true_iff_eq. rewrite !forallb_forall. setoid_rewrite <-list_elem_of_In.
  unfold selects. split.
  - intros H field _. destruct (valuesOf r !! field) as [value|] eqn:Hl; [|done].
    apply values_lookup in Hl as (x & Hx & Heq); [|done]. specialize (H x Hx). by rewrite Heq in H.
  - intros H x Hx. rewrite Forall_forall in Ha. specialize (Ha x Hx).
    assert (x.2.1 ∈ workflowFields) as Hin by (destruct Ha; decided).
    specialize (H _ Hin).
    assert (valuesOf r !! x.2.1 = Some x.2.2) as Hl.
    { apply values_lookup; [done|]. exists x. split; [done|]. by destruct (x.2). }
    by rewrite Hl in H.
Qed.

(** What a request has for a text column and for the artifact. *)
Lemma upper_nonempty v : ToUpper v = "" → v = "".
Proof. by destruct v. Qed.

Lemma acceptable_value f v field value :
  acceptable f v field value →
  if field ==s ArtifactIDField then ∃ u, value = VUUID u ∧ u ≠ uuid_Nil
  else ∃ s, value = VString s ∧ s ≠ "" ∧
    (field = StateField → WorkflowState_Valid s = true) ∧
    (field = ArtifactTypeField → WorkflowArtifactType_Valid s = true) ∧
    (field = ActionTypeField → WorkflowActionType_Valid s = true) ∧
    (field ∈ [ArtifactNameField; ParamResourceNameField] → reserved s = false).
Proof.
  assert (∀ (valid : string → bool) v, valid "" = false → valid (ToUpper v) = true → ToUpper v ≠ "") as Hne.
  { intros valid v' H H' He. by rewrite He, H in H'. }
  destruct 1; (match goal with |- context [?a ==s ?b] =>
    let r := eval vm_compute in (a ==s b) in change (a ==s b) with r end); cbn iota.
  1-5: eexists; (split; [reflexivity|]); (split; [first [done|by eapply Hne; [|eassumption]]|]);
    (split_and!; [first [done|by intros [=]]..|]); first [done|intros Hin; exfalso; revert Hin; decided].
  by eexists.
Qed.

Definition textFields : list string := [StateField; ArtifactTypeField; ArtifactNameField; ParamResourceNameField; ActionTypeField].

Section Fields.
Context (r : request) (Hr : accepted r) (mf : QueryOdataMapper Workflow).
Context (Hs : filterSchema mf = GetWorkflowsSchema) (Hm : parseFilterMap mf = valuesOf r).

Lemma request_value field value :
  valuesOf r !! field = Some value → ∃ f v, acceptable f v field value.
Proof using Hr.
  destruct Hr as [Ha Hd]. intros (x & Hx & Heq)%values_lookup; [|done].
  rewrite Forall_forall in Ha. specialize (Ha x Hx). rewrite Heq in Ha. eauto.
Qed.

Lemma get_string field :
  field ∈ textFields →
  ∃ s, mapper_GetString mf field = inr s ∧
    (s = "" ∧ valuesOf r !! field = None ∨
     valuesOf r !! field = Some (VString s) ∧ s ≠ "" ∧
     (field = StateField → WorkflowState_Valid s = true) ∧
     (field = ArtifactTypeField → WorkflowArtifactType_Valid s = true) ∧
     (field = ActionTypeField → WorkflowActionType_Valid s = true) ∧
     (field ∈ [ArtifactNameField; ParamResourceNameField] → reserved s = false)).
Proof using Hr Hs Hm.
  intros Hf. unfold mapper_GetString. rewrite Hm, Hs. destruct (valuesOf r !! field) as [value|] eqn:Hl.
  - destruct (request_value _ _ Hl) as (f & v & Ha%acceptable_value).
    assert ((field ==s ArtifactIDField) = false) as Hid.
    { apply negb_true_iff, (forallb_elem (λ field, negb (field ==s ArtifactIDField)) textFields); done. }
    rewrite Hid in Ha. destruct Ha as (s & -> & Hne & H). exists s. eauto.
  - exists "". split; [|by left]. revert field Hf Hl.
    assert (forallb (λ field, match assertTypeFromDBName GetWorkflowsSchema field KString with Some _ => false | None => true end)
      textFields = true) as Hall by reflexivity.
    intros field Hf _. apply (forallb_elem _ _ Hall) in Hf. by destruct (assertTypeFromDBName _ _ _).
Qed.

Lemma get_uuid :
  ∃ u, mapper_GetUUID mf ArtifactIDField = inr u ∧
    (u = uuid_Nil ∧ valuesOf r !! ArtifactIDField = None ∨
     valuesOf r !! ArtifactIDField = Some (VUUID u) ∧ u ≠ uuid_Nil).
Proof using Hr Hs Hm.
  unfold mapper_GetUUID. rewrite Hm, Hs. destruct (valuesOf r !! ArtifactIDField) as [value|] eqn:Hl.
  - destruct (request_value _ _ Hl) as (f & v & (u & -> & Hu)%acceptable_value). exists u. eauto.
  - exists uuid_Nil. split; [done|by left].
Qed.
End Fields.

Lemma parse_request (r : request) :
  accepted r →
  ParseFilter (Some (filter_String (conjunction (fst <$> r) NewFilter))) (NewQueryOdataMapper GetWorkflowsSchema) =
  (filled (NewQueryOdataMapper GetWorkflowsSchema) r, inr tt).
Proof.
  intros [Ha Hd]. unfold ParseFilter, mbind, M_bind, lift. rewrite lit_conjunction, parse_printed.
  - unfold modify. rewrite <-(list_fmap_compose fst as_bytes). exact (apply_all r (NewQueryOdataMapper GetWorkflowsSchema) eq_refl Ha).
  - unfold plainFields. rewrite !Forall_fmap. eapply Forall_impl; [exact Ha|]. intros x Hx. exact (acceptable_plain _ _ _ _ Hx).
Qed.

Lemma text_condition (s c : string) (o : option FilterValue) field w :
  s = "" ∧ o = None ∨ o = Some (VString s) ∧ s ≠ "" →
  holds field (VString s) w = (c ==s s) →
  (s ==s "") || (c ==s s) = match o with Some value => holds field value w | None => true end.
Proof. intros [[-> ->]|[-> Hs%String.eqb_neq]] H; [done|]. by rewrite Hs, H. Qed.

Lemma name_condition (s : string) (c : option string) (o : option FilterValue) field w :
  s = "" ∧ o = None ∨ o = Some (VString s) ∧ s ≠ "" ∧ reserved s = false →
  holds field (VString s) w = bool_decide (c = Some s) →
  (s ==s "") || eqNullable s c = match o with Some value => holds field value w | None => true end.
Proof.
  intros [[-> ->]|(-> & Hs%String.eqb_neq & Hp)] H; [done|]. rewrite Hs, H. cbn [orb].
  destruct c as [c|].
  - change (eqNullable s (Some c)) with (eqField s c). rewrite eqField_plain by done.
    destruct (String.eqb_spec c s) as [->|Hne]; [by rewrite bool_decide_true|].
    rewrite bool_decide_false; [done|]. congruence.
  - rewrite bool_decide_false by done. unfold reserved in Hp. apply mem_not_elem in Hp. unfold eqNullable.
    assert (∀ x, x ∈ [Null; NotNull; NotEmpty; Empty; FalseNull] → (s ==s x) = false) as Hn.
    { intros x Hx. apply String.eqb_neq. by intros ->. }
    by rewrite !Hn by decided.
Qed.

Lemma enums_valid state artifactType actionType :
  (state = "" ∨ WorkflowState_Valid state = true) →
  (artifactType = "" ∨ WorkflowArtifactType_Valid artifactType = true) →
  (actionType = "" ∨ WorkflowActionType_Valid actionType = true) →
  validateFilterEnums state artifactType actionType = inr (state, artifactType, actionType).
Proof.
  intros H1 H2 H3. unfold validateFilterEnums.
  destruct H1 as [->| ->], H2 as [->| ->], H3 as [->| ->]; by rewrite ?andb_false_r.
Qed.

End Selection.
