(* ===== verification/Sanitise.v ===== *)
(** What is sent to a browser is sanitised first: utils/sanitise, and the field tags of
    utils/tags that switch it off.  The walk goes over a Go value by reflection; here a value
    is a tree that keeps what [reflect] shows of it.  The policy that cleans a text is
    bluemonday's, the parameter [Policy]. *)
From Stdlib Require Import Ascii.
From S2P Require Import Prelude Errs Json Model OData.

Definition ErrNilPtr := New "sanitise.ErrNilPtr" "input must be a non-nil pointer".
Definition ErrBadRepoTag := New "tags.ErrBadRepoTag" "unrecognised repo tag".

(** * utils/tags *)

(** [strings.Split] by one character *)
Fixpoint splitOn (sep : ascii) (s : string) : list string :=
  match s with
  | EmptyString => [""]
  | String c s' =>
      if Ascii.eqb c sep then "" :: splitOn sep s'
      else match splitOn sep s' with
           | [] => [String c ""]
           | part :: parts => String c part :: parts
           end
  end.

Fixpoint addTags (parts : list string) (tags : gmap string string) : error + gmap string string :=
  match parts with
  | [] => inr tags
  | repoTag :: parts' =>
      match splitOn ":" repoTag with
      | [name] => addTags parts' (<[name := ""]> tags)
      | [name; value] => addTags parts' (<[name := value]> tags)
      | _ => inl ErrBadRepoTag
      end
  end.

(** [tags.Get]: [tagValue] is what the struct tag has for the identifier. *)
Definition tags_Get (tagValue : string) : error + gmap string string :=
  if tagValue ==s "" then inr ∅ else addTags (splitOn ";" tagValue) ∅.

(** [strconv.ParseBool] *)
Definition ParseBool (s : string) : error + bool :=
  if s ∈? ["1"; "t"; "T"; "TRUE"; "true"; "True"] then inr true
  else if s ∈? ["0"; "f"; "F"; "FALSE"; "false"; "False"] then inr false
  else inl (External "strconv.ParseBool: invalid syntax").

Definition CheckBool (tags : gmap string string) (tagName : string) (defaultValue : bool) : error + bool :=
  match tags !! tagName with
  | None => inr defaultValue
  | Some tagValue =>
      match ParseBool tagValue with
      | inl err => inl (Wrap ErrBadRepoTag (Some err))
      | inr b => inr b
      end
  end.

(** * Go values *)

Record Field := mkField {
  fd_Name : string;
  fd_IsExported : bool;
  fd_Repo : string }.

(** Pointers and interfaces may be nil, and so may maps, which have string keys in every
    model; [GRaw] is a [json.RawMessage], [GScalar] any kind that the walk leaves alone. *)
Inductive Value :=
| GString (s : string)
| GRaw (s : string)
| GStruct (fields : list (Field * Value))
| GSlice (l : list Value)
| GArray (l : list Value)
| GMap (m : option (list (string * Value)))
| GPointer (p : option Value)
| GInterface (p : option Value)
| GScalar (text : string).

(** * sanitise.go *)

Class Policy := policy_Sanitize : string → string.

(** What [sanitiseJSON] writes for a character *)
Definition escapeChar (c : ascii) : string :=
  if Ascii.eqb c "&" then "&amp;"
  else if Ascii.eqb c "'" then "&#39;"
  else if Ascii.eqb c "<" then "&lt;"
  else if Ascii.eqb c ">" then "&gt;"
  else String c "".
Fixpoint sanitiseJSON (value : string) : string :=
  match value with
  | EmptyString => ""
  | String c value' => escapeChar c +:+ sanitiseJSON value'
  end.

Definition checkSanitiseTag (field : Field) : error + bool :=
  tags ← tags_Get (fd_Repo field);
  CheckBool tags "sanitise" true.

(** [SetMapIndex] *)
Definition setIndex {A} (key : string) (value : A) (m : list (string * A)) : list (string * A) :=
  List.filter (λ kv, negb (kv.1 ==s key)) m ++ [(key, value)].

Definition unaddressable : error := Panic "reflect: using unaddressable value".

(** The three loops of the walk, for the function that sanitises a part *)
Section Loops.
Context {P : Policy} (sanitize : Value → error + Value).

Definition sanitiseStruct : list (Field * Value) → error + list (Field * Value) :=
  fix loop fields :=
    match fields with
    | [] => inr []
    | (f, x) :: rest =>
        if negb (fd_IsExported f) then inr fields else
        ok ← checkSanitiseTag f;
        if negb ok then inr fields else
        x' ← sanitize x;
        rest' ← loop rest;
        inr ((f, x') :: rest')
    end.

Definition sanitiseElements : list Value → error + list Value :=
  fix loop l :=
    match l with
    | [] => inr []
    | x :: rest => x' ← sanitize x; rest' ← loop rest; inr (x' :: rest')
    end.

(** An interface in a map is unwrapped, so that a copy of what it holds is sanitised. *)
Definition sanitiseMap : list (string * Value) → list (string * Value) → error + list (string * Value) :=
  fix loop m newMap :=
    match m with
    | [] => inr newMap
    | (key, val) :: rest =>
        tmpVal ← match val with
                 | GInterface (Some x) => x' ← sanitize x; inr (GInterface (Some x'))
                 | _ => sanitize val
                 end;
        loop rest (setIndex (policy_Sanitize key) tmpVal newMap)
    end.
End Loops.

Section Sanitise.
Context {P : Policy}.

(** [settable] says whether the value may be set where it is: what a pointer leads to may,
    the elements of a slice may, what an interface holds may not; a field is like its struct
    and the element of an array like the array.  A map is rebuilt from sanitised copies. *)
Fixpoint sanitize (settable : bool) (v : Value) : error + Value :=
  match v with
  | GPointer None | GInterface None | GMap None | GScalar _ => inr v
  | GPointer (Some x) => x' ← sanitize true x; inr (GPointer (Some x'))
  | GInterface (Some x) => x' ← sanitize false x; inr (GInterface (Some x'))
  | GRaw s => if settable then inr (GRaw (sanitiseJSON s)) else inl unaddressable
  | GString s => if settable then inr (GString (policy_Sanitize s)) else inl unaddressable
  | GStruct fields => fields' ← sanitiseStruct (sanitize settable) fields; inr (GStruct fields')
  | GSlice l => l' ← sanitiseElements (sanitize true) l; inr (GSlice l')
  | GArray l => l' ← sanitiseElements (sanitize settable) l; inr (GArray l')
  | GMap (Some m) =>
      newMap ← sanitiseMap (sanitize true) m [];
      if settable then inr (GMap (Some newMap)) else inl unaddressable
  end.

Definition Sanitize (value : Value) : error + Value :=
  match value with
  | GPointer (Some _) => sanitize true value
  | _ => inl ErrNilPtr
  end.
End Sanitise.

(** * What the walk reaches *)

Section ValueInd.
Context (Q : Value → Prop).
Context (Hstring : ∀ s, Q (GString s)) (Hraw : ∀ s, Q (GRaw s)) (Hscalar : ∀ s, Q (GScalar s)).
Context (Hstruct : ∀ fields, Forall (λ p, Q p.2) fields → Q (GStruct fields)).
Context (Hslice : ∀ l, Forall Q l → Q (GSlice l)) (Harray : ∀ l, Forall Q l → Q (GArray l)).
Context (Hmap : ∀ m, Forall (λ p, Q p.2) m → Q (GMap (Some m))).
Context (Hpointer : ∀ x, Q x → Q (GPointer (Some x))) (Hinterface : ∀ x, Q x → Q (GInterface (Some x))).
Context (Hnilmap : Q (GMap None)) (Hnil : Q (GPointer None)) (Hnilinterface : Q (GInterface None)).

Fixpoint Value_nested_ind (v : Value) : Q v :=
  let pairs K := fix pairs (l : list (K * Value)) : Forall (λ p, Q p.2) l :=
    match l with
    | [] => List.Forall_nil _
    | p :: l' => @List.Forall_cons _ (λ p, Q p.2) p l' (Value_nested_ind p.2) (pairs l')
    end in
  let all := fix all (l : list Value) : Forall Q l :=
    match l with
    | [] => List.Forall_nil _
    | x :: l' => @List.Forall_cons _ Q x l' (Value_nested_ind x) (all l')
    end in
  match v with
  | GString s => Hstring s
  | GRaw s => Hraw s
  | GScalar s => Hscalar s
  | GStruct fields => Hstruct fields (pairs _ fields)
  | GSlice l => Hslice l (all l)
  | GArray l => Harray l (all l)
  | GMap (Some m) => Hmap m (pairs _ m)
  | GPointer (Some x) => Hpointer x (Value_nested_ind x)
  | GInterface (Some x) => Hinterface x (Value_nested_ind x)
  | GMap None => Hnilmap
  | GPointer None => Hnil
  | GInterface None => Hnilinterface
  end.
End ValueInd.

(** A field that the walk enters *)
Definition entered (f : Field) : bool :=
  fd_IsExported f && match checkSanitiseTag f with inr ok => ok | inl _ => false end.

(** The fields of a struct up to the first one that is not entered, and the rest *)
Fixpoint visible {A} (fields : list (Field * A)) : list (Field * A) * list (Field * A) :=
  match fields with
  | [] => ([], [])
  | (f, x) :: rest =>
      if entered f then let '(seen, hidden) := visible rest in ((f, x) :: seen, hidden) else ([], fields)
  end.

(** The texts of a value: plain strings and map keys, and raw JSON *)
Inductive Text := Plain (s : string) | Raw (s : string).

Fixpoint texts (v : Value) : list Text :=
  match v with
  | GString s => [Plain s]
  | GRaw s => [Raw s]
  | GStruct fields => flat_map (λ p, texts p.2) fields
  | GSlice l | GArray l => flat_map texts l
  | GMap (Some m) => flat_map (λ p, Plain p.1 :: texts p.2) m
  | GPointer (Some x) | GInterface (Some x) => texts x
  | _ => []
  end.

(** Those that the walk reaches *)
Fixpoint reached (v : Value) : list Text :=
  match v with
  | GString s => [Plain s]
  | GRaw s => [Raw s]
  | GStruct fields => flat_map snd (visible (List.map (λ p, (p.1, reached p.2)) fields)).1
  | GSlice l | GArray l => flat_map reached l
  | GMap (Some m) => flat_map (λ p, Plain p.1 :: reached p.2) m
  | GPointer (Some x) | GInterface (Some x) => reached x
  | _ => []
  end.

(** The fields that it leaves as they are *)
Fixpoint unreached (v : Value) : list (Field * Value) :=
  match v with
  | GStruct fields =>
      (visible fields).2 ++ flat_map snd (visible (List.map (λ p, (p.1, unreached p.2)) fields)).1
  | GSlice l | GArray l => flat_map unreached l
  | GMap (Some m) => flat_map (λ p, unreached p.2) m
  | GPointer (Some x) | GInterface (Some x) => unreached x
  | _ => []
  end.

(** Characters that open a tag or an attribute *)
Definition markup (c : ascii) : bool := Ascii.eqb c "<" || Ascii.eqb c ">" || Ascii.eqb c "'".
Definition markupFree (s : string) : bool := negb (existsb markup (String.list_ascii_of_string s)).

Section Facts.
Context {P : Policy}.

(** A text that cannot do harm *)
Definition clean (t : Text) : Prop :=
  match t with
  | Plain s => ∃ s0, s = policy_Sanitize s0
  | Raw s => markupFree s = true
  end.

Lemma markupFree_app a b : markupFree (a +:+ b) = markupFree a && markupFree b.
Proof.
  unfold markupFree. induction a as [|c a IH]; [done|].
  change (String c a +:+ b) with (String c (a +:+ b)). cbn. cbn in IH. rewrite !negb_orb, IH. by rewrite andb_assoc.
Qed.

Lemma sanitiseJSON_clean s : markupFree (sanitiseJSON s) = true.
Proof.
  induction s as [|c s IH]; [done|]. cbn [sanitiseJSON]. rewrite markupFree_app, IH, andb_true_r.
  destruct c as [[] [] [] [] [] [] [] []]; reflexivity.
Qed.

Lemma sum_bind_ok {A B} (m : error + A) (f : A → error + B) b :
  m ≫= f = inr b → ∃ a, m = inr a ∧ f a = inr b.
Proof. destruct m; [done|]. cbn. eauto. Qed.

Definition good (v v' : Value) : Prop := Forall clean (reached v') ∧ unreached v' ⊆ unreached v.

Section Loops.
Context (san : Value → error + Value).

Lemma sanitiseElements_good l l' :
  Forall (λ x, ∀ x', san x = inr x' → good x x') l → sanitiseElements san l = inr l' →
  Forall clean (flat_map reached l') ∧ flat_map unreached l' ⊆ flat_map unreached l.
Proof.
  intros Hl. revert l'. induction Hl as [|x l Hx _ IH]; intros l'; [by intros [= <-]|].
  intros (x' & [Hc Hu]%Hx & H)%sum_bind_ok. apply sum_bind_ok in H as (l'' & [Hc' Hu']%IH & [= <-]).
  cbn. split; [by apply Forall_app|set_solver].
Qed.

Lemma sanitiseStruct_good fields fields' :
  Forall (λ p, ∀ x', san p.2 = inr x' → good p.2 x') fields → sanitiseStruct san fields = inr fields' →
  good (GStruct fields) (GStruct fields').
Proof.
  unfold good. intros Hl. revert fields'. induction Hl as [|[f x] l Hx _ IH]; intros fields'; [by intros [= <-]|].
  cbn. intros H.
  destruct (fd_IsExported f) eqn:He; cbn in H.
  2: { injection H as <-. cbn. unfold entered. rewrite He. done. }
  apply sum_bind_ok in H as (ok & Hok & H). destruct ok; cbn in H.
  2: { injection H as <-. cbn. unfold entered. rewrite He, Hok. done. }
  apply sum_bind_ok in H as (x' & [Hc Hu]%Hx & H). apply sum_bind_ok in H as (l' & [Hc' Hu']%IH & [= <-]).
  cbn in *. unfold entered. rewrite He, Hok. cbn.
  destruct (visible l') as [s1 h1], (visible l) as [s2 h2],
    (visible (List.map (λ p, (p.1, reached p.2)) l')) as [s3 h3],
    (visible (List.map (λ p, (p.1, unreached p.2)) l')) as [s4 h4],
    (visible (List.map (λ p, (p.1, unreached p.2)) l)) as [s5 h5]. cbn in *.
  split; [by apply Forall_app|set_solver].
Qed.
End Loops.

Definition mapTexts (m : list (string * Value)) : list Text := flat_map (λ p, Plain p.1 :: reached p.2) m.
Definition mapUnreached (m : list (string * Value)) : list (Field * Value) := flat_map (λ p, unreached p.2) m.

Lemma filter_flat_map {A B} (f : A → list B) (q : A → bool) l : flat_map f (List.filter q l) ⊆ flat_map f l.
Proof. induction l as [|x l IH]; [done|]. cbn. destruct (q x); cbn; set_solver. Qed.

Lemma setIndex_good key val (m : list (string * Value)) :
  clean (Plain key) → Forall clean (reached val) → Forall clean (mapTexts m) →
  Forall clean (mapTexts (setIndex key val m)) ∧ mapUnreached (setIndex key val m) ⊆ mapUnreached m ++ unreached val.
Proof.
  intros Hk Hv Hm. unfold mapTexts, mapUnreached, setIndex. rewrite !flat_map_app. cbn. rewrite !app_nil_r.
  pose proof (filter_flat_map (λ p : string * Value, Plain p.1 :: reached p.2) (λ kv, negb (kv.1 ==s key)) m) as H1.
  pose proof (filter_flat_map (λ p : string * Value, unreached p.2) (λ kv, negb (kv.1 ==s key)) m) as H2.
  split; [|set_solver]. apply Forall_app. split; [|by constructor].
  apply Forall_forall. intros x Hx%H1. by apply (proj1 (Forall_forall _ _) Hm).
Qed.

(** What is known of a part: it comes out well, and so does what an interface holds. *)
Definition walks (v : Value) : Prop :=
  (∀ settable v', sanitize settable v = inr v' → good v v') ∧
  match v with GInterface (Some x) => ∀ x', sanitize true x = inr x' → good x x' | _ => True end.

Lemma sanitiseMap_good m new new' :
  Forall (λ p, walks p.2) m → Forall clean (mapTexts new) → sanitiseMap (sanitize true) m new = inr new' →
  Forall clean (mapTexts new') ∧ mapUnreached new' ⊆ mapUnreached new ++ mapUnreached m.
Proof.
  intros Hm. revert new. induction Hm as [|[key val] m [Hw Hi] _ IH]; intros new Hn.
  { intros [= <-]. split; [done|]. by rewrite app_nil_r. }
  intros (val' & Hv & H)%sum_bind_ok. cbn [snd] in *.
  assert (good val val') as [Hc Hu].
  { destruct val as [| | | | | | |[x|]|]; try (by apply (Hw true)). apply sum_bind_ok in Hv as (x' & Hx & [= <-]).
    exact (Hi _ Hx). }
  destruct (setIndex_good (policy_Sanitize key) val' new) as [Hn' Hs]; [by eexists|done..|].
  apply IH in H as [H1 H2]; [|done]. split; [done|]. cbn [mapUnreached flat_map snd].
  unfold mapUnreached in *. cbn. set_solver.
Qed.

Lemma sanitize_walks v : walks v.
Proof.
  assert (∀ v v' : Value, (∀ b, sanitize b v = inr v') → unreached v' = [] → Forall clean (reached v') →
    ∀ b v'', sanitize b v = inr v'' → good v v'') as Hleaf.
  { intros v1 v' Hv Hu Hc b v'' H. rewrite Hv in H. injection H as <-. split; [done|]. rewrite Hu. set_solver. }
  induction v as [s|s|s|fields IH|l IH|l IH|m IH|x [IH _]|x [IH _]| | |] using Value_nested_ind; (split; [|try done]).
  - intros [] v' H; [|done]. injection H as <-. split; [|done]. repeat constructor. by eexists.
  - intros [] v' H; [|done]. injection H as <-. split; [|done]. repeat constructor. apply sanitiseJSON_clean.
  - by apply (Hleaf _ (GScalar s)).
  - intros b v' (f' & H & [= <-])%sum_bind_ok. eapply sanitiseStruct_good, H.
    eapply Forall_impl; [exact IH|]. intros p [Hp _]. apply Hp.
  - intros b v' (l' & H & [= <-])%sum_bind_ok. eapply sanitiseElements_good, H.
    eapply Forall_impl; [exact IH|]. intros p [Hp _]. apply Hp.
  - intros b v' (l' & H & [= <-])%sum_bind_ok. eapply sanitiseElements_good, H.
    eapply Forall_impl; [exact IH|]. intros p [Hp _]. apply Hp.
  - intros b v' (m' & H & Hb)%sum_bind_ok. destruct b; [|done]. injection Hb as <-.
    by apply sanitiseMap_good in H.
  - intros b v' (x' & H & [= <-])%sum_bind_ok. by apply IH in H.
  - intros b v' (x' & H & [= <-])%sum_bind_ok. by apply IH in H.
  - intros x'. apply IH.
  - by apply (Hleaf _ (GMap None)).
  - by apply (Hleaf _ (GPointer None)).
  - by apply (Hleaf _ (GInterface None)).
Qed.

(** Without hidden fields every text is reached. *)
Lemma all_visible {A} (fields : list (Field * A)) : (visible fields).2 = [] → (visible fields).1 = fields.
Proof.
  induction fields as [|[f x] l IH]; [done|]. cbn. destruct (entered f); [|done].
  destruct (visible l). cbn in *. intros ->. by rewrite IH.
Qed.
Lemma visible_map {A B} (g : A → B) (fields : list (Field * A)) :
  visible (List.map (λ p, (p.1, g p.2)) fields) =
  (List.map (λ p, (p.1, g p.2)) (visible fields).1, List.map (λ p, (p.1, g p.2)) (visible fields).2).
Proof.
  induction fields as [|[f x] l IH]; [done|]. cbn. destruct (entered f); [|done].
  rewrite IH. by destruct (visible l).
Qed.
Lemma flat_map_nil {A B} (f : A → list B) l : flat_map f l = [] → Forall (λ x, f x = []) l.
Proof. induction l; [done|]. cbn. intros [? ?]%app_eq_nil. auto. Qed.
Lemma flat_map_same {A B} (f g : A → list B) l : Forall (λ x, f x = g x) l → flat_map f l = flat_map g l.
Proof. induction 1 as [|x l H _ IH]; [done|]. cbn. by rewrite H, IH. Qed.

Lemma Forall_mp {A} (Q R : A → Prop) l : Forall (λ x, Q x → R x) l → Forall Q l → Forall R l.
Proof. induction 1; inversion_clear 1; auto. Qed.
Lemma flat_map_map {A B C} (f : B → list C) (g : A → B) l :
  flat_map f (List.map g l) = flat_map (λ x, f (g x)) l.
Proof. induction l as [|x l IH]; [done|]. cbn. by rewrite IH. Qed.

Lemma texts_reached v : unreached v = [] → texts v = reached v.
Proof.
  induction v as [s|s|s|fields IH|l IH|l IH|m IH|x IH|x IH| | |] using Value_nested_ind; try done; try (by intros; apply IH).
  - cbn. intros [Hh Hf]%app_eq_nil. rewrite (visible_map unreached fields) in Hf. rewrite (visible_map reached fields). cbn in *.
    rewrite all_visible in Hf |- * by done. rewrite flat_map_map in Hf. rewrite flat_map_map. cbn in *. apply flat_map_same. apply flat_map_nil in Hf.
    exact (Forall_mp _ _ _ IH Hf).
  - cbn. intros Hf%flat_map_nil. apply flat_map_same.
    exact (Forall_mp _ _ _ IH Hf).
  - cbn. intros Hf%flat_map_nil. apply flat_map_same.
    exact (Forall_mp _ _ _ IH Hf).
  - cbn. intros Hf%flat_map_nil. apply flat_map_same.
    eapply Forall_mp, Hf.
    eapply Forall_impl; [exact IH|]. intros p Hp Hn. by rewrite (Hp Hn).
Qed.

End Facts.

(** * Two consequences *)

Definition field (name : string) : Field := mkField name true "".
Definition hiddenField (name : string) : Field := mkField name false "".
Definition timeValue : Value := GStruct [(hiddenField "wall", GScalar "0")].
Definition optional (s : option string) : Value := GPointer (GString <$> s).

(** [model.Workflow] by reflection: the fields in their order; approvers are left out of the
    slice that the list endpoints do not load. *)
Definition workflowValue (w : Workflow) : Value := GStruct
  [(field "AutoTimeModel", GStruct [(field "CreatedAt", timeValue); (field "UpdatedAt", timeValue)]);
   (field "ID", GArray []); (field "State", GString (wf_State w)); (field "InitiatorID", GString (wf_InitiatorID w));
   (hiddenField "initiatorName", GString (wf_initiatorName w)); (field "Approvers", GSlice []);
   (field "ApproverGroupIDs", GRaw (default "" (wf_ApproverGroupIDs w)));
   (field "ArtifactType", GString (wf_ArtifactType w)); (field "ArtifactID", GArray []);
   (field "ArtifactName", optional (wf_ArtifactName w)); (field "ActionType", GString (wf_ActionType w));
   (field "Parameters", GString (wf_Parameters w));
   (field "ParametersResourceName", optional (wf_ParametersResourceName w));
   (field "ParametersResourceType", optional (wf_ParametersResourceType w));
   (field "FailureReason", GString (wf_FailureReason w)); (field "ExpiryDate", GPointer None);
   (field "MinimumApprovalCount", GScalar "0")].

Section Consequences.
Context {P : Policy}.

(** The unexported name of the initiator hides the texts behind it: the artifact name, the
    parameters and the failure reason of a workflow are presented as they are stored. *)
Lemma workflow_texts_raw w :
  ∃ w', sanitize true (workflowValue w) = inr (workflowValue w') ∧
    wf_State w' = policy_Sanitize (wf_State w) ∧ wf_ArtifactName w' = wf_ArtifactName w ∧
    wf_Parameters w' = wf_Parameters w ∧ wf_FailureReason w' = wf_FailureReason w.
Proof.
  exists (mkWorkflow (wf_CreatedAt w) (wf_ID w) (policy_Sanitize (wf_State w)) (policy_Sanitize (wf_InitiatorID w))
    (wf_initiatorName w) (wf_Approvers w) (wf_ApproverGroupIDs w) (wf_ArtifactType w) (wf_ArtifactID w)
    (wf_ArtifactName w) (wf_ActionType w) (wf_Parameters w) (wf_ParametersResourceName w)
    (wf_ParametersResourceType w) (wf_FailureReason w) (wf_ExpiryDate w) (wf_MinimumApprovalCount w)).
  by split_and!.
Qed.

(** A list of texts in a map of arbitrary values cannot be set. *)
Lemma nested_list_panics key s :
  sanitize true (GMap (Some [(key, GInterface (Some (GSlice [GInterface (Some (GString s))])))])) = inl unaddressable.
Proof. reflexivity. Qed.
End Consequences.
