(* ===== verification/ApiErrors.v ===== *)
(** The answers of the REST API to internal errors: the tables of internal/apierrors
    entry by entry, the contexts some of them add, the mapper built from them
    (mapping.go) and the error handlers of internal/handlers.  An entry names errors by the
    definitions of the components that return them. *)
From S2P Require Import Prelude Errs GoContext Authz Model Store AuthzLoader Events Lifecycle.
From S2P Require Import Users KeyConfigs Labels Systems KeyVersions Keys TenantConfig.
From S2P Require Import Keystores Groups Tenants WorkflowManager Filters.
#[local] Open Scope Z_scope.

(** * internal/apierrors/mapping.go, base.go *)

(** The values of a context, a Go [map[string]any]; a nil map is [None]. *)
Inductive any := AString (s : string) | AInt (n : Z).
Definition Ctx := option (gmap string any).

Record APIError := mkAPIError {
  Code : string;
  Message : string;
  Status : Z;
  Context : option Ctx }.

Definition SetContext (e : APIError) (context : Ctx) : APIError :=
  mkAPIError (Code e) (Message e) (Status e) (Some context).

Definition apiError (code message : string) (status : Z) : APIError :=
  mkAPIError code message status None.

Definition StatusBadRequest := 400.
Definition StatusForbidden := 403.
Definition StatusNotFound := 404.
Definition StatusConflict := 409.
Definition StatusInternalServerError := 500.
Definition StatusServiceUnavailable := 503.

Definition WorkflowGroupNotSufficientMembers := "WORKFLOW_GROUP_NOT_SUFFICIENT_MEMBERS".
Definition MultipleRolesInGroupsCode := "MULTIPLE_ROLES_NOT_ALLOWED".
Definition ResourceNotFound := "RESOURCE_NOT_FOUND".
Definition UniqueError := "UNIQUE_ERROR".
Definition BadRequest := "BAD_REQUEST".
Definition GetResource := "GET_RESOURCE".
Definition TenantNotFound := "TENANT_NOT_FOUND".
Definition InternalServerErr := "INTERNAL_SERVER_ERROR".
Definition JSONDecodeErr := "JSON_DECODE_ERROR".
Definition ValidationErr := "VALIDATION_ERROR".
Definition UnauthorizedErr := "UNAUTHORIZED".
Definition ParamsErr := "PARAMS_ERROR".
Definition RequiredHeaderErr := "REQUIRED_HEADER_ERROR".
Definition RequiredParamErr := "REQUIRED_PARAM_ERROR".
Definition ForbiddenErr := "FORBIDDEN".

Definition ForbiddenErrorMessage : APIError :=
  apiError ForbiddenErr "action on resource unauthorized" StatusForbidden.

Definition InternalServerErrorMessage : APIError :=
  apiError InternalServerErr "Internal server error" StatusInternalServerError.

Definition JSONDecodeErrorMessage : APIError :=
  apiError JSONDecodeErr "Can't decode JSON body" StatusBadRequest.

Definition OAPIValidatorErrorMessage (message : string) (code : Z) : APIError :=
  if code =? StatusBadRequest then apiError ValidationErr message code
  else if code =? StatusForbidden then apiError ForbiddenErr message code
  else InternalServerErrorMessage.

Definition TooManyParameters (message : string) : APIError :=
  apiError ParamsErr message StatusBadRequest.
Definition RequiredHeaderError (message : string) : APIError :=
  apiError RequiredHeaderErr message StatusBadRequest.
Definition RequiredParamError (message : string) : APIError :=
  apiError RequiredParamErr message StatusBadRequest.

(** * Contexts *)

(** internal/errs/grpc.go: the [reason] of the [GRPCError] below the second error
    of a joined error, with its metadata written over it. *)
Definition GetGRPCErrorContext (err : error) : Ctx :=
  match err with
  | Errorf_ww _ b | Join _ b =>
      match errors_As pickGRPC b with
      | Some (reason, metadata) =>
          Some ((AString <$> metadata) ∪ {["reason" := AString reason]})
      | None => None
      end
  | _ => None
  end.

Definition pickInsufficient (err : error) : option (Z * Z) :=
  match err with InsufficientApproversError required actual _ => Some (required, actual) | _ => None end.

Definition getInsufficientApproversContext (err : error) : Ctx :=
  match errors_As pickInsufficient err with
  | Some (required, actual) =>
      Some {["requiredApprovers" := AInt required; "actualEligibleApprovers" := AInt actual]}
  | None => None
  end.

Definition settingContext (setting : string) : Ctx := Some {["setting" := AString setting]}.

(** * Errors that only the tables name *)

Definition manager_ErrQueryKeyConfigurationList :=
  New "manager.ErrQueryKeyConfigurationList" "failed to query key configuration list".
Definition ErrTransformKeyConfigurationList :=
  New "apierrors.ErrTransformKeyConfigurationList" "failed to transform key configuration list".
Definition ErrTransformKeyConfigurationFromAPI :=
  New "apierrors.ErrTransformKeyConfigurationFromAPI" "failed to transform key configuration from API".
Definition ErrGetClientCertificates :=
  New "apierrors.ErrGetClientCertificates" "failed to get client certificates".
Definition manager_ErrUpdateKeyVersionDisabled :=
  New "manager.ErrUpdateKeyVersionDisabled" "cannot update key version when key is disabled".
Definition manager_ErrNoBodyForCustomerHeldDB :=
  New "manager.ErrNoBodyForCustomerHeldDB" "body must be provided for customer held key rotation".
Definition ErrQueryKeyVersionList :=
  New "apierrors.ErrQueryKeyVersionList" "failed to query key version list".
Definition ErrTransformKeyVersionList :=
  New "apierrors.ErrTransformKeyVersionList" "failed to transform key version list".
Definition ErrTransformKeyVersionToAPI :=
  New "apierrors.ErrTransformKeyVersionToAPI" "failed to transform key version".
Definition ErrGettingKeyVersionByNumber :=
  New "apierrors.ErrGettingKeyVersionByNumber" "failed to get key version by number".
Definition manager_ErrUpdateKeyVersionDB :=
  New "manager.ErrUpdateKeyVersionDB" "failed to update key version in database".
Definition ErrTransformWorkflowFromAPI :=
  New "apierrors.ErrTransformWorkflowFromAPI" "failed to transform workflow from API".
Definition ErrTransformWorkflowToAPI :=
  New "apierrors.ErrTransformWorkflowToAPI" "failed to transform workflow to API".
Definition ErrCreateWorkflow := New "apierrors.ErrCreateWorkflow" "failed to create workflow".
Definition ErrWorkflowCannotTransition :=
  New "apierrors.ErrWorkflowCannotTransition" "workflow cannot transition to specified state".
Definition ErrAddApprovers :=
  New "apierrors.ErrAddApprovers" "failed to add approvers to workflow".
Definition repo_ErrKeyConfigName := New "repo.ErrKeyConfigName" "failed getting keyconfig name".
Definition ErrTransformSystemList :=
  New "apierrors.ErrTransformSystemList" "failed to transform system list".
Definition ErrTransformSystem := New "apierrors.ErrTransformSystem" "failed to transform system".
Definition ErrTransformSystemFromAPI :=
  New "apierrors.ErrTransformSystemFromAPI" "failed to transform system from API".
Definition ErrTransformSystemToAPI :=
  New "apierrors.ErrTransformSystemToAPI" "failed to transform system to API".
Definition manager_ErrKeyConfigurationIDNotFound :=
  New "manager.ErrKeyConfigurationIDNotFound" "KeyConfigurationID not found".
Definition ErrKeyConfigurationIDRequired :=
  New "apierrors.ErrKeyConfigurationIDRequired" "KeyConfigurationID is required".
Definition manager_ErrGettingSystemLinkByID :=
  New "manager.ErrGettingSystemLinkByID" "failed to get system link by ID".
Definition ErrGetKeyLabels := New "apierrors.ErrGetKeyLabels" "failed to get key labels".
Definition ErrLabelNotFound := New "apierrors.ErrLabelNotFound" "label not found".
Definition manager_ErrQueryLabelList :=
  New "manager.ErrQueryLabelList" "failed to query system list".
Definition ErrTransformLabelList :=
  New "apierrors.ErrTransformLabelList" "failed to transform system list".
Definition ErrEmptyInputLabel :=
  New "apierrors.ErrEmptyInputLabel" "invalid input empty label name".
Definition ErrUpdateLabel := New "apierrors.ErrUpdateLabel" "failed to update label".
Definition ErrDeleteLabel := New "apierrors.ErrDeleteLabel" "failed to delete label".
Definition ErrTransformLabelFromAPI :=
  New "apierrors.ErrTransformLabelFromAPI" "failed to transform label from API".
Definition ErrCreatingTags := New "apierrors.ErrCreatingTags" "failed to create tags".
Definition ErrGettingTagsByKeyConfigurationID :=
  New "apierrors.ErrGettingTagsByKeyConfigurationID" "failed to get tags by KeyConfigurationID".
Definition manager_ErrCryptoRegionNotExists :=
  New "manager.ErrCryptoRegionNotExists" "crypto region does not exist".
Definition ErrTransformKeyToAPI :=
  New "apierrors.ErrTransformKeyToAPI" "failed to transform key to API".
Definition ErrCreateKey := New "apierrors.ErrCreateKey" "failed to create key".
Definition keymanagement_ErrGenericGetKeyError :=
  New "keymanagement.ErrGenericGetKeyError" "failed to get key".
Definition ErrUpdateKey := New "apierrors.ErrUpdateKey" "failed to update key".
Definition ErrDeleteKey := New "apierrors.ErrDeleteKey" "failed to delete key".
Definition ErrQueryKeyList := New "apierrors.ErrQueryKeyList" "failed to query key list".
Definition ErrTransformKeyFromAPI :=
  New "apierrors.ErrTransformKeyFromAPI" "failed to transform key from API".
Definition ErrTypeFieldMissingProperty :=
  New "apierrors.ErrTypeFieldMissingProperty" "field is missing type".
Definition keyshared_ErrAlgorithmIsRequired :=
  New "keyshared.ErrAlgorithmIsRequired" "algorithm is required".
Definition keyshared_ErrRegionIsRequired :=
  New "keyshared.ErrRegionIsRequired" "region is required".
Definition transform_ErrAPIUnexpectedProperty :=
  New "transform.ErrAPIUnexpectedProperty" "unexpected field".
Definition ErrNameFieldMissingProperty :=
  New "apierrors.ErrNameFieldMissingProperty" "field is missing name".
Definition ErrKeyConfigurationFieldMissingProperty :=
  New "apierrors.ErrKeyConfigurationFieldMissingProperty" "field is missing keyConfigurationID".
Definition keyshared_ErrInvalidKeyProvider :=
  New "keyshared.ErrInvalidKeyProvider" "invalid key provider".
Definition ErrSetPrimaryKey := New "apierrors.ErrSetPrimaryKey" "failed to set primary key".
Definition hyokkey_ErrAccessDetailsIsRequired :=
  New "hyokkey.ErrAccessDetailsIsRequired" "accessDetails is required".
Definition hyokkey_ErrNativeIDIsRequired :=
  New "hyokkey.ErrNativeIDIsRequired" "nativeID is required".
Definition keyshared_ErrProviderIsRequired :=
  New "keyshared.ErrProviderIsRequired" "provider is required".
Definition ErrDefaultKeystoreNotFound :=
  New "apierrors.ErrDefaultKeystoreNotFound" "default keystore not found".
Definition ErrBusinessUserDataInvalid :=
  New "apierrors.ErrBusinessUserDataInvalid" "client data invalid".
Definition ErrGetDefaultKeystore :=
  New "apierrors.ErrGetDefaultKeystore" "failed to get default keystore".
Definition ErrGetWorkflowConfig :=
  New "apierrors.ErrGetWorkflowConfig" "failed to get workflow config".
Definition ErrSetWorkflowConfig :=
  New "apierrors.ErrSetWorkflowConfig" "failed to set workflow config".
Definition manager_ErrListTenants :=
  New "manager.ErrListTenants" "failed to list tenants from database".
Definition ErrTransformTenants :=
  New "apierrors.ErrTransformTenants" "failed to transform tenants to API".
Definition sql_ErrNoRows := New "sql.ErrNoRows" "sql: no rows in result set".
Definition repo_ErrInvalidUUID := New "repo.ErrInvalidUUID" "invalid UUID format".
Definition ErrUnknownProperty := New "apierrors.ErrUnknownProperty" "unknown property".
Definition ErrActionRequireWorkflow :=
  New "apierrors.ErrActionRequireWorkflow" "action requires a workflow".

Definition ErrGRPCInvalidAccessData :=
  GRPC "INVALID_ACCESS_DATA" "failed to validate access data for the keystore provider" EmptyString ∅.
Definition ErrGRPCValidateKey :=
  GRPC "INVALID_KEY_ATTRIBUTE" "invalid key attribute for the keystore provider" EmptyString ∅.

(** userinfo.go: two answers that are package variables. *)
Definition ErrNoBusinessUserData : APIError :=
  apiError "NO_BUSINESS_DATA" "Missing business data" StatusInternalServerError.
Definition APIErrInternalRoleNotSupported : APIError :=
  apiError "INTERNAL_ROLE_NOT_SUPPORTED" "Operation not supported for this internal role"
    StatusInternalServerError.

(** * The tables *)

Abbreviation Exposed := (@ExposedErrors APIError Ctx).
Definition exposed (chain : list error) (e : APIError) : Exposed := mkExposed chain e None.
Definition exposedWith (chain : list error) (e : APIError) (getter : error → Ctx) : Exposed :=
  mkExposed chain e (Some getter).


Definition keyConfiguration : list Exposed := [
  exposed [KeyConfigs.ErrInvalidKeyAdminGroup] (apiError "INVALID_KEY_CONFIG_ADMIN_GROUP"
    "invalid keyconfig admin group" StatusBadRequest);
  exposed [KeyConfigs.ErrConnectedSystemToKeyConfig] (apiError "INVALID_KEY_CONFIG_DELETE"
    "failed to delete keyconfig with connected systems" StatusBadRequest);
  exposed [Users.ErrGettingKeyConfigByID] (apiError "KEY_CONFIGURATION_NOT_FOUND"
    "Key configuration not found or insufficient access permissions" StatusNotFound);
  exposed [Users.ErrKeyConfigurationNotAllowed] (apiError "KEY_CONFIGURATION_NOT_FOUND"
    "Key configuration not found or insufficient access permissions" StatusNotFound);
  exposed [manager_ErrQueryKeyConfigurationList] (apiError "QUERY_KEY_CONFIGURATION_LIST"
    "failed to query key configuration list" StatusInternalServerError);
  exposed [ErrTransformKeyConfigurationList] (apiError "TRANSFORM_KEY_CONFIGURATION_LIST"
    "failed to transform key configuration list" StatusInternalServerError);
  exposed [ErrTransformKeyConfigurationFromAPI] (apiError "TRANSFORM_KEY_CONFIGURATION_FROM_API"
    "failed to transform key configuration" StatusBadRequest);
  exposed [KeyConfigs.ErrDeleteKeyConfiguration] (apiError "DELETE_KEY_CONFIGURATION"
    "failed to delete key configuration" StatusInternalServerError);
  exposed [KeyConfigs.ErrDeleteKeyConfiguration; KeyConfigs.ErrConnectedKeysToKeyConfig]
    (apiError "DELETE_KEY_CONFIGURATION_WITH_KEYS"
    "cannot delete key configuration with existing keys" StatusBadRequest);
  exposed [KeyConfigs.ErrDeleteKeyConfiguration; KeyConfigs.ErrConnectSystemNoPrimaryKey]
    (apiError "DELETE_KEY_CONFIGURATION_WITH_SYSTEMS"
    "cannot delete key configuration with connected systems" StatusBadRequest);
  exposed [KeyConfigs.ErrNameCannotBeEmpty] (apiError "INVALID_PROPERTY"
    "name field cannot be empty" StatusBadRequest);
  exposed [KeyConfigs.ErrUpdateKeyConfiguration] (apiError "UPDATE_KEY_CONFIGURATION"
    "failed to update key configuration" StatusInternalServerError);
  exposed [KeyConfigs.ErrUpdateKeyConfiguration; Store.ErrUniqueConstraint] (apiError
    UniqueError "failed to update key configuration because of unique constraint" StatusConflict);
  exposed [KeyConfigs.ErrCreateKeyConfiguration] (apiError "CREATE_KEY_CONFIGURATION"
    "failed to create key configuration" StatusInternalServerError);
  exposed [KeyConfigs.ErrCreateKeyConfiguration; Store.ErrUniqueConstraint] (apiError
    UniqueError "failed to create key configuration because of unique constraint" StatusConflict);
  exposed [ErrGetClientCertificates] (apiError "GET_CLIENT_CERTIFICATES"
    "Failed to get client certificates" StatusInternalServerError)].

Definition keyVersion : list Exposed := [
  exposed [manager_ErrUpdateKeyVersionDisabled] (apiError "KEY_DISABLED"
    "key must be enabled before attempting to update version" StatusBadRequest);
  exposed [manager_ErrNoBodyForCustomerHeldDB] (apiError "NO_BODY_FOR_CUSTOMER_HELD"
    "body must be provided for customer held key rotation" StatusBadRequest);
  exposed [ErrQueryKeyVersionList] (apiError "QUERY_KEY_VERSION_LIST"
    "failed to query key version list" StatusInternalServerError);
  exposed [ErrTransformKeyVersionList] (apiError "TRANSFORM_KEY_VERSION_LIST"
    "failed to transform key version list" StatusInternalServerError);
  exposed [KeyVersions.ErrCreateKeyVersionDB] (apiError "CREATE_KEY_VERSION"
    "failed to create key version" StatusInternalServerError);
  exposed [ErrTransformKeyVersionToAPI] (apiError "TRANSFORM_KEY_VERSION"
    "failed to transform key version" StatusInternalServerError);
  exposed [ErrGettingKeyVersionByNumber] (apiError "GET_KEY_VERSION_NUMBER"
    "failed to get key version by number" StatusNotFound);
  exposed [manager_ErrUpdateKeyVersionDB] (apiError "UPDATE_KEY_VERSION"
    "failed to update key version" StatusInternalServerError)].

Definition workflow1 : list Exposed := [
  exposed [WorkflowManager.ErrWorkflowCreationNotAllowed] (apiError
    "FORBIDDEN_WORKFLOW_CREATION"
    "Workflow creation unauthorized (may not be keyadmin or in correct group)" StatusForbidden);
  exposed [WorkflowManager.ErrCheckWorkflow] (apiError "CHECK_WORKFLOW"
    "failed to check artifacts of workflow" StatusInternalServerError);
  exposed [WorkflowManager.ErrGetWorkflowDB] (apiError "GET_WORKFLOW" "failed to get workflow"
    StatusInternalServerError);
  exposed [WorkflowManager.ErrCheckWorkflowEligibility] (apiError "CHECK_WORKFLOW_ELIGIBILITY"
    "failed to check workflow eligibility from identity management" StatusInternalServerError);
  exposed [WorkflowManager.ErrWorkflowNotAllowed] (apiError "WORKFLOW_NOT_FOUND"
    "Workflow not found or insufficient access permissions" StatusNotFound);
  exposed [WorkflowManager.ErrGetWorkflowDB; Store.ErrNotFound] (apiError "GET_WORKFLOW"
    "Workflow not found or insufficient access permissions" StatusNotFound);
  exposed [Filters.ErrGetWorkflow] (apiError "GET_WORKFLOW" "failed to get workflow"
    StatusInternalServerError);
  exposed [ErrTransformWorkflowFromAPI] (apiError "TRANSFORM_WORKFLOW_FROM_API"
    "failed to transform workflow from API" StatusBadRequest);
  exposed [ErrTransformWorkflowToAPI] (apiError "TRANSFORM_WORKFLOW_TO_API"
    "failed to transform workflow to API" StatusInternalServerError);
  exposed [WorkflowManager.ErrCreateWorkflowDB] (apiError "CREATE_WORKFLOW"
    "failed to create workflow" StatusInternalServerError);
  exposed [ErrCreateWorkflow] (apiError "CREATE_WORKFLOW" "failed to create workflow"
    StatusInternalServerError);
  exposed [WorkflowManager.ErrOngoingWorkflowExist] (apiError "ONGOING_WORKFLOW"
    "ongoing workflow for artifact already exists" StatusBadRequest);
  exposed [WorkflowManager.ErrCheckOngoingWorkflow] (apiError "CHECK_ONGOING_WORKFLOW"
    "error checking ongoing workflow for artifact" StatusInternalServerError);
  exposed [Lifecycle.ErrInvalidWorkflowStateWf] (apiError "INVALID_WORKFLOW_STATE"
    "invalid workflow state" StatusBadRequest);
  exposed [Lifecycle.ErrWorkflowExecution] (apiError "WORKFLOW_EXECUTION"
    "error executing workflow action" StatusInternalServerError);
  exposed [Lifecycle.ErrUpdateWorkflowState] (apiError "UPDATE_WORKFLOW_STATE"
    "error updating workflow state" StatusInternalServerError);
  exposed [Lifecycle.ErrListApprovers] (apiError "LIST_APPROVERS" "error listing approvers"
    StatusInternalServerError);
  exposed [Lifecycle.ErrCheckApprovers] (apiError "CHECK_APPROVERS" "error checking approvers"
    StatusInternalServerError)].

Definition workflow2 : list Exposed := [
  exposed [WorkflowManager.ErrUpdateApproverDecision] (apiError "UPDATE_APPROVER_DECISION"
    "error updating approver decision" StatusInternalServerError);
  exposed [Lifecycle.ErrCheckApproverDecision] (apiError "CHECK_APPROVER_DECISION"
    "error checking approver decision" StatusInternalServerError);
  exposed [Lifecycle.ErrInvalidEventActor] (apiError "INVALID_EVENT_ACTOR" "invalid event actor"
    StatusBadRequest);
  exposed [Lifecycle.ErrInsufficientApproverCount] (apiError "INSUFFICIENT_APPROVER_COUNT"
    "insufficient approvers to transition to next state" StatusBadRequest);
  exposed [Lifecycle.ErrApproverNoLongerEligible] (apiError "APPROVER_NO_LONGER_ELIGIBLE"
    "approver has been removed from the admin group and cannot vote" StatusBadRequest);
  exposed [Lifecycle.ErrTransitionExecution] (apiError "TRANSITION_EXECUTION"
    "failed to execute transition" StatusBadRequest);
  exposed [Lifecycle.ErrAutomatedTransition] (apiError "AUTOMATED_TRANSITION"
    "automated transition cannot be triggered by user input" StatusInternalServerError);
  exposed [WorkflowManager.ErrInDBTransaction] (apiError "INDB_TRANSACTION"
    "error when executing sequence of operations in a transaction" StatusInternalServerError);
  exposed [WorkflowManager.ErrWorkflowCannotTransitionDB] (apiError "WORKFLOW_CANNOT_TRANSITION"
    "workflow cannot transition to specified state" StatusInternalServerError);
  exposed [ErrWorkflowCannotTransition] (apiError "WORKFLOW_CANNOT_TRANSITION"
    "workflow cannot transition to specified state" StatusInternalServerError);
  exposed [WorkflowManager.ErrValidateActor] (apiError "VALIDATE_ACTOR"
    "error validating actor for workflow transition" StatusInternalServerError);
  exposed [ErrAddApprovers] (apiError "ADD_APPROVERS" "error adding approvers to workflow"
    StatusInternalServerError);
  exposed [WorkflowManager.ErrAddApproversDB] (apiError "ADD_APPROVERS"
    "error adding approvers to workflow" StatusInternalServerError);
  exposed [WorkflowManager.ErrAddApproversDB; WorkflowManager.ErrApplyTransition] (apiError
    "ADD_APPROVERS" "error adding approvers to workflow" StatusBadRequest);
  exposed [WorkflowManager.ErrApplyTransition] (apiError "APPLY_TRANSITION"
    "error applying transition to workflow" StatusInternalServerError);
  exposed [WorkflowManager.ErrAddApproversDB; Store.ErrUniqueConstraint] (apiError
    "ADD_APPROVERS" "error adding approvers to workflow" StatusConflict);
  exposed [Lifecycle.ErrListApprovers; Store.ErrNotFound] (apiError "GET_APPROVERS"
    "failed to get approvers" StatusNotFound);
  exposedWith [Lifecycle.ErrWorkflowGroupNotSufficientMembers] (apiError
    WorkflowGroupNotSufficientMembers
    "The responsible user group does not have enough members to meet the minimum approval criteria"
    StatusBadRequest) getInsufficientApproversContext;
  exposed [Lifecycle.ErrUserRemovedFromApproverGroup] (apiError
    "WORKFLOW_USER_REMOVED_FROM_GROUP"
    "User is no longer a member of the workflow approver groups" StatusBadRequest)].

Definition workflow : list Exposed := workflow1 ++ workflow2.

Definition system : list Exposed := [
  exposed [repo_ErrKeyConfigName; Store.ErrNotFound] (apiError "GETTING_SYSTEM_KEYCONFIG_NAME"
    "failed to get system key config name" StatusInternalServerError);
  exposed [Events.ErrNoPreviousEvent] (apiError "NO_PREVIOUS_SYSTEM_STATE"
    "no previous state for selected system" StatusBadRequest);
  exposed [Users.ErrKeyConfigurationNotFound; Store.ErrRecordNotFound] (apiError
    "KEY_CONFIGURATION_NOT_FOUND" "fail to get system by KeyConfigurationID" StatusNotFound);
  exposed [Users.ErrKeyConfigurationNotFound; Store.ErrGetResource] (apiError
    "GETTING_SYSTEM_BY_KEY_CONFIGURATION" "fail to get system by KeyConfigurationID"
    StatusInternalServerError);
  exposed [Systems.ErrQuerySystemList] (apiError "QUERY_SYSTEM_LIST"
    "failed to query system list" StatusInternalServerError);
  exposed [ErrTransformSystemList] (apiError "TRANSFORM_SYSTEM_LIST"
    "failed to transform system list" StatusInternalServerError);
  exposed [ErrTransformSystem] (apiError "TRANSFORM_SYSTEM" "failed to transform system"
    StatusInternalServerError);
  exposed [ErrTransformSystemFromAPI] (apiError "TRANSFORM_SYSTEM_FROM_API"
    "failed to transform system from API" StatusBadRequest);
  exposed [ErrTransformSystemToAPI] (apiError "TRANSFORM_SYSTEM_TO_API"
    "failed to transform system to API" StatusInternalServerError);
  exposed [Systems.ErrGettingSystemByID; Store.ErrNotFound] (apiError "GET_SYSTEM_BY_ID"
    "failed to get system by ID" StatusNotFound);
  exposed [KeyConfigs.ErrConnectSystemNoPrimaryKey] (apiError "INVALID_TARGET_STATE"
    "system cannot be added to a key configuration without an enabled primary key"
    StatusBadRequest);
  exposed [Systems.ErrGettingSystemByID; Store.ErrGetResource] (apiError "GET_SYSTEM_BY_ID"
    "failed to get system by ID" StatusInternalServerError);
  exposed [Systems.ErrGettingSystem; Store.ErrNotFound] (apiError "GET_SYSTEM"
    "failed to get system" StatusNotFound);
  exposed [Systems.ErrGettingSystem; Store.ErrGetResource] (apiError "GET_SYSTEM"
    "failed to get system" StatusInternalServerError);
  exposed [Systems.ErrUpdateSystem] (apiError "UPDATE_SYSTEM" "failed to update system"
    StatusInternalServerError);
  exposed [Systems.ErrUpdateSystem; Users.ErrGettingKeyConfigByID] (apiError
    "GET_KEY_CONFIG_BY_ID" "failed to update system: failed to get key configuration by ID"
    StatusInternalServerError);
  exposed [Systems.ErrUpdateSystem; Systems.ErrSystemNotLinked] (apiError "SYSTEM_NOT_LINKED"
    "system is not linked to any key configuration" StatusBadRequest);
  exposed [manager_ErrKeyConfigurationIDNotFound] (apiError "KEY_CONFIGURATION_ID_NOT_FOUND"
    "Key configuration ID not found" StatusNotFound);
  exposed [ErrKeyConfigurationIDRequired] (apiError "KEY_CONFIGURATION_ID_REQUIRED"
    "Key configuration ID is required" StatusBadRequest);
  exposed [manager_ErrGettingSystemLinkByID; Store.ErrNotFound] (apiError
    "GETTING_SYSTEM_LINK_BY_ID" "failed to get system link by ID" StatusNotFound);
  exposed [manager_ErrGettingSystemLinkByID; Store.ErrGetResource] (apiError
    "GETTING_SYSTEM_LINK_BY_ID" "failed to get system link by ID" StatusInternalServerError);
  exposed [Users.ErrKeyConfigurationNotAllowed] (apiError "KEY_CONFIGURATION_NOT_FOUND"
    "Key configuration not found or insufficient access permissions" StatusNotFound)].

Definition label : list Exposed := [
  exposed [ErrGetKeyLabels; Store.ErrRecordNotFound] (apiError "KEY_NOT_FOUND"
    "Label by KeyID not found" StatusNotFound);
  exposed [ErrLabelNotFound] (apiError "LABEL_NOT_FOUND" "Label not found" StatusNotFound);
  exposed [manager_ErrQueryLabelList] (apiError "QUERY_LABEL_LIST" "Failed to query label list"
    StatusInternalServerError);
  exposed [ErrTransformLabelList] (apiError "TRANSFORM_LABEL_LIST"
    "Failed to transform label list" StatusInternalServerError);
  exposed [ErrEmptyInputLabel] (apiError "EMPTY_INPUT_LABEL" "Invalid input empty label name"
    StatusBadRequest);
  exposed [Labels.ErrEmptyInputLabelDB] (apiError "EMPTY_INPUT_LABEL"
    "Invalid input empty label name" StatusBadRequest);
  exposed [Labels.ErrFetchLabel] (apiError "FETCH_LABEL" "Error fetching label"
    StatusInternalServerError);
  exposed [Labels.ErrInsertLabel] (apiError "INSERT_LABEL" "Error inserting label"
    StatusInternalServerError);
  exposed [Labels.ErrUpdateLabelDB] (apiError "UPDATE_LABEL" "Error updating label"
    StatusInternalServerError);
  exposed [ErrUpdateLabel] (apiError "UPDATE_LABEL" "Error updating label"
    StatusInternalServerError);
  exposed [ErrUpdateLabel; Store.ErrRecordNotFound] (apiError "KEY_NOT_FOUND"
    "Update Label by KeyID not found" StatusNotFound);
  exposed [ErrDeleteLabel] (apiError "DELETE_LABEL" "Error deleting label"
    StatusInternalServerError);
  exposed [Labels.ErrDeleteLabelDB] (apiError "DELETE_LABEL" "Error deleting label"
    StatusInternalServerError);
  exposed [ErrTransformLabelFromAPI] (apiError "TRANSFORM_LABEL_FROM_API"
    "Failed to transform label from API" StatusBadRequest)].

Definition tags : list Exposed := [
  exposed [ErrCreatingTags] (apiError "CREATE_TAGS" "Failed to create tags"
    StatusInternalServerError);
  exposed [ErrGettingTagsByKeyConfigurationID] (apiError "GET_TAGS_BY_KEY_CONFIGURATION_ID"
    "Failed to get tags by KeyConfigurationID" StatusInternalServerError)].

Definition key1 : list Exposed := [
  exposed [Keys.ErrNonEditableCryptoRegionUpdate] (apiError "KEY_ACCESS_UPDATE_NOT_ALLOWED"
    "Crypto region is not editable" StatusBadRequest);
  exposedWith [Keys.ErrCryptoDetailsUpdate; ErrGRPCInvalidAccessData] (apiError
    "INVALID_ACCESS_DATA" "Invalid access data provided" StatusBadRequest) GetGRPCErrorContext;
  exposed [manager_ErrCryptoRegionNotExists] (apiError "KEY_UPDATE_NOT_ALLOWED"
    "Crypto region does not exist" StatusBadRequest);
  exposed [Keys.ErrManagementDetailsUpdate] (apiError "KEY_ACCESS_UPDATE_NOT_ALLOWED"
    "Management details cannot be updated" StatusBadRequest);
  exposed [Keys.ErrDeleteKey; KeyConfigs.ErrConnectedSystemToKeyConfig] (apiError
    "INVALID_KEY_DELETE" "Primary key cannot be deleted when systems are still connected"
    StatusBadRequest);
  exposed [Keys.ErrGetKeyDB] (apiError "KEY_ID" "Failed to get Key by KeyID"
    StatusInternalServerError);
  exposed [Keys.ErrGetKeyDB; Store.ErrRecordNotFound] (apiError "KEY_ID"
    "Key by KeyID not found" StatusNotFound);
  exposed [ErrTransformKeyToAPI] (apiError "TRANSFORM_KEY" "Failed to transform key"
    StatusInternalServerError);
  exposed [ErrCreateKey] (apiError "CREATE_KEY" "Failed to create key"
    StatusInternalServerError);
  exposed [ErrCreateKey; Keys.ErrCreateKeyDB; Store.ErrUniqueConstraint] (apiError UniqueError
    "Resource with such ID already exists" StatusConflict);
  exposed [ErrCreateKey; Keys.ErrInvalidKeyState] (apiError "REGISTER_KEY_INVALID_STATE"
    "Key must be in ENABLED state to be registered as HYOK" StatusBadRequest);
  exposed [ErrCreateKey; Keys.ErrKeyRegistration; KeyVersions.ErrProviderAuthenticationFailed]
    (apiError "REGISTER_KEY_AUTHENTICATION_FAILED"
    "Failed to authenticate with the keystore provider" StatusBadRequest);
  exposedWith [ErrCreateKey; Keys.ErrKeyRegistration; keymanagement_ErrGenericGetKeyError]
    (apiError "REGISTER_KEY_INVALID_PROVIDER_KEY" "Failed to get key from the keystore provider"
    StatusBadRequest) GetGRPCErrorContext;
  exposed [ErrCreateKey; Keys.ErrKeyRegistration; KeyVersions.ErrHYOKKeyNotFound] (apiError
    "REGISTER_KEY_PROVIDER_KEY_NOT_FOUND" "Key not found in the keystore provider"
    StatusBadRequest)].

Definition key2 : list Exposed := [
  exposed [ErrCreateKey; Store.ErrRecordNotFound] (apiError "KEY_CONFIGURATION_NOT_FOUND"
    "KeyConfiguration not found" StatusNotFound);
  exposed [ErrUpdateKey] (apiError "UPDATE_KEY" "Failed to update key" StatusNotFound);
  exposed [ErrDeleteKey] (apiError "DELETE_KEY" "Failed to delete key"
    StatusInternalServerError);
  exposed [ErrQueryKeyList] (apiError "QUERY_KEY_LIST" "Failed to query key list"
    StatusInternalServerError);
  exposed [ErrQueryKeyList; Store.ErrRecordNotFound] (apiError "KEY_CONFIGURATION_NOT_FOUND"
    "KeyConfiguration not found" StatusNotFound);
  exposed [ErrTransformKeyFromAPI; ErrTypeFieldMissingProperty] (apiError "MISSING_PROPERTY"
    "Field is missing: type" StatusBadRequest);
  exposed [ErrTransformKeyFromAPI; keyshared_ErrAlgorithmIsRequired] (apiError
    "MISSING_PROPERTY" "Field is missing: algorithm" StatusBadRequest);
  exposed [ErrTransformKeyFromAPI; keyshared_ErrRegionIsRequired] (apiError "MISSING_PROPERTY"
    "Field is missing: region" StatusBadRequest);
  exposed [ErrTransformKeyFromAPI; transform_ErrAPIUnexpectedProperty] (apiError
    "UNEXPECTED_PROPERTY" "Property is unexpected" StatusBadRequest);
  exposed [ErrTransformKeyFromAPI; ErrNameFieldMissingProperty] (apiError "MISSING_PROPERTY"
    "Field is missing: name" StatusBadRequest);
  exposed [ErrTransformKeyFromAPI; ErrKeyConfigurationFieldMissingProperty] (apiError
    "MISSING_PROPERTY" "Field is missing: keyConfigurationID" StatusBadRequest);
  exposed [ErrTransformKeyFromAPI; keyshared_ErrInvalidKeyProvider] (apiError "NOT_SUPPORTED"
    "Provider is not supported" StatusBadRequest);
  exposed [ErrTransformKeyFromAPI] (apiError "TRANSFORM_KEY_FROM_API"
    "Failed to transform key from API" StatusBadRequest);
  exposedWith [ErrTransformKeyFromAPI; ErrGRPCValidateKey] (apiError "INVALID_KEY_ATTRIBUTE"
    "Invalid key attribute provided" StatusBadRequest) GetGRPCErrorContext;
  exposedWith [ErrTransformKeyFromAPI; ErrGRPCInvalidAccessData] (apiError "INVALID_ACCESS_DATA"
    "Invalid access data provided" StatusBadRequest) GetGRPCErrorContext;
  exposed [KeyConfigs.ErrKeyIsNotEnabled] (apiError "KEY_IS_NOT_ENABLED" "key is not enabled"
    StatusConflict)].

Definition key3 : list Exposed := [
  exposed [KeyConfigs.ErrKeyIsDeleted] (apiError "KEY_IS_DELETED" "key is deleted"
    StatusNotFound);
  exposed [Keys.ErrKeyInPendingState] (apiError "KEY_NOT_READY"
    "Operation not allowed: key is still being provisioned" StatusConflict);
  exposed [ErrSetPrimaryKey] (apiError "SET_PRIMARY_KEY" "Failed to set primary key"
    StatusInternalServerError);
  exposed [Keys.ErrUpdatePrimary] (apiError "SET_PRIMARY_KEY" "Failed to set primary key"
    StatusInternalServerError);
  exposed [ErrTransformKeyFromAPI; hyokkey_ErrAccessDetailsIsRequired] (apiError
    "MISSING_PROPERTY" "Field is missing: accessDetails" StatusBadRequest);
  exposed [ErrTransformKeyFromAPI; hyokkey_ErrNativeIDIsRequired] (apiError "MISSING_PROPERTY"
    "Field is missing: nativeId" StatusBadRequest);
  exposed [ErrTransformKeyFromAPI; keyshared_ErrProviderIsRequired] (apiError "MISSING_PROPERTY"
    "Field is missing: provider" StatusBadRequest);
  exposed [Keys.ErrInvalidKeyTypeForImportParams] (apiError "INVALID_ACTION_FOR_KEY_TYPE"
    "The action cannot be performed for the key type. Only BYOK keys can get import parameters."
    StatusBadRequest);
  exposed [Keys.ErrInvalidKeyTypeForImportKeyMaterial] (apiError "INVALID_ACTION_FOR_KEY_TYPE"
    "The action cannot be performed for the key type. Only BYOK keys can import key material."
    StatusBadRequest);
  exposed [Keys.ErrInvalidKeyStateForImportParams] (apiError "INVALID_KEY_STATE"
    "Key must be in PENDING_IMPORT state to get import parameters." StatusBadRequest);
  exposed [Keys.ErrInvalidKeyStateForImportKeyMaterial] (apiError "INVALID_KEY_STATE"
    "Key must be in PENDING_IMPORT state to import key material." StatusBadRequest);
  exposed [Keys.ErrEmptyKeyMaterial] (apiError "IMPORT_KEY_MATERIAL"
    "Key material cannot be empty." StatusBadRequest);
  exposed [Keys.ErrInvalidBase64KeyMaterial] (apiError "IMPORT_KEY_MATERIAL"
    "Key material must be base64 encoded." StatusBadRequest);
  exposed [Keys.ErrMissingOrExpiredImportParams] (apiError "IMPORT_KEY_MATERIAL"
    "Import parameters missing or expired. Please request new import parameters."
    StatusBadRequest);
  exposed [ErrDefaultKeystoreNotFound] (apiError "DEFAULT_KEYSTORE_NOT_FOUND"
    "Default keystore not found" StatusInternalServerError);
  exposed [Keys.ErrFailedToInitProvider; Keys.ErrPoolIsDrained;
    Keystores.ErrGetKeystoreFromPool] (apiError "KEYSTORE_POOL_DRAINED"
    "All keystores in the pool are unavailable" StatusServiceUnavailable);
  exposed [ErrBusinessUserDataInvalid] (apiError "INVALID_CLIENT_DATA"
    "The client data is invalid" StatusBadRequest)].

Definition key : list Exposed := key1 ++ key2 ++ key3.

Definition tenantconfig : list Exposed := [
  exposed [ErrGetDefaultKeystore] (apiError "GET_DEFAULT_KEYSTORE"
    "Failed to get default keystore" StatusInternalServerError);
  exposed [ErrGetWorkflowConfig] (apiError "GET_WORKFLOW_CONFIG"
    "Failed to get workflow configuration" StatusInternalServerError);
  exposedWith [ErrSetWorkflowConfig; TenantConfig.ErrWorkflowEnableDisableNotAllowed] (apiError
    "INVALID_SETTING" "workflow enable/disable is only allowed for TEST tenants" StatusBadRequest)
    (λ _, settingContext "enabled");
  exposedWith [ErrSetWorkflowConfig; TenantConfig.ErrRetentionLessThanMinimum] (apiError
    "INVALID_SETTING" "retentionPeriodDays must be at least 30" StatusBadRequest) (λ _,
    settingContext "retentionPeriodDays");
  exposedWith [ErrSetWorkflowConfig; TenantConfig.ErrDefaultExpiryExceedsMax] (apiError
    "INVALID_SETTING" "defaultExpiryPeriodDays must be less than or equal to maxExpiryPeriodDays"
    StatusBadRequest) (λ _, settingContext "defaultExpiryPeriodDays");
  exposedWith [ErrSetWorkflowConfig; TenantConfig.ErrMinimumApprovalsTooLow] (apiError
    "INVALID_SETTING" "minimumApprovals must be at least 2" StatusBadRequest) (λ _, settingContext
    "minimumApprovals");
  exposed [ErrSetWorkflowConfig] (apiError "SET_WORKFLOW_CONFIG"
    "Failed to update workflow configuration" StatusInternalServerError)].

Definition groups : list Exposed := [
  exposed [Users.ErrMultipleRolesInGroups] (apiError MultipleRolesInGroupsCode
    "users with multiple roles are not allowed" StatusForbidden);
  exposed [Users.ErrZeroRolesInGroups] (apiError "ZERO_ROLES_NOT_ALLOWED"
    "users without any roles are not allowed" StatusForbidden);
  exposed [Groups.ErrCreateGroups; Model.ErrInvalidName] (apiError "INVALID_GROUP_NAME"
    "Invalid name for selected group" StatusBadRequest);
  exposed [Groups.ErrCreateGroups; Model.ErrInvalidIAMIdentifier] (apiError
    "INVALID_GROUP_IAM_IDENTIFIER" "Invalid IamIdentifier for selected group" StatusBadRequest);
  exposed [Groups.ErrGroupRole] (apiError "UNSUPPORTED_GROUP_ROLE"
    "Unsupported role for selected group" StatusBadRequest);
  exposed [Groups.ErrCreateGroups; Store.ErrCreateResource] (apiError "CREATE_GROUP"
    "Failed to create a group" StatusInternalServerError);
  exposed [Groups.ErrCreateGroups] (apiError "CREATE_GROUP" "Failed to create a group"
    StatusBadRequest);
  exposed [Groups.ErrInvalidGroupDelete] (apiError "DELETE_INVALID_GROUP"
    "Group cannot be deleted" StatusBadRequest);
  exposed [Groups.ErrInvalidGroupUpdate] (apiError "INVALID_GROUP_UPDATE"
    "Group cannot be updated" StatusBadRequest);
  exposed [KeyConfigs.ErrNameCannotBeEmpty] (apiError "RENAME_INVALID_NAME"
    "Group name cannot be empty" StatusBadRequest);
  exposed [Groups.ErrDeleteGroups] (apiError "DELETE_GROUP" "Failed to delete the group"
    StatusInternalServerError);
  exposed [Users.ErrGetGroups] (apiError "GET_GROUP" "Failed to get the group"
    StatusInternalServerError);
  exposed [Users.ErrGetGroups; Store.ErrNotFound] (apiError "GET_GROUP_NOT_FOUND"
    "Group does not exist" StatusNotFound)].

Definition tenants : list Exposed := [
  exposed [Users.ErrTenantNotAllowed] (apiError "NO_TENANT_ACCESS"
    "User has no permission to access tenant" StatusForbidden);
  exposed [manager_ErrListTenants] (apiError "NO_TENANT_ACCESS"
    "User has no permission to access tenant" StatusForbidden);
  exposed [ErrTransformTenants] (apiError "TRANSFORM_TENANTS_TO_API"
    "failed to transform tenants to API" StatusInternalServerError)].

Definition userinfo : list Exposed := [
  exposed [GoContext.ErrExtractBusinessUserData] ErrNoBusinessUserData;
  exposed [Users.ErrInternalRoleNotSupported] APIErrInternalRoleNotSupported].

Definition defaultMapper : list Exposed := [
  exposed [sql_ErrNoRows] (apiError ResourceNotFound "Requested resource not found"
    StatusNotFound);
  exposed [Store.ErrUniqueConstraint] (apiError UniqueError
    "Resource with such ID already exists" StatusConflict);
  exposed [Store.ErrNotFound] (apiError ResourceNotFound "The requested resource was not found"
    StatusNotFound);
  exposed [repo_ErrInvalidUUID] (apiError BadRequest "Invalid uuid provided" StatusBadRequest);
  exposed [Filters.ErrBadOdataFilter] (apiError BadRequest "Bad Odata filter provided"
    StatusBadRequest);
  exposed [ErrUnknownProperty] (apiError "UNKNOWN_PROPERTY" "Unknown property" StatusBadRequest);
  exposed [ErrActionRequireWorkflow] (apiError "ACTION_REQUIRE_WORKFLOW"
    "Action requires a workflow" StatusBadRequest);
  exposed [AuthzLoader.ErrTenantNotExist] ForbiddenErrorMessage;
  exposed [Authz.ErrAuthorizationDenied] ForbiddenErrorMessage;
  exposed [AuthzLoader.ErrUnauthorized] ForbiddenErrorMessage;
  exposed [Store.ErrGetResource] (apiError GetResource "The requested resource was not found"
    StatusInternalServerError)].

Definition highPrio : list Exposed := [
  exposed [Store.ErrTenantNotFound] (apiError TenantNotFound "Tenant does not exist"
    StatusNotFound)].

(** mapping.go *)
Definition mapped : list Exposed :=
  keyConfiguration ++ keyVersion ++ workflow ++ system ++ label ++ tags ++ key ++
  tenantconfig ++ groups ++ tenants ++ userinfo ++ defaultMapper.


Definition APIErrorMapper : @ErrorMapper APIError Ctx := NewMapper mapped highPrio.

(** [apierrors.APIErrorMapper.Transform(ctx, err)] *)
Definition answer (err : error) : APIError :=
  Transform SetContext InternalServerErrorMessage APIErrorMapper err.

(** * What the answers can be *)

(** The statuses that the tables use. *)
Definition statuses : list Z := [400; 403; 404; 409; 500; 503].

Definition visible (e : APIError) : string * string * Z := (Code e, Message e, Status e).

Definition answers : list (string * string * Z) :=
  visible InternalServerErrorMessage ::
  (visible ∘ ExposedError <$> highPrio ++ mapped).

Lemma expose_visible (x : Exposed) err : visible (expose SetContext x err) = visible (ExposedError x).
Proof. unfold expose. by destruct (ContextGetter x). Qed.

Lemma containsAsPriority_elem err (ps : list Exposed) e :
  containsAsPriority err ps = Some e → ∃ x, x ∈ ps ∧ ExposedError x = e.
Proof.
  induction ps as [|p ps IH]; [done|]. simpl. case_match.
  - intros [= <-]. exists p. set_solver.
  - intros (x & Hx & He)%IH. exists x. set_solver.
Qed.

Lemma answer_listed err : visible (answer err) ∈ answers.
Proof.
  unfold answers. rewrite fmap_app. unfold answer, Transform.
  destruct (containsAsPriority err _) as [e|] eqn:Hp.
  - apply containsAsPriority_elem in Hp as (x & Hx & <-).
    apply list_elem_of_further, elem_of_app. left.
    by apply (list_elem_of_fmap_2 (visible ∘ ExposedError)).
  - destruct (getBestMatches APIErrorMapper err) as [|x r] eqn:Hb; [apply list_elem_of_here|].
    apply getBestMatches_elem in Hb. change (x ∈ mapped) in Hb.
    apply list_elem_of_further, elem_of_app. right.
    fold (expose SetContext x err). rewrite expose_visible.
    by apply (list_elem_of_fmap_2 (visible ∘ ExposedError)).
Qed.

Lemma answers_statuses :
  forallb (λ '(code, message, status), negb (code ==s "") && negb (message ==s "") &&
             existsb (Z.eqb status) statuses) answers = true.
Proof. vm_compute. reflexivity. Qed.

Lemma answer_status err : Status (answer err) ∈ statuses.
Proof.
  pose proof (forallb_elem _ _ answers_statuses _ (answer_listed err)) as H.
  cbv beta iota delta [visible] in H.
  apply andb_true_iff in H as [_ H]. apply existsb_exists in H as (s & Hs & ->%Z.eqb_eq).
  by apply list_elem_of_In.
Qed.

Lemma statuses_errors s : s ∈ statuses → 400 ≤ s ≤ 599.
Proof.
  unfold statuses. rewrite !elem_of_cons, elem_of_nil. intros; destruct_or!; subst; lia.
Qed.

(** * Which entry answers *)

(** No high-priority entry applies. *)
Definition ordinary (err : error) : Prop :=
  Forall (λ y : Exposed, countMatchingErrors err (InternalErrorChain y) = 0%nat) highPrio.

Definition within (err : error) (x : Exposed) : Prop :=
  Forall (λ c, errors_Is err c = true) (InternalErrorChain x).

(** The entry at position [i] answers an error: all errors of its chain occur, no
    earlier entry that occurs is as long, and no later one is longer. *)
Definition answers_with (err : error) (i : nat) (x : Exposed) : Prop :=
  mapped !! i = Some x ∧ answer err = expose SetContext x err ∧ within err x ∧
  (∀ j y, (j < i)%nat → mapped !! j = Some y → within err y →
     (length (InternalErrorChain y) < length (InternalErrorChain x))%nat).

Lemma answer_cases err :
  (∃ x, x ∈ highPrio ∧ answer err = ExposedError x) ∨
  answer err = InternalServerErrorMessage ∨ ∃ i x, answers_with err i x.
Proof.
  unfold answer, Transform.
  destruct (containsAsPriority err (PriorityErrors APIErrorMapper)) as [e|] eqn:Hp.
  { apply containsAsPriority_elem in Hp as (x & Hx & <-). by left; exists x. }
  right. assert (ordinary err) as Ho.
  { revert Hp. unfold ordinary. change (PriorityErrors APIErrorMapper) with highPrio.
    generalize highPrio as ps. induction ps as [|p ps IH]; [by constructor|]. simpl.
    case_match eqn:Hc; [done|]. apply Nat.ltb_ge in Hc. constructor; [lia|auto]. }
  pose proof (Transform_best_match SetContext InternalServerErrorMessage APIErrorMapper err Ho)
    as H. unfold Transform in H. rewrite Hp in H.
  destruct H as [[-> _]|(pre & x & post & Hm & Ht & Hx & _ & Hpre & _)]; [by left|right].
  change (Errors APIErrorMapper) with mapped in Hm.
  exists (length pre), x. unfold answers_with. rewrite Hm. split_and!; [by rewrite list_lookup_middle| |done|].
  - unfold answer, Transform. by rewrite Hp.
  - intros j y Hj Hy Hw. apply (Hpre y); [|done]. rewrite lookup_app_l in Hy by done.
    by apply list_elem_of_lookup_2 in Hy.
Qed.

(** The chain of the entry at a position. *)
Definition chain_at (i : nat) : option (list error) := InternalErrorChain <$> mapped !! i.

Lemma answers_with_chain err i x cs :
  answers_with err i x → chain_at i = Some cs →
  InternalErrorChain x = cs ∧ Forall (λ c, errors_Is err c = true) cs.
Proof.
  intros (Hx & _ & Hw & _). unfold chain_at. rewrite Hx. intros [= <-]. by split.
Qed.

(** An entry never answers when an earlier one of the same length occurs whenever it
    does. *)
Lemma shadowed err i j x cs cs' :
  answers_with err i x → (j < i)%nat → chain_at i = Some cs → chain_at j = Some cs' →
  length cs' = length cs →
  (Forall (λ c, errors_Is err c = true) cs → Forall (λ c, errors_Is err c = true) cs') → False.
Proof.
  intros Hs Hj Hi Hy Hl Himp. destruct (answers_with_chain _ _ _ _ Hs Hi) as [Hx Hw].
  destruct Hs as (_ & _ & _ & Hpre). unfold chain_at in Hy.
  destruct (mapped !! j) as [y|] eqn:E; [|done]. injection Hy as Hy.
  specialize (Hpre j y Hj E). unfold within in Hpre. rewrite Hy, Hx in Hpre.
  specialize (Hpre (Himp Hw)). lia.
Qed.

(** The positions of the ordinary entries with a code. *)
Definition code_at (code : string) : list nat :=
  omap (λ '(i, x), if Code (ExposedError x) ==s code then Some i else None)
    (imap pair mapped : list (nat * Exposed)).

Lemma elem_code_at code i x :
  mapped !! i = Some x → Code (ExposedError x) = code → i ∈ code_at code.
Proof.
  intros Hx Hc. unfold code_at. apply list_elem_of_omap. exists (i, x). split.
  - apply elem_of_lookup_imap_2 with (f := pair) in Hx. exact Hx.
  - simpl. by rewrite Hc, String.eqb_refl.
Qed.

Lemma Code_expose (x : Exposed) err : Code (expose SetContext x err) = Code (ExposedError x).
Proof. unfold expose. by destruct (ContextGetter x). Qed.

Lemma answer_code err code :
  Code (answer err) = code →
  forallb (λ x : Exposed, negb (Code (ExposedError x) ==s code)) highPrio = true →
  code ≠ InternalServerErr → ∃ i x, i ∈ code_at code ∧ answers_with err i x.
Proof.
  intros Hc Hhigh Hint. destruct (answer_cases err) as [(x & Hx & Ha)|[Ha|(i & x & Hs)]].
  - apply (forallb_elem _ _ Hhigh) in Hx. rewrite Ha in Hc.
    by rewrite Hc, String.eqb_refl in Hx.
  - by rewrite Ha in Hc.
  - exists i, x. split; [|done]. destruct Hs as (Hx & Ha & _ & _).
    apply (elem_code_at _ _ x); [done|]. by rewrite <-Hc, Ha, Code_expose.
Qed.

(** The answer of an empty name in a rename is lost behind the one of a key
    configuration's name. *)
Definition RenameInvalidName : string := "RENAME_INVALID_NAME".

Lemma rename_never_answered err : Code (answer err) ≠ RenameInvalidName.
Proof.
  intros Hc. apply answer_code in Hc as (i & x & Hi & Hs); [|by vm_compute|done].
  assert (code_at RenameInvalidName = [162%nat]) as Hat by (vm_compute; reflexivity).
  rewrite Hat in Hi. apply list_elem_of_singleton in Hi as ->.
  by eapply (shadowed err 162 10); [done|lia|vm_compute; reflexivity..|done|].
Qed.

(** An error with exactly the errors of a chain. *)
Fixpoint joined (chain : list error) : error :=
  match chain with
  | [] => External ""
  | [e] => e
  | e :: rest => Errorf_ww e (joined rest)
  end.

Definition visible_eqb (a b : string * string * Z) : bool :=
  (a.1.1 ==s b.1.1) && (a.1.2 ==s b.1.2) && (a.2 =? b.2).

Lemma visible_eqb_eq a b : visible_eqb a b = true ↔ a = b.
Proof.
  destruct a as [[]], b as [[]]. unfold visible_eqb. simpl.
  rewrite !andb_true_iff, !String.eqb_eq, Z.eqb_eq. naive_solver.
Qed.

(** Every entry answers the error that consists of its chain, or another entry with the
    same answer occurs; the exception is the lost one. *)
Lemma entries_answer :
  forallb (λ a, (a.1.1 ==s RenameInvalidName) ||
     existsb (λ x : Exposed, if visible_eqb (visible (ExposedError x)) a
                then visible_eqb (visible (answer (joined (InternalErrorChain x)))) a else false)
       (mkExposed [] InternalServerErrorMessage None :: highPrio ++ mapped)) answers = true.
Proof. vm_compute. reflexivity. Qed.


(** A failed validation of the access data of a new key is never reported as such.
    Both errors of the key transformer are [GRPCError]s, which [errors.Is] cannot tell apart,
    so the entry for key attributes answers first; INVALID_ACCESS_DATA is left to updates. *)
Theorem invalid_access_data_lost err :
  Code (answer err) = "INVALID_ACCESS_DATA" → errors_Is err Keys.ErrCryptoDetailsUpdate = true.
Proof.
  intros Hc. apply answer_code in Hc as (i & x & Hi & Hs); [|by vm_compute|done].
  assert (code_at "INVALID_ACCESS_DATA" = [100%nat; 127%nat]) as Hat by (vm_compute; reflexivity).
  rewrite Hat in Hi. apply elem_of_cons in Hi as [->|Hi].
  - assert (chain_at 100 = Some [Keys.ErrCryptoDetailsUpdate; ErrGRPCInvalidAccessData]) as Hch
      by (vm_compute; reflexivity).
    destruct (answers_with_chain _ _ _ _ Hs Hch) as [_ Hw].
    by apply (proj1 (Forall_cons _ _ _)) in Hw as [Hw _].
  - apply list_elem_of_singleton in Hi as ->. exfalso.
    apply (shadowed err 127 126 x [ErrTransformKeyFromAPI; ErrGRPCInvalidAccessData]
      [ErrTransformKeyFromAPI; ErrGRPCValidateKey]);
      [done|lia|vm_compute; reflexivity|vm_compute; reflexivity|done|].
    rewrite !Forall_cons. by intros (? & H & ?).
Qed.
