(* ===== verification/Requests.v ===== *)
(** The way of a request through the API server: the error handlers of
    internal/handlers and internal/api/write, the middlewares of internal/middleware
    (the authorization middleware is in [AuthzLoader]), their order in
    internal/daemon/server.go and the registration of routes in internal/daemon/mux.go.

    A handler turns a request into a response; its state is the API's authorization
    loader with the database behind it.  A panic is the error [Panic].  What the server
    takes from libraries is a parameter: the validator of the OpenAPI document, the
    decoding and the verification of client data, the parsing of a PEM key.  The two
    library middlewares around the chain, which set response headers and record spans, are
    left out. *)
From S2P Require Import Prelude Errs GoContext AuthzPolicies Authz Model Store AuthzLoader.
From S2P Require Import AuthzLoaderFacts Users Filters ApiErrors.
#[local] Open Scope Z_scope.

(** * Requests and responses *)

Record Request := mkRequest {
  r_Pattern : string;
  r_PathTenant : string;                 (* r.PathValue("tenant") *)
  r_Header : gmap string string;
  r_BodyLimit : option Z;
  r_Context : GoContext.Ctx }.

(** [r.Header.Get(name)]: absent headers read as the empty string. *)
Definition Header_Get (r : Request) (name : string) : string := default "" (r_Header r !! name).

Definition WithContext (r : Request) (ctx : GoContext.Ctx) : Request :=
  mkRequest (r_Pattern r) (r_PathTenant r) (r_Header r) (r_BodyLimit r) ctx.

(** [cmkapi.DetailedError] *)
Record DetailedError := mkDetailedError {
  de_Code : string;
  de_Context : option ApiErrors.Ctx;
  de_Message : string;
  de_RequestID : string;
  de_Status : Z }.

Inductive HTTPResponse :=
| ErrorMessage (status : Z) (e : DetailedError)
| Answer (status : Z) (body : string).

Definition resp_status (resp : HTTPResponse) : Z :=
  match resp with ErrorMessage status _ | Answer status _ => status end.

Definition HTTPHandler := Request → Comp AuthzLoader HTTPResponse.
Definition MiddlewareFunc := HTTPHandler → HTTPHandler.

(** * internal/api/write/write.go, internal/handlers/handlers.go *)

Definition ErrorResponse (ctx : GoContext.Ctx) (apiError : APIError) : HTTPResponse :=
  let requestID := match GetRequestID ctx with inr id => id | inl _ => "" end in
  ErrorMessage (Status apiError)
    (mkDetailedError (Code apiError) (Context apiError) (Message apiError) requestID
       (Status apiError)).

Definition OAPIValidatorHandler (ctx : GoContext.Ctx) (err : string) (StatusCode : Z) : HTTPResponse :=
  ErrorResponse ctx (OAPIValidatorErrorMessage err StatusCode).

(** The errors of the generated parameter binding. *)
Inductive ParamError :=
| InvalidParamFormatError (msg : string)
| RequiredHeaderErr_ (msg : string)
| TooManyValuesForParamError (msg : string)
| RequiredParamErr_ (msg : string)
| OtherParamError.

Section Handlers.
Context {NS : NewString}.

Definition ParamsErrorHandler (r : Request) (err : ParamError) : HTTPResponse :=
  let ctx := InjectRequestID uuid_NewString (r_Context r) uuid_NewString in
  ErrorResponse ctx
    match err with
    | InvalidParamFormatError msg => TooManyParameters msg
    | RequiredHeaderErr_ msg => RequiredHeaderError msg
    | TooManyValuesForParamError msg => TooManyParameters msg
    | RequiredParamErr_ msg => RequiredParamError msg
    | OtherParamError => InternalServerErrorMessage
    end.

Definition RequestErrorHandlerFunc (r : Request) : HTTPResponse :=
  ErrorResponse (r_Context r) JSONDecodeErrorMessage.

Definition ResponseErrorHandlerFunc (r : Request) (err : error) : HTTPResponse :=
  ErrorResponse (r_Context r) (answer err).
End Handlers.

(** * internal/middleware *)

(** body_limit.go *)
Definition maxRequestBodyBytes : Z := Z.shiftl 1 20.

Definition RequestBodyLimitMiddleware : MiddlewareFunc := λ next r,
  next (mkRequest (r_Pattern r) (r_PathTenant r) (r_Header r) (Some maxRequestBodyBytes) (r_Context r)).

(** panic.go *)
Definition recovered (ctx : GoContext.Ctx) (res : AuthzLoader * (error + HTTPResponse)) :
    AuthzLoader * (error + HTTPResponse) :=
  match res with
  | (am, inl (Panic _)) => (am, inr (ErrorResponse ctx InternalServerErrorMessage))
  | _ => res
  end.

Definition PanicRecoveryMiddleware : MiddlewareFunc := λ next r am,
  recovered (r_Context r) (next r am).

(** logging.go: the response passes through. *)
Definition LoggingMiddleware : MiddlewareFunc := λ next r, next r.

(** multitenancy.go *)
Definition InjectMultiTenancy : MiddlewareFunc := λ next r,
  let tenant := r_PathTenant r in
  if tenant ==s "" then mret (ResponseErrorHandlerFunc r ErrTenantInvalid)
  else next (WithContext r (CreateTenantContext (r_Context r) tenant)).

(** context.go *)
Definition InjectRequestIDMiddleware {NS : NewString} : MiddlewareFunc := λ next r,
  next (WithContext r (InjectRequestID uuid_NewString (r_Context r) uuid_NewString)).

(** oapi_validator.go: [None] from the validator accepts the request. *)
Class OAPIValidator := oapi_validate : Request → option (string * Z).

Definition OAPIMiddleware {V : OAPIValidator} : MiddlewareFunc := λ next r,
  match oapi_validate r with
  | Some (err, status) => mret (OAPIValidatorHandler (r_Context r) err status)
  | None => next r
  end.

(** authz.go, around the next handler. *)
Definition AuthzMiddleware_ {maps : GoMaps} : MiddlewareFunc := λ next r,
  decision ← AuthzMiddleware (r_Context r) (r_Pattern r);
  match decision with
  | Served => next r
  | Forbidden =>
      mret (ErrorResponse (r_Context r) (OAPIValidatorErrorMessage "Forbidden" StatusForbidden))
  end.

(** ** business_user_data.go *)

Definition ErrNoBusinessUserDataHeader :=
  New "middleware.ErrNoBusinessUserDataHeader" "no client data header found".
Definition ErrMissingSignatureHeader :=
  New "middleware.ErrMissingSignatureHeader" "missing client data signature header".
Definition ErrPublicKeyNotFound :=
  New "middleware.ErrPublicKeyNotFound" "public key not found or invalid".
Definition ErrVerifySignatureFailed :=
  New "middleware.ErrVerifySignatureFailed" "failed to verify client data signature".
Definition ErrDecodeBusinessUserData :=
  New "middleware.ErrDecodeBusinessUserData" "failed to decode business data from header".

(** The fields of [auth.ClientData] that only the middleware reads, next to the data. *)
Record SignedClientData := mkSigned {
  sd_ClientData : ClientData;
  sd_KeyID : string;
  sd_SignatureAlgorithm : string }.

(** github.com/openkcm/common-sdk/pkg/auth and github.com/golang-jwt/jwt *)
Class ClientDataAuth := {
  HeaderClientData : string;
  HeaderClientDataSignature : string;
  SignatureAlgorithmRS256 : string;
  PublicKey : Type;
  auth_DecodeFrom : string → error + option SignedClientData;
  auth_Verify : SignedClientData → PublicKey → string → option error;
  jwt_ParseRSAPublicKeyFromPEM : string → error + PublicKey }.

(** The interface of the user manager that the middleware asks for roles. *)
Class RoleGetter :=
  roleGetter_GetRoleFromIAM : GoContext.Ctx → list string → Comp AuthzLoader string.

Section BusinessUserData.
Context {CA : ClientDataAuth} {RG : RoleGetter}.
Variable signingKeyStorage : gmap string string.
Variable authContextFields : list string.

Definition canBypassBusinessUserData (r : Request) : bool :=
  extractPattern (r_Pattern r) BasePath ==s "GET /swagger".

Definition extractBusinessUserData (r : Request) : error + SignedClientData :=
  let businessUserDataHeader := Header_Get r HeaderClientData in
  if businessUserDataHeader ==s "" then inl ErrNoBusinessUserDataHeader
  else
    match auth_DecodeFrom businessUserDataHeader with
    | inl err =>
        inl (Errorf_ww (Errorf_ws ErrDecodeBusinessUserData
               ("'" +:+ businessUserDataHeader +:+ "'")) err)
    | inr None =>
        inl (Errorf_ws ErrMissingSignatureHeader ("'" +:+ businessUserDataHeader +:+ "'"))
    | inr (Some businessUserData) => inr businessUserData
    end.

Definition verifyBusinessUserDataSignature (r : Request) (businessUserData : SignedClientData)
    (publicKey : PublicKey) : error + unit :=
  let signature := Header_Get r HeaderClientDataSignature in
  if signature ==s "" then inl ErrMissingSignatureHeader
  else
    match auth_Verify businessUserData publicKey signature with
    | Some err => inl (Errorf_ww ErrVerifySignatureFailed err)
    | None => inr tt
    end.

Definition validateGroupRoles (r : Request) (businessUserData : SignedClientData) :
    Comp AuthzLoader unit :=
  let groups := ClientGroups (sd_ClientData businessUserData) in
  if (length groups =? 0)%nat then fail ErrZeroRolesInGroups
  else if extractPattern (r_Pattern r) BasePath ∈? AllowListByAPI then mret tt
  else if (length groups =? 1)%nat then mret tt
  else
    res ← try_ (roleGetter_GetRoleFromIAM (r_Context r) groups);
    match res with
    | inl err =>
        if errors_Is err ErrMultipleRolesInGroups then fail err
        else fail (Typed ("failed to get roles for groups: " +:+ Error err) err)
    | inr _ => mret tt
    end.

Definition prepareContext (r : Request) : Comp AuthzLoader GoContext.Ctx :=
  businessUserData ← lift (extractBusinessUserData r);
  match signingKeyStorage !! sd_KeyID businessUserData with
  | None => fail ErrPublicKeyNotFound
  | Some pemData =>
      if negb (sd_SignatureAlgorithm businessUserData ==s SignatureAlgorithmRS256)
      then fail (Errorf_ws ErrPublicKeyNotFound
             ("unsupported signature algorithm '" +:+ sd_SignatureAlgorithm businessUserData +:+ "'"))
      else
        match jwt_ParseRSAPublicKeyFromPEM pemData with
        | inl _ => fail ErrPublicKeyNotFound
        | inr publicKey =>
            _ ← lift (verifyBusinessUserDataSignature r businessUserData publicKey);
            let ctx := InjectBusinessUserData (r_Context r) (sd_ClientData businessUserData)
                         authContextFields in
            _ ← validateGroupRoles (WithContext r ctx) businessUserData;
            mret ctx
        end
  end.

Definition BusinessUserDataMiddleware : MiddlewareFunc := λ next r,
  if canBypassBusinessUserData r then next r
  else
    res ← try_ (prepareContext r);
    match res with
    | inl err =>
        if errors_Is err ErrMultipleRolesInGroups || errors_Is err ErrZeroRolesInGroups
        then mret (ErrorResponse (r_Context r) (answer err))
        else mret (ErrorResponse (r_Context r) ErrNoBusinessUserData)
    | inr ctx => next (WithContext r ctx)
    end.
End BusinessUserData.

(** * internal/daemon/server.go: the chain *)

Section Server.
Context {NS : NewString} {maps : GoMaps} {V : OAPIValidator} {CA : ClientDataAuth} {RG : RoleGetter}.
Variable signingKeyStorage : gmap string string.
Variable authContextFields : list string.

(** The middlewares of [createHTTPServer], in the order of the slice. *)
Definition Middlewares : list MiddlewareFunc :=
  [AuthzMiddleware_;
   BusinessUserDataMiddleware signingKeyStorage authContextFields;
   OAPIMiddleware;
   LoggingMiddleware;
   PanicRecoveryMiddleware;
   InjectMultiTenancy;
   InjectRequestIDMiddleware;
   RequestBodyLimitMiddleware].

(** What the generated server does for a route: the parameters are bound first, then the
    handler is wrapped, [for _, middleware := range HandlerMiddlewares]. *)
Definition serveRoute (bind : Request → option ParamError) (handler : HTTPHandler) : HTTPHandler :=
  λ r,
  match bind r with
  | Some err => mret (ParamsErrorHandler r err)
  | None => foldl (λ h m, m h) handler Middlewares r
  end.
End Server.

(** * internal/daemon/mux.go *)

(** The patterns that the generated [HandlerWithOptions] registers, below the base
    path. *)
Definition routes : list string :=
  ["GET /groups"; "POST /groups"; "POST /groups/iamCheck"; "DELETE /groups/{groupID}";
   "GET /groups/{groupID}"; "PATCH /groups/{groupID}"; "DELETE /key/{keyID}/label/{labelName}";
   "GET /key/{keyID}/labels"; "POST /key/{keyID}/labels"; "GET /keyConfigurations";
   "POST /keyConfigurations"; "DELETE /keyConfigurations/{keyConfigurationID}";
   "GET /keyConfigurations/{keyConfigurationID}";
   "PATCH /keyConfigurations/{keyConfigurationID}";
   "GET /keyConfigurations/{keyConfigurationID}/certificates";
   "GET /keyConfigurations/{keyConfigurationID}/tags";
   "PUT /keyConfigurations/{keyConfigurationID}/tags"; "GET /keys"; "POST /keys";
   "DELETE /keys/{keyID}"; "GET /keys/{keyID}"; "PATCH /keys/{keyID}";
   "POST /keys/{keyID}/importKeyMaterial"; "GET /keys/{keyID}/importParams";
   "GET /keys/{keyID}/versions"; "GET /systems"; "GET /systems/filterOptions";
   "GET /systems/{systemID}"; "DELETE /systems/{systemID}/link";
   "PATCH /systems/{systemID}/link"; "GET /systems/{systemID}/recoveryActions";
   "POST /systems/{systemID}/recoveryActions"; "GET /tenantConfigurations/keystores";
   "GET /tenantConfigurations/workflow"; "PATCH /tenantConfigurations/workflow";
   "GET /tenantInfo"; "GET /tenants"; "GET /userInfo"; "GET /workflows"; "POST /workflows";
   "POST /workflows/check"; "GET /workflows/{workflowID}"; "POST /workflows/{workflowID}/state"].

(** The pattern of a route, as it is handed to [HandleFunc]. *)
Definition routePattern (route : string) : string :=
  match Cut route with
  | Some (method, path) => method +:+ " " +:+ BasePath +:+ path
  | None => BasePath +:+ route
  end.

(** [ServeMux]: the registered patterns. *)
Definition mux_HandleFunc (baseURL pattern : string) : Comp (list string) unit :=
  let p := match Cut pattern with
           | Some (method, path) => method +:+ " " +:+ TrimPrefix path baseURL
           | None => TrimPrefix pattern baseURL
           end in
  let restricted := match assoc p RestrictionsByAPI with Some _ => true | None => false end in
  let allowed := p ∈? AllowListByAPI in
  if negb restricted && negb allowed
  then fail (Panic ("pattern not registered in restrictions or allow list: " +:+ p))
  else modify (λ mux, mux ++ [pattern]).

(** [HandlerWithOptions] on an empty mux. *)
Definition registerRoutes : Comp (list string) unit :=
  for_each (mux_HandleFunc BasePath) (routePattern <$> routes).
