(* ===== verification/RequestFacts.v ===== *)
(** The chain of middlewares lets a request reach its handler only for an
    authenticated caller with a permission, and every route of the API is covered by a
    rule. *)
From S2P Require Import Prelude Errs GoContext AuthzPolicies Authz Model Store AuthzLoader.
From S2P Require Import AuthzLoaderFacts Users Filters ApiErrors Requests.
#[local] Open Scope Z_scope.

(** * A logic for middlewares

    A middleware answers a request itself with an error, panics, or hands one request in
    one state, which satisfies [Q], to the next handler, whatever that handler is. *)
Inductive passes (m : MiddlewareFunc) (r : Request) (am : AuthzLoader)
    (Q : Request → AuthzLoader → Prop) : Prop :=
| passes_answer am' resp : 400 ≤ resp_status resp → (∀ h, m h r am = (am', inr resp)) → passes m r am Q
| passes_panic am' p : (∀ h, m h r am = (am', inl (Panic p))) → passes m r am Q
| passes_next r' am' : Q r' am' → (∀ h, m h r am = h r' am') → passes m r am Q.

Lemma passes_comp (m1 m2 : MiddlewareFunc) r am Q1 Q2 :
  passes m1 r am Q1 → (∀ r' am', Q1 r' am' → passes m2 r' am' Q2) →
  passes (λ h, m1 (m2 h)) r am Q2.
Proof.
  intros [am' resp Hs H|am' p H|r' am' HQ H] H2; [by eapply passes_answer|by eapply passes_panic|].
  destruct (H2 _ _ HQ) as [am2 resp Hs H'|am2 p H'|r2 am2 HQ' H'].
  - eapply passes_answer; [done|]. intros h. by rewrite H.
  - eapply passes_panic. intros h. by rewrite H.
  - eapply passes_next; [done|]. intros h. by rewrite H.
Qed.

Lemma answer_is_error r err : 400 ≤ resp_status (ErrorResponse r (answer err)).
Proof. simpl. pose proof (statuses_errors _ (answer_status err)). lia. Qed.

Section Chain.
Context {NS : NewString} {maps : GoMaps} {V : OAPIValidator} {CA : ClientDataAuth} {RG : RoleGetter}.
Variable signingKeyStorage : gmap string string.
Variable authContextFields : list string.
Implicit Types (r : Request) (am : AuthzLoader).

(** What the interface of the user manager promises: a lookup of roles only reads. *)
Class RoleGetterLaws := roleGetter_reads : ∀ ctx ids am am' res,
  roleGetter_GetRoleFromIAM ctx ids am = (am', res) → am' = am.
Context {RGL : RoleGetterLaws}.

(** The headers of [r] carry client data signed with a key of the storage. *)
Definition authenticated r (signed : SignedClientData) : Prop :=
  auth_DecodeFrom (Header_Get r HeaderClientData) = inr (Some signed) ∧
  sd_SignatureAlgorithm signed = SignatureAlgorithmRS256 ∧
  ∃ pemData publicKey,
    signingKeyStorage !! sd_KeyID signed = Some pemData ∧
    jwt_ParseRSAPublicKeyFromPEM pemData = inr publicKey ∧
    auth_Verify signed publicKey (Header_Get r HeaderClientDataSignature) = None.

(** The caller's groups have at most one role, as far as the endpoint needs it. *)
Definition role_checked r (ctx : GoContext.Ctx) (groups : list string) am : Prop :=
  groups ≠ [] ∧
  (extractPattern (r_Pattern r) BasePath ∈ AllowListByAPI ∨ length groups = 1%nat ∨
   ∃ role, roleGetter_GetRoleFromIAM ctx groups am = (am, inr role)).

Lemma validateGroupRoles_ok r signed am am' :
  validateGroupRoles r signed am = (am', inr tt) →
  am' = am ∧ role_checked r (r_Context r) (ClientGroups (sd_ClientData signed)) am.
Proof.
  unfold validateGroupRoles, role_checked.
  destruct (ClientGroups (sd_ClientData signed)) as [|g gs] eqn:Hg; [done|].
  cbn [length Nat.eqb].
  destruct (_ ∈? AllowListByAPI) eqn:Ha.
  { intros [= <-]. apply mem_elem in Ha. auto. }
  destruct (Nat.eqb_spec (length gs) 0) as [Hl|Hl].
  { intros [= <-]. rewrite Hl. auto. }
  intros (am1 & res & Htry & H)%bind_ok. destruct res as [err|role]; [by case_match|].
  injection H as <-. apply try_ok in Htry. pose proof (roleGetter_reads _ _ _ _ _ Htry) as ->.
  split; [done|]. split; [done|]. right; right. eauto.
Qed.

Lemma prepareContext_ok r am am' ctx :
  prepareContext signingKeyStorage authContextFields r am = (am', inr ctx) →
  am' = am ∧ ∃ signed, authenticated r signed ∧
    ctx = InjectBusinessUserData (r_Context r) (sd_ClientData signed) authContextFields ∧
    role_checked r ctx (ClientGroups (sd_ClientData signed)) am.
Proof.
  unfold prepareContext. intros (am1 & signed & Hex & H)%bind_ok.
  injection Hex as <- Hex. unfold extractBusinessUserData in Hex.
  destruct (Header_Get r HeaderClientData ==s ""); [discriminate Hex|].
  destruct (auth_DecodeFrom (Header_Get r HeaderClientData)) as [|[s|]] eqn:Hdec; simplify_eq.
  destruct (signingKeyStorage !! _) as [pem|] eqn:Hkey; [|done].
  destruct (String.eqb_spec (sd_SignatureAlgorithm signed) SignatureAlgorithmRS256) as [Halg|];
    [|discriminate H]. cbn [negb] in H.
  destruct (jwt_ParseRSAPublicKeyFromPEM pem) as [|pk] eqn:Hpk; [done|].
  apply bind_ok in H as (am1 & [] & Hv & H). injection Hv as <- Hv.
  unfold verifyBusinessUserDataSignature in Hv.
  destruct (Header_Get r HeaderClientDataSignature ==s ""); [discriminate Hv|].
  destruct (auth_Verify signed pk _) eqn:Hver; [done|].
  apply bind_ok in H as (am1 & [] & Hr & H). injection H as <- <-.
  apply validateGroupRoles_ok in Hr as [-> Hr]. split; [done|].
  exists signed. split; [|done]. split; [done|]. split; [done|]. by exists pem, pk.
Qed.

Lemma BusinessUserData_passes r am :
  passes (BusinessUserDataMiddleware signingKeyStorage authContextFields) r am (λ r' am',
    am' = am ∧
    ((canBypassBusinessUserData r = true ∧ r' = r) ∨
     ∃ signed, authenticated r signed ∧
       r' = WithContext r (InjectBusinessUserData (r_Context r) (sd_ClientData signed) authContextFields) ∧
       role_checked r (r_Context r') (ClientGroups (sd_ClientData signed)) am)).
Proof.
  destruct (canBypassBusinessUserData r) eqn:Hb.
  { apply (passes_next _ _ _ _ r am); [split; [done|by left]|].
    intros h. unfold BusinessUserDataMiddleware. by rewrite Hb. }
  destruct (try_ (prepareContext signingKeyStorage authContextFields r) am) as [am1 res] eqn:Htry.
  assert (∀ h, BusinessUserDataMiddleware signingKeyStorage authContextFields h r am =
    match res with
    | inl e => (am1, inl e)
    | inr (inl err) =>
        if errors_Is err ErrMultipleRolesInGroups || errors_Is err ErrZeroRolesInGroups
        then (am1, inr (ErrorResponse (r_Context r) (answer err)))
        else (am1, inr (ErrorResponse (r_Context r) ErrNoBusinessUserData))
    | inr (inr ctx) => h (WithContext r ctx) am1
    end) as Hm.
  { intros h. unfold BusinessUserDataMiddleware. rewrite Hb. unfold mbind, M_bind. rewrite Htry.
    destruct res as [|[err|]]; [done| |done]. by case_match. }
  destruct (try_inv _ _ _ _ Htry) as [(res' & -> & Hp)|(p & -> & _)]; [|by eapply passes_panic].
  destruct res' as [err|ctx].
  - case_match; (eapply passes_answer; [|exact Hm]); [apply answer_is_error|done].
  - apply prepareContext_ok in Hp as (-> & signed & Ha & -> & Hr).
    eapply passes_next; [|exact Hm]. split; [done|]. right. by exists signed.
Qed.

Lemma AuthzMiddleware_decides ctx pattern am :
  ∃ am' d, AuthzMiddleware ctx pattern am = (am', inr d).
Proof.
  unfold AuthzMiddleware. destruct (_ ∈? _); [by eexists _, _|].
  destruct (assoc _ _) as [x|]; [|by eexists _, _]. unfold mbind, M_bind, get, mret, M_ret, attempt.
  repeat (case_match; simplify_eq; eauto).
Qed.

Lemma Authz_passes hist r am :
  loader_run APIPolicies hist am →
  passes AuthzMiddleware_ r am (λ r' _,
    r' = r ∧ (extractPattern (r_Pattern r) BasePath ∈ AllowListByAPI ∨
    (ctx_userType (r_Context r) = Some BusinessUser →
     ∃ t d g c, ctx_tenant (r_Context r) = Some t ∧ ctx_businessUserData (r_Context r) = Some d ∧
       c ∈ hist ∧ g ∈ tenant_groups c t ∧ g_IAMIdentifier g ∈ ClientGroups d ∧
       extractPattern (r_Pattern r) BasePath ∈ role_endpoints (g_Role g)))).
Proof.
  intros Hrun. destruct (AuthzMiddleware_decides (r_Context r) (r_Pattern r) am) as (am' & d & H).
  destruct d.
  - apply (passes_next _ _ _ _ r am'); [|intros h; unfold AuthzMiddleware_, mbind, M_bind; by rewrite H].
    split; [done|]. destruct (decide (extractPattern (r_Pattern r) BasePath ∈ AllowListByAPI)); [by left|].
    right. intros Hu. by destruct (middleware_role _ _ _ _ _ Hrun Hu H).
  - eapply passes_answer; [|intros h; unfold AuthzMiddleware_, mbind, M_bind; by rewrite H]. done.
Qed.

Lemma OAPI_passes r am : passes OAPIMiddleware r am (λ r' am', r' = r ∧ am' = am).
Proof.
  destruct (oapi_validate r) as [[err status]|] eqn:E.
  - apply (passes_answer _ _ _ _ am (OAPIValidatorHandler (r_Context r) err status)).
    + unfold OAPIValidatorHandler, OAPIValidatorErrorMessage.
      destruct (Z.eqb_spec status StatusBadRequest) as [->|]; [done|].
      by destruct (Z.eqb_spec status StatusForbidden) as [->|].
    + intros h. unfold OAPIMiddleware. by rewrite E.
  - apply (passes_next _ _ _ _ r am); [done|]. intros h. unfold OAPIMiddleware. by rewrite E.
Qed.

(** The middlewares below the panic recovery. *)
Lemma inner_passes hist r am :
  loader_run APIPolicies hist am → canBypassBusinessUserData r = false →
  passes (λ h, OAPIMiddleware (BusinessUserDataMiddleware signingKeyStorage authContextFields
    (AuthzMiddleware_ h))) r am (λ r' _, ∃ signed, authenticated r signed ∧
      r' = WithContext r (InjectBusinessUserData (r_Context r) (sd_ClientData signed) authContextFields) ∧
      role_checked r (r_Context r') (ClientGroups (sd_ClientData signed)) am ∧
      (extractPattern (r_Pattern r) BasePath ∈ AllowListByAPI ∨
       ∃ t g c, ctx_tenant (r_Context r) = Some t ∧ c ∈ hist ∧ g ∈ tenant_groups c t ∧
         g_IAMIdentifier g ∈ ClientGroups (sd_ClientData signed) ∧
         extractPattern (r_Pattern r) BasePath ∈ role_endpoints (g_Role g))).
Proof.
  intros Hrun Hb. eapply passes_comp; [apply OAPI_passes|]. intros ? ? [-> ->].
  eapply passes_comp; [apply BusinessUserData_passes|].
  intros r' ? [-> [[H _]|(signed & Ha & -> & Hr)]]; [congruence|].
  destruct (Authz_passes _ (WithContext r (InjectBusinessUserData (r_Context r)
    (sd_ClientData signed) authContextFields)) _ Hrun) as [| |r2 am2 [-> H] Hn];
    [by eapply passes_answer|by eapply passes_panic|].
  eapply passes_next; [|exact Hn]. exists signed. split_and!; [done..|].
  destruct H as [H|H]; [by left|right].
  destruct H as (t & d & g & c & Ht & Hd & Hc & Hg & Hi & He); [done|].
  injection Hd as <-. by exists t, g, c.
Qed.

(** Client data as it is kept in the context. *)
Definition kept (d : ClientData) : ClientData :=
  mkClientData (Identifier d) (Email d) (FamilyName d) (GivenName d) (ClientGroups d)
    (filterAuthContext authContextFields (AuthContext d)).

Lemma route_pattern route : route ∈ routes → extractPattern (routePattern route) BasePath = route.
Proof.
  intros Hr. apply String.eqb_eq. revert route Hr.
  apply (forallb_elem (λ route, extractPattern (routePattern route) BasePath ==s route)).
  vm_compute. reflexivity.
Qed.

Lemma route_no_bypass route r :
  route ∈ routes → r_Pattern r = routePattern route → canBypassBusinessUserData r = false.
Proof.
  intros Hr Hp. unfold canBypassBusinessUserData. rewrite Hp, route_pattern by done.
  apply negb_true_iff. clear Hp. revert route Hr.
  apply (forallb_elem (λ route, negb (route ==s "GET /swagger"))). vm_compute. reflexivity.
Qed.

(** C9: who reaches a handler.  A request to a route of the API is either answered with an
    error, the same whatever the handler of the route is, or its handler runs, once, with
    panics turned into an error.  In that case the headers carry client data that verifies
    under a stored key, the handler sees exactly that identity and the tenant of the path, and
    the route is public, or the caller has a group of the tenant (as the database is or
    was) whose role includes the route, and the roles of several groups were
    checked to be one. *)
Theorem handler_needs_identity_and_role hist bind r am route :
  loader_run APIPolicies hist am →
  route ∈ routes → r_Pattern r = routePattern route →
  (∃ am' resp, 400 ≤ resp_status resp ∧
     ∀ handler, serveRoute signingKeyStorage authContextFields bind handler r am = (am', inr resp)) ∨
  ∃ r' am' ctx signed,
    (∀ handler, serveRoute signingKeyStorage authContextFields bind handler r am =
       recovered ctx (handler r' am')) ∧
    r_Pattern r' = r_Pattern r ∧ r_BodyLimit r' = Some 1048576 ∧ authenticated r signed ∧
    business_ctx (r_Context r') (r_PathTenant r) (kept (sd_ClientData signed)) ∧
    ClientGroups (sd_ClientData signed) ≠ [] ∧
    (route ∈ AllowListByAPI ∨
     (length (ClientGroups (sd_ClientData signed)) = 1%nat ∨
      ∃ role, roleGetter_GetRoleFromIAM (r_Context r') (ClientGroups (sd_ClientData signed)) am =
        (am, inr role)) ∧
     ∃ g c, c ∈ hist ∧ g ∈ tenant_groups c (r_PathTenant r) ∧
       g_IAMIdentifier g ∈ ClientGroups (sd_ClientData signed) ∧ route ∈ role_endpoints (g_Role g)).
Proof.
  intros Hrun Hroute Hp. destruct (bind r) as [err|] eqn:Hbind.
  { left. exists am, (ParamsErrorHandler r err). split; [by destruct err|].
    intros h. unfold serveRoute. by rewrite Hbind. }
  set (r2 := mkRequest (r_Pattern r) (r_PathTenant r) (r_Header r) (Some maxRequestBodyBytes)
    (CreateTenantContext (InjectRequestID uuid_NewString (r_Context r) uuid_NewString) (r_PathTenant r))).
  destruct (r_PathTenant r ==s "") eqn:Ht.
  { left. eexists am, _. split; [|intros h; unfold serveRoute; rewrite Hbind; cbn [foldl Middlewares];
      unfold RequestBodyLimitMiddleware, InjectRequestIDMiddleware, InjectMultiTenancy;
      cbn [r_PathTenant WithContext]; by rewrite Ht]. apply answer_is_error. }
  assert (∀ h, serveRoute signingKeyStorage authContextFields bind h r am =
    recovered (r_Context r2) (OAPIMiddleware (BusinessUserDataMiddleware signingKeyStorage
      authContextFields (AuthzMiddleware_ h)) r2 am)) as Hserve.
  { intros h. unfold serveRoute. rewrite Hbind. cbn [foldl Middlewares].
    unfold RequestBodyLimitMiddleware, InjectRequestIDMiddleware, InjectMultiTenancy.
    cbn [r_PathTenant WithContext]. by rewrite Ht. }
  apply String.eqb_neq in Ht. setoid_rewrite Hserve.
  assert (canBypassBusinessUserData r2 = false) as Hb by (by apply (route_no_bypass route)).
  destruct (inner_passes _ _ _ Hrun Hb) as [am' resp Hs H|am' p H|r' am' (signed & Ha & -> & Hr & He) H].
  - left. exists am', resp. split; [done|]. intros h. by rewrite H.
  - left. exists am', (ErrorResponse (r_Context r2) InternalServerErrorMessage). split; [done|].
    intros h. by rewrite H.
  - right. eexists _, am', (r_Context r2), signed. split; [intros h; by rewrite H|].
    assert (extractPattern (r_Pattern r2) BasePath = route) as Hpat
      by (unfold r2; cbn [r_Pattern]; rewrite Hp; by apply route_pattern).
    rewrite Hpat in He. destruct Hr as [Hne Hr]. rewrite Hpat in Hr.
    split; [done|]. split; [done|]. split; [done|]. split; [done|]. split; [done|].
    destruct He as [He|(t & g & c & [= <-] & He)]; [by left|].
    destruct Hr as [Hr|Hr]; [by left|right]. split; [done|]. by exists g, c.
Qed.
End Chain.

(** * Routes *)

(** Registering the routes of the generated server never panics: each has a rule. *)
Lemma routes_registered : registerRoutes [] = (routePattern <$> routes, inr tt).
Proof. vm_compute. reflexivity. Qed.

(** * The user manager as role getter

    The interface is met by [GetRoleFromIAM] of the user manager, run on the schema of the
    request's tenant; [base] gives the clock and the failures of its database calls. *)
Section UserManager.
Context {NS : NewString}.
Variable base : World.

Definition tenantDB (c : Cluster) (ctx : GoContext.Ctx) : option DB :=
  match ExtractTenantID ctx with
  | inr t => assoc t (cl_tenants c) ≫= λ schemaName, cl_schemas c !! schemaName
  | inl _ => None
  end.

Instance userManager : RoleGetter := λ ctx ids am,
  match tenantDB (al_repo am) ctx with
  | Some d => (am, (GetRoleFromIAM ctx ids (set_db d base)).2)
  | None => (am, inl ErrTenantNotFound)
  end.

Instance userManager_laws : RoleGetterLaws.
Proof. intros ctx ids am am' res. unfold roleGetter_GetRoleFromIAM, userManager. by case_match; intros [= <- _]. Qed.

(** A successful lookup: the first page of the caller's groups in the tenant has one
    role. *)
Lemma userManager_one_role ctx t ids am role :
  ExtractTenantID ctx = inr t →
  roleGetter_GetRoleFromIAM ctx ids am = (am, inr role) →
  let page := take 100 (List.filter (byIAM ids) (tenant_groups (al_repo am) t)) in
  ∀ g g', g ∈ page → g' ∈ page → g_Role g = g_Role g'.
Proof.
  intros Ht. unfold roleGetter_GetRoleFromIAM, userManager, tenantDB, tenant_groups. rewrite Ht.
  destruct (assoc t _) as [s|]; [|done]. simpl. destruct (cl_schemas _ !! s) as [d|]; [|done]. simpl.
  destruct (GetRoleFromIAM ctx ids (set_db d base)) as [w' res] eqn:H. simpl. intros [= ->].
  unfold GetRoleFromIAM in H. apply bind_ok in H as (w1 & ? & [= <- _] & H).
  apply bind_ok in H as (w2 & gs & Hgs & H). apply map_err_ok, List_ok in Hgs.
  change (applyPagination _ _) with (take 100 (List.filter (byIAM ids) (db_groups d))) in Hgs.
  rewrite <-Hgs. clear Hgs. destruct gs as [|g0 gs']; [by intros g g' ?%not_elem_of_nil|].
  set (gs := g0 :: gs') in *. simpl in H.
  intros g g' Hg Hg'. destruct (roleMap gs) as [|a [|b r]] eqn:Hr; [done| |done].
  assert (∀ z, z ∈ gs → g_Role z = a) as Hall.
  { intros z Hz. apply list_elem_of_singleton. rewrite <-Hr. unfold roleMap.
    apply elem_of_remove_dups. by apply list_elem_of_fmap_2. }
  by rewrite (Hall g), (Hall g').
Qed.
End UserManager.
