(* ===== verification/KeyRequests.v ===== *)
(** A key as a request describes it: internal/api/transform/key (key.go, byok, hyokkey and
    transformer).  A request is checked by the service, then by the keystore plugin of its
    provider, before it becomes a key of the model. *)
From S2P Require Import Prelude Errs Json GoContext Model Store Batch Users KeyAccess KeyVersions Keys.
From S2P Require Import OData Keystores ApiErrors.

Definition ErrInvalidKeyType := New "key.ErrInvalidKeyType" "invalid key type".
Definition keyshared_ErrFromAPI := New "keyshared.ErrFromAPI" "error from api".
Definition hyokkey_ErrTransformAccessData :=
  New "hyokkey.ErrTransformAccessData" "error transforming access data from API to model".
Definition transformer_ErrValidateKey := New "transformer.ErrValidateKey" "failed to validate key".
Definition transformer_ErrSerializeKeyAccessData :=
  New "transformer.ErrSerializeKeyAccessData" "failed to serialize key access data".
Definition transformer_ErrExtractKeyRegion :=
  New "transformer.ErrExtractKeyRegion" "failed to extract key region from provider".

(** [cmkapi.Key]: the fields that a request to create a key sets. *)
Record KeyBody := mkKeyBody {
  ak_AccessDetails : option KeyAccessDetails;
  ak_Algorithm : option string;
  ak_Description : option string;
  ak_Enabled : option bool;
  ak_KeyConfigurationID : uuid;
  ak_Name : string;
  ak_NativeID : option string;
  ak_Provider : option string;
  ak_Region : option string;
  ak_Type : string }.
Definition set_ak_Provider (provider : string) (k : KeyBody) : KeyBody :=
  mkKeyBody (ak_AccessDetails k) (ak_Algorithm k) (ak_Description k) (ak_Enabled k) (ak_KeyConfigurationID k)
    (ak_Name k) (ak_NativeID k) (Some provider) (ak_Region k) (ak_Type k).

(** The parameters: how the plugin SDK reads a status error of a plugin
    ([keystoreErrs.IsStatus] for [StatusInvalidKeyAccessData], and [GetDetails]), and the
    task queue of the key manager. *)
Class KeyEnv := {
  ke_IsInvalidKeyAccessData : error → bool;
  ke_GetDetails : error → string * gmap string string;
  ke_asyncClient : option (string → option error) }.

(** * grpc.go *)

Definition WithReason (e : error) (reason : string) : error :=
  match e with
  | GRPC code message _ metadata => GRPC code message reason metadata
  | _ => e
  end.
Definition FromStatusError `{!KeyEnv} (e err : error) : error :=
  match e with
  | GRPC code message _ _ => let '(reason, metadata) := ke_GetDetails err in GRPC code message reason metadata
  | _ => e
  end.

(** * transformer.go *)

Definition convertKeyType (keyType : string) : PluginKeyType :=
  if keyType ==s KeyTypeBYOK then BYOK
  else if keyType ==s KeyTypeHYOK then HYOK
  else UnspecifiedKeyType.
Definition convertKeyAlgorithm (algorithm : string) : PluginKeyAlgorithm :=
  if algorithm ==s KeyAlgorithmAES256 then AES256 else UnspecifiedKeyAlgorithm.

(** The transformer of a provider is its plugin. *)
Definition NewPluginProviderTransformer `{!PluginCatalog} (provider : string) : error + KeyManagement :=
  match svcCatalog with
  | None => inl nilDereference
  | Some catalog =>
      match cat_KeyManagements catalog with
      | inl _ => inl (Wrapf keyshared_ErrInvalidKeyProvider provider)
      | inr keyManagements =>
          match keyManagements !! provider with
          | Some pluginClient => inr pluginClient
          | None => inl (Wrapf keyshared_ErrInvalidKeyProvider provider)
          end
      end
  end.

Definition ValidateAPI (v : KeyManagement) (k : KeyBody) : error + unit :=
  match ak_Algorithm k, ak_Region k with
  | Some algorithm, Some region =>
      match km_ValidateKey v
              (mkValidateKeyRequest (convertKeyType (ak_Type k)) (convertKeyAlgorithm algorithm) region
                 (default "" (ak_NativeID k))) with
      | inl err => inl (wrapping transformer_ErrValidateKey err)
      | inr response =>
          if vr_IsValid response then inr tt
          else inl (Join transformer_ErrValidateKey (WithReason ErrGRPCValidateKey (vr_Message response)))
      end
  | _, _ => inl nilDereference
  end.

Section Transformer.
Context {KE : KeyEnv}.

Definition ValidateKeyAccessData (v : KeyManagement) (accessDetails : KeyAccessDetails) : error + unit :=
  let management := match ad_Management accessDetails with
                    | Some m => r_AdditionalProperties m | None => ∅ end in
  let crypto := default ∅ (ad_Crypto accessDetails) in
  match km_ValidateKeyAccessData v management crypto with
  | inl (Panic p) => inl (Panic p)
  | inl err =>
      if ke_IsInvalidKeyAccessData err
      then inl (Join transformer_ErrSerializeKeyAccessData (FromStatusError ErrGRPCInvalidAccessData err))
      else inl (wrapping transformer_ErrSerializeKeyAccessData err)
  | inr response =>
      if vr_IsValid response then inr tt
      else inl (Wrapf transformer_ErrSerializeKeyAccessData (vr_Message response))
  end.

(** The documents that are stored: of the management data and of the crypto data. *)
Definition SerializeKeyAccessData (v : KeyManagement) (keyAccessDetails : KeyAccessDetails) :
    error + JSON * JSON :=
  _ ← ValidateKeyAccessData v keyAccessDetails;
  let managementAccessData := match ad_Management keyAccessDetails with
                              | Some m => Region_Marshal m | None => JNull end in
  let cryptoAccessData := KeyAccessData_Marshal (ad_Crypto keyAccessDetails) in
  inr (managementAccessData, cryptoAccessData).

Definition GetRegion (v : KeyManagement) (key : KeyBody) : error + string :=
  let management := match ak_AccessDetails key with
                    | Some details =>
                        match ad_Management details with Some m => r_AdditionalProperties m | None => ∅ end
                    | None => ∅
                    end in
  match ak_NativeID key with
  | None => inl nilDereference
  | Some nativeID =>
      match km_ExtractKeyRegion v nativeID management with
      | inl (Panic p) => inl (Panic p)
      | inl err =>
          inl (Join transformer_ErrExtractKeyRegion (WithReason ErrGRPCValidateKey (Error err)))
      | inr region =>
          if region ==s "" then
            inl (Join transformer_ErrExtractKeyRegion
                   (WithReason ErrGRPCValidateKey "extracted region is empty"))
          else inr region
      end
  end.

(** * byok.go *)

(** [errors.Join(err, e)] for an [err] that may be nil *)
Definition joinTo (err : option error) (e : error) : option error :=
  Some (match err with Some err => Join err e | None => e end).

Definition isAPIKeyValid (apikey : KeyBody) : option error :=
  let err := match ak_Provider apikey with
             | None => Some keyshared_ErrProviderIsRequired | Some _ => None end in
  let err := match ak_Region apikey with
             | None => joinTo err keyshared_ErrRegionIsRequired | Some _ => err end in
  let err := match ak_Algorithm apikey with
             | None => joinTo err keyshared_ErrAlgorithmIsRequired | Some _ => err end in
  match ak_NativeID apikey with
  | Some _ => joinTo err (Wrapf transform_ErrAPIUnexpectedProperty "nativeID")
  | None => err
  end.

(** A key of the model of which the transformers set some fields *)
Definition Key_of (keyType description algorithm provider region : string) (nativeID : option string)
    (managementAccessData cryptoAccessData : option JSON) : Key :=
  mkKey 0 uuid_Nil uuid_Nil "" keyType description algorithm provider region "" [] None nativeID
    managementAccessData cryptoAccessData false None false ∅.

Definition byok_FromCmkAPIKey (v : KeyManagement) (apiKey : KeyBody) : error + Key :=
  match isAPIKeyValid apiKey with
  | Some err => inl err
  | None =>
      _ ← ValidateAPI v apiKey;
      let description := default "" (ak_Description apiKey) in
      match ak_Algorithm apiKey, ak_Provider apiKey, ak_Region apiKey with
      | Some algorithm, Some provider, Some region =>
          inr (Key_of (ak_Type apiKey) description algorithm provider region None None None)
      | _, _, _ => inl nilDereference
      end
  end.

(** * hyokkey.go *)

Definition hyok_FromCmkAPIKey (v : KeyManagement) (apiKey : KeyBody) : error + Key :=
  match ak_NativeID apiKey with
  | None => inl hyokkey_ErrNativeIDIsRequired
  | Some nativeID =>
      match ak_Provider apiKey with
      | None => inl keyshared_ErrProviderIsRequired
      | Some provider =>
          if bool_decide (is_Some (ak_Region apiKey)) then
            inl (Wrapf transform_ErrAPIUnexpectedProperty "region")
          else if bool_decide (is_Some (ak_Algorithm apiKey)) then
            inl (Wrapf transform_ErrAPIUnexpectedProperty "algorithm")
          else
            match ak_AccessDetails apiKey with
            | None => inl hyokkey_ErrAccessDetailsIsRequired
            | Some details =>
                match SerializeKeyAccessData v details with
                | inl err => inl (wrapping hyokkey_ErrTransformAccessData err)
                | inr (management, crypto) =>
                    region ← GetRegion v apiKey;
                    let description := default "" (ak_Description apiKey) in
                    inr (Key_of (ak_Type apiKey) description "" provider region (Some nativeID)
                           (Some management) (Some crypto))
                end
            end
      end
  end.

(** * key.go *)

Definition getKeyModel (tf : KeyManagement) (apiKey : KeyBody) : error + Key :=
  if ak_Type apiKey ==s KeyTypeBYOK then byok_FromCmkAPIKey tf apiKey
  else if ak_Type apiKey ==s KeyTypeHYOK then hyok_FromCmkAPIKey tf apiKey
  else inl ErrInvalidKeyType.

Definition key_FromAPI `{!NewUUID} (apiKey : KeyBody) (tf : KeyManagement) : Comp World Key :=
  if ak_Name apiKey ==s "" then fail ErrNameFieldMissingProperty
  else if ak_Type apiKey ==s "" then fail ErrTypeFieldMissingProperty
  else if N.eqb (ak_KeyConfigurationID apiKey) uuid_Nil then fail ErrKeyConfigurationFieldMissingProperty
  else
    dbKey ← map_err (wrapping keyshared_ErrFromAPI) (lift (getKeyModel tf apiKey));
    w ← get;
    let state := if default true (ak_Enabled apiKey) then KeyStateENABLED else KeyStateDISABLED in
    mret (mkKey (w_now w) (uuid_New w) (ak_KeyConfigurationID apiKey) (ak_Name apiKey) (ak_Type apiKey)
            (default (k_Description dbKey) (ak_Description apiKey)) (k_Algorithm dbKey) (k_Provider dbKey)
            (k_Region dbKey) state (k_KeyVersions dbKey) (k_ImportParams dbKey) (k_NativeID dbKey)
            (k_ManagementAccessData dbKey) (k_CryptoAccessData dbKey) (k_UnderWorkflow dbKey)
            (k_ErrorDetail dbKey) (k_IsPrimary dbKey) (k_EditableRegions dbKey)).
End Transformer.
