(* ===== verification/Presentation.v ===== *)
(** How entities are presented: the [ToAPI] functions of internal/api/transform.  An entity
    is sanitised first ([Sanitise]); the records here have the fields of the API types that
    are set (times of update are not part of the model). *)
From S2P Require Import Prelude Errs Json AuthzPolicies Authz Model Store AuthzLoader Batch OData Sanitise.
From S2P Require Import Users KeyAccess Events KeyConfigs KeyVersions Keys TenantConfig Keystores Groups.
From S2P Require Import Fsm Lifecycle WorkflowManager ApiErrors GoContext.

Definition ErrDeserializeKeyAccessData :=
  New "key.ErrDeserializeKeyAccessData" "error deserializing key access data from model to API".
Definition ErrInvalidLabelDBModelField := New "label.ErrInvalidLabelDBModelField" "invalid label model field".

(** * Sanitised fields *)

(** [sanitiseJSON] on the text of a document: its strings and member names. *)
Fixpoint sanitisedJSON (v : JSON) : JSON :=
  match v with
  | JString s => JString (sanitiseJSON s)
  | JArray l => JArray (sanitisedJSON <$> l)
  | JObject l => JObject ((λ kv, (sanitiseJSON kv.1, sanitisedJSON kv.2)) <$> l)
  | _ => v
  end.

Section Presentation.
Context {P : Policy} {G : GoMaps} {I : IDM} {NS : NewString} {US : UUIDString}.

Definition san : string → string := policy_Sanitize.

(** A map is rebuilt with sanitised keys, in the order of iteration. *)
Definition sanitisedMap {A} (value : A → A) (m : gmap string A) : gmap string A :=
  foldl (λ m kv, <[san kv.1 := value kv.2]> m) ∅ (range m).

Definition nonEmpty (s : string) : option string := if s ==s "" then None else Some s.

(** * group.go, key_label.go, keyversion.go, importparams.go, tenant.go *)

Record APIGroup := mkAPIGroup {
  ag_Name : string;
  ag_Role : string;
  ag_Description : string;
  ag_ID : uuid;
  ag_IamIdentifier : string }.

Definition group_ToAPI (group : Group) : APIGroup :=
  mkAPIGroup (san (g_Name group)) (san (g_Role group)) (san (g_Description group)) (g_ID group)
    (san (g_IAMIdentifier group)).

Definition label_ToAPI (modelKeyLabel : KeyLabel) : error + string * string :=
  if san (l_Key modelKeyLabel) ==s "" then inl (Wrapf ErrInvalidLabelDBModelField "label name")
  else inr (san (l_Key modelKeyLabel), san (l_Value modelKeyLabel)).

Record APIKeyVersion := mkAPIKeyVersion {
  av_ID : uuid;
  av_IsPrimary : bool;
  av_State : string;
  av_CreatedAt : Z;
  av_RotatedAt : Z;
  av_NativeID : string }.

Definition keyVersion_ToAPI (kv : KeyVersion) (latestVersionID : uuid) (keyState : string) : APIKeyVersion :=
  mkAPIKeyVersion (kv_ID kv) (N.eqb (kv_ID kv) latestVersionID) keyState (kv_CreatedAt kv) (kv_RotatedAt kv)
    (san (kv_NativeID kv)).

Record APIImportParams := mkAPIImportParams {
  ai_PublicKey : string;
  ai_Name : string;
  ai_HashFunction : string }.

Definition importParams_ToAPI (p : ImportParams) : APIImportParams :=
  mkAPIImportParams (san (ip_PublicKeyPEM p)) (san (ip_WrappingAlg p)) (san (ip_HashFunction p)).

Record APITenant := mkAPITenant {
  at_ID : string;
  at_Role : string;
  at_Name : string }.

Definition tenant_ToAPI (tenant : Tenant) : APITenant :=
  mkAPITenant (san (t_ID tenant)) (TrimPrefix (san (t_Role tenant)) "ROLE_") (san (t_Name tenant)).

(** * key.go *)

Record APIKey := mkAPIKey {
  xk_ID : uuid;
  xk_Algorithm : option string;
  xk_Region : option string;
  xk_Name : string;
  xk_Description : option string;
  xk_State : string;
  xk_UnderWorkflow : bool;
  xk_CreatedAt : Z;
  xk_KeyConfigurationID : uuid;
  xk_Type : string;
  xk_AccessDetails : option KeyAccessDetails;
  xk_NativeID : option string;
  xk_Provider : option string;
  xk_IsPrimary : bool }.

Definition unexpectedEnd : error := External "unexpected end of JSON input".

Definition setEditable (crypto : KeyAccessData) (entry : string * bool) : KeyAccessData :=
  match crypto !! entry.1 with
  | None => crypto
  | Some regionValues =>
      <[entry.1 := mkRegion (r_CertificateSubject regionValues) (Some entry.2)
                     (r_AdditionalProperties regionValues)]> crypto
  end.

Definition getAccessDetailsFromModel (k : Key) : error + KeyAccessDetails :=
  match match k_ManagementAccessData k with
        | None => inl unexpectedEnd | Some v => Region_Unmarshal (sanitisedJSON v) end with
  | inl err => inl (Wrap ErrDeserializeKeyAccessData (Some err))
  | inr management =>
      match match k_CryptoAccessData k with
            | None => inl unexpectedEnd | Some v => decode_map Region_Unmarshal (sanitisedJSON v) end with
      | inl err => inl (Wrap ErrDeserializeKeyAccessData (Some err))
      | inr crypto =>
          let editableRegions := sanitisedMap id (k_EditableRegions k) in
          inr (mkKeyAccessDetails (Some (foldl setEditable (default ∅ crypto) (range editableRegions)))
                 (Some management))
      end
  end.

Definition key_ToAPI (k : Key) : error + APIKey :=
  details ← (if san (k_KeyType k) ==s KeyTypeHYOK then
               accessDetails ← getAccessDetailsFromModel k;
               inr (Some accessDetails, san <$> k_NativeID k, nonEmpty (san (k_Provider k)))
             else inr (None, None, None));
  let '(accessDetails, nativeID, provider) :=
    details : option KeyAccessDetails * option string * option string in
  inr (mkAPIKey (k_ID k) (nonEmpty (san (k_Algorithm k))) (nonEmpty (san (k_Region k))) (san (k_Name k))
         (nonEmpty (san (k_Description k))) (san (k_State k)) (k_UnderWorkflow k) (k_CreatedAt k)
         (k_KeyConfigurationID k) (san (k_KeyType k)) accessDetails nativeID provider (k_IsPrimary k)).

(** * keyconfiguration.go *)

Record APIKeyConfiguration := mkAPIKeyConfiguration {
  xc_ID : uuid;
  xc_Name : string;
  xc_AdminGroupID : uuid;
  xc_PrimaryKeyID : option uuid;
  xc_AdminGroup : option APIGroup;
  xc_Description : option string;
  xc_TotalKeys : Z;
  xc_TotalSystems : Z;
  xc_Creator : option (string * string);
  xc_CanConnectSystems : bool }.

Definition keyConfiguration_ToAPI (ctx : Ctx) (k : KeyConfiguration) : Comp World APIKeyConfiguration :=
  let creatorID := san (kc_CreatorID k) in
  creator ← (if negb (creatorID ==s uuid_String uuid_Nil) && negb (creatorID ==s "") then
               name ← lift (userName ctx creatorID);
               mret (Some (creatorID, name))
             else mret None);
  connect ← try_ (CanConnectSystems k);
  canConnectSystem ← match connect with
                     | inl err => if errors_Is err ErrGettingKeyByID then fail err else mret false
                     | inr b => mret b
                     end;
  mret (mkAPIKeyConfiguration (kc_ID k) (san (kc_Name k)) (kc_AdminGroupID k) (kc_PrimaryKeyID k)
          (if bool_decide (kc_AdminGroup k = Group_zero) then None else Some (group_ToAPI (kc_AdminGroup k)))
          (nonEmpty (san (kc_Description k))) (kc_TotalKeys k) (kc_TotalSystems k) creator canConnectSystem).

(** * workflow.go *)

Record AdditionalInfo := mkAdditionalInfo {
  in_Code : string;
  in_Severity : string;
  in_Message : string }.

Definition AdditionalInfoMessageInsufficientApprovers : string :=
  "The number of eligible approvers is currently insufficient to meet the minimum approval criteria.".
Definition AdditionalInfoMessageEligibilityCheckError : string :=
  "Unable to verify workflow eligibility. The approval system may be temporarily unavailable. Please try again later or contact support.".
Definition AdditionalInfoMessageInitiatorIneligible : string :=
  "The workflow initiator is no longer eligible to confirm this workflow.".

Definition buildEligibilityAdditionalInfo (eligibility : option WorkflowEligibility)
    (eligibilityErr : option error) : list AdditionalInfo :=
  match eligibilityErr, eligibility with
  | Some _, _ =>
      [mkAdditionalInfo "WORKFLOW_ELIGIBILITY_CHECK_FAILED" "ERROR" AdditionalInfoMessageEligibilityCheckError]
  | None, Some eligibility =>
      (if InitiatorIneligible eligibility
       then [mkAdditionalInfo "INITIATOR_INELIGIBLE" "WARNING" AdditionalInfoMessageInitiatorIneligible] else []) ++
      (if InsufficientApprovers eligibility
       then [mkAdditionalInfo "INSUFFICIENT_APPROVERS" "WARNING" AdditionalInfoMessageInsufficientApprovers] else [])
  | None, None => []
  end.

Record APIApprover := mkAPIApprover {
  xa_ID : string;
  xa_Name : string;
  xa_Decision : string }.

(** [GetInitiatorName] and [GetUserName]: the name that the object keeps, or the one that the
    identity management knows. *)
Definition cachedName (ctx : Ctx) (kept id : string) : error + string :=
  if negb (kept ==s "") then inr kept else userName ctx id.

(** The walk stops at the name of the approver, which is not exported. *)
Definition ApproverToAPI (ctx : Ctx) (approver : WorkflowApprover) : error + APIApprover :=
  let userID := san (wa_UserID approver) in
  name ← cachedName ctx (wa_userName approver) userID;
  inr (mkAPIApprover userID name
         match wa_Approved approver with
         | Some true => "APPROVED"
         | Some false => "REJECTED"
         | None => "PENDING"
         end).

Record WorkflowDetail := mkWorkflowDetail {
  dt_Approvers : option (list WorkflowApprover);
  dt_ApproverGroups : option (list Group);
  dt_Transitions : option (list string);
  dt_ApprovalSummary : option ApprovalSummary }.

(** A part of [WithDetailed], when it is given *)
Definition given {A} (part : WorkflowDetail → option A) (detail : option WorkflowDetail) : option A :=
  match detail with Some d => part d | None => None end.

Record APIWorkflow := mkAPIWorkflow {
  xw_ID : uuid;
  xw_InitiatorID : string;
  xw_InitiatorName : string;
  xw_State : string;
  xw_ActionType : string;
  xw_ArtifactType : string;
  xw_ArtifactName : option string;
  xw_ParametersResourceName : option string;
  xw_ParametersResourceType : option string;
  xw_ArtifactID : uuid;
  xw_Parameters : string;
  xw_FailureReason : string;
  xw_CreatedAt : Z;
  xw_AdditionalInfo : list AdditionalInfo;
  xw_ExpiresAt : option Z;
  xw_Decisions : option (list APIApprover);
  xw_ApproverGroups : option (list APIGroup);
  xw_AvailableTransitions : option (list string);
  xw_ApprovalSummary : option ApprovalSummary }.

Fixpoint ApproversToAPI (ctx : Ctx) (approvers : list WorkflowApprover) : error + list APIApprover :=
  match approvers with
  | [] => inr []
  | approver :: rest =>
      apiApprover ← ApproverToAPI ctx approver;
      decisions ← ApproversToAPI ctx rest;
      inr (apiApprover :: decisions)
  end.

Definition decisionsToAPI (ctx : Ctx) (approvers : option (list WorkflowApprover)) :
    error + option (list APIApprover) :=
  match approvers with
  | None => inr None
  | Some approvers => sum_map id Some (ApproversToAPI ctx approvers)
  end.

(** Of the fields that are presented, the walk reaches the state and the initiator; the
    others come after the unexported name of the initiator. *)
Definition workflow_ToAPI (ctx : Ctx) (w : Workflow) (eligibility : option WorkflowEligibility)
    (eligibilityErr : option error) (detail : option WorkflowDetail) : error + APIWorkflow :=
  let initiatorID := san (wf_InitiatorID w) in
  match cachedName ctx (wf_initiatorName w) initiatorID, decisionsToAPI ctx (given dt_Approvers detail) with
  | inl err, _ | _, inl err => inl err
  | inr initiatorName, inr decisions =>
      inr (mkAPIWorkflow (wf_ID w) initiatorID initiatorName (ToUpper (san (wf_State w)))
             (ToUpper (wf_ActionType w)) (ToUpper (wf_ArtifactType w)) (wf_ArtifactName w)
             (wf_ParametersResourceName w) (ToUpper <$> wf_ParametersResourceType w) (wf_ArtifactID w)
             (wf_Parameters w) (wf_FailureReason w) (wf_CreatedAt w)
             (buildEligibilityAdditionalInfo eligibility eligibilityErr) (wf_ExpiryDate w) decisions
             (List.map group_ToAPI <$> given dt_ApproverGroups detail) (given dt_Transitions detail)
             (given dt_ApprovalSummary detail))
  end.

(** * system.go *)

Record APISystem := mkAPISystem {
  xs_ID : uuid;
  xs_Identifier : string;
  xs_Region : string;
  xs_Properties : gmap string string;
  xs_Type : string;
  xs_KeyConfigurationID : option uuid;
  xs_KeyConfigurationName : option string;
  xs_TargetKeyConfigurationID : option uuid;
  xs_TargetKeyConfigurationName : option string;
  xs_Status : string;
  xs_UnderWorkflow : bool;
  xs_Error : option (string * string);
  xs_Workflow : option APIWorkflow }.

Definition orDefault (s byDefault : string) : string := if s ==s "" then byDefault else s.

(** [optionalProperties]: the properties that the configuration names; the workflow, with
    its detail, when [WithWorkflow] is given. *)
Definition system_ToAPI (ctx : Ctx) (optionalProperties : list string) (system : System)
    (withWorkflow : option (Workflow * WorkflowDetail)) : error + APISystem :=
  let properties := filter (λ kv : string * string, kv.1 ∈ optionalProperties)
                      (sanitisedMap san (s_Properties system)) in
  let status := san (s_Status system) in
  let metadata := if status ==s SystemStatusFAILED
                  then Some (orDefault (san (s_ErrorCode system)) DefaultErrorCode,
                             orDefault (san (s_ErrorMessage system)) DefaultErrorMessage)
                  else None in
  apiWorkflow ← (match withWorkflow with
                 | None => inr None
                 | Some (wf, detail) => sum_map id Some (workflow_ToAPI ctx wf None None (Some detail))
                 end : error + option APIWorkflow);
  inr (mkAPISystem (s_ID system) (san (s_Identifier system)) (san (s_Region system)) properties
         (san (s_Type system)) (s_KeyConfigurationID system) (san <$> s_KeyConfigurationName system)
         (s_TargetKeyConfigurationID system) (san <$> s_TargetKeyConfigurationName system) status
         (s_UnderWorkflow system) metadata apiWorkflow).

(** * keystore.go *)

(** A document as values of type [any] *)
Fixpoint anyValue (v : JSON) : Value :=
  match v with
  | JNull => GInterface None
  | JBool _ | JInt _ | JFloat => GInterface (Some (GScalar ""))
  | JString s => GInterface (Some (GString s))
  | JArray l => GInterface (Some (GSlice (anyValue <$> l)))
  | JObject l => GInterface (Some (GMap (Some ((λ kv, (kv.1, anyValue kv.2)) <$> l))))
  end.
Definition accessDataValue (m : option (gmap string JSON)) : Value :=
  GMap ((λ m, (λ kv : string * JSON, (kv.1, anyValue kv.2)) <$> range m) <$> m).
Definition managementValue (c : ManagementConfig) : Value := GStruct
  [(field "LocalityID", GString (mc_LocalityID c)); (field "CommonName", GString (mc_CommonName c));
   (field "AccessData", accessDataValue (mc_AccessData c))].
Definition cryptoValue (c : CryptoConfig) : Value := GStruct
  [(field "Subject", GString (cc_Subject c)); (field "AccessData", accessDataValue (cc_AccessData c))].
Definition regionValue (r : ConfigRegion) : Value := GStruct
  [(field "Name", GString (cr_Name r)); (field "TechnicalName", GString (cr_TechnicalName r))].
Definition keystoreValue (k : KeystoreConfig) : Value := GStruct
  [(field "RoleManagementConfig", managementValue (kc_RoleManagementConfig k));
   (field "KeyManagementConfig", managementValue (kc_KeyManagementConfig k));
   (field "CryptoAccessData",
     GMap ((λ m, (λ kv : string * CryptoConfig, (kv.1, cryptoValue kv.2)) <$> range m) <$> kc_CryptoAccessData k));
   (field "SupportedRegions", GSlice (regionValue <$> default [] (kc_SupportedRegions k)));
   (hiddenField "allowBYOK", GScalar "")].
Definition tenantKeystoresValue (k : TenantKeystores) : Value := GStruct
  [(field "BYOK", keystoreValue (tk_BYOK k)); (field "AllowBYOK", GScalar "");
   (field "HYOK", GStruct [(field "Provider", GSlice (GString <$> hk_Provider (tk_HYOK k)));
                           (field "Allow", GScalar "")])].

Record APITenantKeystore := mkAPITenantKeystore {
  xt_AllowBYOK : bool;
  xt_SupportedRegions : list (string * string);
  xt_Providers : list string;
  xt_AllowHYOK : bool }.

(** The whole configuration is sanitised, access data of the keystore included. *)
Definition keystores_ToAPI (keystore : TenantKeystores) : error + APITenantKeystore :=
  _ ← Sanitize (GPointer (Some (tenantKeystoresValue keystore)));
  inr (mkAPITenantKeystore (tk_AllowBYOK keystore)
         ((λ r, (san (cr_Name r), san (cr_TechnicalName r))) <$> default [] (kc_SupportedRegions (tk_BYOK keystore)))
         (san <$> hk_Provider (tk_HYOK keystore)) (hk_Allow (tk_HYOK keystore))).
End Presentation.
