(* ===== verification/Managers.v ===== *)
(** The managers put together, as internal/manager/base.go does: the key manager runs
    on the provider configurations of [Keystores], and the workflow lifecycle acts
    through the key, key-configuration and system managers. *)
From S2P Require Import Prelude Errs Json GoContext Model Store Batch Users KeyAccess Events JobHandlers.
From S2P Require Import KeyConfigs RegistryClient Systems KeyVersions Certificates TenantConfig Fsm.
From S2P Require Import Lifecycle Keys Keystores KeyRequests WorkflowManager WorkflowFacts.

Section Managers.
Context {NS : NewString} {O : Orbital} {Rg : Registry} {UP : UUIDParse} {US : UUIDString} {G : GoMaps}.
Context {NU : NewUUID} {PT : ParseTime} {E : CertificateEnv} {PC : PluginCatalog} {KE : KeyEnv}.

#[export] Instance keyServices : KeyServices := {|
  Keys.GetOrInitProvider := Keystores.GetOrInitProvider;
  Keys.NeedsDefaultKeystoreProvisioning _ := Keystores.NeedsDefaultKeystoreProvisioning;
  Keys.getCryptoCertificates ctx :=
    match Certificates.getCryptoCertificates ctx with
    | inl err => inl err
    | inr certs => inr ((λ c, (cl_Name c, CertificateSubject_String (cl_Subject c))) <$> certs)
    end;
  Keys.NewPluginProviderTransformer provider :=
    match KeyRequests.NewPluginProviderTransformer provider with
    | inl err => inl err
    | inr v => inr (ValidateKeyAccessData v)
    end;
  Keys.keyAsyncClient := ke_asyncClient |}.

#[export] Instance managersActions : Actions := {|
  KeyActions_Get := Keys.Get;
  KeyActions_UpdateKey ctx id enabled :=
    _ ← Keys.UpdateKey ctx id (mkKeyPatch None None (Some enabled) None); mret tt;
  KeyActions_Delete := Keys.KeyManager_Delete;
  Lifecycle.DeleteKeyConfigurationByID := KeyConfigs.DeleteKeyConfigurationByID;
  Lifecycle.UpdateKeyConfigurationByID ctx id primaryKeyID :=
    _ ← KeyConfigs.UpdateKeyConfigurationByID ctx id (mkKeyConfigurationPatch None None (Some primaryKeyID));
    mret tt;
  Lifecycle.LinkSystemAction ctx id keyConfigurationID :=
    _ ← Systems.LinkSystemAction ctx id keyConfigurationID; mret tt;
  Lifecycle.UnlinkSystemAction := Systems.UnlinkSystemAction |}.

(** The environment of the workflow manager, with the lookup of systems. *)
Definition managersEnv (env : ManagerEnv) : ManagerEnv := {|
  WorkflowManager.GetSystemByID _ id := Systems.GetSystemByID id;
  OptionalProperties := @OptionalProperties env;
  asyncClient := @asyncClient env;
  createNotification := @createNotification env;
  unmarshalIDs := @unmarshalIDs env;
  WorkflowManager.uuid_New := @WorkflowManager.uuid_New env |}.
End Managers.
