(* ===== verification/Controllers.v ===== *)
(** The REST controllers of internal/controllers/cmk, with the requests they read
    (internal/api/transform): what an endpoint checks before it calls a manager, which calls
    need an approval workflow instead, and which error a failure becomes.  The filters of the
    lists of workflows and systems are in [Filters], the key that a request describes in
    [KeyRequests], what is presented in [Presentation]. *)
From S2P Require Import Prelude Errs Json AuthzPolicies Authz Model Store Batch OData.
From S2P Require Import Users KeyAccess Events JobHandlers KeyConfigs Labels RegistryClient Systems.
From S2P Require Import KeyVersions Keys TenantConfig Certificates Keystores Groups Tenants.
From S2P Require Import Fsm Lifecycle WorkflowManager Filters Sanitise ApiErrors KeyRequests Presentation Managers GoContext.
#[local] Open Scope Z_scope.

Definition ErrUpdateNonBYOKKeyStatus :=
  New "manager.ErrUpdateNonBYOKKeyStatus" "key status update is only supported for byok".
Definition ErrGettingKeyConfig :=
  New "apierrors.ErrGettingKeyConfig" "failed to get key configurations".
Definition ErrTransformKeyConfigurationToAPI :=
  New "apierrors.ErrTransformKeyConfigurationToAPI" "failed to transform key configuration to API".
Definition ErrAPIInvalidProperty := New "transform.ErrAPIInvalidProperty" "field is invalid".
Definition ErrExpiryGreaterThanMaximum :=
  New "workflow.ErrExpiryGreaterThanMaximum" "expiry exceeds maximum".

(** * Responses *)

Inductive Entity :=
| EKey (k : APIKey)
| ESystem (s : APISystem)
| EKeyConfiguration (k : APIKeyConfiguration)
| EGroup (g : APIGroup)
| EGroupIAMExistence (iamIdentifier : string) (exists_ : bool)
| ELabel (key value : string)
| ETag (tag : string)
| EKeyVersion (v : APIKeyVersion)
| EImportParams (p : APIImportParams)
| ETenant (t : APITenant)
| EKeystores (k : APITenantKeystore)
| EWorkflowConfig (c : WorkflowConfig)
| EUserInfo (u : BusinessUserInfo)
| ERecoveryActions (a : SystemRecoveryAction)
| EFilters (f : SystemFilters)
| EWorkflow (w : APIWorkflow)
| EWorkflowStatus (exists_ required canCreate valid : bool) (details : option string).

Record APIResponse := mkAPIResponse {
  ar_Status : Z;
  ar_Values : list Entity;
  ar_Count : option Z }.

Definition presenting (status : Z) (entity : Entity) : APIResponse := mkAPIResponse status [entity] None.
Definition noContent : APIResponse := mkAPIResponse 204 [] None.

(** A list is counted when the request asks for it. *)
Definition listing (count : bool) (total : Z) (values : list Entity) : APIResponse :=
  mkAPIResponse 200 values (if count then Some total else None).

(** [transform.ToList], and the loops of the controllers that do the same *)
Fixpoint ToList {S A B} (toAPI : A → Comp S B) (items : list A) : Comp S (list B) :=
  match items with
  | [] => mret []
  | item :: rest =>
      apiResponse ← toAPI item;
      values ← ToList toAPI rest;
      mret (apiResponse :: values)
  end.

(** The paging parameters of a list request. *)
Definition paginationOf (skip top : option Z) (count : option bool) : Pagination :=
  mkPagination (default DefaultSkip skip) (default DefaultTop top) (default false count).

(** [c.pluginCatalog.IdentityManagement()] *)
Definition IdentityManagement {I : IDM} : error + unit :=
  match svcRegistry with
  | None => inl nilDereference
  | Some registry => registry
  end.

(** * Requests *)

(** [cmkapi.KeyPatch]: the fields that the manager reads, and [isPrimary], which only the
    controller reads. *)
Record KeyPatchBody := mkKeyPatchBody {
  kpb_IsPrimary : option bool;
  kpb_Patch : KeyPatch }.

(** [cmkapi.Group], [cmkapi.Label], [cmkapi.KeyConfiguration], [cmkapi.WorkflowBody] *)
Record GroupBody := mkGroupBody {
  gb_Name : string;
  gb_Role : string;
  gb_Description : option string }.
Record LabelBody := mkLabelBody {
  lb_Key : string;
  lb_Value : option string }.
Record KeyConfigurationBody := mkKeyConfigurationBody {
  kb_Name : string;
  kb_AdminGroupID : uuid;
  kb_Description : option string }.
Record WorkflowBody := mkWorkflowBody {
  wb_ActionType : string;
  wb_ArtifactType : string;
  wb_ArtifactID : uuid;
  wb_Parameters : option string;
  wb_ExpiresAt : option Z }.

Definition group_FromAPI (id : uuid) (apiGroup : GroupBody) (tenantID : string) : Group :=
  mkGroup id (gb_Name apiGroup) (default "" (gb_Description apiGroup)) (gb_Role apiGroup)
    (NewIAMIdentifier (gb_Name apiGroup) tenantID).

Definition label_FromAPI (id keyUUID : uuid) (apiKeyLabel : LabelBody) : error + KeyLabel :=
  if lb_Key apiKeyLabel ==s "" then inl (Wrapf ErrNameFieldMissingProperty "label name")
  else inr (mkKeyLabel id (lb_Key apiKeyLabel) (default "" (lb_Value apiKeyLabel)) keyUUID).

Definition keyConfiguration_FromAPI {UP : UUIDParse} {US : UUIDString} (id : uuid)
    (apiConfig : KeyConfigurationBody) : error + KeyConfiguration :=
  if kb_Name apiConfig ==s "" then inl (Wrapf ErrNameFieldMissingProperty "name")
  else if N.eqb (kb_AdminGroupID apiConfig) uuid_Nil then inl (Wrapf ErrNameFieldMissingProperty "adminGroupID")
  else
    match uuid_Parse (uuid_String (kb_AdminGroupID apiConfig)) with
    | inl _ => inl (Wrapf ErrAPIInvalidProperty "adminGroupID must be UUID string")
    | inr _ =>
        inr (mkKeyConfiguration id (kb_Name apiConfig) (default "" (kb_Description apiConfig))
               (kb_AdminGroupID apiConfig) (mkGroup uuid_Nil "" "" "" "") "" None 0 0)
    end.

(** The clock does not move between the two readings of [time.Now()]. *)
Definition workflow_FromAPI {NU : NewUUID} (ctx : Ctx) (apiWorkflow : WorkflowBody)
    (defaultExpiryPeriod maxExpiryPeriod : Z) : Comp World Workflow :=
  w ← get;
  let defaultExpiryDate := w_now w + defaultExpiryPeriod * day in
  let maxExpiryDate := w_now w + maxExpiryPeriod * day in
  let expiryDate := default defaultExpiryDate (wb_ExpiresAt apiWorkflow) in
  if maxExpiryDate <? expiryDate then fail ErrExpiryGreaterThanMaximum else
  businessUserData ← lift (ExtractBusinessUserData ctx);
  mret (mkWorkflow 0 (KeyVersions.uuid_New w) "" (Identifier businessUserData) "" [] None
          (ToUpper (wb_ArtifactType apiWorkflow)) (wb_ArtifactID apiWorkflow) None
          (ToUpper (wb_ActionType apiWorkflow)) (default "" (wb_Parameters apiWorkflow)) None None ""
          (Some expiryDate) 0).

(** An error value is replaced, a panic is not. *)
Definition replacing (base e : error) : error := match e with Panic _ => e | _ => base end.

Section Controllers.
Context {F : FSM} {UP : UUIDParse} {NS : NewString} {Dp : Deployment} {I : IDM} {Env : ManagerEnv}.
Context {O : Orbital} {Rg : Registry} {US : UUIDString} {SI : SystemInformation} {G : GoMaps}.
Context {NU : NewUUID} {PT : ParseTime} {E : CertificateEnv} {PC : PluginCatalog} {KE : KeyEnv} {P : Policy}.

(** * key_controller.go *)

Definition presentKey (k : Key) : Comp World APIKey :=
  map_err (wrapping ErrTransformKeyToAPI) (lift (key_ToAPI k)).

Definition PostKeys (ctx : Ctx) (body : KeyBody) : Comp World APIResponse :=
  provider ← match ak_Provider body with
             | Some provider => mret provider
             | None =>
                 if ak_Type body ==s KeyTypeHYOK
                 then fail (wrapping ErrTransformKeyFromAPI keyshared_ErrProviderIsRequired)
                 else map_err (wrapping ErrDefaultKeystoreNotFound) GetDefaultKeystoreFromCatalog
             end;
  let body := set_ak_Provider provider body in
  providerTransformer ← map_err (wrapping ErrTransformKeyFromAPI)
    (lift (KeyRequests.NewPluginProviderTransformer provider));
  dbKey ← map_err (wrapping ErrTransformKeyFromAPI) (key_FromAPI body providerTransformer);
  dbKey ← map_err (wrapping ErrCreateKey) (KeyManager_Create ctx dbKey);
  dbKey ← map_err (wrapping ErrCreateKey) (Keys.Get ctx (k_ID dbKey));
  cmkAPIKey ← presentKey dbKey;
  mret (presenting 201 (EKey cmkAPIKey)).

Definition controller_GetKeys (ctx : Ctx) (keyConfigID : uuid) (skip top : option Z) (count : option bool) :
    Comp World APIResponse :=
  let pagination := paginationOf skip top count in
  found ← map_err (wrapping ErrQueryKeyList) (Keys.GetKeys ctx keyConfigID pagination);
  let '(keys, total) := found in
  values ← ToList presentKey keys;
  mret (listing (PCount pagination) total (EKey <$> values)).

Definition isPrimaryKeyDeletion (ctx : Ctx) (keyID : uuid) : Comp World bool :=
  key ← Keys.Get ctx keyID;
  mret (k_IsPrimary key).

Definition isPrimaryKeyStateUpdate (ctx : Ctx) (keyID : uuid) (body : KeyPatchBody) : Comp World bool :=
  match kpt_Enabled (kpb_Patch body) with
  | None => mret false
  | Some _ =>
      key ← Keys.Get ctx keyID;
      if negb (k_KeyType key ==s KeyTypeBYOK) then fail ErrUpdateNonBYOKKeyStatus
      else mret (k_IsPrimary key)
  end.

(** The check that several endpoints make: [required, err := IsWorkflowRequired(ctx)] and
    [ErrActionRequireWorkflow] when it is. *)
Definition refuseIfRequired (ctx : Ctx) : Comp World unit :=
  required ← IsWorkflowRequired ctx;
  if required : bool then fail ErrActionRequireWorkflow else mret tt.

Definition DeleteKeysKeyID (ctx : Ctx) (keyID : uuid) : Comp World APIResponse :=
  primary ← isPrimaryKeyDeletion ctx keyID;
  _ ← (if primary : bool then refuseIfRequired ctx else mret tt);
  _ ← map_err (wrapping ApiErrors.ErrDeleteKey) (KeyManager_Delete ctx keyID);
  mret noContent.

Definition GetKeysKeyID (ctx : Ctx) (keyID : uuid) : Comp World APIResponse :=
  dbKey ← Keys.Get ctx keyID;
  cmkAPIKey ← presentKey dbKey;
  mret (presenting 200 (EKey cmkAPIKey)).

Definition controller_UpdateKey (ctx : Ctx) (keyID : uuid) (body : KeyPatchBody) : Comp World APIResponse :=
  isPrimaryKeyStateUpdate ← isPrimaryKeyStateUpdate ctx keyID body;
  _ ← (if default false (kpb_IsPrimary body) || isPrimaryKeyStateUpdate then refuseIfRequired ctx else mret tt);
  dbKey ← map_err (wrapping ErrUpdateKey) (Keys.UpdateKey ctx keyID (kpb_Patch body));
  cmkAPIKey ← presentKey dbKey;
  mret (presenting 200 (EKey cmkAPIKey)).

Definition GetKeyImportParams (ctx : Ctx) (keyID : uuid) : Comp World APIResponse :=
  importParams ← Keys.GetImportParams ctx keyID;
  mret (presenting 200 (EImportParams (importParams_ToAPI importParams))).

Definition controller_ImportKeyMaterial (ctx : Ctx) (keyID : uuid) (wrappedKeyMaterial : string) :
    Comp World APIResponse :=
  dbKey ← Keys.ImportKeyMaterial ctx keyID wrappedKeyMaterial;
  cmkAPIKey ← presentKey dbKey;
  mret (presenting 201 (EKey cmkAPIKey)).

(** * keyversion_controller.go *)

Definition controller_GetKeyVersions (ctx : Ctx) (keyID : uuid) (skip top : option Z) (count : option bool) :
    Comp World APIResponse :=
  let pagination := paginationOf skip top count in
  _ ← Keys.Get ctx keyID;
  latest ← try_ (GetLatestVersion keyID);
  latestVersion ← match latest with
                  | inr v => mret (Some v)
                  | inl err => if errors_Is err ErrNoKeyVersionsFound then mret None
                               else fail ErrQueryKeyVersionList
                  end;
  found ← map_err (replacing ErrQueryKeyVersionList) (KeyVersions.GetKeyVersions keyID pagination);
  let '(keyVersions, total) := found in
  match latestVersion, keyVersions with
  | None, _ | _, [] => mret (listing (default false count) 0 [])
  | Some latest, _ =>
      mret (listing (default false count) total ((λ kv, EKeyVersion (keyVersion_ToAPI kv (kv_ID latest) (kv_Status kv))) <$> keyVersions))
  end.

(** * key_labels_controller.go *)

Definition controller_GetKeyLabels (keyID : uuid) (skip top : option Z) (count : option bool) :
    Comp World APIResponse :=
  found ← map_err (wrapping ErrGetKeyLabels) (Labels.GetKeyLabels keyID (paginationOf skip top count));
  let '(labels, total) := found in
  values ← map_err (wrapping ErrTransformLabelList) (ToList (λ label, lift (label_ToAPI label)) labels);
  mret (listing (default false count) total ((λ l, ELabel l.1 l.2) <$> values)).

(** Each label comes with the identifier that [uuid.New()] gives it. *)
Definition CreateOrUpdateLabels (keyID : uuid) (body : list (uuid * LabelBody)) : Comp World APIResponse :=
  match body with [] => fail ErrEmptyInputLabel | _ =>
  labels ← fold_each (λ labels labelReq,
      label ← map_err (wrapping ErrTransformLabelFromAPI) (lift (label_FromAPI labelReq.1 keyID labelReq.2));
      mret (labels ++ [label])) [] body;
  _ ← map_err (wrapping ErrUpdateLabel) (CreateOrUpdateLabel keyID labels);
  mret noContent
  end.

Definition controller_DeleteLabel (keyID : uuid) (labelName : string) : Comp World APIResponse :=
  ok ← map_err (wrapping ErrDeleteLabel) (Labels.DeleteLabel keyID labelName);
  if ok : bool then mret noContent else fail ErrLabelNotFound.

(** * keyconfiguration_controller.go, keyconfiguration_tags_controller.go *)

Definition controller_GetKeyConfigurations (ctx : Ctx) (skip top : option Z) (count expandGroup : option bool) :
    Comp World APIResponse :=
  let pagination := paginationOf skip top count in
  found ← map_err (wrapping ErrGettingKeyConfig)
    (KeyConfigs.GetKeyConfigurations ctx (mkKeyConfigFilter (default false expandGroup) pagination));
  let '(keyConfigs, total) := found in
  _ ← lift IdentityManagement;
  values ← map_err (wrapping ErrTransformKeyConfigurationList) (ToList (keyConfiguration_ToAPI ctx) keyConfigs);
  mret (listing (PCount pagination) total (EKeyConfiguration <$> values)).

(** The error of the missing user comes first in [errs.Wrap(err, ErrBusinessUserDataInvalid)]. *)
Definition controller_PostKeyConfigurations (ctx : Ctx) (body : KeyConfigurationBody) :
    Comp World APIResponse :=
  w ← get;
  keyConfig ← map_err (wrapping ErrTransformKeyConfigurationFromAPI)
    (lift (keyConfiguration_FromAPI (KeyVersions.uuid_New w) body));
  businessUserData ← map_err (λ err, Wrap err (Some ErrBusinessUserDataInvalid))
    (lift (ExtractBusinessUserData ctx));
  let keyConfig := mkKeyConfiguration (kc_ID keyConfig) (kc_Name keyConfig) (kc_Description keyConfig)
    (kc_AdminGroupID keyConfig) (kc_AdminGroup keyConfig) (Identifier businessUserData)
    (kc_PrimaryKeyID keyConfig) (kc_TotalKeys keyConfig) (kc_TotalSystems keyConfig) in
  keyConfig ← KeyConfigs.PostKeyConfigurations ctx keyConfig;
  _ ← map_err (wrapping ErrGettingKeyConfig) (lift IdentityManagement);
  response ← map_err (wrapping ErrTransformKeyConfigurationToAPI) (keyConfiguration_ToAPI ctx keyConfig);
  mret (presenting 201 (EKeyConfiguration response)).

Definition controller_DeleteKeyConfigurationByID (ctx : Ctx) (keyConfigID : uuid) : Comp World APIResponse :=
  _ ← KeyConfigs.DeleteKeyConfigurationByID ctx keyConfigID;
  mret noContent.

Definition controller_GetKeyConfigurationByID (ctx : Ctx) (keyConfigID : uuid) : Comp World APIResponse :=
  keyConfig ← KeyConfigs.GetKeyConfigurationByID ctx keyConfigID;
  _ ← lift IdentityManagement;
  response ← map_err (wrapping ErrTransformKeyConfigurationToAPI) (keyConfiguration_ToAPI ctx keyConfig);
  mret (presenting 200 (EKeyConfiguration response)).

Definition controller_UpdateKeyConfigurationByID (ctx : Ctx) (keyConfigID : uuid)
    (body : KeyConfigurationPatch) : Comp World APIResponse :=
  _ ← match kp_PrimaryKeyID body with
      | None => mret tt
      | Some primaryKeyID =>
          required ← IsWorkflowRequired ctx;
          if negb required then mret tt else
          kc ← KeyConfigs.GetKeyConfigurationByID ctx keyConfigID;
          match kc_PrimaryKeyID kc with
          | Some current =>
              if negb (N.eqb current primaryKeyID) then fail ErrActionRequireWorkflow else mret tt
          | None => mret tt
          end
      end;
  keyConfig ← KeyConfigs.UpdateKeyConfigurationByID ctx keyConfigID body;
  _ ← lift IdentityManagement;
  response ← map_err (wrapping ErrTransformKeyConfigurationToAPI) (keyConfiguration_ToAPI ctx keyConfig);
  mret (presenting 200 (EKeyConfiguration response)).

Definition GetTagsForKeyConfiguration (keyConfigID : uuid) (count : option bool) : Comp World APIResponse :=
  tags ← map_err (wrapping ErrGettingTagsByKeyConfigurationID) (GetTags keyConfigID);
  mret (listing (default false count) (Z.of_nat (length tags)) ((λ tag, ETag (san tag)) <$> tags)).

Definition AddTagsToKeyConfiguration (keyConfigID : uuid) (tags : list string) : Comp World APIResponse :=
  _ ← map_err (wrapping ErrCreatingTags) (SetTags keyConfigID tags);
  mret noContent.

(** * group_controller.go *)

Definition controller_GetGroups (ctx : Ctx) (skip top : option Z) (count : option bool) :
    Comp World APIResponse :=
  let pagination := paginationOf skip top count in
  found ← Groups.GetGroups ctx pagination;
  let '(groups, total) := found in
  mret (listing (PCount pagination) total ((λ g, EGroup (group_ToAPI g)) <$> groups)).

Definition controller_CreateGroup (ctx : Ctx) (body : GroupBody) : Comp World APIResponse :=
  if negb (gb_Role body ==s KeyAdminRole) then fail ErrGroupRole else
  tenantID ← lift (ExtractTenantID ctx);
  w ← get;
  group ← Groups.CreateGroup (group_FromAPI (KeyVersions.uuid_New w) body tenantID);
  mret (presenting 201 (EGroup (group_ToAPI group))).

Definition controller_DeleteGroupByID (ctx : Ctx) (groupID : uuid) : Comp World APIResponse :=
  _ ← Groups.DeleteGroupByID ctx groupID;
  mret noContent.

Definition controller_GetGroupByID (ctx : Ctx) (groupID : uuid) : Comp World APIResponse :=
  group ← Groups.GetGroupByID ctx groupID;
  mret (presenting 200 (EGroup (group_ToAPI group))).

Definition controller_UpdateGroup (ctx : Ctx) (groupID : uuid) (body : GroupPatch) : Comp World APIResponse :=
  group ← Groups.UpdateGroup ctx groupID body;
  mret (presenting 200 (EGroup (group_ToAPI group))).

Definition CheckGroupsIAM (ctx : Ctx) (iamIdentifiers : list string) : Comp World APIResponse :=
  result ← lift (CheckIAMExistenceOfGroups ctx iamIdentifiers);
  mret (listing false 0 ((λ v, EGroupIAMExistence v.1 v.2) <$> result)).

(** * tenant_controller.go, tenantconfigs_controller.go, userinfo_controller.go *)

Definition GetTenants (ctx : Ctx) (skip top : option Z) (count : option bool) : Comp World APIResponse :=
  let pagination := paginationOf skip top count in
  issuer ← lift (ExtractBusinessUserDataIssuer ctx);
  found ← map_err (wrapping manager_ErrListTenants) (ListTenantInfo (Some issuer) pagination);
  let '(tenants, total) := found in
  mret (listing (PCount pagination) total ((λ t, ETenant (tenant_ToAPI t)) <$> tenants)).

Definition GetTenantInfo (ctx : Ctx) : Comp World APIResponse :=
  currentTenant ← Tenants.GetTenant ctx;
  mret (presenting 200 (ETenant (tenant_ToAPI currentTenant))).

Definition GetTenantKeystores : Comp World APIResponse :=
  dbKeystore ← map_err (wrapping ApiErrors.ErrGetDefaultKeystore) GetTenantsKeystores;
  apiDefaultKeystore ← lift (keystores_ToAPI dbKeystore);
  mret (presenting 200 (EKeystores apiDefaultKeystore)).

Definition GetTenantWorkflowConfiguration (ctx : Ctx) : Comp World APIResponse :=
  workflowConfig ← map_err (wrapping ApiErrors.ErrGetWorkflowConfig) (GetWorkflowConfig ctx);
  mret (presenting 200 (EWorkflowConfig workflowConfig)).

Definition UpdateTenantWorkflowConfiguration (ctx : Ctx) (body : option TenantWorkflowConfiguration) :
    Comp World APIResponse :=
  savedConfig ← map_err (wrapping ApiErrors.ErrSetWorkflowConfig) (UpdateWorkflowConfig ctx body);
  mret (presenting 200 (EWorkflowConfig savedConfig)).

Definition GetUserInfo (ctx : Ctx) : Comp World APIResponse :=
  userInfo ← GetBusinessUserInfo ctx;
  mret (presenting 200 (EUserInfo userInfo)).

(** * system_controller.go *)

(** [errs.Wrapf(nil, "error finding workflow")] *)
Definition errNoWorkflow : error := External "%!w(<nil>): error finding workflow".

Definition presentSystem (ctx : Ctx) (sys : System) (withWorkflow : option (Workflow * WorkflowDetail)) :
    Comp World APISystem :=
  lift (system_ToAPI ctx OptionalSystemProperties sys withWorkflow).

Definition GetAllSystems (ctx : Ctx) (getSystemsWithFilter : SystemFilter → error + list System)
    (params : ListParams) : Comp World (bool * APIResponse) :=
  found ← controller_GetAllSystems ctx getSystemsWithFilter params;
  let '(refreshed, (systems, total)) := found in
  values ← map_err (wrapping ErrTransformSystemList) (ToList (λ sys, presentSystem ctx sys None) systems);
  mret (refreshed, listing (default false (lp_Count params)) total (ESystem <$> values)).

Definition handleSystemUnderWorkflow (ctx : Ctx) (sys : System) : Comp World APISystem :=
  found ← try_ (WorkflowManager.GetWorkflows ctx (mkFilter "" WorkflowArtifactTypeSystem (s_ID sys) "" "" "" 0 0 false));
  match found with
  | inl err => fail (Wrapf err "error finding workflow")
  | inr ([], _) => fail errNoWorkflow
  | inr (wf :: _, _) =>
      approversCount ← ListWorkflowApprovers ctx (wf_ID wf) true (mkPagination 0 0 false);
      let approvers := approversCount.1 in
      approverGroups ← GetWorkflowApproverGroups ctx wf;
      user ← GetBusinessUserInfo ctx;
      let isApprover := existsb (λ e, wa_UserID e ==s ui_Identifier user) approvers in
      _ ← lift IdentityManagement;
      if negb (ui_Identifier user ==s wf_InitiatorID wf) && negb isApprover
      then presentSystem ctx sys (Some (wf, mkWorkflowDetail None (Some approverGroups) None None))
      else
        transitions ← GetWorkflowAvailableTransitions ctx wf;
        approvalSummary ← GetWorkflowApprovalSummary ctx wf;
        presentSystem ctx sys
          (Some (wf, mkWorkflowDetail (Some approvers) (Some approverGroups) (Some transitions) (Some approvalSummary)))
  end.

Definition controller_GetSystemByID (ctx : Ctx) (systemID : uuid) : Comp World APIResponse :=
  sys ← Systems.GetSystemByID systemID;
  systemResponse ← map_err (wrapping ErrTransformSystemToAPI)
    (if s_UnderWorkflow sys then handleSystemUnderWorkflow ctx sys else presentSystem ctx sys None);
  mret (presenting 200 (ESystem systemResponse)).

Definition controller_LinkSystemAction (ctx : Ctx) (systemID keyConfigurationID : uuid) :
    Comp World APIResponse :=
  _ ← refuseIfRequired ctx;
  dbSystem ← Systems.LinkSystemAction ctx systemID keyConfigurationID;
  systemResponse ← map_err (wrapping ErrTransformSystemToAPI) (presentSystem ctx dbSystem None);
  mret (presenting 200 (ESystem systemResponse)).

Definition controller_UnlinkSystemAction (ctx : Ctx) (systemID : uuid) : Comp World APIResponse :=
  _ ← refuseIfRequired ctx;
  _ ← Systems.UnlinkSystemAction ctx systemID "";
  mret noContent.

Definition controller_GetRecoveryActions (ctx : Ctx) (systemID : uuid) : Comp World APIResponse :=
  actions ← Systems.GetRecoveryActions ctx systemID;
  mret (presenting 200 (ERecoveryActions actions)).

Definition controller_SendRecoveryActions (ctx : Ctx) (systemID : uuid) (action : string) :
    Comp World APIResponse :=
  _ ← Systems.SendRecoveryActions ctx systemID action;
  mret (mkAPIResponse 200 [] None).

Definition controller_GetFilters : Comp World APIResponse :=
  filters ← Systems.GetFilters;
  mret (presenting 200 (EFilters filters)).

(** * workflow_controller.go *)

Definition GetWorkflows (ctx : Ctx) (params : ListParams) : Comp World APIResponse :=
  found ← controller_GetWorkflows ctx params;
  let '(workflows, count) := found in
  _ ← lift IdentityManagement;
  values ← map_err (wrapping ErrGetWorkflow) (ToList (λ w, lift (workflow_ToAPI ctx w None None None)) workflows);
  mret (listing (default false (lp_Count params)) count (EWorkflow <$> values)).

Definition controller_CheckWorkflow (ctx : Ctx) (body : WorkflowBody) : Comp World APIResponse :=
  workflowConfig ← map_err (wrapping ErrTransformWorkflowFromAPI) (getWorkflowConfig ctx);
  workflow ← map_err (wrapping ErrTransformWorkflowFromAPI)
    (workflow_FromAPI ctx body (DefaultExpiryPeriodDays workflowConfig) (MaxExpiryPeriodDays workflowConfig));
  status ← CheckWorkflow ctx workflow;
  let details := match st_ErrDetails status with
                 | None => None
                 | Some err =>
                     if errors_Is err ErrWorkflowGroupNotSufficientMembers
                     then Some WorkflowGroupNotSufficientMembers
                     else Some (Error err)
                 end in
  mret (presenting 200 (EWorkflowStatus (st_Exists status) (st_Enabled status) (st_CanCreate status)
                          (st_Valid status) details)).

Definition controller_CreateWorkflow (ctx : Ctx) (body : WorkflowBody) : Comp World APIResponse :=
  workflowConfig ← map_err (wrapping ErrTransformWorkflowFromAPI) (getWorkflowConfig ctx);
  workflow ← map_err (wrapping ErrTransformWorkflowFromAPI)
    (workflow_FromAPI ctx body (DefaultExpiryPeriodDays workflowConfig) (MaxExpiryPeriodDays workflowConfig));
  workflow ← CreateWorkflow ctx workflow;
  _ ← lift IdentityManagement;
  apiWorkflow ← map_err (wrapping ErrTransformWorkflowToAPI) (lift (workflow_ToAPI ctx workflow None None None));
  mret (presenting 201 (EWorkflow apiWorkflow)).

Definition controller_GetWorkflowByID (ctx : Ctx) (workflowID : uuid) : Comp World APIResponse :=
  found ← findWorkflowByID ctx workflowID;
  let '(workflow, eligibility) := found in
  _ ← match eligibility with
      | inl err => if IsAnyError err [ErrCheckWorkflowEligibility] then mret tt else fail err
      | inr _ => mret tt
      end;
  approversCount ← ListWorkflowApprovers ctx workflowID true (mkPagination 0 0 false);
  approverGroups ← GetWorkflowApproverGroups ctx workflow;
  transitions ← GetWorkflowAvailableTransitions ctx workflow;
  approvalSummary ← GetWorkflowApprovalSummary ctx workflow;
  _ ← lift IdentityManagement;
  apiWorkflow ← lift (workflow_ToAPI ctx workflow
    (match eligibility with inl _ => None | inr e => Some e end)
    (match eligibility with inl err => Some err | inr _ => None end)
    (Some (mkWorkflowDetail (Some approversCount.1) (Some approverGroups) (Some transitions) (Some approvalSummary))));
  mret (presenting 200 (EWorkflow apiWorkflow)).

Definition controller_TransitionWorkflow (ctx : Ctx) (workflowID : uuid) (transition : string) :
    Comp World APIResponse :=
  workflow ← map_err (wrapping ErrWorkflowCannotTransition) (TransitionWorkflow ctx workflowID transition);
  _ ← lift IdentityManagement;
  apiWorkflow ← map_err (wrapping ErrTransformWorkflowToAPI) (lift (workflow_ToAPI ctx workflow None None None));
  mret (presenting 200 (EWorkflow apiWorkflow)).
End Controllers.
