(* ===== verification/Tasks.v ===== *)
(** The asynchronous tasks: payloads (utils/async), the schedule (internal/config/tasks.go and
    internal/async/scheduler_task_config.go), the worker with its batches and child tasks
    (internal/async) and the processors (internal/async/tasks).

    A task works on the tables of all tenants ([Fleet]); the worker also puts tasks on the
    queue, so its state is the two together.  The queue library and its retries are outside
    the repository: a task is one call of its handler.  The processor that sends
    notifications is not part of the model. *)
From S2P Require Import Prelude Errs Json AuthzPolicies Authz Model Store Batch.
From S2P Require Import Users KeyAccess Events JobHandlers KeyConfigs RegistryClient Systems KeyVersions.
From S2P Require Import Keys TenantConfig Certificates Keystores Groups Tenants Fsm Lifecycle WorkflowManager KeyRequests Managers GoContext.
#[local] Open Scope Z_scope.

(** * utils/async *)

Definition ErrParsingPayload := New "async.ErrParsingPayload" "could not parse task payload".

(** The bytes of a payload: none, a text that is no JSON document, or what [json.Marshal]
    writes for a [TaskPayload] or a [TenantListPayload]. *)
Inductive Payload :=
| NilPayload
| TextPayload (s : string)
| TaskDoc (TenantID : string) (BusinessData : ClientData) (Data : Payload)
| TenantsDoc (TenantIDs : list string).

Record TaskPayload := mkTaskPayload {
  tp_TenantID : string;
  tp_BusinessData : ClientData;
  tp_Data : Payload }.

Definition ClientData_zero : ClientData := mkClientData "" "" "" "" [] ∅.

Definition NewTaskPayload (ctx : Ctx) (data : Payload) : TaskPayload :=
  mkTaskPayload
    (match ExtractTenantID ctx with inr tenantID => tenantID | inl _ => "" end)
    (match ExtractBusinessUserData ctx with inr d => d | inl _ => ClientData_zero end)
    data.

(** [json.Unmarshal] into a struct: members of other names are ignored. *)
Definition invalidJSON : error := External "invalid JSON".
Definition ParseTaskPayload (payload : Payload) : error + TaskPayload :=
  match payload with
  | NilPayload | TextPayload _ => inl (Wrap ErrParsingPayload (Some invalidJSON))
  | TaskDoc tenantID businessData data => inr (mkTaskPayload tenantID businessData data)
  | TenantsDoc _ => inr (mkTaskPayload "" ClientData_zero NilPayload)
  end.

Definition InjectContext (p : TaskPayload) (ctx : Ctx) : Ctx :=
  let ctx := if tp_TenantID p ==s "" then ctx else CreateTenantContext ctx (tp_TenantID p) in
  mkCtx (ctx_tenant ctx) (ctx_requestID ctx) (Some InternalUser) (Some (tp_BusinessData p))
    (ctx_internalUserData ctx).

Definition TaskPayload_ToBytes (p : TaskPayload) : Payload :=
  TaskDoc (tp_TenantID p) (tp_BusinessData p) (tp_Data p).

Definition ParseTenantListPayload (payload : Payload) : error + list string :=
  match payload with
  | NilPayload | TextPayload _ => inl (Wrap ErrParsingPayload (Some invalidJSON))
  | TaskDoc _ _ _ => inr []
  | TenantsDoc tenantIDs => inr tenantIDs
  end.

(** * The schedule *)

Definition TypeSystemsTask : string := "sys:refresh".
Definition TypeCertificateTask : string := "cert:rotate".
Definition TypeHYOKSync : string := "key:sync".
Definition TypeKeystorePool : string := "keystore:fill".
Definition TypeWorkflowAutoAssign : string := "workflow:auto-assign".
Definition TypeWorkflowCleanup : string := "workflow:cleanup".
Definition TypeWorkflowExpire : string := "workflow:expire".
Definition TypeTenantRefreshName : string := "tenant:refresh-name".

Definition ErrNonDefinedTaskType := New "config.ErrNonDefinedTaskType" "task type is unknown".
Definition ErrRepeatedTaskType :=
  New "config.ErrRepeatedTaskType" "task type is specified more than once".

Definition minute : Z := 60000000000.

(** [config.FanOutTask] *)
Record FanOutConfig := mkFanOutConfig {
  fo_Enabled : bool;
  fo_Retries : option Z;
  fo_TimeOut : Z }.

(** [config.Task] *)
Record TaskConfig := mkTaskConfig {
  tk_Enabled : option bool;
  tk_Cronspec : string;
  tk_TaskType : string;
  tk_Retries : option Z;
  tk_TimeOut : Z;
  tk_FanOutTask : option FanOutConfig }.

Definition TaskConfig_zero : TaskConfig := mkTaskConfig None "" "" None 0 None.

Definition defaultRetryCount : Z := 3.
Definition periodic (cronspec : string) : TaskConfig :=
  mkTaskConfig (Some true) cronspec "" (Some defaultRetryCount) 0 None.

Definition PeriodicTasks : gmap string TaskConfig := list_to_map [
  (TypeSystemsTask, periodic "0 * * * *");
  (TypeHYOKSync, mkTaskConfig (Some true) "*/5 * * * *" "" (Some defaultRetryCount) (5 * minute)
     (Some (mkFanOutConfig true (Some 0) (5 * minute))));
  (TypeKeystorePool, periodic "0 * * * *");
  (TypeCertificateTask, periodic "0 0 * * *");
  (TypeWorkflowExpire, periodic "0 1 * * *");
  (TypeWorkflowCleanup, periodic "0 2 * * *");
  (TypeTenantRefreshName, periodic "0 3 * * *")].

(** [Scheduler.Validate]: the configured types are known and occur once. *)
Fixpoint validateTasks (checkedTasks : list string) (tasks : list TaskConfig) : option error :=
  match tasks with
  | [] => None
  | task :: rest =>
      match PeriodicTasks !! tk_TaskType task with
      | None => Some ErrNonDefinedTaskType
      | Some _ =>
          if tk_TaskType task ∈? checkedTasks then Some ErrRepeatedTaskType
          else validateTasks (tk_TaskType task :: checkedTasks) rest
      end
  end.
Definition Scheduler_Validate (tasks : list TaskConfig) : option error := validateTasks [] tasks.

(** The map that [GetTasks] returns, filled when the configuration is loaded. *)
Definition taskMap (tasks : list TaskConfig) : gmap string TaskConfig :=
  foldl (λ m task, <[tk_TaskType task := task]> m) ∅ tasks.

Definition overrideTask (tasks : gmap string TaskConfig) (cfg : TaskConfig) : gmap string TaskConfig :=
  let def := default TaskConfig_zero (tasks !! tk_TaskType cfg) in
  <[tk_TaskType cfg :=
      mkTaskConfig
        (match tk_Enabled cfg with Some e => Some e | None => tk_Enabled def end)
        (if tk_Cronspec cfg ==s "" then tk_Cronspec def else tk_Cronspec cfg)
        (tk_TaskType def)
        (match tk_Retries cfg with Some r => Some r | None => tk_Retries def end)
        (tk_TimeOut def)
        (match tk_FanOutTask cfg with Some o => Some o | None => tk_FanOutTask def end)]> tasks.

Inductive TaskOpt := MaxRetry (n : Z) | Timeout (d : Z).

Record Task := mkTask {
  task_Type : string;
  task_Payload : Payload;
  task_Opts : list TaskOpt }.

Definition timeoutOpts (timeOut : Z) : list TaskOpt := if 0 <? timeOut then [Timeout timeOut] else [].

(** [GetConfigs]: a schedule with the task it starts. *)
Definition GetConfigs `{!GoMaps} (tasks : list TaskConfig) : list (string * Task) :=
  let scheduled := List.filter (λ '(_, cfg), default true (tk_Enabled cfg))
    (range (foldl overrideTask PeriodicTasks tasks)) in
  (λ '(name, cfg),
     (tk_Cronspec cfg,
      mkTask name NilPayload (MaxRetry (default 0 (tk_Retries cfg)) :: timeoutOpts (tk_TimeOut cfg))))
  <$> scheduled.

(** * The worker *)

Definition ErrEnqueueingTask := New "async.ErrEnqueueingTask" "enqueue task".
Definition ErrNilTask := New "async.ErrNilTask" "task is nil".

(** All tenants and the queue, newest last. *)
Record Worker := mkWorker {
  wk_fleet : Fleet;
  wk_queue : list Task }.
Definition set_wk_fleet (f : Fleet) (k : Worker) : Worker := mkWorker f (wk_queue k).
Definition onFleet {A} (m : Comp Fleet A) : Comp Worker A := zoom wk_fleet set_wk_fleet m.

(** The client of the queue. *)
Class TaskQueue := queue_EnqueueContext : Task → option error.

Definition ProcessFunc : Type := Ctx → Task → Comp Fleet unit.

(** [TaskHandler]; the handlers that are run for a selection of the tenants
    ([TenantTaskHandler]) have the condition of that selection. *)
Record TaskHandler := mkTaskHandler {
  TaskType : string;
  Role : string;
  ProcessTask : ProcessFunc;
  TenantQuery : option (Tenant → bool) }.

Section Worker.
Context {NS : NewString} {Q : TaskQueue}.

(** ** fanout.go *)

Definition FanOutTask (parentTask : Task) (payload : TaskPayload) (opts : list TaskOpt) : Comp Worker unit :=
  let childTask := mkTask (task_Type parentTask +:+ ":child") (TaskPayload_ToBytes payload) opts in
  match queue_EnqueueContext childTask with
  | Some err => fail (wrapping ErrEnqueueingTask err)
  | None => modify (λ k, mkWorker (wk_fleet k) (wk_queue k ++ [childTask]))
  end.

Definition TenantFanOut (ctx : Ctx) (task : Task) (f : ProcessFunc) : Comp Fleet unit :=
  payload ← lift (ParseTaskPayload (task_Payload task));
  ctx ← lift (InjectInternalUserData uuid_NewString ctx InternalTaskProcessingRole);
  f (CreateTenantContext ctx (tp_TenantID payload)) task.

Definition NewFanOutHandler (parent : TaskHandler) : TaskHandler :=
  mkTaskHandler (TaskType parent +:+ ":child") (Role parent)
    (λ ctx task, TenantFanOut ctx task (ProcessTask parent)) None.

(** ** batch_processor.go *)

Record BatchProcessor := mkBatchProcessor {
  bp_tenantQuery : Tenant → bool;
  bp_fanOutOpts : option (list TaskOpt) }.

Definition NewBatchProcessor : BatchProcessor := mkBatchProcessor (λ _, true) None.

(** What is done for one tenant of a batch, of which only the ID is read. *)
Definition processTenant (bp : BatchProcessor) (ctx : Ctx) (task : Task) (process : ProcessFunc)
    (tenantID : string) : Comp Worker unit :=
  let ctx := CreateTenantContext ctx tenantID in
  match bp_fanOutOpts bp with
  | None => _ ← try_ (onFleet (process ctx task)); mret tt
  | Some opts => FanOutTask task (NewTaskPayload ctx (task_Payload task)) opts
  end.

(** [ProcessInBatch] over the tenants with [DefaultLimit]; the fuel is one unit per tenant and
    one more. *)
Fixpoint tenantBatches (query : Query Tenant) (process : string → Comp Worker unit) (fuel : nat)
    (offset : Z) : Comp Worker unit :=
  match fuel with
  | O => fail (Panic "out of fuel")
  | S fuel =>
      let page := SetOffset offset (SetLimit DefaultLimit query) in
      tenants ← onFleet (onPublic false (List_ page));
      _ ← for_each (λ t, process (t_ID t)) tenants;
      match tenants with
      | [] => mret tt
      | _ =>
          count ← onFleet (onPublic false (Count page));
          if (count <=? offset + DefaultLimit)%Z then mret tt
          else tenantBatches query process fuel (offset + DefaultLimit)
      end
  end.

(** The condition on the tenants: the one of the processor and, when the payload names
    tenants, that they are among them. *)
Definition selected (bp : BatchProcessor) (tenantIDs : list string) (t : Tenant) : bool :=
  bp_tenantQuery bp t && match tenantIDs with [] => true | _ => t_ID t ∈? tenantIDs end.

(** The tenants that the payload of the task names. *)
Definition payloadTenantIDs (payload : Payload) : error + list string :=
  match payload with
  | NilPayload => inr []
  | _ => ParseTenantListPayload payload
  end.

Definition ProcessTenantsInBatch (bp : BatchProcessor) (ctx : Ctx) (asynqTask : option Task)
    (process : ProcessFunc) : Comp Worker unit :=
  ctx ← lift (InjectInternalUserData uuid_NewString ctx InternalTaskProcessingRole);
  match asynqTask with
  | None => fail ErrNilTask
  | Some task =>
      tenantIDs ← lift (payloadTenantIDs (task_Payload task));
      n ← gets (λ k, length (pub_tenants (f_public (wk_fleet k))));
      tenantBatches (where_ (selected bp tenantIDs)) (processTenant bp ctx task process) (S n) 0
  end.

(** ** async.go *)

(** The part of [App] that the worker reads: the configured tasks and the handlers. *)
Record App := mkApp {
  a_taskMap : gmap string TaskConfig;
  a_tasks : gmap string TaskHandler }.

Definition registerTask (a : App) (handler : TaskHandler) : App :=
  mkApp (a_taskMap a) (<[TaskType handler := handler]> (a_tasks a)).

(** The task has child tasks according to the configuration. *)
Definition fanOutConfig (a : App) (taskType : string) : option FanOutConfig :=
  match a_taskMap a !! taskType with
  | Some taskCfg =>
      match tk_FanOutTask taskCfg with
      | Some fanOut => if fo_Enabled fanOut then Some fanOut else None
      | None => None
      end
  | None => None
  end.

Definition RegisterTasks (a : App) (handlers : list TaskHandler) : App :=
  foldl (λ a handler,
    let a := registerTask a handler in
    match fanOutConfig a (TaskType handler), TenantQuery handler with
    | Some _, Some _ => registerTask a (NewFanOutHandler handler)
    | _, _ => a
    end) a handlers.

(** The options of the child tasks, when there are child tasks. *)
Definition getFanOutOpts (a : App) (taskType : string) : option (list TaskOpt) :=
  match fanOutConfig a taskType with
  | Some fanOut =>
      Some (match fo_Retries fanOut with Some n => [MaxRetry n] | None => [] end
            ++ timeoutOpts (fo_TimeOut fanOut))
  | None => None
  end.

(** The handler's own role is injected before it runs. *)
Definition wrappedProcessTask (handler : TaskHandler) : ProcessFunc := λ ctx task,
  ctx ← lift (InjectInternalUserData uuid_NewString ctx (Role handler));
  ProcessTask handler ctx task.

(** The function that [RunWorker] registers for a handler. *)
Definition handleTask (a : App) (handler : TaskHandler) (ctx : Ctx) (task : Task) : Comp Worker unit :=
  match TenantQuery handler with
  | Some query =>
      let processor :=
        match getFanOutOpts a (TaskType handler) with
        | Some opts => mkBatchProcessor query (Some opts)
        | None => NewBatchProcessor
        end in
      ProcessTenantsInBatch processor ctx (Some task) (wrappedProcessTask handler)
  | None => onFleet (wrappedProcessTask handler ctx task)
  end.
End Worker.

(** * The processors *)

Definition ErrRunningTask := New "tasks.ErrRunningTask" "task failed".

(** The registry's name of a tenant ([registry.Tenant().GetTenant]). *)
Class TenantDirectory := directory_GetTenantName : string → error + string.

(** A deferred function that recovers from a panic; the result is then nil. *)
Definition recovering {S} (recovery body : Comp S unit) : Comp S unit := λ s,
  match body s with
  | (s', inl (Panic _)) => recovery s'
  | r => r
  end.

(** [uuid.ParseBytes]; a JSON document of the worker is no UUID. *)
Definition uuid_ParseBytes `{!UUIDParse} (data : Payload) : error + uuid :=
  match data with
  | NilPayload => uuid_Parse ""
  | TextPayload s => uuid_Parse s
  | TaskDoc _ _ _ | TenantsDoc _ => inl (External "invalid UUID")
  end.

(** Repository calls with the tenant of the context. *)
Definition within {A} (ctx : Ctx) (m : Comp World A) : Comp Fleet A := onTenant (default "" (ctx_tenant ctx)) m.

Section Tasks.
Context {F : FSM} {UP : UUIDParse} {NS : NewString} {Dp : Deployment} {I : IDM} {Env : ManagerEnv}.
Context {O : Orbital} {Rg : Registry} {US : UUIDString} {SI : SystemInformation} {G : GoMaps}.
Context {NU : NewUUID} {PT : ParseTime} {E : CertificateEnv} {PC : PluginCatalog} {KE : KeyEnv}.
Context {TD : TenantDirectory}.

(** ** workflow.go *)

Definition putWorkflowInFailedState (workflowID : uuid) (failureReason : string) : Comp World unit :=
  workflow ← First (λ x, byID workflowID (wf_ID x));
  let workflow := set_wf_FailureReason failureReason (set_wf_State WorkflowStateFailed workflow) in
  Transaction (_ ← Patch workflow []; HandleTerminalWorkflow workflow).

Definition assignApprovers (ctx : Ctx) (workflowID : uuid) : Comp Fleet unit :=
  r ← try_ (within ctx (AutoAssignApprovers ctx workflowID));
  match r with
  | inl err =>
      _ ← logged (within ctx (putWorkflowInFailedState workflowID (Error err)));
      fail (Wrap ErrRunningTask (Some err))
  | inr _ => mret tt
  end.

Definition WorkflowProcessor_ProcessTask : ProcessFunc := λ ctx task,
  payload ← map_err (wrapping ErrRunningTask) (lift (ParseTaskPayload (task_Payload task)));
  workflowID ← map_err (wrapping ErrRunningTask) (lift (uuid_ParseBytes (tp_Data payload)));
  let ctx := InjectContext payload ctx in
  recovering
    (logged (within ctx (putWorkflowInFailedState workflowID "internal error when assigning approvers")))
    (assignApprovers ctx workflowID).

Definition NewWorkflowProcessor : TaskHandler :=
  mkTaskHandler TypeWorkflowAutoAssign InternalTaskWorkflowApproversRole WorkflowProcessor_ProcessTask None.

(** ** pending_state_sync.go and keystore_pool.go *)

Definition PendingStateSync_ProcessTask : ProcessFunc := λ ctx task,
  payload ← lift (ParseTaskPayload (task_Payload task));
  keyID ← lift (uuid_ParseBytes (tp_Data payload));
  let ctx := InjectContext payload ctx in
  within ctx (SyncPendingCreationKey ctx keyID).

Definition NewPendingStateSync : TaskHandler :=
  mkTaskHandler TypePendingStateSync InternalTaskPendingStateSyncRole PendingStateSync_ProcessTask None.

Definition KeystorePool_ProcessTask (size : Z) : ProcessFunc := λ ctx _,
  onPublic false (FillKeystorePool size).

Definition NewKeystorePoolFiller (size : Z) : TaskHandler :=
  mkTaskHandler TypeKeystorePool InternalTaskKeystorePoolRole (KeystorePool_ProcessTask size) None.

(** ** The tasks of a tenant *)

Definition everyTenant (_ : Tenant) : bool := true.

Definition CertRotator_ProcessTask : ProcessFunc := λ ctx _, logged (within ctx RotateExpiredCertificates).

Definition NewCertRotator : TaskHandler :=
  mkTaskHandler TypeCertificateTask InternalTaskCertRotationRole CertRotator_ProcessTask (Some everyTenant).

Definition HYOKSync_ProcessTask : ProcessFunc := λ ctx _, logged (within ctx (SyncHYOKKeys ctx)).

Definition NewHYOKSync : TaskHandler :=
  mkTaskHandler TypeHYOKSync InternalTaskHYOKSyncRole HYOKSync_ProcessTask (Some everyTenant).

Definition isConnectionError (err : error) : bool :=
  status_Code_is err "Unavailable" || status_Code_is err "DeadlineExceeded".

Definition SystemsRefresher_ProcessTask : ProcessFunc := λ ctx _,
  r ← try_ (within ctx UpdateSystems);
  match r with
  | inl err => if isConnectionError err then fail err else mret tt
  | inr _ => mret tt
  end.

Definition NewSystemsRefresher : TaskHandler :=
  mkTaskHandler TypeSystemsTask InternalTaskSystemRefreshRole SystemsRefresher_ProcessTask (Some everyTenant).

Definition namedTenant (tenantID name : string) : Tenant := mkTenant "" "" tenantID name "" "" "" "" "".

Definition TenantNameRefresher_ProcessTask : ProcessFunc := λ ctx _,
  match ExtractTenantID ctx with
  | inl _ => mret tt
  | inr tenantID =>
      match directory_GetTenantName tenantID with
      | inl _ => mret tt
      | inr name => logged (onPublic false (_ ← Patch (namedTenant tenantID name) []; mret tt))
      end
  end.

Definition unnamedTenant (t : Tenant) : bool := eqField Empty (t_Name t).

Definition NewTenantNameRefresher : TaskHandler :=
  mkTaskHandler TypeTenantRefreshName InternalTaskTenantRefreshRole TenantNameRefresher_ProcessTask
    (Some unnamedTenant).

Definition WorkflowCleaner_ProcessTask : ProcessFunc := λ ctx _,
  logged (within ctx
    (r ← CleanupTerminalWorkflows ctx;
     match r with Some _ => mret tt | None => fail (Panic "out of fuel") end)).

Definition NewWorkflowCleaner : TaskHandler :=
  mkTaskHandler TypeWorkflowCleanup InternalTaskWorkflowCleanupRole WorkflowCleaner_ProcessTask
    (Some everyTenant).

(** ** workflow_expiry.go *)

Definition expireWorkflow (ctx : Ctx) (workflowID : uuid) : Comp World unit :=
  _ ← map_err (λ err, if is_error err then Wrapf err "Failed to expire workflow" else err)
    (ExpireWorkflow ctx workflowID);
  mret tt.

(** One turn of the loop: failures are logged. *)
Definition expireIfDue (ctx : Ctx) (wf : Workflow) : Comp World unit :=
  now ← gets w_now;
  match wf_ExpiryDate wf with
  | None => mret tt
  | Some date =>
      if now <? date then mret tt else
      r ← try_ (WorkflowCanExpire ctx wf);
      match r with
      | inl _ => mret tt
      | inr canExpire => if canExpire : bool then logged (expireWorkflow ctx (wf_ID wf)) else mret tt
      end
  end.

Definition WorkflowFilter_zero : WorkflowFilter := mkFilter "" "" 0%N "" "" "" 0 0 false.

Definition expireWorkflows (ctx : Ctx) : Comp World unit :=
  found ← GetWorkflows ctx WorkflowFilter_zero;
  for_each (expireIfDue ctx) found.1.

Definition WorkflowExpiry_ProcessTask : ProcessFunc := λ ctx _, logged (within ctx (expireWorkflows ctx)).

Definition NewWorkflowExpiryProcessor : TaskHandler :=
  mkTaskHandler TypeWorkflowExpire InternalTaskWorkflowExpirationRole WorkflowExpiry_ProcessTask
    (Some everyTenant).

(** The handlers of cmd/task-worker, but for the one that sends notifications. *)
Definition taskHandlers (poolSize : Z) : list TaskHandler := [
  NewSystemsRefresher; NewCertRotator; NewKeystorePoolFiller poolSize; NewWorkflowProcessor;
  NewWorkflowExpiryProcessor; NewWorkflowCleaner; NewTenantNameRefresher; NewHYOKSync;
  NewPendingStateSync].
End Tasks.
