(* ===== verification/ManagerFacts.v ===== *)
(** The managers meet the interfaces the workflow manager relies on, and what looking
    up a key can change: the synchronisation of a key held by the customer writes keys,
    versions, events and certificates, sends jobs, calls the provider and fills the
    cache, but nothing else. *)
From S2P Require Import Prelude Errs Json GoContext Model Store Batch Users KeyAccess Events JobHandlers.
From S2P Require Import KeyConfigs RegistryClient Systems KeyVersions Certificates TenantConfig Fsm.
From S2P Require Import Lifecycle Keys Keystores WorkflowManager WorkflowFacts KeyRequests Managers.
From S2P Require Import Frames KeystoreFacts.

(** The tables that a synchronisation does not write, and which keys there are. *)
Definition sync_frame (d : DB) : DB * list uuid :=
  (set_certificates [] (set_events [] (set_keyVersions [] (set_keys [] d))), k_ID <$> db_keys d).

Lemma patched_ids (x : Key) fs l : k_ID <$> patched x fs l = k_ID <$> l.
Proof.
  unfold patched. rewrite <-list_fmap_compose. apply list_fmap_ext. intros i y _. cbn.
  destruct (N.eqb (k_ID x) (k_ID y)); [|done]. destruct fs as [|f fs]; [done|].
  by destruct (mem AllFields (f :: fs)), (mem UnderWorkflowField (f :: fs)).
Qed.

(** * A rule for synchronisation *)
(** Checks of a user's access read the database and nothing else. *)
Section Access.
Context {NS : NewString} {O : Orbital} {Rg : Registry} {UP : UUIDParse} {US : UUIDString} {G : GoMaps}.
Context {NU : NewUUID} {PT : ParseTime} {E : CertificateEnv} {PC : PluginCatalog} {KE : KeyEnv}.
Context {Y} (frame : DB → Y) (R : World → World → Prop) `{!FrameRule frame R}.

Lemma CountManagedKeyConfigs_frame id l : preserves R (CountManagedKeyConfigs id l).
Proof using FrameRule0. by eapply fr_call. Qed.
Lemma GetRoleFromIAM_frame ctx ids : preserves R (GetRoleFromIAM ctx ids).
Proof using FrameRule0. apply GetRoleFromIAM_reads; [by eapply fr_preorder|by intros; eapply List_frame]. Qed.
Lemma NeedsGroupFiltering_frame ctx a r : preserves R (NeedsGroupFiltering ctx a r).
Proof using FrameRule0. apply NeedsGroupFiltering_reads; [by eapply fr_preorder|by intros; eapply List_frame]. Qed.
#[local] Hint Resolve CountManagedKeyConfigs_frame GetRoleFromIAM_frame NeedsGroupFiltering_frame : cmk.
Lemma HasKeyAccess_frame ctx a id : preserves R (HasKeyAccess ctx a id).
Proof using FrameRule0. unfold HasKeyAccess, authorizeKeyConfig, hasKeyConfigAccess. framed. Qed.
Lemma IsPrimaryKey_frame k : preserves R (IsPrimaryKey k).
Proof using FrameRule0. unfold IsPrimaryKey, GetKeyConfigPrimaryKey. framed. Qed.
End Access.
#[export] Hint Resolve HasKeyAccess_frame IsPrimaryKey_frame : frames.

Section Sync.
Context {NS : NewString} {O : Orbital} {Rg : Registry} {UP : UUIDParse} {US : UUIDString} {G : GoMaps}.
Context {NU : NewUUID} {PT : ParseTime} {E : CertificateEnv} {PC : PluginCatalog} {KE : KeyEnv}.
Context (R : World → World → Prop) `{!FrameRule sync_frame R}.

#[local] Hint Extern 2 (preserves _ (getHYOKKeystoreConfig _)) =>
  by eapply (getHYOKKeystoreConfig_frame sync_frame) : cmk.
Lemma Patch_key_sync (k : Key) fs : preserves R (Patch k fs).
Proof using FrameRule0.
  eapply Patch_frame; [done|]. intros d x. apply (f_equal2 pair eq_refl (patched_ids x fs (db_keys d))).
Qed.
#[local] Hint Resolve Patch_key_sync : cmk.

(** For a key held by the customer, only a certificate may be issued or renewed. *)
Lemma GetOrInitProvider_hyok ctx key :
  k_KeyType key = KeyTypeHYOK → preserves R (Keystores.GetOrInitProvider ctx key).
Proof using FrameRule0.
  intros Hk. unfold Keystores.GetOrInitProvider, getKeystoreConfig, pluginClient. rewrite Hk, String.eqb_refl.
  change (HYOKKeyStore ==s DefaultKeyStore) with false. change (HYOKKeyStore ==s HYOKKeyStore) with true.
  cbv zeta. framed.
Qed.

Lemma callProvider_sync {A B} op id pr (m : _ → _ → A → error + B) v a :
  op ==s "DeleteKey" = false → preserves R (callProvider op id pr m v a).
Proof using FrameRule0. intros Hop w. by eapply fr_log. Qed.
Lemma audit_sync k a : preserves R (audit k a).
Proof using FrameRule0. intros w. by eapply fr_log. Qed.
Lemma CreateJob_sync e : preserves R (CreateJob e).
Proof using FrameRule0. intros w. unfold CreateJob. destruct (PrepareJob _ _); [done|eapply fr_jobs]. Qed.
#[local] Hint Resolve audit_sync CreateJob_sync : cmk.
#[local] Hint Extern 2 (preserves R (callProvider _ _ _ _ _ _)) => by apply callProvider_sync : cmk.

Lemma SetVersion_sync v : preserves R (SetVersion v).
Proof using FrameRule0.
  eapply fr_call. intros now d. cbv zeta. destruct (existsb _ _); [done|]. by destruct (existsb _ _).
Qed.
#[local] Hint Resolve SetVersion_sync : cmk.
Lemma UpdateVersions_sync id l : preserves R (UpdateVersions id l).
Proof using FrameRule0. unfold UpdateVersions, UpdateVersion. framed. Qed.
Lemma SystemKeyRotate_sync ctx s k : preserves R (SystemKeyRotate ctx s k).
Proof using FrameRule0. unfold SystemKeyRotate, createSystemEventJob. framed. Qed.
#[local] Hint Resolve UpdateVersions_sync SystemKeyRotate_sync : cmk.

Lemma syncKeyVersions_sync ctx pr k : preserves R (syncKeyVersions ctx pr k).
Proof using FrameRule0.
  unfold syncKeyVersions, getKeyVersionsFromProvider, derefNativeID, handleNewKeyVersion,
    handleSystemsOnKeyRotation, sendRotateAuditLog, auditKey.
  framed.
Qed.
#[local] Hint Resolve syncKeyVersions_sync : cmk.

Lemma key_event_sync (f : Ctx → string → Comp World Job) ctx k :
  f ∈ [KeyEnable; KeyDisable; KeyDetach] → preserves R (SendEvent (unlessExists (f ctx k))).
Proof using FrameRule0.
  intros Hf. unfold SendEvent, unlessExists. assert (preserves R (f ctx k)) as H; [|framed].
  repeat (apply elem_of_cons in Hf as [->|Hf]); [..|by apply not_elem_of_nil in Hf];
    unfold KeyEnable, KeyDisable, KeyDetach, createKeyEventJob; framed.
Qed.

Lemma handleKeyStateTransition_sync ctx k old : preserves R (handleKeyStateTransition ctx k old).
Proof using FrameRule0.
  unfold handleKeyStateTransition, sendEnableEvent, sendDisableEvent, sendEnableAuditLog, sendDisableAuditLog,
    auditKey. framed; apply key_event_sync; set_solver.
Qed.
Lemma getKeyFromProvider_sync pr k : preserves R (getKeyFromProvider pr k).
Proof using FrameRule0. unfold getKeyFromProvider, derefNativeID. framed. Qed.
#[local] Hint Resolve handleKeyStateTransition_sync getKeyFromProvider_sync : cmk.

Lemma syncHYOKKeyState_sync ctx k : preserves R (syncHYOKKeyState ctx k).
Proof using FrameRule0.
  unfold syncHYOKKeyState. destruct (String.eqb_spec (k_KeyType k) KeyTypeHYOK) as [Hk|Hk]; cbn [negb].
  - assert (preserves R (Keys.GetOrInitProvider ctx k)) as Hp by (by apply GetOrInitProvider_hyok).
    cbv zeta. framed.
  - cbv zeta. framed.
Qed.
#[local] Hint Resolve syncHYOKKeyState_sync : cmk.

Lemma Get_sync ctx id : preserves R (Keys.Get ctx id).
Proof using FrameRule0.
  unfold Keys.Get, setEditableStatus. framed.
Qed.
End Sync.

Section Interfaces.
Context {NS : NewString} {O : Orbital} {Rg : Registry} {UP : UUIDParse} {US : UUIDString} {G : GoMaps}.
Context {NU : NewUUID} {PT : ParseTime} {E : CertificateEnv} {PC : PluginCatalog} {KE : KeyEnv}.

Lemma GetSystemByID_same_db id : preserves same_db (Systems.GetSystemByID id).
Proof.
  unfold Systems.GetSystemByID, GetSystemByIDWithProperties, ListAndCountSystemWithProperties, ListAndCount.
  preserve. apply FoldInBatch_preserves; [apply _|apply List_same_db|apply Count_same_db|].
  intros. preserve.
Qed.

(** A part of the tables that a synchronisation does not write. *)
Lemma Get_fixes {X} (p : DB → X) ctx id :
  (∀ d d', sync_frame d = sync_frame d' → p d = p d') → preserves (fixes p) (Keys.Get ctx id).
Proof. intros Hp. apply Get_sync. by apply fixes_frame. Qed.

Lemma workflow_tables_frame d d' : sync_frame d = sync_frame d' → workflow_tables d = workflow_tables d'.
Proof.
  intros Hd. change (workflow_tables (sync_frame d).1 = workflow_tables (sync_frame d').1). by rewrite Hd.
Qed.

#[export] Instance managers_lookups (env : ManagerEnv) : @LookupLaws managersActions (managersEnv env).
Proof.
  split; intros ctx id.
  - apply Get_fixes, workflow_tables_frame.
  - apply same_db_fixes, GetSystemByID_same_db.
Qed.

(** The interface that the workflow manager's theorems rest on is met by the key
    and system managers: looking up a key - which for a key held by the customer
    synchronises its state and versions with the provider, sends events and may renew
    a certificate - or a system leaves the workflows, their approvers, the tenant's
    configuration and the tenants alone, whether it succeeds or fails. *)
Theorem lookups_leave_workflows ctx id w :
  workflow_tables (w_db (Keys.Get ctx id w).1) = workflow_tables (w_db w) ∧
  workflow_tables (w_db (Systems.GetSystemByID id w).1) = workflow_tables (w_db w).
Proof.
  split; [apply (Get_fixes workflow_tables), workflow_tables_frame|].
  apply (same_db_fixes workflow_tables _ (GetSystemByID_same_db id)).
Qed.
End Interfaces.
