(* ===== verification/TenantFacts.v ===== *)
(** What offboarding and deleting a tenant achieve. *)
From S2P Require Import Prelude Errs Json GoContext AuthzPolicies Authz Model Store Batch Frames.
From S2P Require Import Users KeyAccess Events JobHandlers JobFacts KeyConfigs RegistryClient Systems.
From S2P Require Import KeyVersions Keys Groups Tenants.

(** * The worst of several statuses *)

Definition worst (l : list OffboardingStatus) : OffboardingStatus :=
  foldl escalateOffboardingStatus OffboardingGoToNextStep l.

Lemma escalate_spec a b :
  a ≠ OffboardingSuccess → b ≠ OffboardingSuccess →
  (escalateOffboardingStatus a b = OffboardingFailed ↔ a = OffboardingFailed ∨ b = OffboardingFailed) ∧
  (escalateOffboardingStatus a b = OffboardingGoToNextStep ↔
     a = OffboardingGoToNextStep ∧ b = OffboardingGoToNextStep) ∧
  escalateOffboardingStatus a b ≠ OffboardingSuccess.
Proof. destruct a, b; naive_solver. Qed.

Lemma worst_from l a :
  a ≠ OffboardingSuccess → OffboardingSuccess ∉ l →
  let st := foldl escalateOffboardingStatus a l in
  (st = OffboardingFailed ↔ OffboardingFailed ∈ a :: l) ∧
  (st = OffboardingGoToNextStep ↔ Forall (.= OffboardingGoToNextStep) (a :: l)) ∧
  st ≠ OffboardingSuccess.
Proof.
  revert a. induction l as [|b l IH]; intros a Ha Hl; cbn.
  - split_and!; [by rewrite list_elem_of_singleton| |done]. split; [by intros ->; constructor|].
    by intros [-> _]%Forall_cons.
  - apply not_elem_of_cons in Hl as [Hb Hl]. destruct (escalate_spec a b) as (H1 & H2 & H3); [done..|].
    destruct (IH (escalateOffboardingStatus a b) H3 Hl) as (I1 & I2 & I3).
    rewrite I1, I2, !elem_of_cons, !Forall_cons.
    split_and!; [naive_solver|naive_solver|done].
Qed.

Lemma unmap_status_not_success r : unmapSystemErrorCanContinue r ≠ OffboardingSuccess.
Proof. destruct r as [err|]; [|done]. cbn. repeat case_match; done. Qed.

Section Offboarding.
Context {NS : NewString} {O : Orbital} {Rg : Registry} {UP : UUIDParse} {US : UUIDString}.
Implicit Types (ctx : Ctx) (w : World).

(** * Unmapping *)

Definition unmapCall (t : string) (s : System) : Effect :=
  RegistryUnmap (s_Identifier s) (toLower (s_Type s)) t.

(** What the registry answers to the calls for [ss], made one after the other. *)
Fixpoint unmap_answers (answer : list Effect → Effect → option error) (t : string) (log : list Effect)
    (ss : list System) : list (option error) :=
  match ss with
  | [] => []
  | s :: ss => answer log (unmapCall t s) :: unmap_answers answer t (unmapCall t s :: log) ss
  end.
Definition unmap_log (t : string) (log : list Effect) (ss : list System) : list Effect :=
  foldl (λ l s, unmapCall t s :: l) log ss.

Lemma unmap_answers_app answer t log ss ss' :
  unmap_answers answer t log (ss ++ ss') =
  unmap_answers answer t log ss ++ unmap_answers answer t (unmap_log t log ss) ss'.
Proof. revert log. induction ss as [|s ss IH]; intros log; cbn; [done|]. by rewrite IH. Qed.

Lemma unmap_log_elem t log ss e : e ∈ unmap_log t log ss ↔ e ∈ log ∨ e ∈ unmapCall t <$> ss.
Proof.
  revert log. induction ss as [|s ss IH]; intros log; cbn; [set_solver|].
  unfold unmap_log in *. cbn. rewrite IH. set_solver.
Qed.

Definition statuses (answers : list (option error)) : list OffboardingStatus :=
  unmapSystemErrorCanContinue <$> answers.

Context (answer : list Effect → Effect → option error) (Hreg : registry = Some answer).
Context ctx (t : string) (Ht : ExtractTenantID ctx = inr t).

Lemma unmapSystem_ok worstStatus s w w' st :
  unmapSystem ctx worstStatus s w = (w', inr st) →
  w' = set_log (unmapCall t s :: w_log w) w ∧
  st = escalateOffboardingStatus worstStatus (unmapSystemErrorCanContinue (answer (w_log w) (unmapCall t s))).
Proof using Hreg Ht.
  unfold unmapSystem. intros (w1 & r & Hr%try_ok & [= <- <-])%bind_ok.
  unfold UnmapSystemFromRegistry in Hr. rewrite Ht, Hreg in Hr. cbn in Hr.
  unfold callRegistry, mbind, M_bind, lift in Hr. rewrite Hreg in Hr. fold (unmapCall t s) in Hr.
  destruct (answer (w_log w) (unmapCall t s)); by injection Hr as <- <-.
Qed.

Lemma unmapSystems_ok ss worstStatus w w' st :
  fold_each (unmapSystem ctx) worstStatus ss w = (w', inr st) →
  w' = set_log (unmap_log t (w_log w) ss) w ∧
  st = foldl escalateOffboardingStatus worstStatus (statuses (unmap_answers answer t (w_log w) ss)).
Proof using Hreg Ht.
  revert worstStatus w. induction ss as [|s ss IH]; intros a w; cbn.
  - intros [= <- <-]. split; [by destruct w|done].
  - intros (w1 & b & (-> & ->)%unmapSystem_ok & H)%bind_ok. apply IH in H as (-> & ->).
    split; [by destruct w|done].
Qed.

Lemma unmapSystem_same_db a s : preserves same_db (unmapSystem ctx a s).
Proof using Hreg.
  unfold unmapSystem, UnmapSystemFromRegistry. preserve. intros w. unfold callRegistry.
  by repeat case_match.
Qed.

Lemma unmap_fold_run w w' r :
  FoldInBatch (where_ (λ _ : System, true)) DefaultLimit
    (λ worst systems, fold_each (unmapSystem ctx) worst systems) OffboardingGoToNextStep w = (w', r) →
  w_db w' = w_db w ∧ ∀ st, r = inr st →
    w_log w' = unmap_log t (w_log w) (db_systems (w_db w)) ∧
    st = worst (statuses (unmap_answers answer t (w_log w) (db_systems (w_db w)))).
Proof using Hreg Ht.
  intros H. assert (∀ l : list System, select (λ _, true) l = l) as Hall.
  { intros l. apply List.forallb_filter_id. induction l; by cbn. }
  eapply (FoldInBatch_rule (where_ (λ _ : System, true)) DefaultLimit _ (db_systems (w_db w))
    (λ dn a w1, w_db w1 = w_db w ∧ w_log w1 = unmap_log t (w_log w) dn ∧
                a = worst (statuses (unmap_answers answer t (w_log w) dn)))
    (λ e w1, w_db w1 = w_db w)) in H; try done.
  - destruct r as [e|st]; [done|]. destruct H as (? & ? & ?). split; [done|]. by intros st' [= <-].
  - intros dn a w1 (Hw & _). unfold matching. cbn. by rewrite Hall, Hw.
  - intros dn a w1 e (Hw & _) _. done.
  - intros dn items rest a w1 w2 r' _ (Hd & Hl & ->) Hr. destruct r' as [e|a'].
    + rewrite <-Hd. apply (preserves_run same_db _ _ _ _ (preserves_fold_each _ _ _ _ unmapSystem_same_db) Hr).
    + apply unmapSystems_ok in Hr as (-> & ->). cbn. rewrite Hl, Hd, unmap_answers_app. split_and!; [done|..].
      * unfold unmap_log. by rewrite foldl_app.
      * unfold worst, statuses. by rewrite fmap_app, foldl_app.
Qed.

Lemma unmapAll_run w w' st :
  unmapAllSystemsFromRegistry ctx w = (w', inr st) →
  w_db w' = w_db w ∧
  (st = OffboardingContinueAndWait ∨
   w_log w' = unmap_log t (w_log w) (db_systems (w_db w)) ∧
   st = worst (statuses (unmap_answers answer t (w_log w) (db_systems (w_db w))))).
Proof using Hreg Ht.
  unfold unmapAllSystemsFromRegistry. intros (w1 & r & Hr%try_ok & [= <- <-])%bind_ok.
  apply unmap_fold_run in Hr as [Hdb Hr]. split; [done|]. destruct r as [e|st]; [by left|].
  right. by apply Hr.
Qed.

(** * Detaching the keys *)

(** Everything but the keys. *)
Definition but_keys (d : DB) : DB := set_keys [] d.

Lemma detach_frame (R : World → World → Prop) `{!FrameRule but_keys R} : preserves R (detachPrimaryKeys ctx).
Proof using Type.
  pose proof (@fr_preorder _ but_keys R _). unfold detachPrimaryKeys, Detach, sendDetachEvent, SendEvent, unlessExists,
    KeyDetach, createKeyEventJob. framed.
  intros w. unfold CreateJob. destruct (PrepareJob _ _); [done|by eapply (fr_jobs (frame := but_keys))].
Qed.

Lemma detach_keeps w w' r :
  detachPrimaryKeys ctx w = (w', r) → db_systems (w_db w') = db_systems (w_db w).
Proof using Type.
  apply (run_fixes db_systems). apply (@detach_frame _ (fixes_frame but_keys db_systems (λ _ _ H, f_equal db_systems H))).
Qed.

(** * Outcomes *)

(** A check that nothing matches. *)
Lemma none_matches {T} `{!Resource T} (q : Query T) w w' b :
  (count ← Count q; mret (count =? 0)%Z : Comp World bool) w = (w', inr b) →
  w_db w' = w_db w ∧ w_log w' = w_log w ∧
  (b = true → ∀ x, x ∈ rows (w_db w) → q_where q x = false).
Proof using Type.
  intros (w1 & n & Hc & [= <- <-])%bind_ok. pose proof (Count_ok _ _ _ _ Hc) as ->.
  apply (db_call_read_run (λ d, Z.of_nat (length (select (q_where q) (rows d))))) in Hc as (-> & _).
  split_and!; [done..|]. intros Hn%Z.eqb_eq x Hx%list_elem_of_In. destruct (q_where q x) eqn:Hq; [|done].
  assert (In x (select (q_where q) (rows (w_db w)))) as Hi by (by apply filter_In).
  destruct (select (q_where q) (rows (w_db w))); [done|cbn in Hn; lia].
Qed.

Lemma worst_all l : OffboardingSuccess ∉ l → worst l ≠ OffboardingFailed → worst l ≠ OffboardingContinueAndWait →
  Forall (.= OffboardingGoToNextStep) l.
Proof using Type.
  intros Hl H1 H2. destruct (worst_from l OffboardingGoToNextStep) as (_ & Hg & Hs); [done..|].
  fold (worst l) in Hg, Hs. destruct (worst l) eqn:Hw; [|done..].
  exact (proj2 (proj1 (Forall_cons _ _ _) (proj1 Hg eq_refl))).
Qed.

Lemma statuses_no_success rs : OffboardingSuccess ∉ statuses rs.
Proof using Type. intros (r & H & _)%list_elem_of_fmap. by destruct (unmap_status_not_success r). Qed.

(** Nothing of the tenant is in use any more. *)
Definition offboarded (d : DB) : Prop :=
  (∀ s, s ∈ db_systems d → s_KeyConfigurationID s = None) ∧
  ∀ k, k ∈ db_keys d → ofConfigWithPrimary d k = true → k_State k = KeyStateDETACHED.

Lemma offboard_success w w' :
  OffboardTenant ctx w = (w', inr OffboardingSuccess) →
  offboarded (w_db w') ∧
  ∃ log, w_log w' = unmap_log t log (db_systems (w_db w')) ∧
    Forall (λ r, unmapSystemErrorCanContinue r = OffboardingGoToNextStep)
      (unmap_answers answer t log (db_systems (w_db w'))).
Proof using Hreg Ht.
  unfold OffboardTenant. intros (w1 & [] & _ & H)%bind_ok.
  apply bind_ok in H as (w2 & [] & Hb & H); [|done]. apply none_matches in Hb as (Hd2 & _ & Hs).
  cbn [negb] in H. apply bind_ok in H as (w3 & [] & Hdt%detach_keeps & H).
  apply bind_ok in H as (w4 & [] & Hb & H); [|done].
  apply bind_ok in Hb as (w3' & d & [= <- <-] & Hb). apply none_matches in Hb as (Hd4 & _ & _).
  cbn [negb] in H. apply bind_ok in H as (w5 & st & (Hd5 & Hst)%unmapAll_run & H).
  destruct (bool_decide_reflect (st = OffboardingFailed)) as [|Hf]; [by injection H as <- ->|].
  destruct (bool_decide_reflect (st = OffboardingContinueAndWait)) as [|Hc]; [by injection H as <- ->|].
  destruct Hst as [|[Hl Hst]]; [done|]. cbn [orb] in H.
  apply bind_ok in H as (w6 & [] & Hb & H); [|done]. injection H as <-.
  apply bind_ok in Hb as (w5' & d & [= <- <-] & Hb). apply none_matches in Hb as (Hd6 & Hl6 & Hk).
  rewrite Hl6, Hl, Hd6. rewrite Hd5 in *. rewrite Hd4 in *. split; [split|].
  - intros s. rewrite Hdt, Hd2. intros Hi. specialize (Hs eq_refl s Hi). cbn in Hs. unfold isLinked in Hs.
    by destruct (s_KeyConfigurationID s).
  - intros x Hx Hp. specialize (Hk eq_refl x Hx). cbn in Hk. unfold notDetached in Hk. rewrite Hp in Hk.
    by apply negb_false_iff, String.eqb_eq in Hk.
  - exists (w_log w4). split; [done|]. subst st. apply worst_all in Hc; [|apply statuses_no_success|done].
    by apply Forall_fmap in Hc.
Qed.

(** Offboarding reports success only when it is safe to delete the tenant: no
    system is linked to a key configuration, every key of a configuration with a
    primary key is detached, and the registry was asked to unmap each system of the
    tenant and either did so or did not know the mapping.  Whatever database calls
    fail on the way. *)
Theorem offboard_success_sound w w' :
  OffboardTenant ctx w = (w', inr OffboardingSuccess) →
  offboarded (w_db w') ∧
  ∃ log, w_log w' = unmap_log t log (db_systems (w_db w')) ∧
    Forall (λ r, unmapSystemErrorCanContinue r = OffboardingGoToNextStep)
      (unmap_answers answer t log (db_systems (w_db w'))).
Proof using Hreg Ht. apply offboard_success. Qed.

(** ** When nothing is left to unlink or to detach *)

Lemma FoldInBatch_none {A T} `{!Resource T} (q : Query T) size f (a : A) w :
  w_faults w = [] → (∀ x, x ∈ rows (w_db w) → q_where q x = false) →
  f a [] = mret a → FoldInBatch q size f a w = (w, inr a).
Proof using Type.
  intros Hw Hq Hf. unfold FoldInBatch. cbn. unfold mbind, M_bind, gets. cbn [batch_fold].
  unfold mbind, M_bind. rewrite List_eval by done.
  cbn [SetOffset SetLimit q_where].
  assert (select (q_where q) (rows (w_db w)) = []) as ->.
  { apply elem_of_nil_inv. intros x [Hx Hp]%list_elem_of_In%filter_In.
    rewrite Hq in Hp; [done|by apply list_elem_of_In]. }
  unfold applyPagination. by rewrite drop_nil, take_nil, Hf.
Qed.

Lemma count_zero {T} `{!Resource T} (q : Query T) w :
  w_faults w = [] →
  (count ← Count q; mret (count =? 0)%Z : Comp World bool) w =
  (w, inr (forallb (λ x, negb (q_where q x)) (rows (w_db w)))).
Proof using Type.
  intros Hw. unfold mbind, M_bind. rewrite Count_eval by done. cbn. do 2 f_equal.
  induction (rows (w_db w)) as [|x l IH]; [done|]. cbn. by destruct (q_where q x).
Qed.

(** The registry client returns errors; it does not panic. *)
Definition returned (r : option error) : Prop :=
  match r with Some e => is_error e = true | None => True end.

Lemma unmapSystem_eval a s w :
  returned (answer (w_log w) (unmapCall t s)) →
  unmapSystem ctx a s w =
  (set_log (unmapCall t s :: w_log w) w,
   inr (escalateOffboardingStatus a (unmapSystemErrorCanContinue (answer (w_log w) (unmapCall t s))))).
Proof using Hreg Ht.
  intros He. unfold unmapSystem, UnmapSystemFromRegistry, mbind, M_bind, try_, lift.
  rewrite Ht, Hreg. unfold callRegistry. rewrite Hreg. fold (unmapCall t s).
  destruct (answer (w_log w) (unmapCall t s)) as [e|]; [|done]. by destruct e.
Qed.

Lemma unmapSystems_eval ss a w :
  Forall returned (unmap_answers answer t (w_log w) ss) →
  fold_each (unmapSystem ctx) a ss w =
  (set_log (unmap_log t (w_log w) ss) w,
   inr (foldl escalateOffboardingStatus a (statuses (unmap_answers answer t (w_log w) ss)))).
Proof using Hreg Ht.
  revert a w. induction ss as [|s ss IH]; intros a w; [by destruct w|].
  intros [He Hall]%Forall_cons. cbn [fold_each]. unfold mbind, M_bind.
  rewrite unmapSystem_eval by done. rewrite IH by done. by destruct w.
Qed.

Lemma unmapAll_eval w :
  w_faults w = [] → Forall returned (unmap_answers answer t (w_log w) (db_systems (w_db w))) →
  unmapAllSystemsFromRegistry ctx w =
  (set_log (unmap_log t (w_log w) (db_systems (w_db w))) w,
   inr (worst (statuses (unmap_answers answer t (w_log w) (db_systems (w_db w)))))).
Proof using Hreg Ht.
  intros Hw Hall. unfold unmapAllSystemsFromRegistry, mbind, M_bind, try_.
  assert (∀ l : list System, select (λ _, true) l = l) as Hsel.
  { intros l. apply List.forallb_filter_id. induction l; by cbn. }
  destruct (FoldInBatch _ _ _ _ w) as [w1 r] eqn:H.
  eapply (FoldInBatch_rule (where_ (λ _ : System, true)) DefaultLimit _ (db_systems (w_db w))
    (λ dn a w1, w1 = set_log (unmap_log t (w_log w) dn) w ∧
                a = worst (statuses (unmap_answers answer t (w_log w) dn)))
    (λ e w1, False)) in H; try done.
  - destruct r as [|st]; [done|]. by destruct H as (-> & ->).
  - intros dn a w2 (-> & _). unfold matching. cbn. by rewrite Hsel.
  - intros dn a w2 (-> & ->). split; [|done]. destruct w; cbn in *. by subst.
  - intros dn a w2 e (-> & _). cbn. by rewrite Hw.
  - intros dn items rest a w2 w3 r' Hl (-> & ->).
    rewrite Hl, unmap_answers_app in Hall. apply Forall_app in Hall as [_ Hall].
    rewrite unmap_answers_app in Hall. apply Forall_app in Hall as [Hall _].
    rewrite unmapSystems_eval by done. intros [= <- <-]. cbn. split.
    + unfold unmap_log. by rewrite foldl_app.
    + rewrite unmap_answers_app. unfold worst, statuses. by rewrite fmap_app, foldl_app.
  - split; [|done]. by destruct w.
Qed.

Lemma detach_none w :
  w_faults w = [] → (∀ k, k ∈ db_keys (w_db w) → q_where (checkKeyDetatchingQuery (w_db w)) k = false) →
  detachPrimaryKeys ctx w = (w, inr tt).
Proof using Type.
  intros Hw Hk.
  exact (FoldInBatch_none (checkKeyDetatchingQuery (w_db w)) DefaultLimit _ tt w Hw Hk eq_refl).
Qed.

Lemma processed_eval w :
  w_faults w = [] → (∀ k, k ∈ db_keys (w_db w) → q_where (checkKeyDetatchingQuery (w_db w)) k = false) →
  checkAllPrimaryKeysProcessed w = (w, inr true).
Proof using Type.
  intros Hw Hk. transitivity (w, inr (forallb
    (λ k, negb (q_where (checkKeyDetatchingQuery (w_db w)) k)) (db_keys (w_db w))) : error + bool).
  { exact (count_zero (checkKeyDetatchingQuery (w_db w)) w Hw). }
  rewrite (proj2 (forallb_forall _ _)); [done|]. intros k Hi%list_elem_of_In. by rewrite (Hk k Hi).
Qed.

(** The last phase of offboarding, exactly.  In a world where the database works,
    no system is linked and no key is left to detach, a run changes no table, asks the
    registry to unmap every system, and the result is the worst of the registry's
    answers: failed if some answer is that the call can never work, to be continued if
    some call has to be repeated.  If none is bad, offboarding succeeds when all keys
    are detached, and else waits. *)
Theorem offboard_last_phase w :
  w_faults w = [] →
  (∀ s, s ∈ db_systems (w_db w) → s_KeyConfigurationID s = None) →
  (∀ k, k ∈ db_keys (w_db w) → q_where (checkKeyDetatchingQuery (w_db w)) k = false) →
  Forall returned (unmap_answers answer t (w_log w) (db_systems (w_db w))) →
  OffboardTenant ctx w =
  (set_log (unmap_log t (w_log w) (db_systems (w_db w))) w,
   inr (match worst (statuses (unmap_answers answer t (w_log w) (db_systems (w_db w)))) with
        | OffboardingFailed => OffboardingFailed
        | OffboardingContinueAndWait => OffboardingContinueAndWait
        | _ => if forallb (λ k, negb (notDetached (w_db w) k)) (db_keys (w_db w))
               then OffboardingSuccess else OffboardingContinueAndWait
        end)).
Proof using Hreg Ht.
  intros Hw Hs Hk Hall.
  assert (∀ s, s ∈ db_systems (w_db w) → isLinked s = false) as Hc.
  { intros s Hi. unfold isLinked. by rewrite (Hs s Hi). }
  unfold OffboardTenant, mbind, M_bind. unfold sendUnlinkForConnectedSystems.
  rewrite FoldInBatch_none; [|done| |done].
  2:{ intros s Hi. cbn. unfold toUnlink. by rewrite (Hc s Hi). }
  change (checkAllSystemsUnlinked w) with ((count ← Count (where_ isLinked); mret (count =? 0)%Z) w).
  rewrite count_zero by done. rewrite (proj2 (forallb_forall _ _)).
  2:{ intros s Hi%list_elem_of_In. cbn. by rewrite (Hc s Hi). }
  cbn [negb]. rewrite detach_none by done. rewrite processed_eval by done.
  cbn [negb]. rewrite unmapAll_eval by done. set (w1 := set_log _ w).
  assert (checkAllPrimaryKeysDetached w1 =
    (w1, inr (forallb (λ k, negb (notDetached (w_db w) k)) (db_keys (w_db w))))) as Hd.
  { exact (count_zero (where_ (notDetached (w_db w1))) w1 Hw). }
  destruct (worst _); try done;
    rewrite !bool_decide_false by done; cbn [orb]; rewrite Hd; by destruct (forallb _ _).
Qed.
End Offboarding.

(** * Offboarding stays inside the tenant's tables *)

Section Confined.
Context {NS : NewString} {O : Orbital} {Rg : Registry} {UP : UUIDParse} {US : UUIDString}.
Context (R : World → World → Prop) `{!FrameRule db_public R}.

#[local] Instance frame_preorder : PreOrder R.
Proof using FrameRule0. apply (@fr_preorder _ db_public R _). Qed.

Lemma CreateJob_frame e : preserves R (CreateJob e).
Proof using FrameRule0.
  intros w. unfold CreateJob. destruct (PrepareJob _ _); [done|eapply (fr_jobs (frame := db_public))].
Qed.
Lemma callRegistry_frame e : is_delete e = false → preserves R (callRegistry e).
Proof using FrameRule0.
  intros He w. unfold callRegistry. destruct registry as [answer|]; [|done].
  by eapply (fr_log (frame := db_public)).
Qed.
#[local] Hint Resolve CreateJob_frame : cmk.
#[local] Hint Extern 2 (preserves _ (callRegistry _)) => by apply callRegistry_frame : cmk.
#[local] Hint Extern 2 (preserves _ (db_call _)) => by eapply (fr_call (frame := db_public)) : cmk.

Lemma HasSystemAccess_frame ctx a s : preserves R (HasSystemAccess ctx a s).
Proof using FrameRule0.
  unfold HasSystemAccess, authorizeKeyConfig, hasKeyConfigAccess, NeedsGroupFiltering, GetRoleFromIAM,
    CountManagedKeyConfigs. framed.
Qed.
Lemma SystemUnlinkDecommission_frame ctx s k : preserves R (SystemUnlinkDecommission ctx s k).
Proof using FrameRule0. unfold SystemUnlinkDecommission, createSystemEventJob. framed. Qed.
#[local] Hint Resolve HasSystemAccess_frame SystemUnlinkDecommission_frame : cmk.
Lemma UnlinkSystemAction_frame ctx s : preserves R (UnlinkSystemAction ctx s SystemActionDecommission).
Proof using FrameRule0.
  unfold UnlinkSystemAction, sendSystemUnlinkEvent, SendEvent. rewrite String.eqb_refl. framed.
Qed.
#[local] Hint Resolve UnlinkSystemAction_frame : cmk.
Lemma OffboardTenant_frame ctx : preserves R (OffboardTenant ctx).
Proof using FrameRule0.
  unfold OffboardTenant, sendUnlinkForConnectedSystems, checkAllSystemsUnlinked, detachPrimaryKeys,
    checkAllPrimaryKeysProcessed, unmapAllSystemsFromRegistry, checkAllPrimaryKeysDetached, unmapSystem,
    UnmapSystemFromRegistry, Detach, sendDetachEvent, SendEvent, unlessExists, KeyDetach, createKeyEventJob.
  framed.
Qed.
End Confined.

(** * Creating and deleting *)

(** A lifted result leaves the state alone. *)
Lemma lift_inv {S A} (r : error + A) (s s' : S) r' :
  (lift r : Comp S A) s = (s', r') → s' = s ∧ r' = r.
Proof. by intros [= <- <-]. Qed.

Section Schemas.
Context {Mg : Migrations} {TE : TenantEnums}.
Implicit Types (f : Fleet).

Lemma retry_Do_inv {S A} (P Q : S → Prop) c n (m : Comp S A) :
  (∀ s s' r, P s → m s = (s', r) → match r with inl _ => P s' | inr _ => Q s' end) →
  ∀ s s' r, P s → retry_Do c n m s = (s', r) → match r with inl _ => P s' | inr _ => Q s' end.
Proof using Type.
  intros Hm. induction n as [|n IH]; intros s s' r HP; cbn; [by apply Hm|].
  intros [(e & He & ->)|(s1 & r1 & Hr & H)]%bind_inv.
  - apply try_inv in He as [(r' & [=] & _)|(p & _ & He)]. by apply (Hm _ _ _ HP He).
  - apply try_ok in Hr. pose proof (Hm _ _ _ HP Hr) as HQ. destruct r1 as [e|a]; [|by injection H as <- <-].
    destruct (c e); [by eapply IH|]. by injection H as <- <-.
Qed.

(** What dropping a schema may touch. *)
Lemma drop_run t f f' r :
  DropSchemaForTenant t f = (f', r) →
  f_public f' = f_public f ∧
  f_schemas f' = match r with inl _ => f_schemas f | inr _ => delete t (f_schemas f) end.
Proof using Type.
  intros H. unfold DropSchemaForTenant in H.
  eapply (retry_Do_inv (λ g, f_public g = f_public f ∧ f_schemas g = f_schemas f)
    (λ g, f_public g = f_public f ∧ f_schemas g = delete t (f_schemas f))) in H; [|clear H|done].
  - by destruct r.
  - intros g g' r' (Hp & Hs). unfold map_err, exec.
    destruct (head (f_faults g)) as [[e|]|]; intros [= <- <-]; cbn; by rewrite ?Hs.
Qed.

Lemma onPublic_inv {A} b (m : Comp World A) f f' r :
  onPublic b m f = (f', r) →
  ∃ w, m (public_world b f) = (w, r) ∧ f_public f' = db_public (w_db w) ∧ f_schemas f' = f_schemas f.
Proof using Type.
  unfold onPublic. destruct (m (public_world b f)) as [w r'] eqn:Hm. intros [= <- <-]. eauto.
Qed.

Lemma publicTransaction_inv {A} (m : Comp Fleet A) f f' r :
  publicTransaction m f = (f', r) →
  (∃ f1 e, m f = (f1, inl e) ∧ f' = set_f_public (f_public f) f1 ∧ r = inl (wrapping ErrTransaction e)) ∨
  ∃ a, m f = (f', inr a) ∧ r = inr a.
Proof using Type. unfold publicTransaction. destruct (m f) as [f1 [e|a]]; intros [= <- <-]; eauto 6. Qed.

Definition without_tenant (t : string) (l : list Tenant) : list Tenant :=
  select (λ x, negb (t ==s t_ID x)) l.

Lemma delete_result ctx f f' r :
  DeleteTenant ctx f = (f', r) →
  match r with
  | inl _ => f_public f' = f_public f ∧ f_schemas f' = f_schemas f
  | inr _ => ∃ t, ExtractTenantID ctx = inr t ∧
      pub_tenants (f_public f') = without_tenant t (pub_tenants (f_public f)) ∧
      pub_keystores (f_public f') = pub_keystores (f_public f) ∧
      f_schemas f' = delete t (f_schemas f)
  end.
Proof using Type.
  assert (∀ f1 e, (tenantID ← lift (ExtractTenantID ctx); _ ← onPublic true (Delete (tenantRef tenantID ""));
     _ ← repo_OffboardTenant tenantID;
     modify (λ f, set_f_log (AuditLog "CmkTenantDelete" [tenantID] :: f_log f) f) : Comp Fleet unit) f =
    (f1, inl e) → f_schemas f1 = f_schemas f) as Herr.
  { intros f1 e [(e' & H1 & _)|(f2 & t & H1 & H)]%bind_inv; apply lift_inv in H1 as [-> Ht]; [done|].
    apply bind_inv in H as [(e' & H1 & _)|(f2 & b & H1 & H)];
      [by apply onPublic_inv in H1 as (w & _ & _ & Hs)|].
    apply onPublic_inv in H1 as (w & _ & _ & Hs).
    apply bind_inv in H as [(e' & H1 & _)|(f3 & [] & H1 & [=])]. apply drop_run in H1 as (_ & Hs').
    cbn in Hs'. by rewrite Hs', Hs. }
  intros [(f1 & e & H & -> & ->)|([] & H & ->)]%publicTransaction_inv; [split; [done|exact (Herr _ _ H)]|].
  apply bind_ok in H as (f1 & t & H1 & H). apply lift_inv in H1 as [-> Ht]. exists t. split; [done|].
  apply bind_ok in H as (f2 & b & H1 & H). apply onPublic_inv in H1 as (w & (_ & Hd)%Delete_ok & Hp & Hs).
  apply bind_ok in H as (f3 & [] & (Hp3 & Hs3)%drop_run & [= <-]).
  cbn. by rewrite Hp3, Hp, Hd, Hs3, Hs.
Qed.

(** Deleting a tenant is all or nothing for the shared tables: it removes exactly
    the row of the tenant in the context, or fails and leaves the shared tables and all
    schemas alone.  But the schema that a success drops is the one whose name is the
    tenant's ID, not the one whose name the row holds. *)
Theorem delete_tenant_outcome ctx f f' r :
  DeleteTenant ctx f = (f', r) →
  match r with
  | inl _ => f_public f' = f_public f ∧ f_schemas f' = f_schemas f
  | inr _ => ∃ t, ExtractTenantID ctx = inr t ∧
      pub_tenants (f_public f') = without_tenant t (pub_tenants (f_public f)) ∧
      pub_keystores (f_public f') = pub_keystores (f_public f) ∧
      f_schemas f' = delete t (f_schemas f)
  end.
Proof using Type. apply delete_result. Qed.

(** What a successful creation did. *)
Lemma create_tenant_ok tenant f f' :
  CreateTenant tenant f = (f', inr tt) →
  ValidateSchema (t_SchemaName tenant) = None ∧ Tenant_Validate tenant = None ∧
  existsb (same_pk tenant) (pub_tenants (f_public f)) = false ∧
  pub_tenants (f_public f') = pub_tenants (f_public f) ++ [tenant] ∧
  match goose_Up (t_SchemaName tenant) (f_schemas f !! t_SchemaName tenant) with
  | GooseNoMigrations => f_schemas f' = f_schemas f
  | GooseFailed _ => False
  | GooseUp d => f_schemas f' = <[t_SchemaName tenant := d]> (f_schemas f)
  end.
Proof using Type.
  unfold CreateTenant. destruct (ValidateSchema _) eqn:Hv; [done|]. destruct (Tenant_Validate _); [done|].
  intros [(f1 & e & _ & _ & [=])|([] & H & _)]%publicTransaction_inv.
  apply bind_ok in H as (f1 & [] & H1 & H). apply bind_ok in H1 as (f1' & y & H1%map_err_ok & [= <-]).
  apply onPublic_inv in H1 as (w & Hc & Hp & Hs). apply Create_ok in Hc as (x & [= <-] & -> & Hpk & Hd).
  unfold MigrateTenantToLatest, runMigration in H. rewrite Hv in H.
  apply bind_ok in H as (f2 & [] & H2 & H). apply bind_ok in H as (f3 & [] & H3 & H).
  apply bind_ok in H as (f4 & f5 & [= <- <-] & H).
  assert (∀ g g' : Fleet, exec id g = (g', inr tt) → f_public g' = f_public g ∧ f_schemas g' = f_schemas g) as Hexec.
  { intros g g'. unfold exec. destruct (head (f_faults g)) as [[e|]|]; by intros [= <-]. }
  destruct (Hexec _ _ H2) as [Hp2 Hs2], (Hexec _ _ H3) as [Hp3 Hs3].
  assert (pub_tenants (f_public f3) = pub_tenants (f_public f) ++ [tenant]) as Hpub.
  { by rewrite Hp3, Hp2, Hp, Hd. }
  rewrite Hs3, Hs2, Hs in H. split; [done|]. split; [done|]. split; [done|].
  destruct (goose_Up _ _); [injection H as <-|done|injection H as <-]; split; cbn;
    by rewrite ?Hs3, ?Hs2, ?Hs.
Qed.

Lemma find_without t l : find (λ x, t_ID x ==s t) (without_tenant t l) = None.
Proof using Type.
  unfold without_tenant, select. induction l as [|x l IH]; [done|]. cbn. rewrite String.eqb_sym.
  destruct (t_ID x ==s t) eqn:Hx; cbn; [done|by rewrite Hx].
Qed.

Lemma find_snoc {A} (p : A → bool) l x : find p l = None → find p (l ++ [x]) = if p x then Some x else None.
Proof using Type. induction l as [|y l IH]; [done|]. cbn. by destruct (p y). Qed.

(** C31: the data of a deleted tenant survive when its schema is not named after its ID:
    a tenant that is deleted and then provisioned again under the same ID and schema
    name reads the tables that the deleted tenant left, key configurations, keys and
    systems included. *)
Theorem deleted_data_reappears ctx t tenant d f f1 f2 :
  ExtractTenantID ctx = inr t → t_ID tenant = t → t_SchemaName tenant ≠ t →
  (∀ x, goose_Up (t_SchemaName tenant) (Some x) = GooseUp x) →
  schema_of f t = Some (t_SchemaName tenant) → tables f t = Some d →
  DeleteTenant ctx f = (f1, inr tt) → CreateTenant tenant f1 = (f2, inr tt) →
  tables f1 t = None ∧ tables f2 t = Some d.
Proof using Type.
  intros Ht Hid Hne Hgoose Hs Hd H1%delete_result H2%create_tenant_ok.
  destruct H1 as (t' & Ht' & Hp1 & _ & Hs1). rewrite Ht in Ht'. injection Ht' as <-.
  destruct H2 as (_ & _ & _ & Hp2 & Hs2).
  unfold tables in Hd. rewrite Hs in Hd. cbn in Hd.
  rewrite Hs1, lookup_delete_ne, Hd, Hgoose in Hs2 by done. split.
  - unfold tables, schema_of. by rewrite Hp1, find_without.
  - unfold tables, schema_of. rewrite Hp2, Hp1, find_snoc by apply find_without.
    rewrite Hid, String.eqb_refl. cbn. by rewrite Hs2, lookup_insert_eq.
Qed.
End Schemas.
