(* ===== verification/OperatorFacts.v ===== *)
(** What the tenant operator achieves: provisioning converges and reports completion
    only for a tenant that is there; termination completes only after offboarding. *)
From S2P Require Import Prelude Errs Json GoContext AuthzPolicies Authz Model Store Batch Frames.
From S2P Require Import Users KeyAccess Events JobHandlers JobFacts KeyConfigs RegistryClient Systems.
From S2P Require Import KeyVersions Keys Groups Tenants TenantFacts Operator.

(** * Schema names *)

(** The encoder's alphabet. *)
Definition base62_alphabet `{!OperatorEnv} : Prop :=
  ∀ s, forallb (λ c, isLetter c || isDigit c) (String.list_ascii_of_string (base62_EncodeToString s)) = true.

Lemma length_list_ascii s : length (String.list_ascii_of_string s) = String.length s.
Proof. induction s; cbn; congruence. Qed.

Lemma encoded_schema `{!OperatorEnv} input schema :
  base62_alphabet → EncodeSchemaNameBase62 input = inr schema →
  ValidateSchema schema = None ∧ 4 ≤ String.length schema ≤ 63.
Proof.
  intros Ha. unfold EncodeSchemaNameBase62. destruct (input ==s ""); [done|].
  specialize (Ha input). set (e := base62_EncodeToString input) in *.
  destruct (Nat.ltb_spec (String.length e) 3); [done|]. destruct (Nat.ltb_spec 62 (String.length e)); [done|].
  cbn [orb]. intros [= <-]. change (SchemaNamePrefix +:+ e) with ("_" +:+ e).
  assert (String.length ("_" +:+ e) = S (String.length e)) as Hl by done.
  split; [|rewrite Hl; lia]. unfold ValidateSchema, namespace_Validate, checkPattern, checkPrefix, namespaceRegex.
  change (String.list_ascii_of_string ("_" +:+ e)) with
    (Ascii.ascii_of_nat 95 :: String.list_ascii_of_string e).
  cbn [isUnderscore]. rewrite length_list_ascii.
  destruct (Nat.leb_spec 2 (String.length e)); [|lia].
  assert (forallb (λ c, isUnderscore c || isLetter c || isDigit c) (String.list_ascii_of_string e) = true) as ->.
  { apply forallb_forall. intros c Hc. rewrite forallb_forall in Ha. specialize (Ha c Hc).
    by rewrite <-orb_assoc, Ha, orb_true_r. }
  change (String.prefix "pg_" ("_" +:+ e)) with false. cbn [negb andb orb isUnderscore].
  rewrite Hl. destruct (Nat.ltb_spec (S (String.length e)) 3); [lia|].
  destruct (Nat.ltb_spec 63 (S (String.length e))); [lia|done].
Qed.

(** The schema name made from any tenant ID is a valid one: it has the pattern, the
    prefix and the length (4 to 63 characters) that the database asks for, so the
    validation when the tenant is created never rejects it. *)
Theorem encoded_schema_valid `{!OperatorEnv} input schema :
  base62_alphabet → EncodeSchemaNameBase62 input = inr schema →
  ValidateSchema schema = None ∧ 4 ≤ String.length schema ≤ 63.
Proof. apply encoded_schema. Qed.

(** * Lists of values *)

Lemma splitComma_nonempty l : splitComma l ≠ [].
Proof. destruct l as [|c l]; [done|]. cbn. destruct (isComma c); [done|]. by destruct (splitComma l). Qed.

Lemma splitComma_none l : forallb (λ c, negb (isComma c)) l = true → splitComma l = [l].
Proof.
  induction l as [|c l IH]; [done|]. cbn. intros [Hc Hl]%andb_true_iff.
  apply negb_true_iff in Hc. by rewrite Hc, IH.
Qed.

Lemma splitComma_app l l' :
  forallb (λ c, negb (isComma c)) l = true →
  splitComma (l ++ Ascii.ascii_of_nat 44 :: l') = l :: splitComma l'.
Proof.
  induction l as [|c l IH]; [done|]. cbn. intros [Hc Hl]%andb_true_iff.
  apply negb_true_iff in Hc. by rewrite Hc, IH.
Qed.

(** A value as the list keeps it: not empty, without commas, without blanks around it. *)
Definition plain_value (v : string) : Prop :=
  v ≠ "" ∧ TrimSpace v = v ∧ forallb (λ c, negb (isComma c)) (String.list_ascii_of_string v) = true.

Lemma list_ascii_app s s' :
  String.list_ascii_of_string (s +:+ s') = String.list_ascii_of_string s ++ String.list_ascii_of_string s'.
Proof. induction s as [|c s IH]; [done|]. exact (f_equal (cons c) IH). Qed.

Lemma SplitSeq_concat vs :
  vs ≠ [] → Forall plain_value vs → SplitSeq (String.concat "," vs) = vs.
Proof.
  unfold SplitSeq. induction vs as [|v vs IH]; [done|]. intros _ [Hv Hvs]%Forall_cons.
  destruct Hv as (_ & _ & Hv). destruct vs as [|v' vs].
  - cbn [String.concat]. rewrite splitComma_none by done. cbn. by rewrite String.string_of_list_ascii_of_string.
  - change (String.concat "," (v :: v' :: vs)) with (v +:+ "," +:+ String.concat "," (v' :: vs)).
    rewrite !list_ascii_app. change (String.list_ascii_of_string ",") with [Ascii.ascii_of_nat 44].
    cbn [app]. rewrite splitComma_app by done. rewrite fmap_cons, IH by done.
    by rewrite String.string_of_list_ascii_of_string.
Qed.

(** A list of audiences survives the trip through the property map: joining plain
    values with commas and parsing the text gives the values back, in order. *)
Theorem audiences_roundtrip vs :
  Forall plain_value vs → parseCommaSeparatedValues (String.concat "," vs) = vs.
Proof.
  intros Hvs. unfold parseCommaSeparatedValues. destruct vs as [|v vs]; [done|].
  destruct (String.eqb_spec (String.concat "," (v :: vs)) "") as [He|_].
  - exfalso. apply Forall_cons in Hvs as [(Hv & _) _]. destruct v; [done|]. by destruct vs.
  - rewrite SplitSeq_concat by done. clear -Hvs. induction Hvs as [|x xs (Hx & Ht & _) _ IH]; [done|].
    cbn. rewrite Ht. apply String.eqb_neq in Hx. rewrite Hx. cbn. by f_equal.
Qed.

(** * Reading calls leave all tables alone *)

Definition same_tables (f f' : Fleet) : Prop := f_public f' = f_public f ∧ f_schemas f' = f_schemas f.
#[export] Instance same_tables_preorder : PreOrder same_tables.
Proof. split; [done|]. unfold same_tables. intros ??? [] []. split; congruence. Qed.

Lemma same_tables_tables f f' t : same_tables f f' → tables f' t = tables f t.
Proof. intros [Hp Hs]. unfold tables, schema_of. by rewrite Hp, Hs. Qed.

Lemma onTenant_read {A} t (m : Comp World A) : preserves same_db m → preserves same_tables (onTenant t m).
Proof.
  intros Hm f. destruct (onTenant t m f) as [f' r] eqn:H.
  apply onTenant_inv in H as [[-> _]|(schema & d & w & _ & _ & Hd & H & ->)]; [done|].
  assert (w_db w = set_public (f_public f) d) as Hw by apply (preserves_run same_db _ _ _ _ Hm H).
  split; simpl; rewrite Hw; [by destruct d|]. rewrite set_public_back. by apply insert_id.
Qed.
Lemma onPublic_read {A} b (m : Comp World A) : preserves same_db m → preserves same_tables (onPublic b m).
Proof.
  intros Hm f. unfold onPublic. destruct (m (public_world b f)) as [w r] eqn:H.
  assert (w_db w = set_public (f_public f) DB_empty) as Hw by apply (preserves_run same_db _ _ _ _ Hm H).
  split; simpl; by rewrite ?Hw.
Qed.
#[export] Hint Resolve onTenant_read onPublic_read : cmk.

Section Provisioning.
Context {OE : OperatorEnv} {Mg : Migrations} {TE : TenantEnums}.
Implicit Types (f : Fleet) (resp : HandlerResponse).

Lemma schemaExists_reads s : preserves same_tables (schemaExists s).
Proof using Type. unfold schemaExists. preserve. Qed.
Lemma groupExists_reads g t : preserves same_tables (groupExists g t).
Proof using Type. unfold groupExists. preserve. Qed.

Definition has_group (name : string) (d : DB) : Prop := ∃ g, g ∈ db_groups d ∧ g_Name g = name.

Lemma schemaExists_true s f f' :
  schemaExists s f = (f', inr true) → ∃ x, x ∈ pub_tenants (f_public f) ∧ t_SchemaName x = s.
Proof using Type.
  intros (f1 & r & Hr%try_ok & H)%bind_ok. destruct r as [e|x]; [by destruct (errors_Is e ErrNotFound)|].
  apply onPublic_inv in Hr as (w & Hw & _). apply First_ok in Hw as (Hx & Hs%String.eqb_eq). eauto.
Qed.

Lemma groupExists_true g t f f' :
  groupExists g t f = (f', inr true) → ∃ d, tables f t = Some d ∧ has_group g d.
Proof using Type.
  intros (f1 & r & Hr%try_ok & H)%bind_ok. destruct r as [e|x]; [by destruct (errors_Is e ErrNotFound)|].
  apply onTenant_tables in Hr as [(_ & e & [=] & _)|(d & w & Hd & Hw & _)].
  apply First_ok in Hw as (Hx & Hs%String.eqb_eq). exists d. split; [done|]. by exists x.
Qed.

(** The tenant is there: its row, and its schema with both mandatory groups. *)
Definition provisioned (f : Fleet) (tenant : Tenant) : Prop :=
  (∃ x, x ∈ pub_tenants (f_public f) ∧ t_SchemaName x = t_SchemaName tenant) ∧
  ∃ d, tables f (t_ID tenant) = Some d ∧ has_group TenantAdminGroup d ∧ has_group TenantAuditorGroup d.

Lemma probe_complete tenant f f' r :
  probe_Check tenant f = (f', inr r) → isProvisioningComplete r = true →
  same_tables f f' ∧ provisioned f tenant.
Proof using Type.
  intros (f1 & s & Hs%try_ok & H)%bind_ok Hc.
  destruct s as [e|[]]; [by destruct (errors_Is e ErrSchemaNotFound); [injection H as <- <-|]|
    by injection H as <- <-| |by apply bind_ok in Hs as (? & [] & _ & [=])].
  apply bind_ok in Hs as (g1 & [] & Hs & Hb); [|done]. injection Hb as <-.
  pose proof (preserves_run same_tables _ _ _ _ (schemaExists_reads _) Hs) as R1.
  apply schemaExists_true in Hs. apply bind_ok in H as (f2 & g & Hg & [= <- <-]).
  apply bool_decide_eq_true in Hc. cbn in Hc. subst g.
  apply bind_ok in Hg as (f3 & b & Ha & H). apply bind_ok in H as (f4 & b' & Hb & [= <- H]).
  destruct b, b'; try done.
  pose proof (preserves_run same_tables _ _ _ _ (groupExists_reads _ _) Ha) as R2.
  pose proof (preserves_run same_tables _ _ _ _ (groupExists_reads _ _) Hb) as R3.
  apply groupExists_true in Ha as (d & Hd & Ha), Hb as (d' & Hd' & Hb).
  rewrite (same_tables_tables _ _ _ R2) in Hd'. rewrite Hd in Hd'. injection Hd' as <-.
  rewrite (same_tables_tables _ _ _ R1) in Hd. split; [by etrans; [|etrans]|]. split; [done|]. eauto.
Qed.

(** The answers to errors. *)
Lemma continue_inv err st resp f f' resp' :
  setErrorStateAndContinue err st resp f = (f', inr resp') →
  f' = f ∧ hr_Result resp' = Some (ContinueAndWaitFor reconcileAfterSecError).
Proof using Type.
  intros (f1 & r & H & [= <- <-])%bind_ok. unfold setWorkingState in H.
  destruct (WorkingState resp); [destruct err; [|done]|]; by injection H as <- <-.
Qed.
Lemma fail_inv err st resp f f' resp' :
  setErrorStateAndFail err st resp f = (f', inr resp') →
  f' = f ∧ hr_Result resp' = Some (FailTask (Error err)).
Proof using Type.
  intros (f1 & r & H & [= <- <-])%bind_ok. unfold setWorkingState in H.
  destruct (WorkingState resp); by injection H as <- <-.
Qed.
Lemma error_inv err st resp f f' resp' :
  setErrorState err st resp f = (f', inr resp') → f' = f ∧ hr_Result resp' ≠ Some CompleteTask.
Proof using Type.
  unfold setErrorState. destruct (isIrrecoverable err); [intros [-> ->]%fail_inv|intros [-> ->]%continue_inv]; done.
Qed.

(** A provisioning task is reported complete only when the tenant is there: its row,
    its schema and both mandatory groups exist, this last run changed no table, and the
    registry has just accepted the IAM identifiers of the two groups.  Whatever calls
    fail on the way. *)
Theorem provision_complete_sound adminID auditorID ctx req resp f f' resp' :
  handleCreateTenant adminID auditorID ctx req resp f = (f', inr resp') →
  hr_Result resp' = Some CompleteTask →
  ∃ tenant, unmarshalTenantData (TaskData req) = inr tenant ∧ provisioned f' tenant ∧ same_tables f f' ∧
    let call := RegistryUserGroups (t_ID tenant)
      [NewIAMIdentifier TenantAdminGroup (t_ID tenant); NewIAMIdentifier TenantAuditorGroup (t_ID tenant)] in
    ∃ log, f_log f' = call :: log ∧ tenantService log call = inr true.
Proof using Type.
  unfold handleCreateTenant. destruct (unmarshalTenantData _) as [e|tenant] eqn:Ht.
  { by intros [_ ->]%fail_inv. }
  intros (f1 & r & Hr%try_ok & H)%bind_ok Hc. exists tenant. split; [done|].
  destruct r as [e|r]; [apply continue_inv in H as [_ H]; congruence|].
  destruct (isProvisioningComplete r) eqn:Hdone.
  - destruct (probe_complete _ _ _ _ Hr Hdone) as [R1 Hp].
    apply bind_ok in H as (f2 & b & Hb%try_ok & H).
    unfold sendTenantUserGroupsToRegistry, callTenantService in Hb. injection Hb as <- Hb.
    destruct b as [e|[|]]; [apply continue_inv in H as [_ H]; congruence| |
      apply continue_inv in H as [_ H]; congruence]. injection H as <- <-.
    split; [|split; [done|eauto]]. destruct Hp as [Hx (d & Hd & Hg)], R1 as [R1 R2].
    split; [by rewrite <-R1 in Hx|]. exists d. split; [|done].
    rewrite (same_tables_tables f); [done|by split].
  - apply bind_ok in H as (f2 & r2 & _ & H). destruct r2 as [e|_]; [apply error_inv in H as [_ H]; congruence|].
    apply bind_ok in H as (f3 & r3 & _ & H). destruct r3 as [e|_]; [apply error_inv in H as [_ H]; congruence|].
    by injection H as <- <-.
Qed.

(** ** Provisioning converges

    The steps of the two runs, in a fleet where no call fails. *)

Lemma First_eval {T} `{!Resource T} (p : T → bool) w :
  w_faults w = [] → w_inTx w = true →
  First p w = (w, match select p (rows (w_db w)) with
                  | x :: _ => inr x
                  | [] => inl (Wrap ErrNotFound (Some ErrRecordNotFound))
                  end).
Proof using Type.
  intros Hf Ht. unfold First, db_call, repo_err. rewrite Hf, Ht. cbn. destruct w; cbn in *. subst.
  by destruct (select p _).
Qed.

Lemma existsb_select {A} (p : A → bool) l :
  existsb p l = match select p l with [] => false | _ => true end.
Proof using Type. unfold select. induction l as [|x l IH]; [done|]. cbn. by destruct (p x). Qed.

Lemma schemaExists_eval s f :
  f_faults f = [] →
  schemaExists s f = (f, inr (existsb (λ t, t_SchemaName t ==s s) (pub_tenants (f_public f)))).
Proof using Type.
  intros Hf. unfold schemaExists, mbind, M_bind, try_, onPublic. rewrite First_eval by done.
  destruct f as [[ts ks] sc now fa js lg pr]. cbn in *. subst.
  rewrite (existsb_select _ ts). unfold select. by destruct (List.filter _ ts).
Qed.

Lemma groupExists_eval g t f schema d :
  f_faults f = [] → t ≠ "" → schema_of f t = Some schema → f_schemas f !! schema = Some d →
  groupExists g t f = (f, inr (existsb (λ x, g_Name x ==s g) (db_groups d))).
Proof using Type.
  intros Hf Ht Hs Hd. unfold groupExists, mbind, M_bind, try_, onTenant.
  apply String.eqb_neq in Ht. rewrite Ht, Hs, Hd.
  unfold First, db_call, repo_err. cbn. rewrite Hf. cbn.
  assert (put_world schema d (set_db (set_public (f_public f) d) (set_faults [] (world_of f d))) f = f) as Hw.
  { unfold put_world. cbn. rewrite set_public_back, insert_id by done. destruct f; cbn in *. by subst. }
  rewrite (existsb_select _ (db_groups d)). unfold select. destruct (List.filter _ _); cbn; by rewrite Hw.
Qed.

(** No other tenant has the ID, the domain or the schema of this one. *)
Definition unused (f : Fleet) (tenant : Tenant) : Prop :=
  Forall (λ x, t_ID x ≠ t_ID tenant ∧ t_DomainURL x ≠ t_DomainURL tenant ∧
               t_SchemaName x ≠ t_SchemaName tenant) (pub_tenants (f_public f)).

Definition with_tenant_row (f : Fleet) (tenant : Tenant) (d : DB) : Fleet :=
  set_f_schemas (<[t_SchemaName tenant := d]> (f_schemas f))
    (set_f_public (mkPublic (pub_tenants (f_public f) ++ [tenant]) (pub_keystores (f_public f))) f).

Lemma unused_clash f tenant : unused f tenant →
  existsb (same_pk tenant) (pub_tenants (f_public f)) || clashes tenant (pub_tenants (f_public f)) = false.
Proof using Type.
  unfold unused, clashes. induction 1 as [|x l (H1 & H2 & H3) _ IH]; [done|].
  apply orb_false_iff in IH as [IH1 IH2]. cbn [existsb]. rewrite IH1, IH2, !orb_false_r. cbn.
  destruct (String.eqb_spec (t_ID tenant) (t_ID x)); [congruence|].
  destruct (String.eqb_spec (t_DomainURL tenant) (t_DomainURL x)); [congruence|].
  by destruct (String.eqb_spec (t_SchemaName tenant) (t_SchemaName x)); [congruence|].
Qed.

Lemma create_tenant_eval tenant f d :
  f_faults f = [] → unused f tenant → ValidateSchema (t_SchemaName tenant) = None →
  Tenant_Validate tenant = None →
  goose_Up (t_SchemaName tenant) (f_schemas f !! t_SchemaName tenant) = GooseUp d →
  CreateTenant tenant f = (with_tenant_row f tenant d, inr tt).
Proof using Type.
  intros Hf Hu Hv Ht Hg. unfold CreateTenant. rewrite Hv, Ht.
  assert (onPublic true (Create tenant) f =
    (set_f_public (mkPublic (pub_tenants (f_public f) ++ [tenant]) (pub_keystores (f_public f))) f,
     inr tenant)) as Hc.
  { unfold onPublic. rewrite (Create_eval tenant tenant); [|done|done|exact (unused_clash _ _ Hu)]. done. }
  unfold publicTransaction, createTenantRow, MigrateTenantToLatest, runMigration, mbind, M_bind, map_err, exec, get, modify.
  rewrite Hc, Hv. cbn. rewrite Hf. cbn. rewrite Hg. unfold with_tenant_row, set_f_schemas, set_f_public. cbn.
  by rewrite Hf.
Qed.

Definition default_groups (adminID auditorID : uuid) (t : string) : list Group :=
  [mkGroup adminID TenantAdminGroup "" TenantAdminRole (NewIAMIdentifier TenantAdminGroup t);
   mkGroup auditorID TenantAuditorGroup "" TenantAuditorRole (NewIAMIdentifier TenantAuditorGroup t)].

Lemma createDefaultGroup_eval g w :
  w_faults w = [] → isSupportedRole g = true → Group_BeforeSave g = inr g →
  existsb (same_pk g) (db_groups (w_db w)) || clashes g (db_groups (w_db w)) = false →
  createDefaultGroup g w = (set_db (set_groups (db_groups (w_db w) ++ [g]) (w_db w)) w, inr tt).
Proof using Type.
  intros Hf Hr Hb Hc. unfold createDefaultGroup, CreateGroup. rewrite Hr.
  unfold mbind, M_bind, map_err. cbn [negb]. by rewrite (Create_eval g g w); [|done|exact Hb|exact Hc].
Qed.

Lemma default_groups_eval adminID auditorID ctx t w :
  w_faults w = [] → w_inTx w = false → ExtractTenantID ctx = inr t → db_groups (w_db w) = [] →
  adminID ≠ auditorID →
  Forall (λ g, Group_BeforeSave g = inr g) (default_groups adminID auditorID t) →
  CreateDefaultGroups adminID auditorID ctx w =
  (set_db (set_groups (default_groups adminID auditorID t) (w_db w)) w, inr tt).
Proof using Type.
  intros Hf Hx Ht Hg Hne [Hb1 [Hb2 _]%Forall_cons]%Forall_cons.
  unfold CreateDefaultGroups, mbind at 1, M_bind at 1, map_err at 1, lift. rewrite Ht.
  unfold Transaction, TransactionOn, id. rewrite Hx. unfold mbind, M_bind.
  rewrite createDefaultGroup_eval; [|done..|by cbn; rewrite Hg].
  rewrite createDefaultGroup_eval; [|done..|].
  - destruct w; cbn in *. subst. cbn. by rewrite Hg.
  - cbn -[String.eqb]. rewrite Hg. cbn -[String.eqb].
    destruct (N.eqb_spec auditorID adminID); [congruence|]. done.
Qed.

Lemma unmarshalled data tenant :
  base62_alphabet → unmarshalTenantData data = inr tenant →
  t_ID tenant ≠ "" ∧ ValidateSchema (t_SchemaName tenant) = None.
Proof using Type.
  intros Ha. unfold unmarshalTenantData. destruct (unmarshalTenant data) as [|p]; [done|].
  destruct (EncodeSchemaNameBase62 (tp_Id p)) as [|s] eqn:He; [done|]. intros [= <-]. cbn. split.
  - intros Hid. unfold EncodeSchemaNameBase62 in He. by rewrite Hid in He.
  - by apply (encoded_schema _ _ Ha He).
Qed.

(** The schema with the two mandatory groups. *)
Definition fresh_tables (adminID auditorID : uuid) (t : string) : DB :=
  set_groups (default_groups adminID auditorID t) DB_empty.

Lemma schema_of_row f tenant d :
  unused f tenant → schema_of (with_tenant_row f tenant d) (t_ID tenant) = Some (t_SchemaName tenant).
Proof using Type.
  intros Hu. unfold schema_of, with_tenant_row. cbn. rewrite find_snoc, String.eqb_refl; [done|].
  induction Hu as [|x l (H & _) _ IH]; [done|]. cbn. by apply String.eqb_neq in H as ->.
Qed.

Lemma create_groups_eval adminID auditorID ctx tenant f :
  f_faults f = [] → t_ID tenant ≠ "" → unused f tenant → adminID ≠ auditorID →
  Forall (λ g, Group_BeforeSave g = inr g) (default_groups adminID auditorID (t_ID tenant)) →
  createTenantGroups adminID auditorID ctx tenant (with_tenant_row f tenant DB_empty) =
  (with_tenant_row f tenant (fresh_tables adminID auditorID (t_ID tenant)), inr tt).
Proof using Type.
  intros Hf Ht Hu Hne Hg. set (f1 := with_tenant_row f tenant DB_empty).
  unfold createTenantGroups, unlessOnboarding, mbind, M_bind, try_, onTenant.
  pose proof (proj2 (String.eqb_neq _ _) Ht) as ->. unfold f1 at 1. rewrite schema_of_row by done.
  assert (f_schemas f1 !! t_SchemaName tenant = Some DB_empty) as -> by apply lookup_insert_eq.
  rewrite (default_groups_eval _ _ _ (t_ID tenant)); [|done|done| |done..].
  - unfold put_world, with_tenant_row, set_f_schemas, set_f_public, f1. cbn. by rewrite insert_insert_eq.
  - by apply ExtractTenantID_ok.
Qed.

(** C29: provisioning converges.  In a fleet where no call fails, for valid data of a tenant
    that is not there yet, the first run of the handler creates the tenant's row, its
    schema and its two mandatory groups and asks to be run again; the second run, whatever
    identifiers it draws, completes the task and leaves everything as it is. *)
Theorem provisioning_converges adminID auditorID adminID' auditorID' ctx req resp resp' tenant f :
  base62_alphabet → f_faults f = [] → unmarshalTenantData (TaskData req) = inr tenant →
  Tenant_Validate tenant = None → unused f tenant → adminID ≠ auditorID →
  Forall (λ g, Group_BeforeSave g = inr g) (default_groups adminID auditorID (t_ID tenant)) →
  goose_Up (t_SchemaName tenant) (f_schemas f !! t_SchemaName tenant) = GooseUp DB_empty →
  (∀ log e, tenantService log e = inr true) →
  ∃ f1 r1 f2 r2,
    handleCreateTenant adminID auditorID ctx req resp f = (f1, inr r1) ∧
    hr_Result r1 = Some (ContinueAndWaitFor reconcileAfterSecProcessing) ∧
    handleCreateTenant adminID' auditorID' ctx req resp' f1 = (f2, inr r2) ∧
    hr_Result r2 = Some CompleteTask ∧
    f1 = with_tenant_row f tenant (fresh_tables adminID auditorID (t_ID tenant)) ∧ same_tables f1 f2.
Proof using Type.
  intros Ha Hf Hd Hv Hu Hne Hg Hgoose Hreg. destruct (unmarshalled _ _ Ha Hd) as [Ht Hs].
  set (f1 := with_tenant_row f tenant (fresh_tables adminID auditorID (t_ID tenant))).
  assert (probe_Check tenant f = (f, inr (mkProbeResult SchemaNotFound GroupsNotFound))) as Hp1.
  { unfold probe_Check, checkTenantSchemaExistenceStatus, mbind, M_bind, try_. rewrite schemaExists_eval by done.
    replace (existsb _ _) with false; [done|]. symmetry. clear -Hu.
    induction Hu as [|x l (_ & _ & H) _ IH]; [done|]. cbn. by apply String.eqb_neq in H as ->. }
  assert (schema_of f1 (t_ID tenant) = Some (t_SchemaName tenant)) as Hs1 by by apply schema_of_row.
  assert (f_schemas f1 !! t_SchemaName tenant = Some (fresh_tables adminID auditorID (t_ID tenant))) as Hl1
    by apply lookup_insert_eq.
  assert (probe_Check tenant f1 = (f1, inr (mkProbeResult SchemaExists GroupsExist))) as Hp2.
  { unfold probe_Check, checkTenantSchemaExistenceStatus, mbind, M_bind, try_. rewrite schemaExists_eval by done.
    replace (existsb _ _) with true.
    2:{ cbn. rewrite existsb_app. cbn. by rewrite String.eqb_refl, orb_true_r. }
    cbn -[checkTenantGroupsExistenceStatus]. change (bool_decide _) with false. cbn iota.
    unfold checkTenantGroupsExistenceStatus, mbind, M_bind.
    by rewrite !(groupExists_eval _ _ f1 _ _ Hf Ht Hs1 Hl1). }
  do 4 eexists. split_and!.
  - unfold handleCreateTenant, mbind, M_bind. rewrite Hd. unfold try_ at 1. rewrite Hp1. cbn.
    change (isProvisioningComplete _) with false. cbn iota beta. rewrite !bool_decide_true by done.
    unfold createTenantSchema, unlessOnboarding, mbind, M_bind, try_.
    rewrite (create_tenant_eval _ _ DB_empty) by done. cbn.
    rewrite create_groups_eval by done. reflexivity.
  - done.
  - unfold handleCreateTenant, mbind, M_bind. rewrite Hd. unfold try_ at 1. fold f1. rewrite Hp2. cbn. change (isProvisioningComplete _) with true. cbn iota.
    unfold finalizeTenantProvisioning, mbind, M_bind, try_, sendTenantUserGroupsToRegistry, callTenantService.
    rewrite Hreg. reflexivity.
  - done.
  - done.
  - done.
Qed.
End Provisioning.

(** * Termination *)

Section Termination.
Context {OE : OperatorEnv} {Mg : Migrations}.
Context {NS : NewString} {O : Orbital} {Rg : Registry} {UP : UUIDParse} {US : UUIDString}.
Implicit Types (f : Fleet) (resp : HandlerResponse).

Lemma removeOIDC_ok resp t f f' resp' b :
  removeOIDCMapping resp t f = (f', inr (resp', b)) →
  f' = set_f_log (OIDCRemove t :: f_log f) f ∧
  (if b then hr_Result resp' ≠ Some CompleteTask else resp' = resp).
Proof using Type.
  intros (f1 & r & Hr%try_ok & H)%bind_ok. injection Hr as <- Hr.
  assert (∀ m g, (resp ← setErrorStateAndFail
      (Wrapf ErrFailedResponse ("session manager could not remove OIDC mapping: " +:+ m))
      WorkingStateOIDCMappingRemoveFailed resp; mret (resp, true) : Comp Fleet _) g = (f', inr (resp', b)) →
    f' = g ∧ (if b then hr_Result resp' ≠ Some CompleteTask else resp' = resp)) as Hfail.
  { intros m g (g1 & r1 & Hg & [= <- <- <-])%bind_ok. by apply fail_inv in Hg as [-> ->]. }
  destruct r as [e|[[] m]]; [|by injection H as <- <- <-|by apply Hfail in H].
  destruct (status_Code_is e "Internal"); [by apply Hfail in H|].
  apply bind_ok in H as (f2 & r2 & Hc & [= <- <- <-]). by apply continue_inv in Hc as [-> ->].
Qed.

Context (answer : list Effect → Effect → option error) (Hreg : registry = Some answer).

End Termination.
