(* ===== verification/KeyFacts.v ===== *)
(** The key manager: what a lookup returns, when a key may be deleted and what a
    deletion removes, which key becomes the primary key. *)
From S2P Require Import Prelude Errs Json GoContext Model Store Batch Users KeyAccess Events JobHandlers.
From S2P Require Import KeyConfigs RegistryClient Systems KeyVersions Certificates TenantConfig Fsm.
From S2P Require Import Lifecycle Keys Keystores WorkflowManager WorkflowFacts KeyRequests Managers ManagerFacts.
From S2P Require Import Frames KeystoreFacts.

Section KeyFacts.
Context {NS : NewString} {O : Orbital} {Rg : Registry} {UP : UUIDParse} {US : UUIDString} {G : GoMaps}.
Context {NU : NewUUID} {PT : ParseTime} {E : CertificateEnv} {PC : PluginCatalog} {KE : KeyEnv}.
Implicit Types (k : Key) (d : DB) (w : World).

(** * Looking up a key *)

(** The fields that a synchronisation does not change. *)
Definition identity k : uuid * uuid * string * bool :=
  (k_ID k, k_KeyConfigurationID k, k_KeyType k, k_IsPrimary k).

Lemma syncHYOKKeyState_identity ctx k w w' k' :
  syncHYOKKeyState ctx k w = (w', inr k') → identity k' = identity k.
Proof.
  unfold syncHYOKKeyState. cbv zeta. destruct (negb _); [done|].
  intros (w1 & r1 & _ & H)%bind_ok. apply bind_ok in H as (w2 & r2 & _ & H).
  apply bind_ok in H as (w3 & k3 & H3 & H).
  assert (identity k3 = identity k) as Hk3.
  { destruct r2 as [e|resp], r1 as [e1|pr]; try by injection H3 as _ <-.
    apply bind_ok in H3 as (w4 & [] & _ & H3). by injection H3 as _ <-. }
  destruct (k_State k ==s k_State k3); [by injection H as _ <-|].
  apply bind_ok in H as (w4 & [] & _ & H). by injection H as _ <-.
Qed.

Lemma setEditableStatus_identity k w w' k' :
  setEditableStatus k w = (w', inr k') → identity k' = identity k.
Proof.
  unfold setEditableStatus. destruct (GetCryptoAccessData k); [|by intros [= _ <-]]. cbv zeta.
  destruct (_ || _); [by intros [= _ <-]|]. intros (w1 & m & _ & H)%bind_ok. by injection H as _ <-.
Qed.

(** The first configuration with the identifier, as the database finds it. *)
Definition configOf d (id : uuid) : option KeyConfiguration :=
  head (select (λ c, byID id (kc_ID c)) (db_keyConfigs d)).
Definition is_primary d k : bool :=
  bool_decide ((c ← configOf d (k_KeyConfigurationID k); kc_PrimaryKeyID c) = Some (k_ID k)).

Lemma IsPrimaryKey_ok k w w' b :
  honest_faults w → IsPrimaryKey k w = (w', inr b) → b = is_primary (w_db w) k ∧ w_db w' = w_db w.
Proof.
  intros Hf (w1 & o & H & [= <- <-])%bind_ok. unfold is_primary, configOf.
  apply bind_ok in H as (w2 & r & H1%try_ok & H).
  pose proof (First_db _ _ _ _ H1) as Hd. destruct r as [e|c].
  - destruct (errors_Is e ErrNotFound) eqn:He; [|done]. injection H as <- <-. split; [|done].
    pose proof (First_missing _ _ _ _ Hf H1 He) as Hn.
    destruct (select _ (db_keyConfigs (w_db w))) as [|c l] eqn:Hs; [done|].
    assert (In c (select (λ c, byID (k_KeyConfigurationID k) (kc_ID c)) (db_keyConfigs (w_db w)))) as Hi
      by (rewrite Hs; by left).
    apply filter_In in Hi as [Hi%list_elem_of_In Hc]. by rewrite (Hn c Hi) in Hc.
  - injection H as <- <-. split; [|done]. apply db_call_ok in H1.
    change (rows (w_db w)) with (db_keyConfigs (w_db w)) in H1.
    destruct (select _ (db_keyConfigs (w_db w))); [done|]. by injection H1 as _ ->.
Qed.

Lemma Get_ok ctx id w w' k :
  honest_faults w → Keys.Get ctx id w = (w', inr k) →
  ∃ k0, k0 ∈ db_keys (w_db w) ∧ byID id (k_ID k0) = true ∧
    identity k = (k_ID k0, k_KeyConfigurationID k0, k_KeyType k0, is_primary (w_db w) k0).
Proof.
  intros Hf (w1 & k0 & H1%map_err_ok & H)%bind_ok.
  pose proof (First_db _ _ _ _ H1) as D1. pose proof (First_ok _ _ _ _ H1) as [Hk0 Hid].
  pose proof (run_honest _ _ _ _ (First_faults _) H1 Hf) as Hf1.
  apply bind_ok in H as (w2 & b & H2%map_err_ok & H). apply (IsPrimaryKey_ok _ _ _ _ Hf1) in H2 as [-> D2].
  cbv zeta in H. apply bind_ok in H as (w3 & a & _ & H). apply bind_ok in H as (w4 & k4 & H4 & H).
  apply setEditableStatus_identity in H. exists k0. split_and!; [done..|]. rewrite H, <-D1.
  change (k_KeyType (set_k_IsPrimary ?b ?k)) with (k_KeyType k) in H4.
  destruct (k_KeyType k0 ==s KeyTypeBYOK); [by injection H4 as _ <-|].
  destruct (k_KeyType k0 ==s KeyTypeHYOK); [|done].
  by apply syncHYOKKeyState_identity in H4.
Qed.

(** * Deleting a key *)

Lemma deleteProviderKey_env ctx key : preserves same_env (deleteProviderKey ctx key).
Proof.
  unfold deleteProviderKey, initProvider, deleteSystemManagedProviderKey, deleteInProvider.
  preserve; first [by apply (GetOrInitProvider_frame same_env)|by intros w].
Qed.
Lemma deleteProviderKey_fixes {X} (p : DB → X) ctx key :
  (∀ d d', prov_frame d = prov_frame d' → p d = p d') → preserves (fixes p) (deleteProviderKey ctx key).
Proof.
  intros Hp. unfold deleteProviderKey, initProvider, deleteSystemManagedProviderKey, deleteInProvider.
  preserve; first [by intros w|apply (GetOrInitProvider_frame (fixes p) (FrameRule0 := fixes_frame _ _ Hp))].
Qed.

Lemma HasConnectedSystems_ok c w w' b :
  HasConnectedSystems c w = (w', inr b) →
  w_db w' = w_db w ∧ (b = false ↔ ∀ s, s ∈ db_systems (w_db w) → KeyConfigs.ofKeyConfig c s = false).
Proof.
  intros (w1 & n & H & [= <- <-])%bind_ok. pose proof (Count_same_db (where_ (KeyConfigs.ofKeyConfig c)) w) as Hd. rewrite H in Hd.
  split; [done|]. apply db_call_ok in H. injection H as _ <-. cbn [q_where where_ rows System_Resource].
  rewrite Z.ltb_ge. split.
  - intros Hn s Hs. destruct (KeyConfigs.ofKeyConfig c s) eqn:Hc; [|done].
    assert (In s (select (KeyConfigs.ofKeyConfig c) (db_systems (w_db w)))) as Hi
      by (apply filter_In; split; [by apply list_elem_of_In|done]).
    destruct (select _ _); [done|cbn in Hn; lia].
  - intros Hs. destruct (select _ _) as [|s l] eqn:Hsel; [done|].
    assert (In s (select (KeyConfigs.ofKeyConfig c) (db_systems (w_db w)))) as Hi by (rewrite Hsel; by left).
    apply filter_In in Hi as [Hi%list_elem_of_In Hc]. by rewrite (Hs s Hi) in Hc.
Qed.

Lemma HasConnectedSystems_frame (R : World → World → Prop) `{!FrameRule (λ d : DB, d) R} c :
  preserves R (HasConnectedSystems c).
Proof. unfold HasConnectedSystems. framed. Qed.

(** What a deletion never writes. *)
Definition outside_keys d : list System * list KeyConfiguration * list KeyLabel :=
  (db_systems d, db_keyConfigs d, db_labels d).
Definition key_ids d : list uuid := k_ID <$> db_keys d.

Lemma Get_outside ctx id : preserves (fixes (λ d, (outside_keys d, key_ids d))) (Keys.Get ctx id).
Proof.
  apply Get_fixes. intros d d' Hd.
  change ((outside_keys (sync_frame d).1, (sync_frame d).2) = (outside_keys (sync_frame d').1, (sync_frame d').2)).
  by rewrite Hd.
Qed.

Lemma delete_tx_outside id : preserves (fixes outside_keys) (Transaction
  (_ ← map_err (wrapping ErrDeleteKeyDB) (DeleteWhere (λ v : KeyVersion, N.eqb (kv_KeyID v) id));
   _ ← map_err (wrapping ErrDeleteKeyDB) (Delete (Key_ofID id)); mret tt)).
Proof.
  apply Transaction_fixes. preserve; [by apply DeleteWhere_fixes|].
  intros w. unfold fixes. destruct (Delete (Key_ofID id) w) as [w' [e|b]] eqn:H; cbn.
  - by rewrite (Delete_err _ _ _ _ H).
  - by rewrite (proj2 (Delete_ok _ _ _ _ H)).
Qed.

(** The steps of a deletion up to the provider. *)
Lemma delete_checked ctx id w w' r :
  honest_faults w → KeyManager_Delete ctx id w = (w', r) →
  (∃ e, r = inl e ∧ (outside_keys (w_db w'), key_ids (w_db w')) = (outside_keys (w_db w), key_ids (w_db w)) ∧
     deletions w' = deletions w) ∨
  ∃ k w1 key, k ∈ db_keys (w_db w) ∧ byID id (k_ID k) = true ∧
    (is_primary (w_db w) k = true →
       ∀ s, s ∈ db_systems (w_db w) → KeyConfigs.ofKeyConfig (k_KeyConfigurationID k) s = false) ∧
    (outside_keys (w_db w1), key_ids (w_db w1)) = (outside_keys (w_db w), key_ids (w_db w)) ∧
    same_env w w1 ∧
    (_ ← deleteProviderKey ctx key;
     _ ← map_err (wrapping ErrDeleteKey) (Transaction
        (_ ← map_err (wrapping ErrDeleteKeyDB) (DeleteWhere (λ v, N.eqb (kv_KeyID v) id));
         _ ← map_err (wrapping ErrDeleteKeyDB) (Delete (Key_ofID id));
         mret tt));
     sendDeleteAuditLog key) w1 = (w', r).
Proof.
  intros Hf H. unfold KeyManager_Delete in H.
  assert (∀ w1 (r1 : error + Key), Keys.Get ctx id w = (w1, r1) →
    (outside_keys (w_db w1), key_ids (w_db w1)) = (outside_keys (w_db w), key_ids (w_db w)) ∧
    deletions w1 = deletions w ∧ same_env w w1) as Hget.
  { intros w1 r1 H1. split; [exact (run_fixes _ _ _ _ _ (Get_outside ctx id) H1)|].
    pose proof (Get_sync no_deletion ctx id w) as Hl. pose proof (Get_sync same_env ctx id w) as He.
    rewrite H1 in Hl, He. done. }
  apply bind_inv in H as [(e & H & ->)|(w1 & key & H1%map_err_ok & H)].
  { apply map_err_err in H as (e' & H & _). apply Hget in H as (? & ? & _). left. eauto. }
  destruct (Hget _ _ H1) as (Ho & Hdel & Henv). apply (Get_ok _ _ _ _ _ Hf) in H1 as (k & Hk & Hid & Hi).
  unfold identity in Hi. injection Hi as _ Hc _ Hp.
  assert (∀ w2 r2, (if k_IsPrimary key then HasConnectedSystems (k_KeyConfigurationID key) else mret false) w1 =
    (w2, r2) → w_db w2 = w_db w1 ∧ deletions w2 = deletions w1 ∧ same_env w1 w2) as Hcs.
  { intros w2 r2 H2. destruct (k_IsPrimary key); [|by injection H2 as <- _].
    pose proof (HasConnectedSystems_frame (fixes (λ d : DB, d)) (FrameRule0 := fixes_frame _ _ (λ _ _ H, H))
      (k_KeyConfigurationID key) w1) as Ha.
    pose proof (HasConnectedSystems_frame no_deletion (k_KeyConfigurationID key) w1) as Hb.
    pose proof (HasConnectedSystems_frame same_env (k_KeyConfigurationID key) w1) as Hg.
    rewrite H2 in Ha, Hb, Hg. done. }
  apply bind_inv in H as [(e & H & ->)|(w2 & exist & H2 & H)].
  { left. exists e. split; [done|]. apply Hcs in H as (-> & -> & _). done. }
  destruct (Hcs _ _ H2) as (D2 & Hdel2 & E2). destruct exist.
  { injection H as <- <-. left. eexists. rewrite D2, Hdel2. done. }
  right. exists k, w2, key. split_and!; try done; [|by rewrite D2|by etrans].
  rewrite Hp, Hc in H2. intros Hprim s Hs. rewrite Hprim in H2. apply HasConnectedSystems_ok in H2 as [_ Hb].
  apply (proj1 Hb eq_refl). injection Ho as Hsys _ _. by rewrite Hsys.
Qed.

Lemma key_ids_deleted id l : k_ID <$> select (λ y, negb (N.eqb id (k_ID y))) l = filter (λ i, i ≠ id) (k_ID <$> l).
Proof.
  unfold select. induction l as [|k l IH]; [done|]. cbn [List.filter]. rewrite fmap_cons, filter_cons.
  destruct (N.eqb_spec id (k_ID k)) as [He|Hn]; cbn [negb].
  - rewrite decide_False by (by intros []). done.
  - rewrite decide_True by done. rewrite fmap_cons. by f_equal.
Qed.

(** The database part of a deletion. *)
Lemma delete_tx_ok id w w' r :
  w_inTx w = false →
  Transaction (_ ← map_err (wrapping ErrDeleteKeyDB) (DeleteWhere (λ v : KeyVersion, N.eqb (kv_KeyID v) id));
    _ ← map_err (wrapping ErrDeleteKeyDB) (Delete (Key_ofID id)); mret tt) w = (w', r) →
  outside_keys (w_db w') = outside_keys (w_db w) ∧
  match r with
  | inl _ => key_ids (w_db w') = key_ids (w_db w)
  | inr _ => (∀ l, l ∈ db_labels (w_db w) → l_ResourceID l ≠ id) ∧
      key_ids (w_db w') = filter (λ i, i ≠ id) (key_ids (w_db w)) ∧
      (∀ v, v ∈ db_keyVersions (w_db w') → kv_KeyID v ≠ id)
  end.
Proof.
  intros Hx H. split; [eapply run_fixes, H; apply delete_tx_outside|]. destruct r as [e|[]].
  { by rewrite (Transaction_rollback _ _ _ _ Hx H). }
  apply Transaction_commit in H as (w1 & H & ->); [|done]. apply bind_ok in H as (w2 & b & H2%map_err_ok & H).
  apply bind_ok in H as (w3 & b' & H3%map_err_ok & [= <-]).
  apply DeleteWhere_ok in H2. pose proof (Delete_unreferenced _ _ _ _ H3) as Hr.
  apply Delete_ok in H3 as [_ H3]. cbn in Hr, H3 |- *. rewrite H2 in Hr. split_and!.
  - intros l Hl He. assert (existsb (λ l, N.eqb (l_ResourceID l) id) (db_labels (w_db w)) = true) as Hc; [|cbn in Hr; congruence].
    apply existsb_exists. exists l. by rewrite <-list_elem_of_In, He, N.eqb_refl.
  - rewrite H3, H2. unfold key_ids. cbn. apply key_ids_deleted.
  - rewrite H3, H2. cbn. intros v Hv. apply list_elem_of_filter in Hv. tauto.
Qed.

Lemma byID_eq id pk : id ≠ 0%N → byID id pk = true → pk = id.
Proof. unfold byID. intros Hn%N.eqb_neq. rewrite Hn. cbn. apply N.eqb_eq. Qed.

(** The primary key of a configuration with connected systems is safe: deleting it
    fails, the provider is never asked to delete it, and the key is still there. *)
Theorem primary_key_protected ctx id w w' r k c s :
  honest_faults w → id ≠ 0%N → NoDup (key_ids (w_db w)) → k ∈ db_keys (w_db w) → k_ID k = id →
  configOf (w_db w) (k_KeyConfigurationID k) = Some c → kc_PrimaryKeyID c = Some id →
  s ∈ db_systems (w_db w) → s_KeyConfigurationID s = Some (k_KeyConfigurationID k) →
  KeyManager_Delete ctx id w = (w', r) →
  (∃ e, r = inl e) ∧ deletions w' = deletions w ∧ key_ids (w_db w') = key_ids (w_db w).
Proof.
  intros Hf H0 Hnd Hk Hid Hc Hp Hs Hsc H.
  apply (delete_checked _ _ _ _ _ Hf) in H as [(e & -> & Ho & Hd)|(k' & w1 & key & Hk' & Hid' & Hsafe & _)].
  - split; [by exists e|]. split; [done|]. by injection Ho as _.
  - apply (byID_eq _ _ H0) in Hid'. assert (k' = k) as -> by (eapply (NoDup_key k_ID); [exact Hnd|done..|congruence]).
    assert (KeyConfigs.ofKeyConfig (k_KeyConfigurationID k) s = false) as Hno; [apply Hsafe; [|done]|].
    + unfold is_primary. rewrite Hc. apply bool_decide_eq_true. cbn. congruence.
    + unfold KeyConfigs.ofKeyConfig in Hno. rewrite Hsc in Hno. by apply bool_decide_eq_false in Hno.
Qed.


(** * Creating a key *)

(** Steps before the key is stored write only what provisioning writes. *)
Lemma retry_preserves (R : World → World → Prop) `{!PreOrder R} {A} retryIf n (f : Comp World A) :
  preserves R f → preserves R (retry_Do retryIf n f).
Proof. intros Hf. induction n as [|n IH]; cbn; [done|]. preserve. Qed.

Section Prepare.
Context (R : World → World → Prop) `{!FrameRule prov_frame R}.

Lemma callProvider_frame {A B} op pid pr (m : _ → _ → A → error + B) v a :
  op ==s "DeleteKey" = false → preserves R (callProvider op pid pr m v a).
Proof using FrameRule0. intros Hop w. by eapply fr_log. Qed.
#[local] Hint Extern 2 (preserves _ (callProvider _ _ _ _ _ _)) => by apply callProvider_frame : cmk.

Lemma initProvider_frame ctx k : preserves R (initProvider ctx k).
Proof using FrameRule0. unfold initProvider. apply preserves_map_err, GetOrInitProvider_frame, _. Qed.
Lemma createManagedProviderKey_frame k pr : preserves R (createManagedProviderKey k pr).
Proof using FrameRule0.
  pose proof (@fr_preorder _ prov_frame R _). unfold createManagedProviderKey. framed.
  apply retry_preserves; [done|]. framed.
Qed.
#[local] Hint Resolve createManagedProviderKey_frame : cmk.
Lemma createOrRegisterProviderKey_frame ctx k pr : preserves R (createOrRegisterProviderKey ctx k pr).
Proof using FrameRule0.
  unfold createOrRegisterProviderKey, registerHYOKKey, derefNativeID, addCertificateSubjectToCryptoData. framed.
Qed.
Lemma createOrRecoverProviderKey_frame k pr : preserves R (createOrRecoverProviderKey k pr).
Proof using FrameRule0. unfold createOrRecoverProviderKey, recoverExistingProviderKey. framed. Qed.

Lemma validateKeyCreation_frame ctx k : preserves R (validateKeyCreation ctx k).
Proof using FrameRule0. unfold validateKeyCreation. framed. Qed.
Lemma NeedsDefaultKeystoreProvisioning_frame : preserves R Keystores.NeedsDefaultKeystoreProvisioning.
Proof using FrameRule0. unfold Keystores.NeedsDefaultKeystoreProvisioning, getStoredDefaultKeystoreConfig. framed. Qed.

(** Looking up a key of the platform, once its row is read, only reads. *)
Lemma Get_byok_frame ctx k :
  k_KeyType k = KeyTypeBYOK →
  preserves R (isPrimary ← map_err (wrapping ErrGetKeyDB) (IsPrimaryKey k);
    let k := set_k_IsPrimary isPrimary k in
    _ ← HasKeyAccess ctx AuthzPolicies.APIActionRead (k_KeyConfigurationID k);
    k ← (if k_KeyType k ==s KeyTypeBYOK then mret k
         else if k_KeyType k ==s KeyTypeHYOK then syncHYOKKeyState ctx k
         else fail ErrInvalidKeystore);
    setEditableStatus k).
Proof using FrameRule0.
  intros Hbk. cbv zeta. cbn [k_KeyType set_k_IsPrimary]. rewrite Hbk, String.eqb_refl.
  unfold setEditableStatus. framed.
Qed.
End Prepare.

(** The provider decides the state, never whose key it is. *)
Lemma createManagedProviderKey_identity k pr w w' k' :
  createManagedProviderKey k pr w = (w', inr k') → identity k' = identity k.
Proof. intros (w1 & resp & _ & H)%bind_ok. by injection H as _ <-. Qed.

Lemma createOrRegister_identity ctx k pr w w' k' :
  createOrRegisterProviderKey ctx k pr w = (w', inr k') → identity k' = identity k.
Proof.
  unfold createOrRegisterProviderKey. destruct (_ ==s KeyTypeBYOK); [apply createManagedProviderKey_identity|].
  destruct (_ ==s KeyTypeHYOK); [|done]. unfold registerHYOKKey.
  intros (w1 & v & _ & H)%bind_ok. apply bind_ok in H as (w2 & nid & _ & H). apply bind_ok in H as (w3 & resp & _ & H).
  apply bind_ok in H as (w4 & k4 & H4%map_err_ok & H).
  assert (identity k4 = identity k) as H4i.
  { apply bind_ok in H4 as (w5 & certs & _ & H4). destruct (GetCryptoAccessData k); by injection H4 as _ <-. }
  destruct (negb _); [done|]. cbv zeta in H. destruct (negb _); [done|]. by injection H as _ <-.
Qed.

(** Make a key the primary key of a configuration. *)
Definition with_primary (cfg id : uuid) d : DB :=
  set_keyConfigs ((λ c, if N.eqb (kc_ID c) cfg then set_kc_PrimaryKeyID (Some id) c else c) <$> db_keyConfigs d) d.
Definition has_keys (cfg : uuid) d : bool := existsb (keyOfKeyConfig cfg) (db_keys d).

(** The configurations after [k] was stored: the first key that is ready becomes the
    primary key. *)
Definition primary_after k d : list KeyConfiguration :=
  if has_keys (k_KeyConfigurationID k) d || (k_State k ==s KeyStatePENDINGCREATION)
  then db_keyConfigs d else db_keyConfigs (with_primary (k_KeyConfigurationID k) (k_ID k) d).

Lemma setPrimaryIfFirstKey_ok k w w' :
  honest_faults w → setPrimaryIfFirstKey k w = (w', inr tt) →
  w_db w' = set_keyConfigs (primary_after k (w_db w)) (w_db w).
Proof.
  intros Hf (w1 & r & H1%try_ok & H)%bind_ok. pose proof (First_db _ _ _ _ H1) as D1.
  unfold primary_after, has_keys. destruct r as [e|k0].
  - destruct (errors_Is e ErrNotFound) eqn:He; [|done]. cbn [negb] in H.
    pose proof (First_missing _ _ _ _ Hf H1 He) as Hn.
    assert (existsb (keyOfKeyConfig (k_KeyConfigurationID k)) (db_keys (w_db w)) = false) as ->.
    { apply not_true_is_false. intros (x & Hx%list_elem_of_In & Hc)%existsb_exists. by rewrite (Hn x Hx) in Hc. }
    cbn [orb]. destruct (k_State k ==s KeyStatePENDINGCREATION).
    { injection H as <-. rewrite D1. by destruct (w_db w). }
    destruct (k_State k ==s KeyStateDISABLED); [done|].
    apply bind_ok in H as (w2 & b & H & [= <-]). destruct (Patch_ok _ _ _ _ _ H) as (x & [= <-] & -> & _).
    rewrite D1. unfold with_primary. cbn [db_keyConfigs set_keyConfigs]. f_equal.
    unfold patched. apply list_fmap_ext. intros i c _. cbn. rewrite N.eqb_sym.
    destruct (N.eqb (kc_ID c) (k_KeyConfigurationID k)); [|done]. by destruct c.
  - injection H as <-. apply First_ok in H1 as [Hk Hc].
    assert (existsb (keyOfKeyConfig (k_KeyConfigurationID k)) (db_keys (w_db w)) = true) as ->
      by (apply existsb_exists; exists k0; split; [by apply list_elem_of_In|done]).
    rewrite D1. by destruct (w_db w).
Qed.

Lemma setPrimary_keeps_keys k : preserves (fixes db_keys) (setPrimaryIfFirstKey k).
Proof.
  unfold setPrimaryIfFirstKey. preserve; [apply same_db_fixes, First_same_db|by apply Patch_fixes].
Qed.

Lemma syncKeyVersions_keeps ctx pr k :
  preserves (fixes (λ d, (db_keyConfigs d, key_ids d))) (syncKeyVersions ctx pr k).
Proof.
  apply syncKeyVersions_sync. apply fixes_frame. intros d d' Hd.
  change ((db_keyConfigs (sync_frame d).1, (sync_frame d).2) = (db_keyConfigs (sync_frame d').1, (sync_frame d').2)).
  by rewrite Hd.
Qed.

Lemma persistCreatedKey_ok ctx pr k w w' k' :
  honest_faults w → w_inTx w = false → persistCreatedKey ctx pr k w = (w', inr k') →
  identity k' = identity k ∧ k_State k' = k_State k ∧ key_ids (w_db w') = key_ids (w_db w) ++ [k_ID k] ∧
  db_keyConfigs (w_db w') = primary_after k (w_db w).
Proof.
  intros Hf Hx H. apply Transaction_commit in H as (w1 & H & ->); [|done].
  apply bind_ok in H as (w2 & [] & H2%map_err_ok & H).
  pose proof (run_fixes db_keys _ _ _ _ (setPrimary_keeps_keys k) H2) as K2.
  apply setPrimaryIfFirstKey_ok in H2; [|done]. apply bind_ok in H as (w3 & k3 & H3 & H).
  apply bind_ok in H3 as (w4 & row & H4%map_err_ok & [= -> <-]).
  destruct (Create_ok _ _ _ _ H4) as (x & [= <-] & -> & _ & D4). cbn in D4.
  apply bind_ok in H as (w5 & [] & H5 & [= <- <-]).
  assert (db_keyConfigs (w_db w5) = db_keyConfigs (w_db w3) ∧ key_ids (w_db w5) = key_ids (w_db w3)) as [C5 I5].
  { destruct (_ ==s KeyTypeHYOK); [|by injection H5 as <-]. apply map_err_ok in H5.
    apply (run_fixes _ _ _ _ _ (syncKeyVersions_keeps _ _ _)) in H5. by injection H5 as -> ->. }
  split_and!; [done|done|..]; cbn.
  - rewrite I5, D4. unfold key_ids. cbn. by rewrite fmap_app, K2.
  - rewrite C5, D4. cbn. by rewrite H2.
Qed.

(** Steps that leave keys and configurations alone and neither enter a transaction nor
    add failures. *)
Definition keys_part d : list Key * list KeyConfiguration := (db_keys d, db_keyConfigs d).
Definition aside : World → World → Prop := both (fixes keys_part) (both same_env fewer_faults).
Lemma keys_part_frame d d' : prov_frame d = prov_frame d' → keys_part d = keys_part d'.
Proof. intros Hd. change (keys_part (prov_frame d) = keys_part (prov_frame d')). by rewrite Hd. Qed.
#[local] Instance aside_frame : FrameRule prov_frame aside.
Proof. apply both_frame, _. apply fixes_frame, keys_part_frame. Qed.

Lemma aside_run {A} (m : Comp World A) w w' r :
  preserves aside m → m w = (w', r) → honest_faults w → w_inTx w = false →
  keys_part (w_db w') = keys_part (w_db w) ∧ honest_faults w' ∧ w_inTx w' = false.
Proof.
  intros Hm H Hf Hx. specialize (Hm w). rewrite H in Hm. destruct Hm as (Hp & He & Hff). cbn in *. split_and!; [done|..].
  - by eapply honest_faults_mono.
  - destruct He. congruence.
Qed.

(** A key that waits for its keystore is stored as it is. *)
Lemma createPending_ok ctx k w w' o :
  honest_faults w → w_inTx w = false → createPendingBYOKKeyIfNeeded ctx k w = (w', inr o) →
  match o with
  | None => keys_part (w_db w') = keys_part (w_db w) ∧ honest_faults w' ∧ w_inTx w' = false
  | Some k' => identity k' = identity k ∧ k_State k' = KeyStatePENDINGCREATION ∧
      key_ids (w_db w') = key_ids (w_db w) ++ [k_ID k] ∧ db_keyConfigs (w_db w') = db_keyConfigs (w_db w)
  end.
Proof.
  intros Hf Hx (w1 & b & H1 & H)%bind_ok.
  destruct (aside_run _ _ _ _ (NeedsDefaultKeystoreProvisioning_frame aside) H1 Hf Hx) as (P1 & Hf1 & Hx1).
  destruct b; [|by injection H as <- <-]. cbn [negb] in H. cbv zeta in H.
  apply bind_ok in H as (w2 & row & H2%map_err_ok & H). apply Transaction_commit in H2 as (w3 & H2 & ->); [|done].
  destruct (Create_ok _ _ _ _ H2) as (x & [= <-] & Hr & _ & D2). cbn in D2.
  apply bind_ok in H as (w4 & [] & [= <-] & H). apply bind_ok in H as (w5 & [] & H5 & [= <- <-]).
  assert (w_db w5 = w_db w3) as D5.
  { unfold enqueuePendingStateSync in H5. destruct keyAsyncClient as [f|]; [|by injection H5 as <-].
    destruct (f _); by injection H5 as <-. }
  injection P1 as K1 C1. split_and!; [done..| |]; rewrite D5, D2; unfold key_ids; cbn.
  - by rewrite fmap_app, K1, Hr.
  - done.
Qed.

Lemma createPending_err ctx k w w' e :
  honest_faults w → w_inTx w = false → createPendingBYOKKeyIfNeeded ctx k w = (w', inl e) →
  keys_part (w_db w') = keys_part (w_db w).
Proof.
  intros Hf Hx H. apply bind_inv in H as [(e' & H & _)|(w1 & b & H1 & H)].
  { by eapply (aside_run _ _ _ _ (NeedsDefaultKeystoreProvisioning_frame aside)) in H as []. }
  destruct (aside_run _ _ _ _ (NeedsDefaultKeystoreProvisioning_frame aside) H1 Hf Hx) as (P1 & Hf1 & Hx1).
  destruct b; [|done]. cbn [negb] in H. cbv zeta in H. rewrite <-P1.
  apply bind_inv in H as [(e' & H & _)|(w2 & row & H2 & H)].
  - apply map_err_err in H as (e2 & H & _). by rewrite (Transaction_rollback _ _ _ _ Hx1 H).
  - exfalso. apply bind_inv in H as [(? & [=] & _)|(w3 & [] & _ & H)].
    apply bind_inv in H as [(? & H & _)|(w4 & [] & _ & [=])].
    unfold enqueuePendingStateSync in H. destruct keyAsyncClient as [f|]; [|done]. by destruct (f _).
Qed.

(** The steps of a creation up to the provider leave keys and configurations alone. *)
Lemma create_prepared ctx k w w' r :
  honest_faults w → w_inTx w = false →
  (provider ← initProvider ctx k; k' ← createOrRegisterProviderKey ctx k provider; mret (provider, k')) w = (w', r) →
  keys_part (w_db w') = keys_part (w_db w) ∧ honest_faults w' ∧ w_inTx w' = false ∧
  ∀ p, r = inr p → identity p.2 = identity k.
Proof.
  intros Hf Hx H. assert (preserves aside (provider ← initProvider ctx k;
    k' ← createOrRegisterProviderKey ctx k provider; mret (provider, k'))) as Hm.
  { preserve; first [apply initProvider_frame, _|apply createOrRegisterProviderKey_frame, _]. }
  destruct (aside_run _ _ _ _ Hm H Hf Hx) as (P & F & X). split_and!; [done..|]. intros p ->.
  apply bind_ok in H as (w1 & pr & _ & H). apply bind_ok in H as (w2 & k' & H & [= _ <-]).
  by apply createOrRegister_identity in H.
Qed.

Lemma create_split ctx k w :
  (provider ← initProvider ctx k; k' ← createOrRegisterProviderKey ctx k provider;
   k' ← persistCreatedKey ctx provider k'; _ ← sendCreateAuditLog k'; mret k') w =
  (p ← (provider ← initProvider ctx k; k' ← createOrRegisterProviderKey ctx k provider; mret (provider, k'));
   k' ← persistCreatedKey ctx p.1 p.2; _ ← sendCreateAuditLog k'; mret k') w.
Proof.
  unfold mbind, M_bind, mret, M_ret. destruct (initProvider ctx k w) as [w1 [e|pr]]; [done|].
  by destruct (createOrRegisterProviderKey ctx k pr w1) as [w2 [e|k']].
Qed.

Lemma validateKeyCreation_ok ctx k w w' :
  fixes keys_part w w' → validateKeyCreation ctx k w = (w', inr tt) →
  ∃ c, c ∈ db_keyConfigs (w_db w) ∧ byID (k_KeyConfigurationID k) (kc_ID c) = true.
Proof.
  intros Hp (w1 & b & H1 & H)%bind_ok. apply bind_ok in H as (w2 & c & H2%map_err_ok & [= <-]).
  pose proof (First_db _ _ _ _ H2) as D2. apply First_ok in H2 as [Hc Hid]. exists c. split; [|done].
  unfold fixes in Hp. injection Hp as _ Hp. by rewrite <-Hp, D2.
Qed.

(** C15: creating a key is exact.  On success its configuration existed, exactly this
    key was added, and the key became its configuration's primary key if and only if the
    configuration had no key before and the key is not waiting for its keystore; on
    failure no key was added and no configuration changed. *)
Theorem create_key_outcome ctx k w w' r :
  honest_faults w → w_inTx w = false → KeyManager_Create ctx k w = (w', r) →
  match r with
  | inl _ => keys_part (w_db w') = keys_part (w_db w)
  | inr k' => identity k' = identity k ∧
      (∃ c, c ∈ db_keyConfigs (w_db w) ∧ byID (k_KeyConfigurationID k) (kc_ID c) = true) ∧
      key_ids (w_db w') = key_ids (w_db w) ++ [k_ID k] ∧
      db_keyConfigs (w_db w') = primary_after k' (w_db w)
  end.
Proof.
  intros Hf Hx H. apply bind_inv in H as [(e & H & ->)|(w1 & [] & H1 & H)].
  { by apply (aside_run _ _ _ _ (validateKeyCreation_frame aside _ _)) in H as []. }
  destruct (aside_run _ _ _ _ (validateKeyCreation_frame aside _ _) H1 Hf Hx) as (P1 & Hf1 & Hx1).
  apply (validateKeyCreation_ok _ _ _ _ P1) in H1.
  assert (key_ids (w_db w1) = key_ids (w_db w)) as I1 by (unfold key_ids; injection P1 as -> _; done).
  apply bind_inv in H as [(e & H & ->)|(w2 & o & H2 & H)].
  { destruct (_ ==s KeyTypeBYOK); [|done]. rewrite <-P1. by eapply createPending_err. }
  assert (match o with
    | None => keys_part (w_db w2) = keys_part (w_db w1) ∧ honest_faults w2 ∧ w_inTx w2 = false
    | Some k' => identity k' = identity k ∧ k_State k' = KeyStatePENDINGCREATION ∧
        key_ids (w_db w2) = key_ids (w_db w1) ++ [k_ID k] ∧ db_keyConfigs (w_db w2) = db_keyConfigs (w_db w1)
    end) as Ho.
  { destruct (_ ==s KeyTypeBYOK); [by apply (createPending_ok ctx)|]. by injection H2 as <- <-. }
  clear H2. destruct o as [k'|].
  { injection H as <- <-. destruct Ho as (Hi & Hst & I2 & C2). split_and!; [done..|by rewrite I2, I1|].
    unfold primary_after. rewrite Hst, orb_true_r, C2. by injection P1. }
  destruct Ho as (P2 & Hf2 & Hx2). rewrite create_split in H. unfold primary_after, with_primary, has_keys.
  rewrite P1 in P2. clear w1 P1 Hf1 Hx1 I1.
  apply bind_inv in H as [(e & H & ->)|(w3 & [pr k'] & H3 & H)]; [by apply create_prepared in H as (-> & _)|].
  apply create_prepared in H3 as (P3 & Hf3 & Hx3 & Hi); [|done..]. rewrite P2 in P3. specialize (Hi _ eq_refl).
  cbn [fst snd] in H, Hi. apply bind_inv in H as [(e & H & ->)|(w4 & k4 & H4 & H)].
  { by rewrite (Transaction_rollback _ _ _ _ Hx3 H). }
  injection H as <- <-. apply persistCreatedKey_ok in H4 as (Hi4 & Hs4 & I4 & C4); [|done..].
  split; [congruence|]. split; [done|]. unfold identity in *. injection Hi as Hid Hc _ _.
  injection Hi4 as Hid4 Hc4 _ _. split; cbn.
  - rewrite I4, Hid. unfold key_ids. by injection P3 as -> _.
  - rewrite C4. unfold primary_after, with_primary, has_keys. injection P3 as -> ->. by rewrite Hs4, Hid4, Hc4.
Qed.

(** * Keys that waited for their keystore *)

Lemma setPrimary_not_first k w w' r :
  honest_faults w → has_keys (k_KeyConfigurationID k) (w_db w) = true → setPrimaryIfFirstKey k w = (w', r) →
  w_db w' = w_db w.
Proof.
  intros Hf Hk H. apply bind_inv in H as [(e & H & _)|(w1 & o & H1%try_ok & H)].
  { apply try_inv in H as [(? & ? & _)|(q & _ & H)]; [done|]. by apply First_db in H. }
  pose proof (First_db _ _ _ _ H1) as D1. destruct o as [e|k0]; [|by injection H as <- _].
  destruct (errors_Is e ErrNotFound) eqn:He; [|by injection H as <- _]. exfalso.
  pose proof (First_missing _ _ _ _ Hf H1 He) as Hn.
  apply existsb_exists in Hk as (x & Hx%list_elem_of_In & Hc). by rewrite (Hn x Hx) in Hc.
Qed.

Lemma createOrRecover_identity k pr w w' k' :
  createOrRecoverProviderKey k pr w = (w', inr k') → identity k' = identity k.
Proof.
  intros (w1 & r & H1%try_ok & H)%bind_ok. destruct r as [e|k1].
  - destruct (negb _); [done|]. apply bind_ok in H as (w2 & resp & _ & H). by injection H as _ <-.
  - injection H as _ <-. by apply createManagedProviderKey_identity in H1.
Qed.

(** Looking up a key of the platform does not write keys or configurations. *)
Lemma Get_byok_aside ctx id w w' r :
  (∀ k, k ∈ db_keys (w_db w) → byID id (k_ID k) = true → k_KeyType k = KeyTypeBYOK) →
  honest_faults w → w_inTx w = false → Keys.Get ctx id w = (w', r) →
  keys_part (w_db w') = keys_part (w_db w) ∧ honest_faults w' ∧ w_inTx w' = false.
Proof.
  intros Hb Hf Hx H. apply bind_inv in H as [(e & H & _)|(w1 & k & H1 & H)].
  { apply aside_run in H; [done| |done..]. by eapply preserves_map_err, First_frame, _. }
  assert (k_KeyType k = KeyTypeBYOK) as Hbk.
  { apply map_err_ok in H1. apply First_ok in H1 as [Hk Hid]. by apply Hb. }
  destruct (aside_run _ _ _ _ (preserves_map_err _ _ _ (First_frame prov_frame aside _)) H1 Hf Hx) as (P1 & F1 & X1).
  rewrite <-P1. revert H F1 X1. apply aside_run, Get_byok_frame; [apply _|done].
Qed.

Lemma initProviderForPendingKey_ok ctx k w w' o :
  honest_faults w → w_inTx w = false → initProviderForPendingKey ctx k w = (w', inr (Some o)) →
  keys_part (w_db w') = keys_part (w_db w) ∧ honest_faults w' ∧ w_inTx w' = false.
Proof.
  intros Hf Hx (w1 & r & H1%try_ok & H)%bind_ok.
  destruct (aside_run _ _ _ _ (GetOrInitProvider_frame aside ctx k) H1 Hf Hx) as (P1 & F1 & X1).
  destruct r as [e|pr]; [|by injection H as <- _]. destruct (errors_Is e _); [done|].
  destruct (errors_Is e _); [|done]. by apply bind_ok in H as (w2 & [] & _ & [=]).
Qed.
Lemma transition_configs k code msg :
  preserves (fixes db_keyConfigs) (transitionPendingKeyToError k code msg).
Proof. unfold transitionPendingKeyToError. preserve. by apply Patch_fixes. Qed.
Lemma initProviderForPendingKey_configs ctx k :
  preserves (fixes db_keyConfigs) (initProviderForPendingKey ctx k).
Proof.
  unfold initProviderForPendingKey. preserve; [|apply transition_configs].
  intros w. pose proof (GetOrInitProvider_frame aside ctx k w) as [Hp _]. by injection Hp.
Qed.

(** C17: a key that waited for its keystore never becomes a primary key.  The last step
    of its creation makes it primary only if the configuration has no key yet, but by
    then the row of the key itself is there. *)
Theorem pending_key_never_primary ctx id w w' r :
  honest_faults w → w_inTx w = false →
  (∀ k, k ∈ db_keys (w_db w) → byID id (k_ID k) = true → k_KeyType k = KeyTypeBYOK) →
  SyncPendingCreationKey ctx id w = (w', r) →
  db_keyConfigs (w_db w') = db_keyConfigs (w_db w).
Proof.
  intros Hf Hx Hb H. unfold SyncPendingCreationKey in H.
  apply bind_inv in H as [(e & H & _)|(w1 & o & H1%try_ok & H)].
  { apply try_inv in H as [(? & ? & _)|(q & _ & H)]; [done|].
    apply (Get_byok_aside _ _ _ _ _ Hb Hf Hx) in H as [H _]. by injection H. }
  destruct (Get_byok_aside _ _ _ _ _ Hb Hf Hx H1) as (P1 & F1 & X1). injection P1 as K1 C1. rewrite <-C1.
  destruct o as [e|k]; [destruct (errors_Is e _); by injection H as <- _|].
  destruct (negb _); [by injection H as <- _|].
  apply (Get_ok _ _ _ _ _ Hf) in H1 as (k0 & Hk0 & _ & Hi). injection Hi as _ Hcfg _ _. rewrite <-K1 in Hk0.
  apply bind_inv in H as [(? & [=] & _)|(w2 & now & [= <- <-] & H)].
  destruct (_ <? _)%Z; [by apply (run_fixes _ _ _ _ _ (transition_configs _ _ _)) in H|].
  apply bind_inv in H as [(e & H & _)|(w2 & [pr|] & H2 & H)].
  { by apply (run_fixes _ _ _ _ _ (initProviderForPendingKey_configs _ _)) in H. }
  2:{ injection H as <- _. by apply (run_fixes _ _ _ _ _ (initProviderForPendingKey_configs _ _)) in H2. }
  destruct (initProviderForPendingKey_ok _ _ _ _ _ F1 X1 H2) as (P2 & F2 & X2).
  apply bind_inv in H as [(e & H & _)|(w3 & k3 & H3 & H)].
  { destruct (aside_run _ _ _ _ (createOrRecoverProviderKey_frame aside _ _) H F2 X2) as (P3 & _).
    rewrite P2 in P3. by injection P3. }
  destruct (aside_run _ _ _ _ (createOrRecoverProviderKey_frame aside _ _) H3 F2 X2) as (P3 & F3 & X3).
  apply createOrRecover_identity in H3. injection H3 as _ Hc3 _ _. rewrite P2 in P3. injection P3 as K3 C3.
  rewrite <-C3. destruct r as [e|[]]; [by rewrite (Transaction_rollback _ _ _ _ X3 H)|].
  apply Transaction_commit in H as (w4 & H & ->); [|done]. apply bind_ok in H as (w5 & [] & H5%map_err_ok & H).
  apply setPrimary_not_first in H5; [|done|].
  - apply bind_ok in H as (w6 & b & H6%map_err_ok & [= <-]).
    destruct (Patch_ok _ _ _ _ _ H6) as (x & _ & D6 & _). cbn. by rewrite D6, H5.
  - apply existsb_exists. exists k0. rewrite <-list_elem_of_In. cbn. rewrite K3, Hc3, Hcfg. split; [done|].
    apply N.eqb_refl.
Qed.
End KeyFacts.
