(* ===== verification/ControllerFacts.v ===== *)
(** The gate of the controllers: while a tenant requires approval workflows, no direct
    request links or unlinks a system, deletes or disables a primary key or switches the
    primary key of a configuration. *)
From S2P Require Import Prelude Errs Json AuthzPolicies Authz Model Store Batch OData.
From S2P Require Import Users KeyAccess Events JobHandlers KeyConfigs Labels RegistryClient Systems.
From S2P Require Import KeyVersions Keys TenantConfig Certificates Keystores Groups Tenants.
From S2P Require Import Fsm Lifecycle WorkflowManager WorkflowFacts Filters Sanitise ApiErrors KeyRequests Managers.
From S2P Require Import ManagerFacts Frames KeystoreFacts KeyFacts Controllers GoContext.

Section Gate.
Context {F : FSM} {UP : UUIDParse} {NS : NewString} {Dp : Deployment} {I : IDM} {Env : ManagerEnv}.
Context {O : Orbital} {Rg : Registry} {US : UUIDString} {SI : SystemInformation} {G : GoMaps}.
Context {NU : NewUUID} {PT : ParseTime} {E : CertificateEnv} {PC : PluginCatalog} {KE : KeyEnv} {P : Policy}.
Implicit Types (k : Key) (d : DB) (w : World).

(** The requests that act at once on what workflows protect *)
Inductive DirectCall :=
| LinkSystem (systemID keyConfigurationID : uuid)
| UnlinkSystem (systemID : uuid)
| DeleteKey (keyID : uuid)
| ChangeKey (keyID : uuid) (body : KeyPatchBody)
| ChangeKeyConfiguration (keyConfigID : uuid) (body : KeyConfigurationPatch).

Definition serve (ctx : Ctx) (call : DirectCall) : Comp World APIResponse :=
  match call with
  | LinkSystem systemID keyConfigurationID => controller_LinkSystemAction ctx systemID keyConfigurationID
  | UnlinkSystem systemID => controller_UnlinkSystemAction ctx systemID
  | DeleteKey keyID => DeleteKeysKeyID ctx keyID
  | ChangeKey keyID body => controller_UpdateKey ctx keyID body
  | ChangeKeyConfiguration keyConfigID body => controller_UpdateKeyConfigurationByID ctx keyConfigID body
  end.

(** The key with an identifier is the primary key of its configuration. *)
Definition primaryKey d (id : uuid) : Prop :=
  id ≠ 0%N ∧ ∀ k, k ∈ db_keys d → k_ID k = id → is_primary d k = true.

Definition sensitive d (call : DirectCall) : Prop :=
  match call with
  | LinkSystem _ _ | UnlinkSystem _ => True
  | DeleteKey id => primaryKey d id
  | ChangeKey id body =>
      kpb_IsPrimary body = Some true ∨ is_Some (kpt_Enabled (kpb_Patch body)) ∧ primaryKey d id
  | ChangeKeyConfiguration id body =>
      id ≠ 0%N ∧ ∃ p, kp_PrimaryKeyID body = Some p ∧
        ∀ c, c ∈ db_keyConfigs d → kc_ID c = id → ∃ q, kc_PrimaryKeyID c = Some q ∧ q ≠ p
  end.

(** The tenant has a workflow configuration, and it requires workflows. *)
Definition enforced d : Prop :=
  (∃ row, row ∈ db_tenantConfigs d ∧ tc_Key row = WorkflowConfigKey) ∧
  ∀ row c, row ∈ db_tenantConfigs d → tc_Key row = WorkflowConfigKey →
    json_Unmarshal (tc_Value row) = inr c → Enabled c = true.

(** Systems with their links, configurations with their primary keys, labels, keys. *)
Definition guarded d := (outside_keys d, key_ids d).

(** What a refused request leaves as it was: the guarded tables, the requirement, and the
    keys at the providers. *)
Definition kept : World → World → Prop :=
  both (fixes (λ d, (guarded d, db_tenantConfigs d))) no_deletion.
#[local] Instance kept_frame : FrameRule sync_frame kept.
Proof.
  apply both_frame; [|apply _]. apply fixes_frame. intros d d' Hd.
  change ((outside_keys (sync_frame d).1, (sync_frame d).2, db_tenantConfigs (sync_frame d).1) =
    (outside_keys (sync_frame d').1, (sync_frame d').2, db_tenantConfigs (sync_frame d').1)).
  by rewrite Hd.
Qed.
#[local] Instance kept_preorder : PreOrder kept := fr_preorder (frame := sync_frame).

Lemma kept_enforced w w' : kept w w' → enforced (w_db w) → enforced (w_db w').
Proof. intros [[= _ _ _ _ Ht] _]. unfold enforced. by rewrite Ht. Qed.

Lemma run_kept {A} (m : Comp World A) w w' r : preserves kept m → m w = (w', r) → kept w w'.
Proof. intros Hm H. specialize (Hm w). by rewrite H in Hm. Qed.

(** * The requirement *)

Lemma GetWorkflowConfig_enforced ctx w w' r :
  honest_faults w → enforced (w_db w) → GetWorkflowConfig ctx w = (w', r) →
  kept w w' ∧ ∀ c, r = inr c → Enabled c = true.
Proof.
  intros Hf [(row & Hrow & Hkey) Hall]. unfold GetWorkflowConfig, mbind, M_bind, attempt.
  destruct (First _ w) as [w1 [e|found]] eqn:H1;
    pose proof (run_kept _ _ _ _ (First_frame sync_frame kept _) H1) as Hk.
  - destruct (errors_Is e ErrNotFound) eqn:He; [|by intros [= <- <-]].
    pose proof (First_missing _ _ _ _ Hf H1 He row Hrow) as Hn. cbv beta in Hn. by rewrite Hkey in Hn.
  - apply First_ok in H1 as [Hin Hfk%String.eqb_eq].
    intros (r' & [= -> <-] & Hr)%map_err_result. split; [done|]. intros c ->.
    eapply Hall; [done..|]. by apply Hr.
Qed.

Lemma IsWorkflowRequired_enforced ctx w w' r :
  honest_faults w → enforced (w_db w) → IsWorkflowRequired ctx w = (w', r) →
  kept w w' ∧ ∀ b, r = inr b → b = true.
Proof.
  intros Hf He [(e & H & ->)|(w1 & c & H%map_err_ok & [= <- <-])]%bind_inv.
  - apply map_err_err in H as (e' & H & _). apply GetWorkflowConfig_enforced in H as [Hk _]; [by split|done..].
  - apply GetWorkflowConfig_enforced in H as [Hk Hc]; [|done..]. split; [done|]. intros b [= <-]. by apply Hc.
Qed.

Lemma refused ctx w w' r :
  honest_faults w → enforced (w_db w) → refuseIfRequired ctx w = (w', r) → kept w w' ∧ ∃ e, r = inl e.
Proof.
  intros Hf He [(e & H & ->)|(w1 & b & H & H')]%bind_inv; apply IsWorkflowRequired_enforced in H as [Hk Hb]; try done.
  - by eauto.
  - rewrite (Hb b eq_refl) in H'. injection H' as <- <-. eauto.
Qed.

(** A computation that begins with the refusal *)
Lemma refused_bind {A} ctx (f : unit → Comp World A) w w' r :
  honest_faults w → enforced (w_db w) → (refuseIfRequired ctx ≫= f) w = (w', r) → kept w w' ∧ ∃ e, r = inl e.
Proof.
  intros Hf He [(e & H & ->)|(w1 & [] & H & _)]%bind_inv; apply refused in H as [Hk Hr]; try done.
  - eauto.
  - by destruct Hr.
Qed.

(** * Looking up the key and the configuration *)

Lemma Get_kept ctx id w w' r :
  honest_faults w → enforced (w_db w) → Keys.Get ctx id w = (w', r) →
  kept w w' ∧ honest_faults w' ∧ enforced (w_db w').
Proof.
  intros Hf He H. pose proof (run_kept _ _ _ _ (Get_sync kept ctx id) H) as Hk. split_and!; [done| |by eapply kept_enforced].
  by apply (run_honest _ _ _ _ (Get_sync fewer_faults ctx id) H).
Qed.

Lemma Get_primary ctx id w w' k :
  honest_faults w → primaryKey (w_db w) id → Keys.Get ctx id w = (w', inr k) → k_IsPrimary k = true.
Proof.
  intros Hf [H0 Hp] H. apply Get_ok in H as (k0 & Hk0 & Hid & Hi); [|done]. unfold identity in Hi.
  injection Hi as _ _ _ ->. apply Hp; [done|]. by apply byID_eq.
Qed.

Lemma GetKeyConfiguration_kept ctx id : preserves kept (KeyConfigs.GetKeyConfigurationByID ctx id).
Proof.
  assert (∀ id l, preserves kept (CountManagedKeyConfigs id l)) by (intros; by eapply CountManagedKeyConfigs_frame, _).
  assert (∀ ctx ids, preserves kept (GetRoleFromIAM ctx ids)) by (intros; by eapply GetRoleFromIAM_frame, _).
  assert (∀ ctx a r, preserves kept (NeedsGroupFiltering ctx a r)) by (intros; by eapply NeedsGroupFiltering_frame, _).
  unfold KeyConfigs.GetKeyConfigurationByID, HasKeyConfigAccess, authorizeKeyConfig, hasKeyConfigAccess. framed.
  by eapply First_frame, _.
Qed.

Lemma GetKeyConfiguration_ok ctx id w w' c :
  id ≠ 0%N → KeyConfigs.GetKeyConfigurationByID ctx id w = (w', inr c) →
  ∃ c0, c0 ∈ db_keyConfigs (w_db w) ∧ kc_ID c0 = id ∧ kc_PrimaryKeyID c = kc_PrimaryKeyID c0.
Proof.
  intros H0 (w1 & a & H1 & H)%bind_ok. apply bind_ok in H as (w2 & row & H2%map_err_ok & [= <- <-]).
  apply First_ok in H2 as [Hrow Hid]. pose proof (HasKeyConfigAccess_same_db ctx APIActionRead (Some (KeyConfiguration_ofID id)) w) as Hd.
  rewrite H1 in Hd. change (w_db w1 = w_db w) in Hd. rewrite Hd in Hrow.
  apply list_elem_of_fmap in Hrow as (c0 & -> & Hc0). exists c0. split; [done|].
  split; [|done]. apply byID_eq in Hid; done.
Qed.

(** * The endpoints *)

Lemma delete_gated ctx id w w' r :
  honest_faults w → enforced (w_db w) → primaryKey (w_db w) id → DeleteKeysKeyID ctx id w = (w', r) →
  kept w w' ∧ ∃ e, r = inl e.
Proof.
  intros Hf He Hp [(e & H & ->)|(w1 & b & H & H')]%bind_inv.
  - apply bind_inv in H as [(e' & H & _)|(w1 & k & _ & [=])]. apply Get_kept in H as [Hk _]; [|done..]. eauto.
  - apply bind_ok in H as (w2 & k & H & [= <- <-]). rewrite (Get_primary _ _ _ _ _ Hf Hp H) in H'.
    apply Get_kept in H as (Hk & Hf2 & He2); [|done..]. apply refused_bind in H' as [Hk' Hr]; [|done..].
    split; [by etrans|done].
Qed.

Lemma change_gated ctx id body w w' r :
  honest_faults w → enforced (w_db w) →
  kpb_IsPrimary body = Some true ∨ is_Some (kpt_Enabled (kpb_Patch body)) ∧ primaryKey (w_db w) id →
  controller_UpdateKey ctx id body w = (w', r) → kept w w' ∧ ∃ e, r = inl e.
Proof.
  intros Hf He Hs [(e & H & ->)|(w1 & b & H & H')]%bind_inv; unfold isPrimaryKeyStateUpdate in H.
  - destruct (kpt_Enabled _); [|done]. apply bind_inv in H as [(e' & H & _)|(w1 & k & H & H')].
    + apply Get_kept in H as [Hk _]; [|done..]. eauto.
    + apply Get_kept in H as [Hk _]; [|done..]. destruct (negb _); [|done]. injection H' as <- <-. eauto.
  - assert (kept w w1 ∧ honest_faults w1 ∧ enforced (w_db w1) ∧ default false (kpb_IsPrimary body) || b = true)
      as (Hk & Hf1 & He1 & Hb).
    { destruct (kpt_Enabled _) as [enabled|] eqn:Hen.
      - apply bind_ok in H as (w2 & k & H & H2). destruct (negb _); [done|]. injection H2 as <- <-.
        pose proof (Get_primary ctx id w w2 k Hf) as Hprim. apply Get_kept in H as Hg; [|done..].
        destruct Hg as (?&?&?). split_and!; [done..|].
        destruct Hs as [->|[_ Hp]]; [done|]. rewrite (Hprim Hp H). apply orb_true_r.
      - injection H as <- <-. split_and!; [done..|]. destruct Hs as [->|[[? [=]] _]]. done. }
    rewrite Hb in H'. apply refused_bind in H' as [Hk' Hr]; [|done..]. split; [by etrans|done].
Qed.

Lemma switch_gated ctx id body w w' r :
  honest_faults w → enforced (w_db w) → sensitive (w_db w) (ChangeKeyConfiguration id body) →
  controller_UpdateKeyConfigurationByID ctx id body w = (w', r) → kept w w' ∧ ∃ e, r = inl e.
Proof.
  intros Hf He (H0 & p & Hp & Hc) H. unfold controller_UpdateKeyConfigurationByID in H. rewrite Hp in H.
  apply bind_inv in H as [(e & H & ->)|(w1 & [] & H & _)].
  - split; [|eauto]. apply bind_inv in H as [(e' & H & _)|(w1 & b & H & H')].
    { by apply IsWorkflowRequired_enforced in H as [Hk _]. }
    apply IsWorkflowRequired_enforced in H as [Hk Hb]; [|done..]. rewrite (Hb b eq_refl) in H'. etrans; [exact Hk|].
    apply bind_inv in H' as [(e' & H & _)|(w2 & c & H & H')].
    + exact (run_kept _ _ _ _ (GetKeyConfiguration_kept ctx id) H).
    + pose proof (run_kept _ _ _ _ (GetKeyConfiguration_kept ctx id) H) as Hk2.
      destruct (kc_PrimaryKeyID c); [|done]. destruct (negb _); [|done]. by injection H' as <- <-.
  - exfalso. apply bind_ok in H as (w2 & b & H & H'). apply IsWorkflowRequired_enforced in H as [Hk Hb]; [|done..].
    rewrite (Hb b eq_refl) in H'. apply bind_ok in H' as (w3 & c & H & H').
    apply GetKeyConfiguration_ok in H as (c0 & Hc0 & Hid & Hpk); [|done].
    destruct Hk as [[= _ Hcs _ _ _] _]. rewrite Hcs in Hc0. destruct (Hc c0 Hc0 Hid) as (q & Hq & Hne).
    rewrite Hpk, Hq in H'. apply N.eqb_neq in Hne. by rewrite Hne in H'.
Qed.

End Gate.
