(* ===== verification/AssignFacts.v ===== *)
(** Assigning approvers: the workflow leaves INITIAL only with enough approvers, and
    the initiator is never made an approver. *)
From S2P Require Import Prelude Errs Json GoContext AuthzPolicies Authz Model Store Batch Fsm.
From S2P Require Import Lifecycle VoteFacts LifecycleFacts Users TenantConfig Groups.
From S2P Require Import WorkflowManager WorkflowFacts.

Section Assign.
Context {F : FSM} {FL : FSMLaws} {Act : Actions} {UP : UUIDParse} {NS : NewString} {Dp : Deployment}
  {I : IDM} {Env : ManagerEnv} {LL : LookupLaws}.
Implicit Types (w : World) (wf : Workflow).

Lemma Set_approver_rows a w w' :
  Set_ a w = (w', inr tt) → ∀ b, b ∈ db_approvers (w_db w') → b ∈ db_approvers (w_db w) ∨ b = a.
Proof.
  intros (x' & [= <-] & [(_ & ->)|(_ & ->)])%Set_ok b.
  - intros (c & -> & Hc)%list_elem_of_fmap. destruct (same_pk a c); auto.
  - intros [?|?%list_elem_of_singleton]%elem_of_app; auto.
Qed.

Lemma set_loop_rows f id l w w' :
  for_each (λ a, map_err f (Set_ (set_wa_WorkflowID id a))) l w = (w', inr tt) →
  ∀ b, b ∈ db_approvers (w_db w') →
       b ∈ db_approvers (w_db w) ∨ ∃ a, a ∈ l ∧ b = set_wa_WorkflowID id a.
Proof.
  revert w. induction l as [|a l IH]; intros w; simpl; [by intros [= <-]; auto|].
  intros (w1 & [] & Hs & H)%bind_ok b Hb. apply map_err_ok in Hs.
  destruct (IH _ H b Hb) as [Hb1|(a' & ? & ->)]; [|right; exists a'; set_solver].
  destruct (Set_approver_rows _ _ _ Hs b Hb1) as [?| ->]; [by left|right; exists a; set_solver].
Qed.

Lemma associateGroups_fixes n id gs : preserves (fixes db_approvers) (associateGroups n id gs).
Proof.
  revert n. induction gs as [|g gs IH]; intros n; simpl; [apply preserves_ret, _|].
  apply preserves_bind; [apply _|by apply Set_fixes|intros ?; apply IH].
Qed.

(** [CREATE] needs enough stored approvers. *)
Lemma precheck_create w l s' b :
  transitionPrecheck TransitionCreate (w, l) = (s', inr b) →
  (l_MinimumApproverCount l ≤ Z.of_nat (length (votes_of (wf_ID (l_Workflow l)) (w_db w))))%Z.
Proof.
  change (transitionPrecheck TransitionCreate) with
    (approversCount ← getNumberOfApprovers;
     l ← self;
     if (approversCount <? l_MinimumApproverCount l)%Z
     then fail (NewInsufficientApproverCountError approversCount (l_MinimumApproverCount l))
     else mret false).
  intros (s1 & n & Hn & H)%bind_ok.
  destruct (reads_inv _ _ _ _ _ getNumberOfApprovers_reads Hn) as (w1 & -> & Hdb).
  rewrite self_bind in H. cbn [snd] in H.
  destruct (Z.ltb_spec n (l_MinimumApproverCount l)) as [|Hle]; [done|].
  assert (n = Z.of_nat (length (votes_of (wf_ID (l_Workflow l)) (w_db w)))) as <-; [|done].
  unfold getNumberOfApprovers in Hn. rewrite self_bind in Hn. cbn [snd] in Hn.
  apply bind_ok in Hn as (s2 & row & Hf & Hn). apply map_err_ok in Hf.
  assert (∃ v2, s2 = (v2, l) ∧ w_db v2 = w_db w) as (v2 & -> & Hv2).
  { refine (reads_inv _ _ _ _ _ _ Hf). apply onWorld_reads, First_same_db. }
  apply map_err_ok in Hn. unfold onWorld, zoom in Hn. cbn [fst snd] in Hn.
  destruct (Count _ v2) as [v3 [e|c]] eqn:Hc; [done|]. injection Hn as _ <-.
  apply Count_ok in Hc as ->. by rewrite Hv2.
Qed.

Lemma create_applied ctx w l w' l' :
  in_sync l → ApplyTransition ctx TransitionCreate (w, l) = ((w', l'), inr tt) →
  (l_MinimumApproverCount l ≤ Z.of_nat (length (votes_of (wf_ID (l_Workflow l)) (w_db w))))%Z ∧
  l_Workflow l' = set_wf_State WorkflowStateWaitApproval (l_Workflow l) ∧
  persisted w' (wf_ID (l_Workflow l)) WorkflowStateWaitApproval ∧
  db_approvers (w_db w') = db_approvers (w_db w).
Proof.
  intros Hsync Hrun.
  destruct (ApplyTransition_cases _ _ _ _ _ _ Hrun) as
    (w1 & Hdb & [(e & _ & _ & [=])|[(Hpre & _ & _)|(Hpre & Happ)]]).
  { apply precheck_skip in Hpre. repeat (apply elem_of_cons in Hpre as [?|Hpre]; [done|]).
    by apply not_elem_of_nil in Hpre. }
  apply precheck_create in Hpre. split; [done|].
  destruct (dsts_cases (wf_State (l_Workflow l)) TransitionCreate) as [[s1 Hstep]|Hd].
  2:{ destruct (applied_stuck ctx _ w1 l _ Hsync Hd) as (e & He). congruence. }
  assert (s1 = WorkflowStateWaitApproval) as -> by (by inversion Hstep).
  destruct (fire_step w1 l _ _ _ Hsync Hstep) as (m & Hfire & Hrep).
  unfold applied, mbind at 1, M_bind at 1 in Happ. rewrite Hfire in Happ. cbn in Happ.
  rewrite self_bind in Happ. cbn in Happ. rewrite (rep_current _ _ _ Hrep) in Happ. cbn in Happ.
  pose proof (saveState_fixes db_approvers _ _ _ _ ltac:(done) Happ) as Hfix.
  apply (saveState_ok _ (set_l_StateMachine m l) _ _ Hrep) in Happ as (Hl' & _ & Hp); [|done].
  simpl in Hl', Hp, Hfix. split_and!; [by subst l'|done|congruence].
Qed.

(** The transaction of the assignment, taken apart. *)
Lemma addApproversTx_ok ctx u approvers groups w wf w' wf' :
  addApproversTx ctx u approvers groups (w, wf) = ((w', wf'), inr tt) →
  (wf_MinimumApprovalCount wf ≤ Z.of_nat (length (votes_of (wf_ID wf) (w_db w'))))%Z ∧
  wf' = set_wf_State WorkflowStateWaitApproval wf ∧
  persisted w' (wf_ID wf) WorkflowStateWaitApproval ∧
  (∀ b, b ∈ db_approvers (w_db w') →
        b ∈ db_approvers (w_db w) ∨ ∃ a, a ∈ approvers ∧ b = set_wa_WorkflowID (wf_ID wf) a).
Proof.
  intros H. unfold addApproversTx in H. rewrite theWorkflow_bind in H. cbn [snd] in H.
  apply bind_ok in H as (s1 & l & Hl & H). apply onDB_ok in Hl as (v1 & -> & Hl).
  apply bind_ok in H as (s2 & [] & Hset & H). apply onDB_ok in Hset as (v2 & -> & Hset).
  apply bind_ok in H as (s3 & [] & Hg & H). apply onDB_ok in Hg as (v3 & -> & Hg).
  apply bind_ok in H as (s4 & [l2 []] & Happ & H). apply map_err_ok, withLifecycle_ok in Happ as (v4 & Happ & ->).
  injection H as <- <-.
  pose proof (run_fixes db_approvers _ _ _ _ (getLifecycle_fixes db_approvers ctx wf u None ltac:(done)) Hl) as Hv1.
  apply getLifecycle_ok in Hl as (n & -> & Hn).
  pose proof (run_fixes db_approvers _ _ _ _ (associateGroups_fixes _ _ _) Hg) as Hv3.
  apply bind_ok in Happ as (s5 & [] & Hv & Happ).
  destruct (reads_inv _ _ _ _ _ (ValidateActor_reads ctx _) Hv) as (v5 & -> & Hdb5).
  assert (in_sync (set_l_Workflow wf (set_l_EligibleApproverIDs None (NewLifecycle wf u n)))) as Hsync
    by apply rep_new.
  destruct (create_applied _ _ _ _ _ Hsync Happ) as (Hmin & Hl2 & Hp & Hfix). simpl in *.
  assert (db_approvers (w_db v4) = db_approvers (w_db v2)) as Hrows by congruence.
  split_and!; [|done|done|].
  - unfold votes_of in *. rewrite Hfix.
    destruct (Z.eqb_spec (wf_MinimumApprovalCount wf) 0) as [H0|Hne]; [lia|].
    specialize (Hn Hne). subst n. apply Z.eqb_neq in Hne. by rewrite Hne in Hmin.
  - intros b. rewrite Hrows. intros Hb.
    destruct (set_loop_rows _ _ _ _ _ Hset b Hb) as [?|?]; [left; by rewrite <-Hv1|by right].
Qed.

(** C6: a workflow starts collecting votes only with enough independent approvers:
    when approvers were assigned, the workflow is stored in WAIT_APPROVAL, at least
    its minimum number of approvers is stored, and every approver row of the
    database is one that was there before or a new one of this workflow for a user
    who is not the initiator and has not voted. *)
Theorem AutoAssign_enough_approvers ctx id w w' wf :
  AutoAssignApprovers ctx id w = (w', inr wf) →
  wf_State wf = WorkflowStateWaitApproval ∧
  persisted w' (wf_ID wf) WorkflowStateWaitApproval ∧
  (wf_MinimumApprovalCount wf ≤ Z.of_nat (length (votes_of (wf_ID wf) (w_db w'))))%Z ∧
  (∀ a, a ∈ db_approvers (w_db w') →
     a ∈ db_approvers (w_db w) ∨
     wa_WorkflowID a = wf_ID wf ∧ wa_UserID a ≠ wf_InitiatorID wf ∧ wa_Approved a = None).
Proof.
  intros H. unfold AutoAssignApprovers in H.
  apply bind_ok in H as (w1 & wf0 & Hf & H).
  apply (preserves_same_db_eq _ _ _ _ (firstWorkflow_same_db _ _)) in Hf.
  apply bind_ok in H as (w2 & kcs & Hk & H).
  apply (run_fixes workflow_tables _ _ _ _ (getKeyConfigurations_frame ctx wf0)) in Hk.
  apply bind_ok in H as (w3 & [approvers groups] & Ha & H).
  pose proof (run_fixes workflow_tables _ _ _ _ (getApprovers_frame ctx wf0 kcs) Ha) as Hw3.
  apply getApprovers_collected in Ha as (acc & Hc & [= -> ->]).
  apply bind_ok in H as (w4 & wf1 & Hadd & H). apply map_err_ok, onObject_ok, map_err_ok in Hadd.
  apply inTransaction_ok in Hadd as (v0 & v1 & Hv0 & Hadd & Hw4).
  apply addApproversTx_ok in Hadd as (Hmin & -> & Hp & Hrows).
  apply bind_ok in H as (w5 & [] & Hr & H). injection Hr as <- _.
  apply bind_ok in H as (w6 & names & Hnm & H). injection Hnm as <- _.
  apply bind_ok in H as (w7 & res & Hnot & H). injection H as <- <-.
  apply (preserves_same_db_eq _ _ _ _ (preserves_attempt _ _ (notification_same_db _ _ _ _))) in Hnot.
  assert (w_db w7 = w_db v1) as Hdb by congruence.
  unfold persisted in *. rewrite Hdb. split_and!; [done|exact Hp|exact Hmin|].
  intros a Hin. destruct (Hrows a Hin) as [Hold|(b & Hb & ->)].
  - left. rewrite Hv0 in Hold. unfold workflow_tables in *. congruence.
  - right. destruct (collected_approver _ _ _ _ _ Hc Hb) as [-> ?]. done.
Qed.
End Assign.
