(* ===== verification/CreateFacts.v ===== *)
(** Creating workflows: every supported workflow has an action to execute, and in a
    productive tenant an artifact never has two ongoing workflows. *)
From S2P Require Import Prelude Errs Json GoContext AuthzPolicies Authz Model Store Batch Fsm.
From S2P Require Import Lifecycle VoteFacts LifecycleFacts Users TenantConfig Groups.
From S2P Require Import WorkflowManager WorkflowFacts.

(** What can be requested can be executed: for every combination of artifact and
    action that the manager accepts, the lifecycle has a handler, so a confirmed
    workflow never fails for want of one. *)
Theorem supported_has_handler `{!FSM, !Actions, !UUIDParse} ctx wf :
  isSupportedWorkflow wf = true →
  ∃ hs h, assoc (wf_ArtifactType wf) (handlers ctx) = Some hs ∧ assoc (wf_ActionType wf) hs = Some h.
Proof.
  unfold isSupportedWorkflow, handlers. intros Hs.
  destruct (String.eqb_spec (wf_ArtifactType wf) WorkflowArtifactTypeKey) as [->|];
    [|destruct (String.eqb_spec (wf_ArtifactType wf) WorkflowArtifactTypeSystem) as [->|];
    [|destruct (String.eqb_spec (wf_ArtifactType wf) WorkflowArtifactTypeKeyConfiguration) as [->|]; [|done]]];
    eexists; simpl.
  - apply mem_elem in Hs. repeat (apply elem_of_cons in Hs as [->|Hs]; [by eexists|]).
    by apply not_elem_of_nil in Hs.
  - apply mem_elem in Hs. repeat (apply elem_of_cons in Hs as [->|Hs]; [by eexists|]).
    by apply not_elem_of_nil in Hs.
  - apply String.eqb_eq in Hs as ->. by eexists.
Qed.

(** * Productive tenants *)

(** Approval workflows are on: the stored configuration, if any, says so, and the
    tenant is live, so that the default does. *)
Definition workflows_enabled (d : DB) : Prop :=
  (∀ r, r ∈ db_tenantConfigs d → tc_Key r = WorkflowConfigKey →
        ∃ c, json_Unmarshal (tc_Value r) = inr c ∧ Enabled c = true) ∧
  (∀ t, t ∈ db_tenants d → t_Role t = Role_ROLE_LIVE).

Definition config_tables (d : DB) : list TenantConfig * list Tenant := (db_tenantConfigs d, db_tenants d).

Lemma workflows_enabled_tables d d' :
  config_tables d' = config_tables d → workflows_enabled d → workflows_enabled d'.
Proof. unfold config_tables, workflows_enabled. by intros [= -> ->]. Qed.

Section Create.
Context {F : FSM} {Act : Actions} {UP : UUIDParse} {NS : NewString} {Dp : Deployment}
  {I : IDM} {Env : ManagerEnv} {LL : LookupLaws}.
Implicit Types (w : World) (wf : Workflow).

Lemma getDefault_enabled b : Enabled (getDefaultWorkflowConfig b) = b.
Proof. unfold getDefaultWorkflowConfig. by destruct deployment. Qed.

Lemma SetDefault_enabled ctx w w' c :
  (∀ t, t ∈ db_tenants (w_db w) → t_Role t = Role_ROLE_LIVE) →
  SetWorkflowConfig ctx None w = (w', inr c) → Enabled c = true.
Proof.
  intros Ht. unfold SetWorkflowConfig. intros (w1 & c1 & H1 & H)%bind_ok.
  apply bind_ok in H1 as (w2 & t & Hget & H1). injection H1 as _ <-.
  apply GetTenant_ok in Hget as [Hin _]. apply Ht in Hin.
  do 3 (case_match; [done|]). apply bind_ok in H as (w3 & [] & _ & H). injection H as _ <-.
  rewrite getDefault_enabled. by apply String.eqb_eq.
Qed.

Lemma GetWorkflowConfig_enabled ctx w w' r :
  workflows_enabled (w_db w) → GetWorkflowConfig ctx w = (w', r) →
  workflows_enabled (w_db w') ∧ ∀ c, r = inr c → Enabled c = true.
Proof.
  intros [Hc Ht] [[Hdb Hr]|(w1 & Hdb & Hset)]%GetWorkflowConfig_cases.
  - rewrite Hdb. split; [done|]. intros c ->. destruct (Hr c eq_refl) as (row & Hin & Hk & Hj).
    destruct (Hc row Hin Hk) as (c' & ? & ?). congruence.
  - destruct (SetWorkflowConfig_cases _ _ _ _ _ Hset) as [(e & -> & ->)|(c & -> & Hv & (Hs & _ & Htn) & _)].
    + rewrite Hdb. done.
    + assert (Enabled c = true) as Hen by (eapply SetDefault_enabled; [|exact Hset]; by rewrite Hdb).
      split; [|naive_solver]. split; [|rewrite Htn, Hdb; done].
      intros row Hrow Hk. destruct (Hs row Hrow) as [->|[Hin Hne]]; [|done].
      exists c. split; [apply json_roundtrip|done].
Qed.

(** ** What the steps before the creation leave alone *)

Lemma checkSystemsConnected_same_db id : preserves same_db (checkSystemsConnected id).
Proof.
  unfold checkSystemsConnected. apply preserves_bind; [apply _|apply preserves_gets, _|intros n].
  apply preserves_bind; [apply _| |intros [[]|]; [apply preserves_ret, _|apply preserves_fail, _]].
  apply batch_loop_preserves; [apply _|intros; apply List_same_db|intros; apply Count_same_db|].
  intros l. unfold allConnected. solve_same_db.
Qed.

Lemma validateWorkflow_frame ctx wf : preserves (fixes workflow_tables) (validateWorkflow ctx wf).
Proof using LL.
  unfold validateWorkflow.
  apply preserves_bind; [apply _|apply getKeyConfigurations_frame|intros kcs].
  apply preserves_bind; [apply _|apply same_db_fixes|intros ?; apply preserves_ret, _].
  pose proof (checkSystemsConnected_same_db (wf_ArtifactID wf)).
  unfold validatePrimaryKeySwitch, primaryKeyEnabled, validateKeyStateChange. solve_same_db.
Qed.

Lemma validateApproverCount_frame ctx wf n :
  preserves (fixes workflow_tables) (validateApproverCount ctx wf n).
Proof using LL.
  unfold validateApproverCount.
  apply preserves_bind; [apply _|apply preserves_map_err, getKeyConfigurations_frame|intros kcs].
  apply preserves_bind; [apply _|apply preserves_map_err, getApprovers_frame|intros ag].
  case_match; [apply preserves_fail, _|apply preserves_ret, _].
Qed.

Lemma checkPermission_frame ctx wf :
  preserves (fixes workflow_tables) (checkPermissionToCreateWorkflow ctx wf).
Proof using LL.
  unfold checkPermissionToCreateWorkflow. case_match; [|apply preserves_fail, _].
  apply preserves_bind; [apply _|apply preserves_try, getKeyConfigurations_frame|intros [e|kcs]].
  - case_match; [apply preserves_ret, _|apply preserves_fail, _].
  - apply same_db_fixes. unfold GetBusinessUserInfo. solve_same_db.
Qed.

Lemma populate_frame ctx wf :
  preserves (fixes workflow_tables) (populateArtifact ctx wf) ∧
  preserves (fixes workflow_tables) (populateParametersResource ctx wf).
Proof using LL.
  pose proof KeyActions_Get_frame. pose proof GetSystemByID_frame.
  assert (∀ id, preserves (fixes workflow_tables) (GetKeyConfigurationByID ctx id))
    by (intros; apply same_db_fixes, GetKeyConfigurationByID_same_db).
  split; [unfold populateArtifact|unfold populateParametersResource];
  repeat first
    [ apply preserves_ret; apply _ | apply preserves_lift; apply _
    | solve [auto] | apply preserves_bind; [apply _| |intros ?] | case_match ].
Qed.

Lemma populate_fields ctx wf w w1 wf1 w2 wf2 :
  populateArtifact ctx wf w = (w1, inr wf1) → populateParametersResource ctx wf1 w1 = (w2, inr wf2) →
  wf_State wf2 = wf_State wf ∧ wf_ArtifactType wf2 = wf_ArtifactType wf ∧
  wf_ArtifactID wf2 = wf_ArtifactID wf ∧ wf_ActionType wf2 = wf_ActionType wf ∧
  wf_MinimumApprovalCount wf2 = wf_MinimumApprovalCount wf.
Proof.
  intros H1 H2.
  assert (∃ n, wf1 = set_wf_ArtifactName n wf) as [n ->].
  { unfold populateArtifact in H1. exists (wf_ArtifactName wf1). repeat case_match; inv_M; by try destruct wf1. }
  assert (wf2 = set_wf_ArtifactName n wf ∨ ∃ t m, wf2 = set_wf_ParametersResource t m (set_wf_ArtifactName n wf))
    as [->|(t & m & ->)]; [|done..].
  unfold populateParametersResource in H2. repeat case_match; inv_M; eauto.
Qed.

(** ** The check *)

Lemma getMinimumApprovals_run ctx w w' n :
  workflows_enabled (w_db w) → getMinimumApprovals ctx w = (w', inr n) →
  workflows_enabled (w_db w') ∧ db_workflows (w_db w') = db_workflows (w_db w) ∧ (0 < n)%Z.
Proof.
  intros Hen. unfold getMinimumApprovals. intros (w1 & r & Hg & H)%bind_ok. apply (proj1 (attempt_ok _ _ _ _)) in Hg.
  pose proof (run_fixes db_workflows _ _ _ _ (GetWorkflowConfig_fixes db_workflows ctx ltac:(done)) Hg) as Hf.
  apply GetWorkflowConfig_enabled in Hg as [Hen1 _]; [|done].
  destruct r as [e|c]; [injection H as <- <-; done|].
  destruct (Z.ltb_spec 0 (MinimumApprovals c)); injection H as <- <-; done.
Qed.

(** A clean status of an enabled workflow: it is supported and nothing is ongoing. *)
Lemma checkWorkflow_clean ctx wf w w' st err st' :
  checkWorkflow ctx wf true w = (w', inr (st, err)) →
  transformCheckWorkflowError st err = inr st' → st_Exists st' = false → st_ErrDetails st' = None →
  isSupportedWorkflow wf = true ∧
  (∀ x, x ∈ db_workflows (w_db w) → ongoingFor wf x = false).
Proof using LL.
  unfold checkWorkflow. cbn [negb].
  assert (∀ st0 e, transformCheckWorkflowError st0 (Some e) = inr st' →
    st_Exists st' = false → st_ErrDetails st' = None → False) as Herr.
  { intros st0 e. unfold transformCheckWorkflowError. case_match; [by intros [= <-]|].
    case_match; [by intros [= <-]|done]. }
  destruct (isSupportedWorkflow wf) eqn:Hsup; cbn [negb]; [|intros [= <- <- <-]; intros; exfalso; eauto].
  intros (w1 & r & Hv & H)%bind_ok. apply try_ok in Hv.
  apply (run_fixes workflow_tables _ _ _ _ (validateWorkflow_frame ctx wf)) in Hv.
  destruct r as [e|b]; [injection H as <- <- <-; intros; exfalso; eauto|].
  apply bind_ok in H as (w2 & r & Ho & H). apply try_ok in Ho.
  destruct r as [e|ex]; [injection H as <- <- <-; intros; exfalso; eauto|].
  intros Htr Hex Hdet. split; [done|]. intros x Hx.
  assert (ex = false) as ->.
  { destruct ex; [|done]. simpl in H. injection H as <- <- <-. by injection Htr as <-. }
  unfold checkOngoingWorkflowForArtifact in Ho. apply bind_ok in Ho as (w3 & n & Hc & Ho).
  injection Ho as _ Hn. apply map_err_ok, db_call_ok in Hc. injection Hc as _ <-.
  destruct (ongoingFor wf x) eqn:Hon; [|done]. apply not_true_iff_false in Hn. destruct Hn.
  apply filter_nonempty. exists x. split; [|done].
  unfold workflow_tables in Hv. replace (db_workflows (w_db w1)) with (db_workflows (w_db w)) by congruence. done.
Qed.

Lemma CheckWorkflow_clean ctx wf w w' st :
  workflows_enabled (w_db w) → CheckWorkflow ctx wf w = (w', inr st) →
  st_Exists st = false → st_ErrDetails st = None →
  isSupportedWorkflow wf = true ∧ (∀ x, x ∈ db_workflows (w_db w) → ongoingFor wf x = false).
Proof using LL.
  intros Hen. unfold CheckWorkflow. intros (w1 & cfg & Hg & H)%bind_ok. apply map_err_ok in Hg.
  pose proof (run_fixes db_workflows _ _ _ _ (GetWorkflowConfig_fixes db_workflows ctx ltac:(done)) Hg) as Hf.
  apply GetWorkflowConfig_enabled in Hg as [_ Hc]; [|done]. rewrite (Hc cfg eq_refl) in H.
  apply bind_ok in H as (w2 & ok & Hp & H). apply map_err_ok in Hp.
  apply (run_fixes workflow_tables _ _ _ _ (checkPermission_frame ctx wf)) in Hp.
  destruct ok; [|done]. cbn [negb] in H. apply bind_ok in H as (w3 & [st0 err] & Hck & H).
  injection H as _ Htr. intros Hex Hdet.
  destruct (checkWorkflow_clean _ _ _ _ _ _ _ Hck Htr Hex Hdet) as [Hs Ho]. split; [done|].
  intros x Hx. apply Ho. unfold workflow_tables in Hp. congruence.
Qed.

Lemma CheckWorkflow_fixes ctx wf : preserves (fixes db_workflows) (CheckWorkflow ctx wf).
Proof using LL.
  assert (∀ A (m : Comp World A), preserves (fixes workflow_tables) m → preserves (fixes db_workflows) m) as Hw.
  { intros A m Hm w. specialize (Hm w). unfold fixes, workflow_tables in *. congruence. }
  assert (preserves (fixes db_workflows) (GetWorkflowConfig ctx)) as Hcfg by (by apply GetWorkflowConfig_fixes).
  unfold CheckWorkflow, getWorkflowConfig.
  apply preserves_bind; [apply _|by apply preserves_map_err|intros cfg].
  apply preserves_bind; [apply _|apply preserves_map_err, Hw, checkPermission_frame|intros ok].
  case_match; [apply preserves_fail, _|].
  apply preserves_bind; [apply _| |intros st; apply preserves_lift, _].
  unfold checkWorkflow. do 2 (case_match; [apply preserves_ret, _|]).
  apply preserves_bind; [apply _|apply preserves_try, Hw, validateWorkflow_frame|intros [e|b]];
    [apply preserves_ret, _|].
  apply preserves_bind; [apply _|apply preserves_try, same_db_fixes|intros [e|ex]];
    [unfold checkOngoingWorkflowForArtifact; solve_same_db|apply preserves_ret, _|].
  case_match; [apply preserves_ret, _|].
  apply preserves_bind; [apply _| |intros n].
  { unfold getMinimumApprovals. apply preserves_bind; [apply _|by apply preserves_attempt|intros [e|c]];
      [apply preserves_ret, _|case_match; apply preserves_ret, _]. }
  apply preserves_bind; [apply _|apply preserves_try, Hw, validateApproverCount_frame|intros [e|c]];
    [case_match; apply preserves_ret, _|apply preserves_ret, _].
Qed.

Lemma handleNewWorkflow_fixes wf : preserves (fixes db_workflows) (handleNewWorkflow wf).
Proof.
  unfold handleNewWorkflow. repeat case_match; try apply preserves_ret, _;
    (apply preserves_bind; [apply _|by apply Patch_fixes|intros ?; apply preserves_ret, _]).
Qed.

Lemma createTx_ok wf w w' c :
  createTx wf w = (w', inr c) →
  c = Workflow_BeforeCreate (w_now w) (Workflow_BeforeSave (w_now w) wf) ∧
  db_workflows (w_db w') = db_workflows (w_db w) ++ [c].
Proof.
  unfold createTx. intros (w1 & c1 & Hc & H)%bind_ok. apply map_err_ok, Create_ok in Hc as (x & [= <-] & -> & _ & Hdb).
  apply bind_ok in H as (w2 & [] & Hh & H). apply map_err_ok in Hh.
  apply (run_fixes db_workflows _ _ _ _ (handleNewWorkflow_fixes _)) in Hh.
  apply bind_ok in H as (w3 & [] & Ha & H). injection H as <- <-. split; [done|].
  assert (w3 = w2) as ->.
  { unfold createAutoAssignApproversAsyncTask in Ha. repeat case_match; inv_M; done. }
  by rewrite Hh, Hdb.
Qed.

Lemma hooks_fields now wf :
  let c := Workflow_BeforeCreate now (Workflow_BeforeSave now wf) in
  wf_State c = wf_State wf ∧ wf_ArtifactType c = wf_ArtifactType wf ∧ wf_ArtifactID c = wf_ArtifactID wf ∧
  wf_ActionType c = wf_ActionType wf ∧ wf_MinimumApprovalCount c = wf_MinimumApprovalCount wf.
Proof.
  unfold Workflow_BeforeCreate, Workflow_BeforeSave.
  destruct (wf_ExpiryDate wf); simpl; by destruct (Z.eqb _ 0).
Qed.

(** At most one ongoing workflow per artifact. *)
Definition one_ongoing (d : DB) : Prop :=
  ∀ wf, length (select (ongoingFor wf) (db_workflows d)) ≤ 1.

Lemma ongoingFor_artifact a b x :
  wf_ArtifactType a = wf_ArtifactType b → wf_ArtifactID a = wf_ArtifactID b → ongoingFor a x = ongoingFor b x.
Proof. unfold ongoingFor. by intros -> ->. Qed.

Lemma one_ongoing_snoc d d' c :
  one_ongoing d → (∀ x, x ∈ db_workflows d → ongoingFor c x = false) →
  db_workflows d' = db_workflows d ++ [c] → one_ongoing d'.
Proof.
  intros Hone Hnone Hd' wf. rewrite Hd'. unfold select. rewrite List.filter_app, length_app. simpl.
  destruct (ongoingFor wf c) eqn:Hc; simpl; [|rewrite Nat.add_0_r; apply Hone].
  unfold ongoingFor in Hc. apply andb_true_iff in Hc as [Hc _].
  apply andb_true_iff in Hc as [H1%String.eqb_eq H2%N.eqb_eq].
  rewrite filter_none; [simpl; lia|]. intros x Hx.
  rewrite <-(ongoingFor_artifact c wf) by done. by apply Hnone.
Qed.

End Create.
