(* ===== verification/CleanupFacts.v ===== *)
(** The end of a workflow: the artifact is released when its workflow finishes, and
    the cleanup removes exactly the finished workflows past their retention. *)
From S2P Require Import Prelude Errs Json GoContext AuthzPolicies Authz Model Store Batch Fsm.
From S2P Require Import Lifecycle VoteFacts LifecycleFacts Users TenantConfig Groups.
From S2P Require Import WorkflowManager WorkflowFacts.

(** * Releasing the artifact *)

(** The key or system a workflow is about is not marked as under workflow. *)
Definition released (d : DB) (wf : Workflow) : Prop :=
  (wf_ArtifactType wf = WorkflowArtifactTypeSystem →
     ∀ s, s ∈ db_systems d → s_ID s = wf_ArtifactID wf → s_UnderWorkflow s = false) ∧
  (wf_ArtifactType wf = WorkflowArtifactTypeKey →
     ∀ k, k ∈ db_keys d → k_ID k = wf_ArtifactID wf → k_UnderWorkflow k = false).

Lemma HandleTerminalWorkflow_releases wf w w' :
  is_terminal (wf_State wf) = true → HandleTerminalWorkflow wf w = (w', inr tt) → released (w_db w') wf.
Proof.
  intros Ht. unfold HandleTerminalWorkflow. rewrite Ht. cbn [negb].
  destruct (String.eqb_spec (wf_ArtifactType wf) WorkflowArtifactTypeSystem) as [Hs|Hs].
  { intros (w1 & b & Hp & [= <-])%bind_ok. split; [intros _|by rewrite Hs].
    destruct (Patch_ok _ _ _ _ _ Hp) as (x' & [= <-] & -> & _).
    intros s (y & -> & Hy)%list_elem_of_fmap. simpl.
    by destruct (N.eqb_spec (wf_ArtifactID wf) (s_ID y)). }
  destruct (String.eqb_spec (wf_ArtifactType wf) WorkflowArtifactTypeKey) as [Hk|Hk].
  { intros (w1 & b & Hp & [= <-])%bind_ok. split; [done|intros _].
    destruct (Patch_ok _ _ _ _ _ Hp) as (x' & [= <-] & -> & _).
    intros k (y & -> & Hy)%list_elem_of_fmap. simpl.
    by destruct (N.eqb_spec (wf_ArtifactID wf) (k_ID y)). }
  intros _. by split.
Qed.

Section Release.
Context {F : FSM} {FL : FSMLaws} {Act : Actions} {UP : UUIDParse} {NS : NewString} {Dp : Deployment}
  {I : IDM} {Env : ManagerEnv}.
Implicit Types (w : World) (wf : Workflow).

(** Confirming and revoking finish a workflow. *)
Lemma finishing_state ctx t w l w' l' :
  t ∈ [TransitionConfirm; TransitionRevoke] → in_sync l →
  ApplyTransition ctx t (w, l) = ((w', l'), inr tt) → is_terminal (wf_State (l_Workflow l')) = true.
Proof.
  intros Ht Hsync Hrun.
  destruct (ApplyTransition_cases _ _ _ _ _ _ Hrun) as
    (w1 & Hdb & [(e & _ & _ & [=])|[(Hpre & _ & _)|(Hpre & Happ)]]).
  { apply precheck_skip in Hpre. exfalso.
    repeat (apply elem_of_cons in Ht as [->|Ht];
      [repeat (apply elem_of_cons in Hpre as [?|Hpre]; [done|]); by apply not_elem_of_nil in Hpre|]).
    by apply not_elem_of_nil in Ht. }
  destruct (dsts_cases (wf_State (l_Workflow l)) t) as [[s1 Hstep]|Hd].
  2:{ destruct (applied_stuck ctx t w1 l _ Hsync Hd) as (e & He). congruence. }
  destruct (fire_step w1 l _ _ _ Hsync Hstep) as (m & Hfire & Hrep).
  unfold applied, mbind at 1, M_bind at 1 in Happ. rewrite Hfire in Happ. cbn in Happ.
  rewrite self_bind in Happ. cbn in Happ. rewrite (rep_current _ _ _ Hrep) in Happ.
  unfold mbind at 1, M_bind at 1 in Happ.
  repeat (apply elem_of_cons in Ht as [->|Ht]).
  - assert (s1 = WorkflowStateExecuting) as -> by (by inversion Hstep). cbn in Happ.
    destruct (exec_result ctx w1 (l_Workflow l)) as [w2 r] eqn:Hex.
    destruct (transitionExecute_spec ctx w1 (set_l_StateMachine m l) w2 r Hrep Hex) as (m2 & Hx & Hr2).
    rewrite Hx in Happ.
    match type of Happ with saveState (_, ?l2) = _ =>
      assert (rep (l_StateMachine l2) workflowEvents (wf_State (executed r (l_Workflow l)))) as Hr2'
        by (by destruct r);
      pose proof (saveState_state _ l2 _ _ _ Hr2' Happ) as Hfin
    end.
    simpl in Hfin. rewrite Hfin. by destruct r.
  - assert (s1 = WorkflowStateRevoked) as -> by (by inversion Hstep). cbn in Happ.
    pose proof (saveState_state _ (set_l_StateMachine m l) _ _ _ Hrep Happ) as Hfin. simpl in Hfin.
    by rewrite Hfin.
  - by apply not_elem_of_nil in Ht.
Qed.

Lemma attemptAutoReject_skip ctx t ids s :
  t ∉ [TransitionApprove; TransitionReject] → attemptAutoReject ctx t ids s = (s, inr tt).
Proof.
  intros Ht%mem_not_elem. unfold attemptAutoReject. rewrite theWorkflow_bind, Ht.
  by destruct (negb (wf_State s.2 ==s WorkflowStateWaitApproval)).
Qed.

Lemma applyTransitionTx_finish ctx u t w wf w' wf' :
  t ∈ [TransitionConfirm; TransitionRevoke] →
  applyTransitionTx ctx u t (w, wf) = ((w', wf'), inr tt) →
  is_terminal (wf_State wf') = true ∧ released (w_db w') wf'.
Proof.
  intros Ht H. unfold applyTransitionTx in H. rewrite theWorkflow_bind in H. cbn [snd] in H.
  assert (t ∉ [TransitionApprove; TransitionReject]) as Hnv.
  { intros Hv. repeat (apply elem_of_cons in Ht as [->|Ht];
      [repeat (apply elem_of_cons in Hv as [?|Hv]; [done|]); by apply not_elem_of_nil in Hv|]).
    by apply not_elem_of_nil in Ht. }
  apply bind_ok in H as (s1 & ids & Hids & H). apply onDB_ok in Hids as (v1 & -> & _).
  apply bind_ok in H as (s2 & l & Hl & H). apply onDB_ok in Hl as (v2 & -> & Hl).
  apply bind_ok in H as (s3 & gids & Hg & H). apply onDB_ok in Hg as (v3 & -> & _).
  apply bind_ok in H as (s4 & [l1 []] & Hv & H). apply map_err_ok, withLifecycle_ok in Hv as (v4 & Hv & ->).
  apply getLifecycle_ok in Hl as (n & -> & _).
  destruct (reads_inv _ _ _ _ _ (ValidateActor_reads ctx t) Hv) as (v4' & [= <- ->] & _).
  apply mem_not_elem in Hnv as Hb. rewrite Hb in H.
  apply bind_ok in H as (s5 & oa & [= <- <-] & H).
  apply bind_ok in H as (s7 & [] & Hr & H). apply onDB_ok in Hr as (v6 & -> & _).
  apply bind_ok in H as (s8 & [l2 []] & Happ & H). apply map_err_ok, withLifecycle_ok in Happ as (v7 & Happ & ->).
  rewrite theWorkflow_bind in H. cbn [snd] in H.
  apply bind_ok in H as (s9 & [] & Hh & H). apply onDB_ok in Hh as (v8 & -> & Hh).
  rewrite attemptAutoReject_skip in H by done. injection H as <- <-.
  apply bind_ok in Happ as (s10 & [] & Hv2 & Happ).
  destruct (reads_inv _ _ _ _ _ (ValidateActor_reads ctx t) Hv2) as (v6' & -> & _).
  assert (is_terminal (wf_State (l_Workflow l2)) = true) as Hterm.
  { refine (finishing_state ctx t v6' _ v7 l2 Ht _ Happ). apply rep_new. }
  split; [done|]. by eapply HandleTerminalWorkflow_releases.
Qed.

Lemma expireTx_finish ctx w wf w' wf' :
  expireTx ctx (w, wf) = ((w', wf'), inr tt) →
  is_terminal (wf_State wf') = true ∧ released (w_db w') wf'.
Proof.
  intros H. unfold expireTx in H. apply bind_ok in H as (s0 & u & Hu & H). injection Hu as <- _.
  rewrite theWorkflow_bind in H. cbn [snd] in H.
  apply bind_ok in H as (s1 & l & Hl & H). apply onDB_ok in Hl as (v1 & -> & Hl).
  apply getLifecycle_ok in Hl as (n & -> & _).
  apply bind_ok in H as (s2 & [l2 []] & He & H). apply withLifecycle_ok in He as (v2 & He & ->).
  rewrite theWorkflow_bind in H. cbn [snd] in H. apply onDB_ok in H as (v3 & [= -> ->] & Hh).
  assert (is_terminal (wf_State (l_Workflow l2)) = true) as Hterm; [|split; [done|eapply HandleTerminalWorkflow_releases; eauto]].
  set (l := set_l_Workflow wf _) in He.
  assert (rep (l_StateMachine l) workflowEvents (wf_State (l_Workflow l))) as Hsync by apply rep_new.
  unfold Expire, mbind, M_bind in He.
  destruct (dsts_cases (wf_State (l_Workflow l)) TransitionExpire) as [[s1 Hstep]|Hd].
  - destruct (fire_step v1 l _ _ _ Hsync Hstep) as (m & Hfire & Hrep). rewrite Hfire in He.
    pose proof (saveState_state _ (set_l_StateMachine m l) _ _ _ Hrep He) as Hfin. simpl in Hfin.
    rewrite Hfin. by inversion Hstep.
  - destruct (fire_stuck v1 l _ _ Hsync Hd) as (e & Hf). by rewrite Hf in He.
Qed.

(** C7: a finished workflow releases its artifact: when a workflow was confirmed
    (whatever its action returned), revoked or expired, it is in a terminal state
    and the key or system it is about is no longer marked as under workflow. *)
Theorem finished_releases_artifact ctx u t w wf w' wf' :
  (t ∈ [TransitionConfirm; TransitionRevoke] ∧ applyTransition ctx u t (w, wf) = ((w', wf'), inr tt)) ∨
  inTransaction (expireTx ctx) (w, wf) = ((w', wf'), inr tt) →
  is_terminal (wf_State wf') = true ∧ released (w_db w') wf'.
Proof.
  intros [[Ht H%map_err_ok]|H]; apply inTransaction_ok in H as (v0 & v1 & _ & H & Hdb); unfold released;
    rewrite Hdb; [by eapply applyTransitionTx_finish|by eapply expireTx_finish].
Qed.

(** An approval that ends in the automatic rejection does not release the
    artifact: the artifact is released before the automatic rejection is tried, so
    the workflow is in the terminal state REJECTED while all keys and systems,
    with their marks, are as they were before the vote. *)
Theorem auto_rejection_keeps_mark ctx u w wf w' wf' :
  applyTransition ctx u TransitionApprove (w, wf) = ((w', wf'), inr tt) →
  wf_State wf' = WorkflowStateRejected →
  db_keys (w_db w') = db_keys (w_db w) ∧ db_systems (w_db w') = db_systems (w_db w).
Proof.
  intros H%map_err_ok Hst. apply inTransaction_ok in H as (v0 & v1 & <- & H & ->).
  destruct (applyTransitionTx_frame (λ d, (db_keys d, db_systems d)) _ _ TransitionApprove _ _ _ _
    ltac:(done) ltac:(done) ltac:(done) ltac:(by left) H) as (l & w1 & w2 & l2 & Hsync & Happ & Hlast & Hf).
  assert (is_terminal (wf_State (l_Workflow l2)) = false) as Ht; [|by injection (Hf Ht) as -> ->].
  pose proof (approve_state _ _ _ _ _ Hsync Happ) as Hin.
  repeat (apply elem_of_cons in Hin as [->|Hin]; [done|]). by apply not_elem_of_nil in Hin.
Qed.
End Release.

(** * Cleanup *)

(** The database without workflow [id] and its approvers. *)
Definition without (id : uuid) (d : DB) : DB :=
  set_workflows (List.filter (λ y, negb (N.eqb id (wf_ID y))) (db_workflows d))
    (set_approvers (filter (λ a, wa_WorkflowID a ≠ id) (db_approvers d)) d).

Definition without_all (d : DB) (xs : list Workflow) : DB := foldl (λ d x, without (wf_ID x) d) d xs.

Definition among (xs : list Workflow) (id : uuid) : bool := existsb (λ x, N.eqb (wf_ID x) id) xs.

Lemma among_elem xs id : among xs id = true ↔ id ∈ wf_ID <$> xs.
Proof.
  unfold among. rewrite existsb_exists, list_elem_of_fmap. setoid_rewrite N.eqb_eq.
  setoid_rewrite <-list_elem_of_In. naive_solver.
Qed.

Lemma without_all_workflows xs d :
  db_workflows (without_all d xs) = List.filter (λ y, negb (among xs (wf_ID y))) (db_workflows d).
Proof.
  unfold without_all. revert d. induction xs as [|x xs IH]; intros d.
  { simpl. induction (db_workflows d) as [|y l IHl]; [done|]. simpl. by rewrite <-IHl. }
  cbn [foldl]. rewrite IH. simpl. induction (db_workflows d) as [|y l IHl]; [done|]. simpl.
  destruct (N.eqb (wf_ID x) (wf_ID y)); simpl; [done|].
  destruct (among xs (wf_ID y)); simpl; by rewrite IHl.
Qed.

Lemma without_all_approvers xs d a :
  a ∈ db_approvers (without_all d xs) ↔ a ∈ db_approvers d ∧ wa_WorkflowID a ∉ wf_ID <$> xs.
Proof.
  unfold without_all. revert d. induction xs as [|x xs IH]; intros d; [set_solver|].
  cbn [foldl fmap list_fmap]. rewrite IH, elem_of_cons. simpl. rewrite list_elem_of_filter. naive_solver.
Qed.

Lemma without_all_frame {X} (f : DB → X) d xs :
  (∀ l d, f (set_workflows l d) = f d) → (∀ l d, f (set_approvers l d) = f d) →
  f (without_all d xs) = f d.
Proof.
  intros Hw Ha. unfold without_all. revert d. induction xs as [|x xs IH]; intros d; [done|].
  cbn [foldl]. rewrite IH. unfold without. by rewrite Hw, Ha.
Qed.

Lemma delete_eval w id :
  w_faults w = [] → id ≠ 0%N →
  ∃ b, Delete (Workflow_ofID id) w = (set_db (without id (w_db w)) w, inr b).
Proof.
  intros Hw Hid%N.eqb_neq. unfold Delete, db_call. rewrite Hw. simpl. rewrite Hid. simpl.
  unfold without, Workflow_BeforeDelete, select. destruct w; simpl in *. subst. by eexists.
Qed.

Lemma delete_loop_eval xs w :
  w_faults w = [] → Forall (λ x, wf_ID x ≠ 0%N) xs →
  for_each (λ x, _ ← Delete (Workflow_ofID (wf_ID x)); mret tt) xs w =
    (set_db (without_all (w_db w) xs) w, inr tt).
Proof.
  unfold without_all. revert w. induction xs as [|x xs IH]; intros w Hw Hx; [by destruct w|].
  apply Forall_cons in Hx as [Hid Hx]. cbn [for_each foldl].
  destruct (delete_eval w (wf_ID x) Hw Hid) as [b Hb].
  rewrite (bind_run _ _ _ (set_db (without (wf_ID x) (w_db w)) w) tt) by (by rewrite (bind_run _ _ _ _ _ Hb)).
  rewrite IH by done. by destruct w.
Qed.

Lemma deleteWorkflows_eval xs w :
  w_faults w = [] → Forall (λ x, wf_ID x ≠ 0%N) xs →
  deleteWorkflows xs w = (set_db (without_all (w_db w) xs) w, inr tt).
Proof.
  intros Hw Hx. unfold deleteWorkflows. destruct xs as [|x xs]; [by destruct w|]. cbn [length Nat.eqb].
  unfold Transaction, TransactionOn, id. destruct (w_inTx w) eqn:Htx.
  - by apply delete_loop_eval.
  - rewrite delete_loop_eval by done. destruct w; simpl in *. by subst.
Qed.

(** Primary keys are unique and not zero. *)
Definition workflows_ok (d : DB) : Prop :=
  NoDup (wf_ID <$> db_workflows d) ∧ Forall (λ x, wf_ID x ≠ 0%N) (db_workflows d).

Lemma filter_filter_comm {A} (p q : A → bool) l :
  List.filter p (List.filter q l) = List.filter q (List.filter p l).
Proof.
  induction l as [|x l IH]; [done|]. simpl.
  destruct (q x) eqn:Hq, (p x) eqn:Hp; simpl; rewrite ?Hq, ?Hp, ?IH; done.
Qed.

Lemma filter_ids_NoDup (p : Workflow → bool) l :
  NoDup (wf_ID <$> l) → NoDup (wf_ID <$> List.filter p l).
Proof.
  induction l as [|x l IH]; [done|]. simpl. intros [Hn Hd]%NoDup_cons.
  destruct (p x); [|by apply IH]. simpl. constructor; [|by apply IH].
  intros (y & Heq & Hy)%list_elem_of_fmap. destruct Hn. rewrite Heq. apply list_elem_of_fmap_2.
  apply list_elem_of_In, filter_In in Hy as [Hy _]. by apply list_elem_of_In.
Qed.

Lemma filter_Forall (P : Workflow → Prop) (p : Workflow → bool) l :
  Forall P l → Forall P (List.filter p l).
Proof. induction 1; simpl; [constructor|]. destruct (p x); [by constructor|done]. Qed.

Lemma workflows_ok_without d xs : workflows_ok d → workflows_ok (without_all d xs).
Proof.
  intros [Hn Hz]. unfold workflows_ok. rewrite without_all_workflows.
  split; [by apply filter_ids_NoDup|by apply filter_Forall].
Qed.

(** Removing one page of the matching rows leaves the other pages. *)
Lemma without_page (p : Workflow → bool) d b :
  workflows_ok d →
  select p (db_workflows (without_all d (take b (select p (db_workflows d))))) =
  drop b (select p (db_workflows d)).
Proof.
  intros [Hn _]. rewrite without_all_workflows. unfold select. rewrite filter_filter_comm.
  apply (filter_ids_NoDup p) in Hn. set (L := List.filter p (db_workflows d)) in *.
  set (q := λ y, negb (among (take b L) (wf_ID y))).
  replace (List.filter q L) with (List.filter q (take b L ++ drop b L)) by (by rewrite take_drop).
  rewrite List.filter_app.
  rewrite (filter_none _ (take b L)); [simpl|].
  - rewrite <-(take_drop b L), fmap_app in Hn. apply NoDup_app in Hn as (_ & Hdis & _).
    induction (drop b L) as [|y l IH]; [done|]. simpl. unfold q at 1.
    destruct (among (take b L) (wf_ID y)) eqn:Ha; simpl.
    + exfalso. apply among_elem in Ha. apply (Hdis _ Ha). by left.
    + f_equal. apply IH. intros x Hx Hin. apply (Hdis x Hx). by right.
  - intros x Hx. apply negb_false_iff, among_elem. by apply list_elem_of_fmap_2.
Qed.

Lemma without_all_app d xs ys : without_all d (xs ++ ys) = without_all (without_all d xs) ys.
Proof. unfold without_all. apply foldl_app. Qed.

Lemma cleanup_loop (p : Workflow → bool) fuel w :
  w_faults w = [] → workflows_ok (w_db w) → length (select p (db_workflows (w_db w))) < fuel →
  batch_loop (where_ p) DefaultLimit (mkBatchOptions true false) deleteWorkflows fuel 0 None w =
    (set_db (without_all (w_db w) (select p (db_workflows (w_db w)))) w, inr (Some tt)).
Proof.
  revert w. induction fuel as [|fuel IH]; intros w Hw Hok Hlen; [lia|].
  cbn [batch_loop]. unfold mbind, M_bind, attempt. rewrite List_eval by done.
  set (L := select p (db_workflows (w_db w))) in *.
  change (applyPagination _ _) with (take 100 (drop 0 L)). rewrite drop_0.
  rewrite deleteWorkflows_eval; [|done|].
  2:{ apply Forall_take, filter_Forall, Hok. }
  destruct L as [|x L'] eqn:HL; [by destruct w|]. rewrite <-HL in *.
  replace (take 100 L) with (x :: take 99 L') by (by rewrite HL). cbn [IgnoreFailMode DeleteMode].
  rewrite Count_eval by done. cbn [negb andb].
  replace (x :: take 99 L') with (take 100 L) by (by rewrite HL).
  pose proof (without_page p (w_db w) 100 Hok) as Hrest. fold L in Hrest.
  rewrite IH; [|done|by apply workflows_ok_without|].
  - simpl. rewrite Hrest, <-without_all_app, take_drop. by destruct w.
  - simpl. rewrite Hrest, length_drop. rewrite HL in *. simpl in *. lia.
Qed.

