(* ===== verification/TaskFacts.v ===== *)
(** What the asynchronous tasks guarantee: a periodic task reaches every selected tenant
    once, what a child task may do, and how the assignment of approvers ends. *)
From S2P Require Import Prelude Errs Json AuthzPolicies Authz Model Store Batch AuthzLoader AuthzLoaderFacts.
From S2P Require Import Frames Users KeyAccess Events JobHandlers KeyConfigs RegistryClient Systems KeyVersions.
From S2P Require Import Keys TenantConfig Certificates Keystores Groups Tenants Fsm Lifecycle WorkflowManager.
From S2P Require Import WorkflowFacts CleanupFacts KeyRequests Managers KeyFacts Tasks GoContext.

(** * Batches of tenants *)

Definition chosen (p : Tenant → bool) (f : Fleet) : list Tenant := select p (pub_tenants (f_public f)).
Definition calm (f : Fleet) : Prop := f_faults f = [].

(** What the work for a tenant must leave alone while the batches run: which tenants are
    chosen, and that the database answers. *)
Definition steady (p : Tenant → bool) (f f' : Fleet) : Prop :=
  (t_ID <$> chosen p f') = (t_ID <$> chosen p f) ∧ (calm f → calm f').
#[export] Instance steady_preorder p : PreOrder (steady p).
Proof. split; [by split|]. intros x y z [? ?] [? ?]. split; [congruence|auto]. Qed.
Definition worker_steady p (k k' : Worker) : Prop := steady p (wk_fleet k) (wk_fleet k').
#[export] Instance worker_steady_preorder p : PreOrder (worker_steady p).
Proof. split; [intros k|intros x y z]; unfold worker_steady; [done|by etrans]. Qed.

Lemma for_each_app {E S A} (f : A → M E S unit) l1 l2 s :
  for_each f (l1 ++ l2) s = (_ ← for_each f l1; for_each f l2) s.
Proof.
  revert s. induction l1 as [|x l1 IH]; intros s; [done|]. simpl. unfold mbind, M_bind.
  destruct (f x s) as [s1 [e|[]]]; [done|]. rewrite IH. done.
Qed.

Lemma for_each_map {E S A B} (f : B → M E S unit) (g : A → B) l s :
  for_each f (g <$> l) s = for_each (λ x, f (g x)) l s.
Proof.
  revert s. induction l as [|x l IH]; intros s; [done|]. simpl. unfold mbind, M_bind.
  destruct (f (g x) s) as [s1 [e|[]]]; [done|]. apply IH.
Qed.

(** A read of the shared tables of a database that answers. *)
Lemma shared_read {A} (m : Comp World A) (g : DB → A) k :
  (∀ w, w_faults w = [] → m w = (w, inr (g (w_db w)))) → calm (wk_fleet k) →
  onFleet (onPublic false m) k = (k, inr (g (set_public (f_public (wk_fleet k)) DB_empty))).
Proof.
  intros Hm Hc. unfold onFleet, zoom, onPublic. rewrite Hm by done. destruct k as [[] q]; done.
Qed.

Lemma list_tenants (q : Query Tenant) k : calm (wk_fleet k) →
  onFleet (onPublic false (List_ q)) k = (k, inr (applyPagination q (chosen (q_where q) (wk_fleet k)))).
Proof.
  apply (shared_read _ (λ d, applyPagination q (select (q_where q) (db_tenants d)))).
  intros w Hw. by rewrite List_eval.
Qed.
Lemma count_tenants (q : Query Tenant) k : calm (wk_fleet k) →
  onFleet (onPublic false (Count q)) k = (k, inr (Z.of_nat (length (chosen (q_where q) (wk_fleet k))))).
Proof.
  apply (shared_read _ (λ d, Z.of_nat (length (select (q_where q) (db_tenants d))))).
  intros w Hw. by rewrite Count_eval.
Qed.

Section Batches.
Variable p : Tenant → bool.
Variable process : string → Comp Worker unit.
Hypothesis Hsteady : ∀ id, preserves (worker_steady p) (process id).

Lemma tenantBatches_pass fuel n k :
  calm (wk_fleet k) → length (chosen p (wk_fleet k)) - n < fuel →
  tenantBatches (where_ p) process fuel (Z.of_nat n) k =
    for_each process (drop n (t_ID <$> chosen p (wk_fleet k))) k.
Proof using Hsteady.
  revert n k. induction fuel as [|fuel IH]; intros n k Hc Hfuel; [lia|]. cbn [tenantBatches].
  set (l := chosen p (wk_fleet k)) in *. set (b := Z.to_nat DefaultLimit).
  unfold mbind at 1, M_bind at 1.
  rewrite list_tenants by done. rewrite page_eq by done. cbn [SetOffset SetLimit q_where where_].
  fold l. fold b.
  replace (drop n (t_ID <$> l)) with ((t_ID <$> take b (drop n l)) ++ (t_ID <$> drop (n + b) l))
    by (by rewrite <-fmap_app, <-drop_drop, take_drop, fmap_drop).
  rewrite for_each_app. unfold mbind, M_bind. cbv beta iota. rewrite <-(for_each_map process t_ID).
  destruct (for_each process (t_ID <$> take b (drop n l)) k) as [k1 [e|[]]] eqn:Hrun; [done|].
  pose proof (preserves_run (worker_steady p) _ _ _ _ (preserves_for_each _ _ _ Hsteady) Hrun) as [Hids Hc1].
  specialize (Hc1 Hc). assert (length (chosen p (wk_fleet k1)) = length l) as Hlen
    by (by apply (f_equal length) in Hids; rewrite !length_fmap in Hids).
  destruct (take b (drop n l)) as [|x xs] eqn:Htake.
  { assert (drop n l = []) as Hd by (destruct (drop n l); [done|by subst b]).
    by rewrite <-drop_drop, Hd, drop_nil. }
  rewrite count_tenants by done. cbn [SetOffset SetLimit q_where where_]. rewrite Hlen.
  destruct (Z.leb_spec (Z.of_nat (length l)) (Z.of_nat n + DefaultLimit)).
  - by rewrite drop_ge by (subst b; lia).
  - replace (Z.of_nat n + DefaultLimit)%Z with (Z.of_nat (n + b)) by (subst b; unfold DefaultLimit; lia).
    assert (0 < b) by (subst b; unfold DefaultLimit; lia).
    rewrite IH; [by rewrite Hids, fmap_drop|done|]. rewrite Hlen. lia.
Qed.
End Batches.

(** * Reaching the tenants *)

Section Serving.
Context {NS : NewString} {Q : TaskQueue}.
Implicit Types (k : Worker) (task : Task).

Lemma onFleet_steady {A} p (m : Comp Fleet A) : preserves (steady p) m → preserves (worker_steady p) (onFleet m).
Proof.
  intros Hm k. unfold onFleet, zoom. specialize (Hm (wk_fleet k)). by destruct (m (wk_fleet k)).
Qed.

Lemma FanOutTask_steady p task payload opts : preserves (worker_steady p) (FanOutTask task payload opts).
Proof. intros k. unfold FanOutTask. by destruct (queue_EnqueueContext _). Qed.


(** The child task for a tenant. *)
Definition childTask (ctx : Ctx) (task : Task) (opts : list TaskOpt) (tenantID : string) : Task :=
  mkTask (task_Type task +:+ ":child")
    (TaskPayload_ToBytes (NewTaskPayload (CreateTenantContext ctx tenantID) (task_Payload task))) opts.

(** With child tasks the work itself is only queued: one child per selected tenant. *)
Lemma fan_out_exact bp opts ctx task process l k :
  bp_fanOutOpts bp = Some opts → (∀ t, queue_EnqueueContext t = None) →
  for_each (processTenant bp ctx task process) l k =
    (mkWorker (wk_fleet k) (wk_queue k ++ (childTask ctx task opts <$> l)), inr tt).
Proof.
  intros Ho Hq. revert k. induction l as [|id l IH]; intros k; simpl.
  { rewrite app_nil_r. by destruct k. }
  unfold mbind, M_bind, processTenant at 1. rewrite Ho. unfold FanOutTask. rewrite Hq. cbn [modify].
  unfold modify. rewrite IH. simpl. by rewrite <-app_assoc.
Qed.
End Serving.

(** * What a child task may do *)

(** The caller is not a business user. *)
Definition not_business (ctx : Ctx) : Prop := ctx_userType ctx = None ∨ ctx_userType ctx = Some InternalUser.

(** The internal caller with this role, in this tenant. *)
Record acts_as (role : string) (tenant : option string) (ctx : Ctx) : Prop := {
  acts_type : ctx_userType ctx = Some InternalUser;
  acts_role : ctx_internalUserData ctx = Some role;
  acts_tenant : ctx_tenant ctx = tenant }.

Lemma inject_acts newID ctx role : not_business ctx →
  ∃ ctx', InjectInternalUserData newID ctx role = inr ctx' ∧ acts_as role (ctx_tenant ctx) ctx'.
Proof. intros [H|H]; unfold InjectInternalUserData; rewrite H; eexists; split; done. Qed.

(** An operation of the guarded repository that does not fail was permitted. *)
Lemma run_op_permitted {G : GoMaps} {A} op ctx resource joins (inner : Comp Cluster A) am am' r :
  run_op op ctx resource joins inner am = (am', r) →
  (∃ e, r = inl e ∧ same_setup am am') ∨ ∃ a, permitted am ctx resource a.
Proof.
  destruct op; simpl run_op; try (by intros [H|(am1 & ? & ? & ? & ?)]%checked_run; eauto).
  all: intros [(e & H & ->)|(am1 & [] & H & H2)]%bind_inv; apply checkResource_run in H as [Hs Hp].
  all: solve [left; eauto|right; eexists; by apply Hp].
Qed.

(** What an internal caller may do, tenants apart, is what the policy of its role grants. *)
Lemma role_permits ctx role h resource action :
  acts_as role (ctx_tenant ctx) ctx → h_Internal h = NewInternalUserAuthzData RepoInternalPolicies →
  Resource_CheckAuthz ctx h resource action = inr true →
  resource = RepoResourceTypeTenant ∨
  ∃ ps, (role, ps) ∈ RepoInternalPolicies ∧ (resource, action) ∈ grants ps.
Proof.
  intros [Ht Hr _] Hh. unfold Resource_CheckAuthz.
  destruct (String.eqb_spec resource RepoResourceTypeTenant) as [|Hn]; [by left|].
  rewrite (CheckAuthz_internal_iff ctx RepoInternalPolicies h resource action Hh Ht).
  intros (role' & ps & acts & id & Hrole & _ & _ & _ & _ & _ & Hin & Hg). right. exists ps.
  by simplify_eq.
Qed.

(** The policies of a role of the table. *)
Ltac policies_of Hin :=
  unfold RepoInternalPolicies in Hin;
  repeat (apply elem_of_cons in Hin as [Hin|Hin]; [discriminate Hin || (injection Hin as Hin; subst)|]);
  try by apply not_elem_of_nil in Hin.

(** The role that child tasks have may only look at tenants. *)
Lemma processing_role_powerless ctx resource action h :
  acts_as InternalTaskProcessingRole (ctx_tenant ctx) ctx →
  h_Internal h = NewInternalUserAuthzData RepoInternalPolicies →
  Resource_CheckAuthz ctx h resource action = inr true → resource = RepoResourceTypeTenant.
Proof.
  intros Ha Hh [|(ps & Hin & Hg)]%(role_permits _ _ _ _ _ Ha Hh); [done|]. policies_of Hin.
  apply elem_of_grants in Hg as (p & res & Hp & Hres & <- & _).
  apply list_elem_of_singleton in Hp as ->. by apply list_elem_of_singleton in Hres as ->.
Qed.

(** The expiry task may not update keys, so it cannot release the key of a workflow. *)
Lemma expiry_leaves_keys ctx h :
  acts_as InternalTaskWorkflowExpirationRole (ctx_tenant ctx) ctx →
  h_Internal h = NewInternalUserAuthzData RepoInternalPolicies →
  Resource_CheckAuthz ctx h RepoResourceTypeKey RepoActionUpdate ≠ inr true.
Proof.
  intros Ha Hh [[=]|(ps & Hin & Hg)]%(role_permits _ _ _ _ _ Ha Hh). policies_of Hin.
  revert Hg. decided.
Qed.

Section Children.
Context {NS : NewString} {Q : TaskQueue} {G : GoMaps}.

(** C19: child tasks run without the rights of their task.  Done inside the batch, the work for
    a tenant has the role of the task; done by the child task that the fan-out enqueues for
    the same tenant it has the role of the batch processor, with which every operation of the
    guarded repository on any table but the tenants fails and leaves the database as it was. *)
Theorem child_tasks_powerless (h : TaskHandler) ctx tenantID data opts businessData :
  not_business ctx →
  let child := mkTask (TaskType h +:+ ":child") (TaskDoc tenantID businessData data) opts in
  (∃ ctx', acts_as (Role h) (ctx_tenant ctx) ctx' ∧
     ∀ task f, wrappedProcessTask h ctx task f = ProcessTask h ctx' task f) ∧
  ∃ ctx', acts_as InternalTaskProcessingRole (Some tenantID) ctx' ∧
    (∀ f, wrappedProcessTask (NewFanOutHandler h) ctx child f = ProcessTask h ctx' child f) ∧
    ∀ A op resource joins (inner : Comp Cluster A) am am' r,
      h_Internal (al_AuthzHandler am) = NewInternalUserAuthzData RepoInternalPolicies →
      resource ≠ RepoResourceTypeTenant →
      run_op op ctx' resource joins inner am = (am', r) →
      (∃ e, r = inl e) ∧ same_setup am am'.
Proof.
  intros Hctx child. destruct (inject_acts uuid_NewString ctx (Role h) Hctx) as (c1 & H1 & A1). split.
  { exists c1. split; [done|]. intros task f. unfold wrappedProcessTask. by rewrite H1. }
  destruct (inject_acts uuid_NewString c1 InternalTaskProcessingRole) as (c2 & H2 & A2).
  { right. apply A1. }
  exists (CreateTenantContext c2 tenantID). split; [by destruct A2; split|]. split.
  { intros f. unfold wrappedProcessTask, NewFanOutHandler. cbn [Role ProcessTask]. rewrite H1.
    rewrite (bind_run _ _ f f c1) by done. unfold TenantFanOut. by rewrite H2. }
  intros A op resource joins inner am am' r Hh Hn [(e & -> & ?)|(a & am1 & Hs & Hp)]%run_op_permitted; [eauto|].
  destruct Hn. apply (processing_role_powerless (CreateTenantContext c2 tenantID) resource a (al_AuthzHandler am1));
    [|by destruct Hs as (_ & _ & -> & _)|done].
  by destruct A2; split.
Qed.
End Children.

(** * Assigning approvers *)

(** No two rows of the table clash. *)
Definition unique_rows {T} `{!Resource T} (d : DB) : Prop :=
  ∀ x : T, x ∈ rows d → clashes x (rows d) = false.

(** The database can mark this workflow: there is one with the ID, its artifact has an ID, and
    the unique columns of systems and keys are unique. *)
Record markable (id : uuid) (d : DB) : Prop := {
  mk_id : id ≠ 0%N;
  mk_row : ∃ x, x ∈ db_workflows d ∧ wf_ID x = id;
  mk_artifact : ∀ x, x ∈ db_workflows d → wf_ID x = id → wf_ArtifactID x ≠ 0%N;
  mk_systems : unique_rows (T := System) d;
  mk_keys : unique_rows (T := Key) d }.

(** The workflow ended as FAILED for this reason and has released its artifact; the other
    workflows are the same. *)
Record ended_failed (id : uuid) (reason : string) (d d' : DB) : Prop := {
  ef_released : ∃ x, x ∈ db_workflows d' ∧ wf_ID x = id ∧ released d' x;
  ef_failed x : x ∈ db_workflows d' → wf_ID x = id →
    wf_State x = WorkflowStateFailed ∧ (reason ≠ "" → wf_FailureReason x = reason);
  ef_others x : wf_ID x ≠ id → x ∈ db_workflows d' ↔ x ∈ db_workflows d }.

(** A change that keeps the primary key and the unique columns succeeds when the database
    answers. *)
Lemma Patch_eval {T} `{!Resource T} (x x' : T) fs w :
  w_faults w = [] → before_save (w_now w) x = inr x' → zero_pk x' = false →
  unique_rows (T := T) (w_db w) →
  (let g y := if same_pk x' y then patch fs x' y else y in
   ∀ a b, same_pk (g a) (g b) = same_pk a b ∧ unique_clash (g a) (g b) = unique_clash a b) →
  Patch x fs w = (set_db (set_rows (patched x' fs (rows (w_db w))) (w_db w)) w,
                  inr (existsb (same_pk x') (rows (w_db w)))).
Proof.
  intros Hw Hb Hz Hu Hg. cbv zeta in Hg. unfold Patch, map_err, db_call. rewrite Hw. cbn [head tail]. rewrite Hb, Hz. cbv zeta.
  assert (existsb (λ y, same_pk x' y && clashes y (patched x' fs (rows (w_db w))))
    (patched x' fs (rows (w_db w))) = false) as ->; [|destruct w; cbn in *; by subst].
  apply not_true_iff_false. rewrite existsb_exists. intros (z & Hz1 & [_ Hz2]%andb_prop).
  unfold patched in Hz1, Hz2. apply list_elem_of_In, list_elem_of_fmap in Hz1 as (a & -> & Ha).
  specialize (Hu a Ha). unfold clashes in *. apply not_true_iff_false in Hu. apply Hu.
  apply existsb_exists in Hz2 as (z & Hz1 & Hc). apply list_elem_of_In, list_elem_of_fmap in Hz1 as (b & -> & Hb').
  apply existsb_exists. exists b. rewrite <-list_elem_of_In. destruct (Hg a b) as [<- <-]. done.
Qed.

Lemma workflows_unique d : unique_rows (T := Workflow) d.
Proof.
  intros x _. unfold clashes. induction (rows d) as [|y l IH]; [done|]. simpl in *. by rewrite andb_false_r.
Qed.

(** Releasing the artifact of a finished workflow. *)
Lemma release_eval wf w : w_faults w = [] → wf_ArtifactID wf ≠ 0%N →
  unique_rows (T := System) (w_db w) → unique_rows (T := Key) (w_db w) →
  ∃ w', HandleTerminalWorkflow wf w = (w', inr tt) ∧ w_faults w' = [].
Proof.
  intros Hw H0 Hs Hk. apply N.eqb_neq in H0. unfold HandleTerminalWorkflow. destruct (negb _); [by eexists|].
  destruct (_ ==s _); [|destruct (_ ==s _); [|by eexists]]; unfold mbind, M_bind.
  - rewrite (Patch_eval _ (set_s_UnderWorkflow false (System_ofID (wf_ArtifactID wf)))); [by eexists|done..|].
    cbv zeta. intros a b. simpl. by destruct (_ =? s_ID a)%N, (_ =? s_ID b)%N.
  - rewrite (Patch_eval _ (set_k_UnderWorkflow false (Key_ofID (wf_ArtifactID wf)))); [by eexists|done..|].
    cbv zeta. intros a b. simpl. by destruct (_ =? k_ID a)%N, (_ =? k_ID b)%N.
Qed.

Definition failed (reason : string) (wf : Workflow) : Workflow :=
  set_wf_FailureReason reason (set_wf_State WorkflowStateFailed wf).

(** The row that marking leaves. *)
Lemma patch_failed reason now wf y : wf_ID wf = wf_ID y →
  let x := patch_Workflow (Workflow_BeforeSave now (failed reason wf)) y in
  wf_ID x = wf_ID y ∧ wf_State x = WorkflowStateFailed ∧ (reason ≠ "" → wf_FailureReason x = reason) ∧
  (wf = y → wf_ArtifactType x = wf_ArtifactType wf ∧ wf_ArtifactID x = wf_ArtifactID wf).
Proof.
  intros Hid. unfold Workflow_BeforeSave, failed.
  destruct (wf_ExpiryDate _); simpl; (split_and!; [done..| |]).
  1,3: intros Hr; unfold nz_string; by apply String.eqb_neq in Hr as ->.
  all: intros ->; unfold nz_string; split; by case_match.
Qed.

Lemma First_found {T} `{!Resource T} (p : T → bool) w x :
  w_faults w = [] → x ∈ rows (w_db w) → p x = true →
  ∃ y, First p w = (w, inr y) ∧ y ∈ rows (w_db w) ∧ p y = true.
Proof.
  intros Hw Hx Hp. destruct (First p w) as [w' [e|y]] eqn:Hf.
  - unfold First, db_call in Hf. rewrite Hw in Hf. cbn [head] in Hf. exfalso.
    destruct (select p (rows (w_db w))) as [|z l] eqn:Hs; [|done].
    assert (x ∈ select p (rows (w_db w))) as Hin by (apply list_elem_of_In, filter_In; by rewrite <-list_elem_of_In).
    rewrite Hs in Hin. by apply not_elem_of_nil in Hin.
  - exists y. split; [|by apply First_ok in Hf]. f_equal.
    unfold First, db_call in Hf. rewrite Hw in Hf. cbn [head tail] in Hf.
    destruct (select p (rows (w_db w))); [done|]. injection Hf as <- _. destruct w; cbn in *. by subst.
Qed.

Lemma putFailed_ends id reason w :
  w_faults w = [] → w_inTx w = false → markable id (w_db w) →
  ∃ w', putWorkflowInFailedState id reason w = (w', inr tt) ∧ ended_failed id reason (w_db w) (w_db w').
Proof.
  intros Hw Htx [H0 (x & Hx & Hxid) Hart Hs Hk].
  destruct (First_found (λ x, byID id (wf_ID x)) w x Hw) as (wf & Hf & Hwf & Hid);
    [done|unfold byID; by rewrite Hxid, N.eqb_refl, orb_true_r|]. apply byID_eq in Hid; [|done].
  unfold putWorkflowInFailedState. rewrite (bind_run _ _ _ _ _ Hf). fold (failed reason wf).
  unfold Transaction, TransactionOn, Datatypes.id. rewrite Htx. unfold mbind, M_bind.
  set (x' := Workflow_BeforeSave (w_now w) (failed reason wf)).
  assert (wf_ID x' = id) as Hx'.
  { subst x'. unfold Workflow_BeforeSave. by destruct (wf_ExpiryDate _). }
  rewrite (Patch_eval _ x'); [|done..| | |].
  2:{ simpl. rewrite Hx'. by apply N.eqb_neq. }
  2: apply workflows_unique.
  2:{ cbv zeta. intros a b. simpl. by destruct (_ =? wf_ID a)%N, (_ =? wf_ID b)%N. }
  set (w1 := set_db _ _). assert (db_workflows (w_db w1) = patched x' [] (db_workflows (w_db w))) as Hw1 by done.
  destruct (release_eval (failed reason wf) w1) as (w2 & Hr & _); [done|by apply (Hart wf)|done|done|].
  pose proof (run_fixes db_workflows _ _ _ _ (HandleTerminalWorkflow_fixes db_workflows _ (λ _ _, eq_refl) (λ _ _, eq_refl)) Hr) as Hw2.
  apply HandleTerminalWorkflow_releases in Hr as Hrel; [|done]. rewrite Hr.
  exists (set_inTx false w2). split; [done|]. cbn [w_db set_inTx]. rewrite Hw1 in Hw2.
  assert (∀ y, wf_ID y = id → same_pk x' y = true) as Hsame.
  { intros y Hy. simpl. by rewrite Hx', Hy, N.eqb_refl. }
  split; rewrite ?Hw2; unfold patched.
  - exists (patch_Workflow x' wf). destruct (patch_failed reason (w_now w) wf wf eq_refl) as (Hi & _ & _ & Ha).
    destruct (Ha eq_refl) as [Hty Haid]. split; [|split; [by rewrite <-Hid|]].
    + apply list_elem_of_fmap. exists wf. by rewrite Hsame.
    + unfold released. fold x' in Hty, Haid. rewrite Hty, Haid. exact Hrel.
  - intros y (z & -> & Hz)%list_elem_of_fmap. destruct (same_pk x' z) eqn:Hp.
    + intros _. simpl in Hp. apply N.eqb_eq in Hp. rewrite Hx' in Hp.
      destruct (patch_failed reason (w_now w) wf z) as (_ & ? & ? & _); [congruence|done].
    + intros Hy. by rewrite Hsame in Hp.
  - intros y Hy. rewrite list_elem_of_fmap. split.
    + intros (z & -> & Hz). destruct (same_pk x' z) eqn:Hp; [|done]. destruct Hy. simpl in Hp.
      apply N.eqb_eq in Hp. destruct (patch_failed reason (w_now w) wf z) as (Hi & _); [congruence|].
      etrans; [exact Hi|congruence].
    + intros Hz. exists y. split; [|done]. destruct (same_pk x' y) eqn:Hp; [|done].
      simpl in Hp. apply N.eqb_eq in Hp. congruence.
Qed.

(** Marking a workflow of a tenant. *)
Lemma putFailed_tenant tenantID id reason f schema d :
  tenantID ≠ "" → schema_of f tenantID = Some schema → f_schemas f !! schema = Some d →
  calm f → markable id d →
  ∃ f' d', onTenant tenantID (putWorkflowInFailedState id reason) f = (f', inr tt) ∧
    f_schemas f' = <[schema := d']> (f_schemas f) ∧ ended_failed id reason d d'.
Proof.
  intros Ht Hs Hd Hc [? ? ? ? ?]. apply String.eqb_neq in Ht. unfold onTenant. rewrite Ht, Hs, Hd.
  destruct (putFailed_ends id reason (world_of f d)) as (w' & -> & [Hr Hf Ho]); [done|done|by split|].
  eexists _, _. split; [done|]. split; [done|]. by split.
Qed.

Section Assigning.
Context {F : FSM} {UP : UUIDParse} {NS : NewString} {Dp : Deployment} {I : IDM} {Env : ManagerEnv}.
Context {O : Orbital} {Rg : Registry} {US : UUIDString} {G : GoMaps} {NU : NewUUID} {PT : ParseTime}.
Context {E : CertificateEnv} {PC : PluginCatalog} {KE : KeyEnv}.

(** Why the task failed, as stored with the workflow. *)
Definition failure_reason (e : error) : string :=
  if is_error e then Error e else "internal error when assigning approvers".

(** C20: how the task that assigns approvers ends.  Either the approvers were assigned and the
    task is done; or the assignment failed, and then, when the database answers, the workflow
    is FAILED with the text of the error, its artifact is released and no other workflow has
    changed, whatever state the workflow was in.  The queue is told about the failure unless
    it was a panic. *)
Theorem assign_task_outcome ctx type tenantID businessData s opts id f f' r :
  let task := mkTask type (TaskDoc tenantID businessData (TextPayload s)) opts in
  let ctx' := InjectContext (mkTaskPayload tenantID businessData (TextPayload s)) ctx in
  uuid_Parse s = inr id → tenantID ≠ "" →
  WorkflowProcessor_ProcessTask ctx task f = (f', r) →
  (∃ wf, onTenant tenantID (AutoAssignApprovers ctx' id) f = (f', inr wf) ∧ r = inr tt) ∨
  ∃ f1 e, onTenant tenantID (AutoAssignApprovers ctx' id) f = (f1, inl e) ∧
    ∀ schema d, schema_of f1 tenantID = Some schema → f_schemas f1 !! schema = Some d →
      calm f1 → markable id d →
      r = (if is_error e then inl (Wrap ErrRunningTask (Some e)) else inr tt) ∧
      ∃ d', f_schemas f' = <[schema := d']> (f_schemas f1) ∧ ended_failed id (failure_reason e) d d'.
Proof.
  intros task ctx' Hid Ht. unfold WorkflowProcessor_ProcessTask. subst task.
  intros H. apply bind_inv in H as [(e & [=] & _)|(f0 & payload & [= <- <-] & H)]. revert H.
  cbn [tp_Data uuid_ParseBytes]. rewrite Hid. rewrite (bind_run _ _ f f id) by done. fold ctx'.
  assert (∀ A (m : Comp World A), within ctx' m = onTenant tenantID m) as Hin.
  { intros A m. unfold within, ctx', InjectContext. cbn. by apply String.eqb_neq in Ht as ->. }
  unfold recovering, assignApprovers, logged. rewrite Hin. unfold mbind, M_bind, try_.
  destruct (onTenant tenantID (AutoAssignApprovers ctx' id) f) as [f1 [e|wf]] eqn:Ha.
  2:{ intros [= <- <-]. left. eauto. }
  intros H. right. exists f1, e. split; [done|]. intros schema d Hs Hd Hc Hm.
  destruct (putFailed_tenant tenantID id (failure_reason e) f1 schema d Ht Hs Hd Hc Hm)
    as (f2 & d' & Hput & Hf2 & He). rewrite <-Hin in Hput.
  unfold failure_reason in *. destruct e; cbv beta iota zeta delta [is_error] in *;
    rewrite Hput in H; injection H as <- <-; eauto.
Qed.
End Assigning.

(** The child of the expiry task cannot even list the workflows: its role is not among those
    that may read them without being a business user. *)
Theorem expiry_child_idle `{!FSM, !Actions, !UUIDParse, !NewString, !Deployment, !IDM, !ManagerEnv} ctx tenant w :
  acts_as InternalTaskProcessingRole tenant ctx →
  expireWorkflows ctx w = (w, inl (wrapping ErrGetWorkflowDB ErrInternalRoleNotSupported)).
Proof.
  intros [Ht Hr _]. unfold expireWorkflows, GetWorkflows, getWorkflows, NeedsGroupFiltering.
  assert (ensureBusinessUserOpsAllowed ctx [InternalTaskWorkflowApproversRole; InternalTaskWorkflowExpirationRole;
    InternalTenantProvisioningRole] = Some ErrInternalRoleNotSupported) as ->; [|done].
  unfold ensureBusinessUserOpsAllowed, CheckInternalUserRoles, ExtractInternalRole, ExtractUserType.
  by rewrite Ht, Hr.
Qed.

(** Refreshing the names of the tenants does not disturb the batches. *)
Lemma selected_by_id ids t t' : t_ID t' = t_ID t → selected NewBatchProcessor ids t' = selected NewBatchProcessor ids t.
Proof. unfold selected. by intros ->. Qed.

Lemma onPublic_steady {A} p (m : Comp World A) :
  preserves (fixes (λ d, t_ID <$> select p (db_tenants d))) m → preserves fewer_faults m →
  preserves (steady p) (onPublic false m).
Proof.
  intros Hm Hf f. unfold onPublic. specialize (Hm (public_world false f)). specialize (Hf (public_world false f)).
  destruct (m (public_world false f)) as [w r]. split; [exact Hm|]. unfold calm. cbn. intros Hc.
  unfold fewer_faults in Hf. cbn in Hf. rewrite Hc in Hf. by apply suffix_nil_inv in Hf.
Qed.

Lemma name_refresher_steady `{!TenantDirectory} ids ctx task :
  preserves (steady (selected NewBatchProcessor ids)) (TenantNameRefresher_ProcessTask ctx task).
Proof.
  unfold TenantNameRefresher_ProcessTask. destruct (ExtractTenantID ctx) as [|tenantID]; [apply preserves_ret, _|].
  destruct (directory_GetTenantName tenantID) as [|name]; [apply preserves_ret, _|].
  apply preserves_logged, onPublic_steady; [apply _|..]; (apply preserves_bind; [apply _| |intros ?; apply preserves_ret, _]).
  - intros w. destruct (Patch (namedTenant tenantID name) [] w) as [w' [e|b]] eqn:Hp; unfold fixes; cbn [fst].
    { by apply Patch_err in Hp as ->. }
    apply Patch_ok in Hp as (x & [= <-] & -> & _). cbn. unfold patched, select. clear.
    induction (db_tenants (w_db w)) as [|t l IH]; [done|]. simpl.
    rewrite (selected_by_id ids t) by (by case_match). destruct (selected _ ids t); [|exact IH].
    simpl. f_equal; [by case_match|exact IH].
  - apply preserves_map_err, db_call_faults.
Qed.

(** Child tasks are set up from the configured tasks only: the child tasks that the default
    schedule asks for are not. *)
Lemma default_fan_out_ignored tasks :
  fo_Enabled <$> (default TaskConfig_zero (PeriodicTasks !! TypeHYOKSync)).(tk_FanOutTask) = Some true ∧
  getFanOutOpts (mkApp (taskMap []) tasks) TypeHYOKSync = None.
Proof. done. Qed.
