(* ===== verification/Scenario.v ===== *)
(** A small concrete deployment: one tenant with a key configuration, a key, a
    system and three key administrators, and concrete stand-ins for the services
    outside the repository.  It serves to run the model: a request to delete a key
    goes from creation through two approvals to execution, and the failure cases
    the theorems speak about are shown on real states. *)
From S2P Require Import Prelude Errs Json GoContext AuthzPolicies Authz Model Store Batch Fsm.
From S2P Require Import Lifecycle Users TenantConfig Groups WorkflowManager VoteFacts.
From S2P Require Import LifecycleFacts WorkflowFacts AuthzLoader AuthzLoaderFacts.

(** * Services *)

Definition byKey (id : uuid) : Comp World Key := First (λ k, byID id (k_ID k)).

#[export] Instance demo_actions : Actions := {
  KeyActions_Get _ id := byKey id;
  KeyActions_UpdateKey _ id enabled :=
    _ ← Patch (set_k_State (if enabled then "ENABLED" else "DISABLED") (Key_ofID id)) []; mret tt;
  KeyActions_Delete _ id := _ ← Delete (Key_ofID id); mret tt;
  DeleteKeyConfigurationByID _ id := _ ← Delete (KeyConfiguration_ofID id); mret tt;
  UpdateKeyConfigurationByID _ id key :=
    _ ← Patch (set_kc_PrimaryKeyID (Some key) (KeyConfiguration_ofID id)) []; mret tt;
  LinkSystemAction _ id kc := _ ← Patch (set_s_KeyConfigurationID (Some kc) (set_s_Status "CONNECTED" (System_ofID id))) []; mret tt;
  UnlinkSystemAction _ id _ := _ ← Patch (set_s_Status "DISCONNECTED" (System_ofID id)) []; mret tt }.

#[export] Instance demo_parse : UUIDParse := λ s, if s ==s "" then inl (External "invalid UUID length: 0") else inr 40%N.
#[export] Instance demo_newString : NewString := "00000000-0000-4000-8000-000000000001".
#[export] Instance demo_deployment : Deployment := None.

#[export] Instance demo_idm : IDM := {
  svcRegistry := Some (inr tt);
  idm_GetGroup name _ := if name ==s "kms-admins" then inr "gid-1" else inl (External "no such group");
  idm_ListGroupUsers gid _ :=
    if gid ==s "gid-1" then inr ["alice"; "bob"; "carol"] else inl (External "no such group");
  idm_GetUser user _ := inr user;
  idm_isNotFound _ := false }.

#[export] Instance demo_env : ManagerEnv := {
  GetSystemByID _ id := First (λ s, byID id (s_ID s));
  OptionalProperties := [];
  asyncClient := Some (λ _, None);
  createNotification _ _ _ := None;
  unmarshalIDs _ := inr [];
  uuid_New n := N.of_nat (1000 + n) }.

#[export] Instance demo_lookups : LookupLaws.
Proof. split; intros; apply same_db_fixes, First_same_db. Qed.

#[export] Instance demo_maps : GoMaps.
Proof. refine {| range V := map_to_list |}. done. Defined.

(** * Callers *)

Definition caller (user : string) : Ctx :=
  mkCtx (Some "acme") (Some "req-1") (Some BusinessUser)
    (Some (mkClientData user "" "" "" ["kms-admins"] ∅)) None.

Definition auditor : Ctx :=
  mkCtx (Some "acme") (Some "req-2") (Some BusinessUser)
    (Some (mkClientData "dave" "" "" "" ["kms-auditors"] ∅)) None.

Definition worker : Ctx :=
  mkCtx (Some "acme") (Some "req-3") (Some InternalUser) None (Some InternalTaskWorkflowExpirationRole).

(** * Data *)

Definition admins : Group := mkGroup 1 "KeyAdmins" "" KeyAdminRole "kms-admins".
Definition auditors : Group := mkGroup 2 "Auditors" "" TenantAuditorRole "kms-auditors".
Definition demo_keyConfig : KeyConfiguration := mkKeyConfiguration 10 "kc" "" 1 Group_zero "alice" None 0 0.
Definition demo_byok (id : uuid) (name : string) : Key :=
  mkKey 1 id 10 name KeyTypeBYOK "" "AES256" "AWS" "eu" KeyStateENABLED [] None (Some "native") None None
    false None false ∅.
Definition demo_key : Key := demo_byok 20 "key".
Definition demo_system : System := mkSystem 30 "sys" "eu" "SYSTEM" (Some 10%N) None None None ∅ SystemStatusCONNECTED false "" "".
Definition demo_config : WorkflowConfig := mkWorkflowConfig true 2 30 7 30.

Definition demo_db : DB :=
  mkDB [] [] [] [admins; auditors] [demo_key] [demo_system] [demo_keyConfig]
    [mkTenantConfig WorkflowConfigKey (json_Marshal demo_config)] (mkPublic [mkTenant "schema_acme" "acme.io" "acme" "Acme" "STATUS_ACTIVE" "" "" "" Role_ROLE_LIVE] [])
    [] [] [] [] [] [].

Definition demo_world (d : DB) : World := mkWorld d 10000000 false [] [] [] ∅.

(** Deletion of the key, asked for by alice. *)
Definition request : Workflow :=
  mkWorkflow 0 50 "" "alice" "" [] None WorkflowArtifactTypeKey 20 None WorkflowActionTypeDelete ""
    None None "" None 0.

(** * The life of the request *)

Definition created := CreateWorkflow (caller "alice") request (demo_world demo_db).
Definition assigned := AutoAssignApprovers (caller "alice") 50 created.1.
Definition approved_once := TransitionWorkflow (caller "bob") 50 TransitionApprove assigned.1.
Definition approved_twice := TransitionWorkflow (caller "carol") 50 TransitionApprove approved_once.1.
Definition confirmed := TransitionWorkflow (caller "alice") 50 TransitionConfirm approved_twice.1.

Definition state_of {A} (r : World * (error + A)) : list string := wf_State <$> db_workflows (w_db r.1).
Definition keys_of {A} (r : World * (error + A)) : list (uuid * bool) :=
  (λ k, (k_ID k, k_UnderWorkflow k)) <$> db_keys (w_db r.1).

(** One approval is not enough, two are, and the confirmed request removes the key
    and leaves nothing marked. *)
Example deletion_needs_two_approvals :
  state_of created = [WorkflowStateInitial] ∧ keys_of created = [(20%N, true)] ∧
  state_of assigned = [WorkflowStateWaitApproval] ∧
  state_of approved_once = [WorkflowStateWaitApproval] ∧
  state_of approved_twice = [WorkflowStateWaitConfirmation] ∧
  state_of confirmed = [WorkflowStateSuccessful] ∧ keys_of confirmed = [].
Proof. vm_compute. auto 10. Qed.

(** A second request for the same key is refused while the first is ongoing. *)
Example second_request_refused :
  ∃ e, (CreateWorkflow (caller "bob") request created.1).2 = inl e ∧
    errors_Is e ErrOngoingWorkflowExist = true.
Proof. eexists. split; vm_compute; reflexivity. Qed.

(** * An approval that ends in rejection

    Carol has left the administrators when bob votes. *)
Definition idm_carol_left : IDM := {|
  svcRegistry := Some (inr tt);
  idm_GetGroup name _ := if name ==s "kms-admins" then inr "gid-1" else inl (External "no such group");
  idm_ListGroupUsers gid _ :=
    if gid ==s "gid-1" then inr ["alice"; "bob"] else inl (External "no such group");
  idm_GetUser user _ := inr user;
  idm_isNotFound _ := false |}.

Definition auto_rejected :=
  TransitionWorkflow (I := idm_carol_left) (caller "bob") 50 TransitionApprove assigned.1.

(** Bob's approval is the last possible vote and too few, so the workflow is
    rejected; but the key stays marked as under workflow. *)
Example auto_reject_leaves_artifact_marked :
  state_of auto_rejected = [WorkflowStateRejected] ∧ keys_of auto_rejected = [(20%N, true)].
Proof. vm_compute. auto. Qed.

(** * Authorization data of two tenants *)

Definition other_admins : Group := mkGroup 3 "OtherAdmins" "" KeyAdminRole "other-admins".
Definition other_db : DB := set_groups [other_admins] DB_empty.
Definition demo_cluster : Cluster :=
  mkCluster [("acme", "schema_acme"); ("other", "schema_other")]
    (<["schema_acme" := demo_db]> (<["schema_other" := other_db]> ∅)) false [].
Definition other_caller : Ctx :=
  mkCtx (Some "other") (Some "req-4") (Some BusinessUser)
    (Some (mkClientData "eve" "" "" "" ["other-admins"] ∅)) None.

Definition demo_loader : AuthzLoader := NewAPIAuthzLoader demo_cluster.
Definition loaded := LoadTenantAllowedActions (caller "alice") demo_loader.

(** A reload whose context names a tenant stores that tenant's groups under every
    loaded tenant: the administrators of [other] get access to [acme]. *)
Example reload_mixes_tenants :
  let am := (ReloadTenantAllowedActions other_caller loaded.1).1 in
  ("acme", "other-admins", (APIResourceTypeKey, APIActionDelete)) ∈ keys am ∧
  "other-admins" ∉ g_IAMIdentifier <$> tenant_groups demo_cluster "acme".
Proof. split; [apply (bool_decide_unpack _); vm_compute; exact I|]. apply (bool_decide_unpack _). vm_compute. exact I. Qed.
