(* ===== verification/Witnesses.v ===== *)
(** The theorems at work: each is applied to the concrete deployment of
    [Scenario], which shows that its hypotheses can be met and what it says
    there. *)
From S2P Require Import Prelude Errs Json GoContext AuthzPolicies Authz Model Store Batch Fsm.
From S2P Require Import Lifecycle Users TenantConfig Groups WorkflowManager VoteFacts.
From S2P Require Import LifecycleFacts WorkflowFacts AssignFacts CreateFacts CleanupFacts.
From S2P Require Import AuthzLoader AuthzLoaderFacts Scenario.

(** * Errors and contexts *)

Definition demo_mapper : ErrorMapper :=
  NewMapper [@mkExposed nat string [ErrNotFound] 404 None;
             mkExposed [ErrTransaction; ErrNotFound] 410 (Some Error)]
            [mkExposed [ErrUniqueConstraint] 409 None].
Definition no_context (e : nat) (_ : string) : nat := e.

Lemma Transform_priority_witness :
  Transform no_context 500 demo_mapper (Wrap ErrCreateResource (Some ErrUniqueConstraint)) = 409.
Proof.
  apply (Transform_priority no_context 500 demo_mapper _ [] (mkExposed [ErrUniqueConstraint] 409 None) []).
  - evaluate.
  - constructor.
  - vm_compute. lia.
Defined.

Lemma Transform_best_match_witness :
  Transform no_context 500 demo_mapper (Wrap ErrTransaction (Some ErrNotFound)) = 410.
Proof.
  destruct (Transform_best_match no_context 500 demo_mapper (Wrap ErrTransaction (Some ErrNotFound)))
    as [[_ Hno]|_].
  - constructor; [evaluate|constructor].
  - discriminate (Hno (mkExposed [ErrNotFound] 404 None) (list_elem_of_here _ _)
                    ltac:(constructor; [evaluate|constructor])).
  - evaluate.
Defined.

Lemma BusinessToInternalContext_sound_witness :
  ∃ ctx', BusinessToInternalContext "id" (caller "alice") InternalBusinessAuthzRole = inr ctx' ∧
    ctx_businessUserData ctx' = None ∧ ctx_userType ctx' = Some InternalUser.
Proof.
  eexists. split; [evaluate|].
  destruct (BusinessToInternalContext_sound "id" (caller "alice") InternalBusinessAuthzRole _ eq_refl
    ltac:(discriminate)) as (? & ? & _). done.
Defined.

(** * Authorization *)

Definition repo_handler : Handler :=
  NewAuthorizationHandler RepoInternalPolicies RepoBusinessPolicies RepoResourceTypeActions.

Lemma CheckAuthz_internal_iff_witness :
  CheckAuthz worker repo_handler RepoResourceTypeWorkflow RepoActionUpdate = inr true.
Proof.
  apply (CheckAuthz_internal_iff worker RepoInternalPolicies repo_handler
    RepoResourceTypeWorkflow RepoActionUpdate eq_refl eq_refl).
  exists InternalTaskWorkflowExpirationRole, RepoInternalPolicies_InternalTaskWorkflowExpirationRole,
    repoActionList, "req-3".
  split_and!; try reflexivity; try discriminate; apply list_elem_of_In; vm_compute; tauto.
Defined.

Lemma CheckAuthz_business_iff_witness :
  ∃ g, g ∈ ["kms-admins"] ∧
    ("acme", g, (APIResourceTypeKey, APIActionDelete)) ∈ keys loaded.1.
Proof.
  destruct (proj1 (CheckAuthz_business_iff (caller "alice") (al_AuthzHandler loaded.1)
    APIResourceTypeKey APIActionDelete eq_refl) ltac:(evaluate))
    as (t & d & id & acts & g & Ht & _ & Hd & _ & _ & _ & _ & _ & Hg & Hk).
  injection Ht as <-. injection Hd as <-. eauto.
Defined.

Definition demo_history : loader_run APIPolicies [demo_cluster] loaded.1 :=
  run_load APIPolicies [demo_cluster] demo_loader (caller "alice")
    (run_new APIPolicies demo_cluster [] APIResourceTypeActions).

Lemma grants_stay_in_tenant_witness :
  ∃ i, i ∈ ["kms-admins"] ∧ sourced APIPolicies demo_cluster "acme" i APIResourceTypeKey APIActionDelete.
Proof.
  destruct (grants_stay_in_tenant APIPolicies [demo_cluster] loaded.1 (caller "alice")
    APIResourceTypeKey APIActionDelete demo_history eq_refl ltac:(evaluate))
    as (t & d & i & c & Ht & Hd & Hi & Hc & Hs).
  apply list_elem_of_singleton in Hc as ->. injection Ht as <-. injection Hd as <-. eauto.
Defined.

Lemma load_decides_witness :
  CheckAuthz auditor (al_AuthzHandler (LoadTenantAllowedActions auditor demo_loader).1)
    APIResourceTypeKey APIActionDelete = inr true ↔
  ∃ i, i ∈ ["kms-auditors"] ∧ sourced APIPolicies demo_cluster "acme" i APIResourceTypeKey APIActionDelete.
Proof.
  apply (load_decides auditor demo_loader (LoadTenantAllowedActions auditor demo_loader).1 "acme"
    (mkClientData "dave" "" "" "" ["kms-auditors"] ∅) "req-2");
    lazymatch goal with
    | |- LoadTenantAllowedActions _ _ = _ => idtac
    | |- _ => try reflexivity; try discriminate
    end.
  - apply ran. evaluate.
  - vm_compute. lia.
Defined.

(** The auditor may list the keys but not delete one. *)
Definition repo_loader : AuthzLoader :=
  NewAuthzLoader demo_cluster []
    [(TenantAuditorRole, RepoBusinessPolicies_TenantAuditorRole); (KeyAdminRole, [])]
    RepoResourceTypeActions.
Definition inner_call : Comp Cluster nat := mret 7.


Lemma duties_are_separated_witness :
  is_get "GET /keys" || ("GET /keys" ==s "POST /groups/iamCheck") = true.
Proof.
  refine (proj1 (proj2 (duties_are_separated (maps := demo_maps) [demo_cluster] loaded.1
    (AuthzMiddleware auditor "GET /cmk/v1/{tenant}/keys" loaded.1).1 auditor
    "GET /cmk/v1/{tenant}/keys" TenantAuditorRole "acme"
    (mkClientData "dave" "" "" "" ["kms-auditors"] ∅) demo_history eq_refl eq_refl eq_refl _ _ _)) eq_refl).
  - intros c g ->%list_elem_of_singleton Hg Hi%list_elem_of_singleton.
    apply elem_of_cons in Hg as [->|Hg]; [discriminate Hi|].
    by apply list_elem_of_singleton in Hg as ->.
  - apply ran. evaluate.
  - decided.
Defined.

Lemma refresh_without_tenant_witness :
  al_TenantIDs (ReloadTenantAllowedActions Background loaded.1).1 = ∅ ∧
  ((ReloadTenantAllowedActions Background loaded.1).2 = inr tt ↔ al_TenantIDs loaded.1 = ∅).
Proof.
  destruct (refresh_without_tenant (maps := demo_maps) Background _ loaded.1
    (ReloadTenantAllowedActions Background loaded.1).1
    (ReloadTenantAllowedActions Background loaded.1).2 eq_refl (surjective_pairing _))
    as (H1 & _ & H2).
  exact (conj H1 H2).
Defined.

(** * Batches and votes *)

Definition three_keys : World :=
  demo_world (set_keys [demo_key; demo_byok 21 "b";
                        demo_byok 22 "c"] demo_db).
Definition skip_page (_ : list Key) : Comp World unit := mret tt.

Lemma ProcessInBatch_one_pass_witness :
  ∃ cs, concat cs = matching (where_ (λ _, true)) three_keys ∧ Forall (λ c, (Z.of_nat (length c) ≤ 2)%Z) cs ∧
    ProcessInBatch (where_ (λ _ : Key, true)) 2 skip_page 4 three_keys =
      as_batch_result (for_each skip_page cs three_keys).
Proof.
  apply (ProcessInBatch_one_pass (where_ (λ _ : Key, true)) 2 skip_page three_keys 4).
  - lia.
  - done.
  - intros items. apply preserves_ret, _.
  - reflexivity.
  - vm_compute. lia.
Defined.

Definition demo_votes : list WorkflowApprover :=
  [mkApprover 50 "bob" "" (Some true); mkApprover 50 "carol" "" None].

Lemma eligibility_keeps_votes_witness :
  ∃ c c', calculateVoteCounts "bob" demo_votes TransitionApprove = inr c ∧
    calculateVoteCounts "bob" (filterEligibleApprovers (Some {["bob"]}) demo_votes) TransitionApprove = inr c' ∧
    counts_score c' = counts_score c ∧ (0 ≤ pending c' ≤ pending c)%Z.
Proof.
  destruct (eligibility_keeps_votes (Some {["bob"]}) "bob" TransitionApprove demo_votes 2)
    as (c & c' & H1 & H2 & H3 & H4 & _); [by left| |by eauto 10].
  intros a [-> | [-> | Ha]%elem_of_cons]%elem_of_cons Hu; [by eexists|discriminate Hu|].
  by apply not_elem_of_nil in Ha.
Defined.

(** * Lifecycle *)

Lemma lifecycle_terminates_witness :
  dsts workflowEvents TransitionApprove WorkflowStateRejected = [].
Proof.
  apply (lifecycle_terminates WorkflowStateRejected [TransitionCreate; TransitionReject]).
  - eapply run_cons; [apply step_create|]. eapply run_cons; [apply step_reject|]. apply run_nil.
  - reflexivity.
Defined.

Definition the_workflow (r : World * (error + Workflow)) : Workflow :=
  match r.2 with inr x => x | inl _ => request end.

(** Lifecycles of alice, the initiator, at two moments. *)
Definition waiting : Lifecycle := NewLifecycle (the_workflow assigned) "alice" 2.
Definition to_confirm : Lifecycle := NewLifecycle (the_workflow approved_twice) "alice" 2.
Definition finished : Lifecycle := NewLifecycle (the_workflow confirmed) "alice" 2.

Lemma ApplyTransition_refines_witness :
  ∃ s1 s2, wf_step WorkflowStateWaitApproval TransitionRevoke s1 ∧
    wf_State (l_Workflow (ApplyTransition (caller "alice") TransitionRevoke (assigned.1, waiting)).1.2) = s2.
Proof.
  assert ((ApplyTransition (caller "alice") TransitionRevoke (assigned.1, waiting)).2 = inr tt) as Hrun
    by evaluate.
  destruct (ApplyTransition (caller "alice") TransitionRevoke (assigned.1, waiting))
    as [[w' l'] r] eqn:E. cbn [fst snd] in Hrun |- *. subst r.
  destruct (ApplyTransition_refines (caller "alice") TransitionRevoke assigned.1 waiting w' l'
    (NewLifecycle_in_sync _ _ _) E) as [[Ht _]|(s1 & s2 & Hs & _ & _ & Hw & _)].
  - exfalso. revert Ht. decided.
  - exists s1, s2. split; [exact Hs|exact Hw].
Defined.

Lemma terminal_is_final_witness :
  w_db (ApplyTransition (caller "alice") TransitionRevoke (confirmed.1, finished)).1.1 = w_db confirmed.1.
Proof.
  assert (is_terminal (wf_State (l_Workflow finished)) = true) as Hterm by evaluate.
  exact (proj1 (proj2 (terminal_is_final (caller "alice") TransitionRevoke confirmed.1 finished _ _
    (NewLifecycle_in_sync _ _ _) Hterm (or_introl (surjective_pairing _))))).
Defined.



Lemma available_transitions_sound_witness :
  CanTransition waiting TransitionRevoke = true.
Proof.
  assert ((AvailableBusinessUserTransitions (assigned.1, waiting)).2 = inr [TransitionRevoke]) as Hrun
    by evaluate.
  assert (w_faults assigned.1 = []) as Hf by evaluate.
  exact (proj1 (available_transitions_sound (caller "alice") assigned.1 waiting _ [TransitionRevoke]
    TransitionRevoke (NewLifecycle_in_sync _ _ _) Hf eq_refl eq_refl (ran _ _ Hrun) (list_elem_of_here _ _))).
Defined.

(** * Access, configuration and groups *)

Lemma HasKeyAccess_write_iff_witness :
  (HasKeyAccess (caller "alice") APIActionUpdate 10 (demo_world demo_db)).2 = inr true ↔
  managed_by demo_db 10 ["kms-admins"].
Proof.
  refine (proj1 (HasKeyAccess_write_iff (caller "alice") "acme"
    (mkClientData "alice" "" "" "" ["kms-admins"] ∅) (demo_world demo_db) APIActionUpdate 10 _ eq_refl _ _)).
  - by split_and!.
  - intros g g' Hg Hg' Hi Hi'.
    repeat (apply elem_of_cons in Hg as [->|Hg]; [|try by apply not_elem_of_nil in Hg]);
      repeat (apply elem_of_cons in Hg' as [->|Hg']; [|try by apply not_elem_of_nil in Hg']);
      try reflexivity; exfalso;
      [apply list_elem_of_singleton in Hi'; discriminate Hi'|apply list_elem_of_singleton in Hi; discriminate Hi].
  - decided.
Defined.

Lemma demo_stored_ok : stored_ok demo_db.
Proof.
  intros r ->%list_elem_of_singleton _. exists demo_config.
  split; [reflexivity|]. unfold config_valid. vm_compute. split_and!; discriminate.
Qed.

Definition raise_minimum : TenantWorkflowConfiguration := mkUpdate None (Some 3%Z) None None None.
Definition updated := UpdateWorkflowConfig (caller "alice") (Some raise_minimum) (demo_world demo_db).

Lemma workflow_config_valid_witness :
  stored_ok (w_db updated.1) ∧ updated.2 = inr (mkWorkflowConfig true 3 30 7 30).
Proof.
  split; [|evaluate].
  exact (proj1 (workflow_config_valid (caller "alice") _ (demo_world demo_db) updated.1 updated.2
    (op_update _ (Some raise_minimum)) demo_stored_ok (surjective_pairing _))).
Defined.

Lemma workflow_enabled_locked_witness : Enabled (mkWorkflowConfig true 3 30 7 30) = Enabled demo_config.
Proof.
  assert (updated.2 = inr (mkWorkflowConfig true 3 30 7 30)) as Hu by evaluate.
  assert ((GetWorkflowConfig (caller "alice") (demo_world demo_db)).2 = inr demo_config) as Hg by evaluate.
  apply (workflow_enabled_locked (caller "alice") (Some raise_minimum) "acme" (demo_world demo_db)
    (GetWorkflowConfig (caller "alice") (demo_world demo_db)).1 demo_config updated.1).
  - reflexivity.
  - reflexivity.
  - intros t ->%list_elem_of_singleton _. discriminate.
  - apply demo_stored_ok.
  - exact (ran _ _ Hg).
  - exact (ran _ _ Hu).
Defined.

Lemma workflow_config_roundtrip_witness :
  ∃ w1, GetWorkflowConfig (caller "alice") w1 = (w1, inr demo_config).
Proof.
  assert ((SetWorkflowConfig (caller "alice") (Some demo_config) (demo_world demo_db)).2 = inr demo_config)
    as Hs by evaluate.
  exists (SetWorkflowConfig (caller "alice") (Some demo_config) (demo_world demo_db)).1.
  apply (workflow_config_roundtrip (caller "alice") (Some demo_config) (demo_world demo_db)).
  - exact (ran _ _ Hs).
  - evaluate.
Defined.

Definition new_group : Group := mkGroup 4 "Operators" "" KeyAdminRole "kms-operators".
Definition group_created := CreateGroup new_group (demo_world demo_db).

Lemma group_changes_safe_witness :
  keeps_groups demo_db (w_db group_created.1) ∧ new_group ∈ db_groups (w_db group_created.1).
Proof.
  split; [|apply list_elem_of_In; vm_compute; auto 10].
  apply (group_changes_safe (demo_world demo_db) group_created.1).
  - eapply history_cons; [apply (op_create_group new_group)|apply surjective_pairing|apply history_nil].
  - intros e He. by apply not_elem_of_nil in He.
  - unfold groups_ok. decided.
Defined.

Lemma CreateDefaultGroups_atomic_witness :
  mkGroup 5 TenantAdminGroup "" TenantAdminRole (NewIAMIdentifier TenantAdminGroup "acme")
    ∈ db_groups (w_db (CreateDefaultGroups 5 6 (caller "alice") (demo_world demo_db)).1).
Proof.
  assert ((CreateDefaultGroups 5 6 (caller "alice") (demo_world demo_db)).2 = inr tt) as Hr by evaluate.
  exact (proj1 (CreateDefaultGroups_atomic 5 6 (caller "alice") "acme" (demo_world demo_db) _ (inr tt)
    eq_refl eq_refl (ran _ _ Hr))).
Defined.

(** * Workflows *)

Abbreviation bob_votes :=
  (applyTransition (caller "bob") "bob" TransitionApprove (assigned.1, the_workflow assigned)).
Abbreviation carol_votes :=
  (applyTransition (caller "carol") "carol" TransitionApprove (approved_once.1, the_workflow approved_once)).

Lemma vote_recorded_witness :
  ∃ l1 a l2, db_approvers (w_db assigned.1) = l1 ++ a :: l2 ∧ wa_UserID a = "bob" ∧
    db_approvers (w_db bob_votes.1.1) = l1 ++ set_wa_Approved (Some true) a :: l2.
Proof.
  assert (bob_votes.2 = inr tt) as Hr by evaluate.
  assert (w_inTx assigned.1 = false) as Htx by evaluate.
  assert (approvers_ok (w_db assigned.1)) as Hok by (unfold approvers_ok; decided).
  destruct (applyTransition _ _ _ _) as [[w' wf'] r] eqn:E. cbn [fst snd] in Hr |- *. subst r.
  destruct (vote_recorded (caller "bob") "bob" TransitionApprove assigned.1 (the_workflow assigned) w' wf'
    Htx Hok (list_elem_of_here _ _) E) as (l1 & a & l2 & H1 & H2 & _ & H3).
  exists l1, a, l2. split; [exact H1|]. split; [exact (H2 eq_refl)|exact H3].
Defined.


(** Carol has left, so bob's approval is followed by the automatic rejection. *)
Abbreviation bob_votes_alone :=
  (applyTransition (I := idm_carol_left) (caller "bob") "bob" TransitionApprove
    (assigned.1, the_workflow assigned)).

Lemma auto_rejection_keeps_mark_witness :
  wf_State bob_votes_alone.1.2 = WorkflowStateRejected ∧
  db_keys (w_db bob_votes_alone.1.1) = db_keys (w_db assigned.1) ∧
  k_UnderWorkflow <$> db_keys (w_db assigned.1) = [true].
Proof.
  assert (bob_votes_alone.2 = inr tt) as Hr by evaluate.
  assert (wf_State bob_votes_alone.1.2 = WorkflowStateRejected) as Hst by evaluate.
  assert (k_UnderWorkflow <$> db_keys (w_db assigned.1) = [true]) as Hk by evaluate.
  destruct (applyTransition _ _ _ _) as [[w' wf'] r] eqn:E. cbn [fst snd] in Hr, Hst |- *. subst r.
  destruct (auto_rejection_keeps_mark (I := idm_carol_left) (caller "bob") "bob" assigned.1
    (the_workflow assigned) w' wf' E Hst) as [H _].
  split; [exact Hst|]. split; [exact H|exact Hk].
Defined.

(** Mallory is no approver: the vote fails and nothing is kept. *)
Abbreviation mallory_votes :=
  (applyTransition (caller "mallory") "mallory" TransitionApprove (assigned.1, the_workflow assigned)).


Definition with_admins : KeyConfiguration := set_kc_AdminGroup admins demo_keyConfig.
Abbreviation approvers_found :=
  (getApproversAndGroupsFromKeyConfigs (caller "alice") request [with_admins] (demo_world demo_db)).

Lemma approvers_exact_witness :
  ∃ approvers groups, approvers_found.2 = inr (approvers, groups) ∧ NoDup (wa_UserID <$> approvers) ∧
    ("alice" ∉ wa_UserID <$> approvers).
Proof.
  assert (is_Some (maybe inr approvers_found.2)) as [x Hx] by (vm_compute; eauto).
  destruct (getApproversAndGroupsFromKeyConfigs _ _ _ _) as [w' r] eqn:E.
  cbn [snd] in Hx |- *. destruct r as [e|[approvers groups]]; [discriminate Hx|].
  exists approvers, groups. split; [reflexivity|].
  destruct (approvers_exact (caller "alice") request [with_admins] (demo_world demo_db) w' approvers groups E)
    as (Hn & Hin & _).
  split; [exact Hn|]. intros Ha.
  apply (proj1 (Hin _)) in Ha. exact (proj1 Ha eq_refl).
Defined.

Abbreviation assigning := (AutoAssignApprovers (caller "alice") 50 created.1).

Lemma AutoAssign_enough_approvers_witness :
  persisted assigning.1 50 WorkflowStateWaitApproval ∧
  (2 ≤ Z.of_nat (length (votes_of 50 (w_db assigning.1))))%Z.
Proof.
  assert (assigning.2 = inr (the_workflow assigning)) as Hr by evaluate.
  assert (wf_MinimumApprovalCount (the_workflow assigning) = 2%Z) as Hmin by evaluate.
  assert (wf_ID (the_workflow assigning) = 50%N) as Hid by evaluate.
  destruct assigning as [w' r] eqn:E. cbn [fst snd] in Hr |- *. rewrite Hr in E.
  destruct (AutoAssign_enough_approvers (caller "alice") 50 created.1 w' (the_workflow (w', r)) E)
    as (_ & Hp & Hn & _).
  rewrite Hid in Hp, Hn. rewrite Hmin in Hn. exact (conj Hp Hn).
Defined.

Lemma supported_has_handler_witness :
  ∃ hs h, assoc WorkflowArtifactTypeKey (handlers (caller "alice")) = Some hs ∧
    assoc WorkflowActionTypeDelete hs = Some h.
Proof. exact (supported_has_handler (caller "alice") request eq_refl). Defined.

Lemma demo_enabled : workflows_enabled demo_db.
Proof.
  split.
  - intros r ->%list_elem_of_singleton _. exists demo_config. by split.
  - by intros t ->%list_elem_of_singleton.
Qed.

Abbreviation creating := (CreateWorkflow (caller "alice") request (demo_world demo_db)).


Abbreviation alice_confirms :=
  (applyTransition (caller "alice") "alice" TransitionConfirm (approved_twice.1, the_workflow approved_twice)).

Lemma finished_releases_artifact_witness :
  is_terminal (wf_State alice_confirms.1.2) = true ∧ released (w_db alice_confirms.1.1) alice_confirms.1.2.
Proof.
  assert (alice_confirms.2 = inr tt) as Hr by evaluate.
  destruct (applyTransition _ _ _ _) as [[w' wf'] r] eqn:E. cbn [fst snd] in Hr |- *. subst r.
  exact (finished_releases_artifact (caller "alice") "alice" TransitionConfirm approved_twice.1
    (the_workflow approved_twice) w' wf' (or_introl (conj (list_elem_of_here _ _) E))).
Defined.

(** Long after the request has finished. *)
Definition much_later : World := mkWorld (w_db confirmed.1) (10000000 + 31 * day) false [] [] [] ∅.

