(* ===== verification/Platform.v ===== *)
(** A second concrete deployment, for the parts that talk to services: identifiers as
    decimal text, a job library that takes every job, a registry that accepts every
    claim, an issuer with a single certificate, and a keystore plugin.  A system is
    linked and its job finished, and a key is created, on real states. *)
From Stdlib Require Import DecimalString DecimalN DecimalPos.
From S2P Require Import Prelude Errs Json GoContext AuthzPolicies Model Store Batch Users KeyAccess Events.
From S2P Require Import JobHandlers Reconciler JobFacts JobOutcomes KeyConfigs RegistryClient Systems LinkFacts.
From S2P Require Import KeyVersions Keys Certificates TenantConfig Keystores Lifecycle WorkflowManager.
From S2P Require Import KeyRequests Managers Scenario.

(** * Services *)

#[export] Instance decimal_parse : UUIDParse := λ s,
  match NilZero.uint_of_string s with
  | Some d => inr (N.of_uint d)
  | None => inl (External "invalid UUID format")
  end.
#[export] Instance decimal_string : UUIDString := λ u, NilZero.string_of_uint (N.to_uint u).
Lemma to_uint_nonnil u : N.to_uint u ≠ Decimal.Nil.
Proof. destruct u; [done|apply DecimalPos.Unsigned.to_uint_nonnil]. Qed.
#[export] Instance decimal_laws : UUIDLaws.
Proof.
  split; intros u; unfold uuid_Parse, uuid_String, decimal_parse, decimal_string.
  - rewrite NilZero.usu by apply to_uint_nonnil. by rewrite DecimalN.Unsigned.of_to.
  - intros H. pose proof (NilZero.usu (N.to_uint u) (to_uint_nonnil u)) as Hu.
    by rewrite H in Hu.
Qed.

#[export] Instance library : Orbital := {
  PrepareJob js j :=
    inr (mkJob (N.of_nat (900 + length js)) (job_ExternalID j) (job_Type j) (job_Data j) "PENDING" "");
  FailedTasks _ := inr [] }.
#[export] Instance library_laws : OrbitalLaws.
Proof. split. by intros js j j' [= <-]. Qed.

#[export] Instance accepting : Registry := Some (λ _ _, None).
Lemma accepting_accepts : registry_accepts.
Proof. exists (λ _ _, None). split; [done|]. by left. Qed.

#[export] Instance platform_config : EventProcessorConfig := {
  targets := {[ "eu" := tt ]};
  LandscapeRegion := "eu" }.
#[export] Instance platform_managements : KeyManagements := inr ∅.

#[export] Instance fresh : NewUUID := λ w, N.of_nat (1000 + length (w_log w)).
#[export] Instance clock : ParseTime := λ _, inr 5%Z.

Definition theKey : PrivateKey := mkPrivateKey 7 3.
#[export] Instance issuer : CertificateEnv := {
  pem_Decode s := if s ==s "chain" then Some (mkPEMBlock "CERTIFICATE" "der", "") else None;
  x509_ParseCertificate _ := inr (mkX509Certificate "der" (RSAPublicKey 7 3) "cn" ["eu"] 10000000 20000000);
  sha256_hex s := "sha256:" +:+ s;
  GeneratePrivateKey _ := inr theKey;
  privateKeyPEM _ := "private";
  certIssuer := Some (λ _ _ _ _ _, inr "chain");
  RotationThresholdDays := 7;
  ValidityDays := 30;
  DefaultTenantCertPrefix := "cmk-";
  Landscape_Region := "eu";
  CertX509Trusts := inr "";
  yaml_Unmarshal _ := inr [];
  pkix_Name_String s := "CN=" +:+ cs_CommonName s;
  replaceUnits s _ := s }.

(** A plugin that creates enabled keys. *)
Definition plugin : KeyManagement :=
  mkKeyManagement "AWS" (λ _ _ id, inr (mkGetKeyResponse id true KeyStateENABLED)) (λ _ _ _, inr [])
    (λ _ _ id, inr ("native-" +:+ id, KeyStateENABLED)) (λ _ _ _, inr tt) (λ _ _ _, inr tt) (λ _ _ _, inr tt)
    (λ _ _ _, inr ∅) (λ _ _ _, inr tt) (λ _, inr (mkValidateResponse true "")) (λ _ _, inr (mkValidateResponse true ""))
    (λ _ _, inr "eu").
Definition demo_management (cn : string) : ManagementConfig := mkManagementConfig "loc-1" cn (Some {[ "role" := JString "r" ]}).
Definition demo_response : CreateKeystoreResponse :=
  mkCreateKeystoreResponse (demo_management "role-cn") (mkManagementConfig "" "" None) None.
#[export] Instance catalog : PluginCatalog := {
  svcCatalog := Some (mkCatalog (inr [mkPluginInfo "AWS" [DefaultKeyStore]]) (inr {[ "AWS" := plugin ]})
    (inr {[ "AWS" := mkKeystoreManagement (λ _, inr demo_response) (λ _ _ _ _ _, inr (Some {[ "role" := JString "k" ]})) ]}));
  FeatureGates := None;
  KeystorePool_SupportedRegions := None }.
#[export] Instance keyEnv : KeyEnv := {
  ke_IsInvalidKeyAccessData _ := false;
  ke_GetDetails err := (Error err, ∅);
  ke_asyncClient := None }.

(** * Data *)

Definition linked_config : KeyConfiguration := set_kc_PrimaryKeyID (Some 20%N) demo_keyConfig.
Definition loose_system : System :=
  mkSystem 30 "sys" "eu" "SYSTEM" None None None None ∅ SystemStatusDISCONNECTED false "" "".
Definition platform_db : DB := set_keyConfigs [linked_config] (set_systems [loose_system] demo_db).
Definition platform : Fleet :=
  mkFleet (db_public demo_db) {[ "schema_acme" := platform_db ]} 10000000 [] [] [] ∅.

(** * A link, from the request to the finished job *)

Definition link_accepted := onTenant "acme" (Systems.LinkSystemAction (caller "alice") 30 10) platform.
Definition link_job : Job := default (mkJob 0 "" "" JNull "" "") (head (f_jobs link_accepted.1)).
Definition link_finished := jobDoneFunc link_job link_accepted.1.
Definition link_lost := jobFailedFunc link_job link_accepted.1.
Definition link_taken_back := onTenant "acme" (SendRecoveryActions (caller "alice") 30 ActionCANCEL) link_lost.1.

Definition status_of (f : Fleet) : list (string * option uuid) :=
  match tables f "acme" with
  | Some d => (λ s, (s_Status s, s_KeyConfigurationID s)) <$> db_systems d
  | None => []
  end.

Example link_runs :
  status_of platform = [(SystemStatusDISCONNECTED, None)] ∧
  status_of link_accepted.1 = [(SystemStatusPROCESSING, None)] ∧
  status_of link_finished.1 = [(SystemStatusCONNECTED, Some 10%N)] ∧
  status_of link_lost.1 = [(SystemStatusFAILED, None)] ∧
  status_of link_taken_back.1 = [(SystemStatusDISCONNECTED, None)].
Proof. vm_compute. auto 10. Qed.
