(* ===== verification/JobWitnesses.v ===== *)
(** The theorems on jobs, systems, keys, certificates and keystores at work on the
    deployment of [Platform]. *)
From S2P Require Import Prelude Errs Json GoContext AuthzPolicies Model Store Batch Users KeyAccess Events.
From S2P Require Import JobHandlers Reconciler JobFacts JobOutcomes KeyConfigs RegistryClient Systems SystemFacts LinkFacts.
From S2P Require Import KeyVersions Keys Certificates CertificateFacts TenantConfig Keystores Lifecycle WorkflowManager.
From S2P Require Import Managers Frames KeystoreFacts KeyFacts Scenario Platform.

(** * Jobs *)

Definition link_data : SystemActionJobData :=
  match unmarshalSystemJobData link_job with inr d => d | inl _ => mkSystemActionJobData "" "" "" "" "" end.
Definition linking_db : DB := default platform_db (tables link_accepted.1 "acme").

Lemma callbacks_confined_witness : confined "acme" link_accepted.1 link_finished.1.
Proof. apply (callbacks_confined link_job jobDoneFunc). left. Defined.

Lemma job_done_outcome_witness :
  ∃ id cfg, done_target link_job link_data linking_db id cfg ∧
    tables link_finished.1 "acme" = Some (without_event link_job (with_system id (settle cfg) linking_db)).
Proof.
  apply (job_done_outcome link_job link_data linking_db link_accepted.1 link_finished.1).
  - decided.
  - evaluate.
  - evaluate.
  - decided.
  - apply ran. evaluate.
Defined.

(** The job is delivered twice. *)
Definition link_finished_again := jobDoneFunc link_job link_finished.1.
Lemma job_done_idempotent_witness : tables link_finished_again.1 "acme" = tables link_finished.1 "acme".
Proof.
  apply (job_done_idempotent link_job link_data linking_db link_accepted.1 link_finished.1 link_finished_again.1
    link_finished.1).
  - decided.
  - evaluate.
  - evaluate.
  - decided.
  - decided.
  - apply ran. evaluate.
  - reflexivity.
  - apply ran. evaluate.
Defined.

(** The registry is down. *)
Definition refused := jobDoneFunc (Rg := Some (λ _ _, Some (External "unavailable"))) link_job link_accepted.1.
Lemma job_error_no_trace_witness :
  f_schemas refused.1 = f_schemas link_accepted.1 ∧ f_public refused.1 = f_public link_accepted.1.
Proof.
  eapply (job_error_no_trace (Rg := Some (λ _ _, Some (External "unavailable"))) link_job
    (jobDoneFunc (Rg := Some (λ _ _, Some (External "unavailable"))))).
  - decided.
  - left.
  - apply ran. evaluate.
Defined.

Lemma job_failed_outcome_witness :
  tables link_lost.1 "acme" = Some (failed link_job (failureMessage link_job) 30 linking_db).
Proof.
  apply (job_failed_outcome link_job link_data linking_db 30 jobFailedFunc (failureMessage link_job)
    link_accepted.1 link_lost.1).
  - left.
  - decided.
  - evaluate.
  - evaluate.
  - decided.
  - intros e He. by apply not_elem_of_nil in He.
  - evaluate.
  - apply ran. evaluate.
Defined.

(** * Links *)

Definition result_or {S A} (a : A) (x : S * (error + A)) : A := match x.2 with inr y => y | inl _ => a end.

Definition link_world := Systems.LinkSystemAction (caller "alice") 30 10 (world_of platform platform_db).
Definition refused_link := Systems.LinkSystemAction (caller "alice") 31 10 (world_of platform platform_db).

Lemma link_outcome_witness :
  (∃ s kc k job, linkable platform_db 30 10 s kc k ∧
    carries (caller "alice") (linkType platform_db s kc) (linkData platform_db s kc (k_ID k)) job ∧
    link_sent s kc job (world_of platform platform_db) link_world.1) ∧
  w_db refused_link.1 = platform_db.
Proof.
  split.
  - apply (link_outcome (caller "alice") 30 10 (world_of platform platform_db) link_world.1
      (inr (result_or loose_system link_world)));
      [done|decided|].
    apply ran. evaluate.
  - eapply (link_outcome (caller "alice") 31 10 (world_of platform platform_db) refused_link.1 (inl _)); [done|decided|].
    apply ran. evaluate.
Defined.

Lemma platform_wf : systems_wf platform_db.
Proof. split; [decided| |decided]. intros s ->%list_elem_of_singleton. done. Qed.
Lemma platform_primary : primary_own platform_db.
Proof. intros kc k ->%list_elem_of_singleton ->%list_elem_of_singleton _. reflexivity. Qed.


Lemma link_failed_canceled_witness :
  ∃ d', tables link_taken_back.1 "acme" = Some d' ∧ set_events [] d' = platform_db.
Proof.
  apply (link_failed_canceled (caller "alice") (caller "alice") "acme" 30 10 platform link_accepted.1 link_lost.1
    link_taken_back.1 (result_or loose_system link_accepted) platform_db link_job jobFailedFunc).
  - evaluate.
  - evaluate.
  - decided.
  - reflexivity.
  - intros s ->%list_elem_of_singleton _. reflexivity.
  - apply ran. evaluate.
  - evaluate.
  - left.
  - apply ran. evaluate.
  - apply ran. evaluate.
Defined.

(** * Keys *)

Definition world (d : DB) : World := mkWorld d 10000000 false [] [] [] ∅.
Lemma world_honest d : honest_faults (world d).
Proof. intros e He. by apply not_elem_of_nil in He. Qed.

(** The only key, with a system connected to its configuration. *)
Definition guarded_db : DB := set_keyConfigs [linked_config] demo_db.
Definition refused_delete := KeyManager_Delete (caller "alice") 20 (world guarded_db).
Lemma primary_key_protected_witness :
  (∃ e, refused_delete.2 = inl e) ∧ deletions refused_delete.1 = [] ∧ key_ids (w_db refused_delete.1) = [20%N].
Proof.
  apply (primary_key_protected (caller "alice") 20 (world guarded_db) refused_delete.1 refused_delete.2 demo_key
    linked_config demo_system).
  - apply world_honest.
  - done.
  - decided.
  - left.
  - reflexivity.
  - evaluate.
  - reflexivity.
  - left.
  - reflexivity.
  - unfold refused_delete. apply surjective_pairing.
Defined.

(** The key of a configuration without systems; the keystore comes from the pool. *)
Definition demo_keystore : Keystore := mkKeystore 5 70 "AWS" (ToKeystoreConfig demo_response).
Definition lone_db : DB := set_keystores [demo_keystore] platform_db.
Definition free_db : DB := set_systems [] lone_db.
Lemma outside_configs d d' : outside_keys d = outside_keys d' → db_keyConfigs d = db_keyConfigs d'.
Proof. by intros [= _ -> _]. Qed.
Definition deleted := KeyManager_Delete (caller "alice") 20 (world free_db).

(** A new key for a configuration without keys: first while the keystore is not ready,
    then when it is. *)
Definition empty_db : DB := set_keyConfigs [demo_keyConfig] (set_keys [] free_db).
Definition new_key : Key := set_k_CreatedAt 0 (demo_byok 21 "new").
Definition pending := KeyManager_Create (caller "alice") new_key (world empty_db).
Definition ready_config : KeystoreConfig :=
  mkKeystoreConfig (demo_management "role-cn") (demo_management "key-cn") None None.
Definition ready_db : DB :=
  set_tenantConfigs [mkTenantConfig DefaultKeyStore (KeystoreConfig_Marshal ready_config)] empty_db.
Definition stored := KeyManager_Create (caller "alice") new_key (world ready_db).

Lemma create_key_outcome_witness :
  (kc_PrimaryKeyID <$> db_keyConfigs (w_db pending.1)) = [None] ∧ key_ids (w_db pending.1) = [21%N] ∧
  (kc_PrimaryKeyID <$> db_keyConfigs (w_db stored.1)) = [Some 21%N] ∧ key_ids (w_db stored.1) = [21%N].
Proof.
  destruct (create_key_outcome (caller "alice") new_key (world empty_db) pending.1 (inr (result_or new_key pending)))
    as (_ & _ & Hp & Hc).
  - apply world_honest.
  - reflexivity.
  - unfold pending. apply ran. evaluate.
  - destruct (create_key_outcome (caller "alice") new_key (world ready_db) stored.1 (inr (result_or new_key stored)))
      as (_ & _ & Hp' & Hc').
    + apply world_honest.
    + reflexivity.
    + unfold stored. apply ran. evaluate.
    + rewrite Hp, Hc, Hp', Hc'. split_and!; evaluate.
Defined.

(** The pending key is created at the provider later, and still is not primary. *)
Definition synced := SyncPendingCreationKey (caller "alice") 21 (set_log [] pending.1).
Lemma pending_key_never_primary_witness : db_keyConfigs (w_db synced.1) = [demo_keyConfig].
Proof.
  rewrite (pending_key_never_primary (caller "alice") 21 (set_log [] pending.1) synced.1 (inr tt)).
  - evaluate.
  - vm_compute. intros e He. by apply not_elem_of_nil in He.
  - evaluate.
  - intros k Hk _. assert (db_keys (w_db (set_log [] pending.1)) = [result_or new_key pending]) as Hd by evaluate.
    rewrite Hd in Hk. apply list_elem_of_singleton in Hk as ->. evaluate.
  - unfold synced. apply ran. evaluate.
Defined.
Example synced_key_is_ready :
  (λ k, (k_ID k, k_State k)) <$> db_keys (w_db synced.1) = [(21%N, KeyStateENABLED)].
Proof. evaluate. Qed.

(** * Keystores and certificates *)

Definition handed_over := initDefaultKeystoreFromPool (world lone_db).
Lemma keystore_handover_witness :
  pool handed_over.1 = [] ∧ (getStoredDefaultKeystoreConfig (set_log [] handed_over.1)).2 = inr (Some (config_of demo_response)).
Proof.
  destruct (keystore_handover (world lone_db) handed_over.1 (inr (config_of demo_response)))
    as (ks & Hks & _ & Hp & Hs).
  - reflexivity.
  - unfold handed_over. apply ran. evaluate.
  - split.
    + rewrite Hp. vm_compute in Hks. injection Hks as <-. evaluate.
    + apply Hs; evaluate.
Defined.

Definition old_cert : Certificate :=
  mkCertificate 60 "fp" "cn" CertificateStateActive CertificatePurposeHYOKManagement 1 9000000 "chain" "private"
    true None.
Definition rotated := RotateCertificate (rotationArgs old_cert) (world (set_certificates [old_cert] demo_db)).
Lemma rotate_certificate_outcome_witness :
  ∃ c, db_certificates (w_db rotated.1) = [set_c_AutoRotate false old_cert; c] ∧ issued (rotationArgs old_cert) theKey c.
Proof.
  destruct (result_or (old_cert, mkPrivateKey 0 0) rotated) as [c k] eqn:Hr.
  destruct (rotate_certificate_outcome (rotationArgs old_cert) 60 (world (set_certificates [old_cert] demo_db))
    rotated.1 (inr (c, k))) as (Hi & _ & Hc).
  - reflexivity.
  - done.
  - decided.
  - decided.
  - rewrite <-Hr. unfold rotated. apply ran. evaluate.
  - exists c. split; [exact Hc|]. vm_compute in Hr. injection Hr as <- <-. exact Hi.
Defined.
