(* ===== verification/TenantWitnesses.v ===== *)
(** The theorems on labels, tenants and the operator at work on the deployment of
    [Platform]: a tenant is provisioned, an other is offboarded and terminated. *)
From S2P Require Import Prelude Errs Json GoContext AuthzPolicies Model Store Batch Users KeyAccess Events.
From S2P Require Import JobHandlers KeyConfigs Labels RegistryClient Systems KeyVersions Keys Groups Tenants.
From S2P Require Import JobFacts TenantFacts Operator OperatorFacts Scenario Platform.

(** * Services *)

#[export] Instance enums : TenantEnums := {
  validTenantStatuses := ["STATUS_ACTIVE"; "STATUS_BLOCKED"];
  validTenantRoles := ["ROLE_LIVE"; "ROLE_TEST"] }.

(** The migrations keep a schema that is there. *)
#[export] Instance migrations : Migrations := {
  goose_Up _ d := GooseUp (default DB_empty d);
  maxRetries := 3 }.

(** An encoder: the letters and digits of the text. *)
Definition alphanumeric (s : string) : string :=
  String.string_of_list_ascii (List.filter (λ c, isLetter c || isDigit c) (String.list_ascii_of_string s)).

#[export] Instance operatorEnv : OperatorEnv := {
  unmarshalTenant s := inr (mkTenantProto s s "" "" "ROLE_LIVE");
  unmarshalAuth s := inr (mkAuthProto s None);
  base62_EncodeToString s := alphanumeric s;
  decodeWorkingState _ := None;
  sessionManager _ _ := inr (true, "");
  tenantService _ _ := inr true;
  TerminationTimeout := 0 }.

Lemma alphanumeric_alphabet : base62_alphabet.
Proof.
  intros s. cbn. unfold alphanumeric. rewrite String.list_ascii_of_string_of_list_ascii. apply forallb_forall.
  by intros c [_ Hc]%filter_In.
Qed.

(** * Labels *)

Definition label (id : uuid) (name value : string) : KeyLabel := mkKeyLabel id name value 20.
Definition labelled : World := demo_world (set_labels [label 1 "env" "dev"; label 2 "team" "a"] demo_db).
Definition relabelled := CreateOrUpdateLabel 20 [label 8 "env" "prod"; label 9 "tier" "1"] labelled.


(** * Provisioning *)

Definition provision : HandlerRequest := mkHandlerRequest "newtenant" 0.
Definition blank : HandlerResponse := mkHandlerResponse None "" None.
Definition newTenant : Tenant :=
  match unmarshalTenantData (TaskData provision) with
  | inr t => t
  | inl _ => tenantRef "" ""
  end.
Definition first_run := handleCreateTenant 71 72 worker provision blank platform.
Definition second_run := handleCreateTenant 73 74 worker provision blank first_run.1.

Lemma provisioning_converges_witness :
  ∃ r, second_run.2 = inr r ∧ hr_Result r = Some CompleteTask.
Proof.
  destruct (provisioning_converges 71 72 73 74 worker provision blank blank newTenant platform)
    as (f1 & r1 & f2 & r2 & H1 & _ & H2 & Hr & _).
  - exact alphanumeric_alphabet.
  - reflexivity.
  - evaluate.
  - evaluate.
  - decided.
  - discriminate.
  - decided.
  - evaluate.
  - reflexivity.
  - exists r2. unfold second_run, first_run. rewrite H1. cbn [fst]. rewrite H2. split; [reflexivity|exact Hr].
Defined.

Definition result_of {S} (x : S * (error + HandlerResponse)) : HandlerResponse :=
  match x.2 with inr r => r | inl _ => blank end.

Lemma provision_complete_sound_witness : provisioned second_run.1 newTenant.
Proof.
  destruct (provision_complete_sound 73 74 worker provision blank first_run.1 second_run.1 (result_of second_run))
    as (t & Ht & Hp & _).
  - unfold second_run. apply ran. evaluate.
  - evaluate.
  - assert (unmarshalTenantData (TaskData provision) = inr newTenant) as Hn by evaluate.
    rewrite Hn in Ht. injection Ht as <-. exact Hp.
Defined.

(** * Termination *)

Definition detached_key : Key := set_k_State KeyStateDETACHED demo_key.
Definition idle_db : DB := set_keys [detached_key] platform_db.
Definition idle : Fleet := mkFleet (db_public demo_db) {[ "schema_acme" := idle_db ]} 10000000 [] [] [] ∅.
Definition always : list Effect → Effect → option error := λ _ _, None.

Definition offboarding := OffboardTenant (caller "alice") (world_of idle idle_db).
Lemma offboard_success_sound_witness :
  offboarded (w_db offboarding.1) ∧ unmapCall "acme" loose_system ∈ w_log offboarding.1.
Proof.
  destruct (offboard_success_sound always eq_refl (caller "alice") "acme" eq_refl (world_of idle idle_db)
    offboarding.1) as (Ho & log & Hl & _).
  - unfold offboarding. apply ran. evaluate.
  - split; [exact Ho|]. rewrite Hl. apply unmap_log_elem. right. apply list_elem_of_fmap_2. vm_compute. apply list_elem_of_here.
Defined.

Definition terminate : HandlerRequest := mkHandlerRequest "acme" 9999000.
Definition terminated := handleTerminateTenant (O := library) worker terminate blank idle.

(** The tenant comes back and finds its key. *)
Definition deleted := DeleteTenant (caller "alice") idle.
Definition acme : Tenant := mkTenant "schema_acme" "acme.io" "acme" "Acme" "STATUS_ACTIVE" "" "" "" "ROLE_LIVE".
Definition recreated := CreateTenant acme deleted.1.
Lemma deleted_data_reappears_witness :
  tables deleted.1 "acme" = None ∧ tables recreated.1 "acme" = Some idle_db ∧ db_keys idle_db = [detached_key].
Proof.
  destruct (deleted_data_reappears (caller "alice") "acme" acme idle_db idle deleted.1 recreated.1) as [H1 H2].
  - reflexivity.
  - reflexivity.
  - discriminate.
  - reflexivity.
  - evaluate.
  - evaluate.
  - unfold deleted. apply ran. evaluate.
  - unfold recreated. apply ran. evaluate.
  - split; [exact H1|]. split; [exact H2|reflexivity].
Defined.
