(* ===== verification/ApiWitnesses.v ===== *)
(** The theorems on filters, error answers and the request pipeline at work: a filter with
    a quote in it, a rejected update, an auditor who reads the keys. *)
From S2P Require Import Prelude Errs GoContext AuthzPolicies Authz Model Store AuthzLoader AuthzLoaderFacts.
From S2P Require Import Batch OData ODataFacts Users KeyConfigs Keys WorkflowManager Filters ApiErrors.
From S2P Require Import Requests RequestFacts Scenario Witnesses.
From S2P Require Import Events JobHandlers KeyVersions KeyAccess TenantConfig Certificates Keystores KeyRequests Managers.
From S2P Require Import Json Sanitise Presentation Frames KeyFacts Controllers ControllerFacts Platform JobWitnesses.

(** * Filters *)

Definition nameEntry : FilterSchemaEntry unit := {|
  FilterName := "artifactName";
  FilterType := KString;
  DBName := "artifact_name";
  DBQuery := None;
  ValueModifier := None;
  ValueValidator := None |}.

Definition quoted : list (string * string) := [("artifactName", "it's and x"); ("state", "INITIAL")].


Lemma filter_parse_sound_witness :
  ∃ ops, lit "state eq 'INITIAL' and artifactName eq 'x'" = joinAnd ops ∧
    Forall2 reads_as ops [(lit "state", lit "'INITIAL'"); (lit "artifactName", lit "'x'")].
Proof. apply filter_parse_sound; [discriminate|evaluate]. Defined.

Definition asked : Filters.request := [(("state", "initial"), (StateField, VString "INITIAL"))].


(** * Error answers *)

Definition rejectedUpdate : error :=
  Errorf_ww Keys.ErrCryptoDetailsUpdate (GRPC "INVALID_ACCESS_DATA" "failed" "bad role" ∅).

Lemma invalid_access_data_lost_witness : errors_Is rejectedUpdate Keys.ErrCryptoDetailsUpdate = true.
Proof. apply invalid_access_data_lost. evaluate. Defined.

(** * The pipeline *)

#[export] Instance demo_validator : OAPIValidator := λ _, None.

#[export] Instance demo_auth : ClientDataAuth := {
  HeaderClientData := "x-client-data";
  HeaderClientDataSignature := "x-client-data-signature";
  SignatureAlgorithmRS256 := "RS256";
  PublicKey := string;
  auth_DecodeFrom s := inr (Some (mkSigned (mkClientData s "" "" "" ["kms-auditors"] ∅) "key-1" "RS256"));
  auth_Verify _ key signature := if signature ==s key then None else Some (External "crypto/rsa: verification error");
  jwt_ParseRSAPublicKeyFromPEM pem := inr pem }.

#[export] Instance demo_roles : RoleGetter := userManager (demo_world demo_db).
#[export] Instance demo_roles_laws : RoleGetterLaws := userManager_laws (demo_world demo_db).

Definition auditorRequest : Request :=
  mkRequest "GET /cmk/v1/{tenant}/keys" "acme"
    {["x-client-data" := "dave"; "x-client-data-signature" := "pem"]} None Background.
Definition signingKeys : gmap string string := {["key-1" := "pem"]}.
Definition listKeys : HTTPHandler := λ _, mret (Answer 200 "[]").

(** The request is served, and without a signature it is not. *)
Example auditor_served :
  (serveRoute signingKeys [] (λ _, None) listKeys auditorRequest loaded.1).2 = inr (Answer 200 "[]").
Proof. evaluate. Qed.

Lemma handler_needs_identity_and_role_witness :
  ∃ signed, authenticated signingKeys auditorRequest signed ∧
    ClientGroups (sd_ClientData signed) ≠ [].
Proof.
  destruct (handler_needs_identity_and_role signingKeys [] [demo_cluster] (λ _, None) auditorRequest
    loaded.1 "GET /keys" demo_history ltac:(decided) eq_refl)
    as [(am' & resp & Hs & H)|(r' & am' & ctx & signed & _ & _ & _ & Ha & _ & Hg & _)].
  - exfalso. specialize (H listKeys). assert (resp = Answer 200 "[]") as ->; [|cbn in Hs; lia].
    assert ((serveRoute signingKeys [] (λ _, None) listKeys auditorRequest loaded.1).2 = inr resp) as H2
      by (rewrite H; reflexivity).
    vm_compute in H2. injection H2 as <-. reflexivity.
  - exists signed. split; [exact Ha|exact Hg].
Defined.

(** * Sanitising *)

(** A policy that drops the characters of tags *)
#[export] Instance dropTags : Policy := λ s,
  String.string_of_list_ascii (List.filter (λ c, negb (markup c)) (String.list_ascii_of_string s)).

Definition greeting : Value := GPointer (Some (GStruct
  [(field "Name", GString "<b>bob</b>"); (field "Labels", GMap (Some [("<k>", GInterface (Some (GString "it's")))]))])).
Definition greeting' : Value := GPointer (Some (GStruct
  [(field "Name", GString "bbob/b"); (field "Labels", GMap (Some [("k", GInterface (Some (GString "its")))]))])).


(** A tag that switches sanitising off hides the rest of the struct as well. *)
Example switched_off :
  sanitize true (GStruct [(mkField "Note" true "sanitise:false", GString "<i>"); (field "Name", GString "<b>")]) =
  inr (GStruct [(mkField "Note" true "sanitise:false", GString "<i>"); (field "Name", GString "<b>")]).
Proof. evaluate. Qed.

(** * The gate of the controllers *)

#[export] Instance noInformation : Systems.SystemInformation := {
  Systems.GetSystemInfo := None;
  Systems.OptionalSystemProperties := [] }.

(** The tenant requires workflows, and key 20 is the primary key of its configuration. *)
Definition strict_config : WorkflowConfig := mkWorkflowConfig true 2 30 7 14.
Definition strict_db : DB :=
  set_tenantConfigs [mkTenantConfig WorkflowConfigKey (json_Marshal strict_config)] guarded_db.

Lemma strict_enforced : enforced strict_db.
Proof.
  split; [by eexists; split; [left|]|]. intros row c [->|[]%not_elem_of_nil]%elem_of_cons _ Hc.
  change (inr strict_config = (inr c : error + WorkflowConfig)) in Hc. by injection Hc as <-.
Qed.

Definition direct_delete := serve (caller "alice") (DeleteKey 20) (world strict_db).


(** Without the requirement the same request reaches the key manager, which refuses it for
    another reason: a system is connected. *)
Definition lax_db : DB :=
  set_tenantConfigs [mkTenantConfig WorkflowConfigKey (json_Marshal (mkWorkflowConfig false 2 30 7 14))] guarded_db.
Example gate_open :
  (serve (caller "alice") (DeleteKey 20) (world lax_db)).2 =
  inl (Errorf_ww ApiErrors.ErrDeleteKey (Errorf_ww Keys.ErrDeleteKey ErrConnectedSystemToKeyConfig)).
Proof. evaluate. Qed.

(** A keystore whose access data has a list of texts cannot be presented. *)
Definition listed : ManagementConfig :=
  mkManagementConfig "loc" "cn" (Some {[ "regions" := JArray [JString "eu"] ]}).
Example keystores_not_presented :
  keystores_ToAPI (mkTenantKeystores (mkKeystoreConfig listed listed None None) true (mkHYOKKeystore [] false)) =
  inl unaddressable.
Proof. evaluate. Qed.
