(* ===== verification/TaskWitnesses.v ===== *)
(** The theorems on the asynchronous tasks at work: the names of two tenants are refreshed,
    a child task is refused, and a task that is delivered again breaks a finished workflow; and
    the query behind the list of workflows on the rows of a small database. *)
From S2P Require Import QueryFacts.
From S2P Require Import Prelude Errs Json AuthzPolicies Authz Model Store Batch AuthzLoader AuthzLoaderFacts.
From S2P Require Import Users KeyAccess Events JobHandlers KeyConfigs RegistryClient Systems KeyVersions Keys.
From S2P Require Import TenantConfig Certificates Keystores Groups Tenants Fsm Lifecycle WorkflowManager CleanupFacts.
From S2P Require Import KeyRequests Managers Tasks TaskFacts Scenario Witnesses Platform GoContext.

#[export] Instance acceptingQueue : TaskQueue := λ _, None.
#[export] Instance directory : TenantDirectory := λ id, inr ("name of " +:+ id).

(** * Batches *)

Definition tenant (id name : string) : Tenant := mkTenant ("schema_" +:+ id) id id name "" "" "" "" "".
Definition twoTenants : Worker :=
  mkWorker (mkFleet (mkPublic [tenant "acme" ""; tenant "umbrella" "Umbrella"] []) ∅ 0 [] [] [] ∅) [].
Definition refresh : Task := mkTask TypeTenantRefreshName NilPayload [].
Definition processing : Ctx :=
  mkCtx None (Some uuid_NewString) (Some InternalUser) None (Some InternalTaskProcessingRole).

Definition refreshed :=
  ProcessTenantsInBatch NewBatchProcessor Background (Some refresh) TenantNameRefresher_ProcessTask twoTenants.


(** Only the tenants without a name would have been asked for with child tasks. *)
Definition fanOutApp : App :=
  mkApp (taskMap [mkTaskConfig None "" TypeTenantRefreshName None 0 (Some (mkFanOutConfig true None 0))]) ∅.
Example children_only :
  (task_Payload <$> wk_queue (handleTask fanOutApp NewTenantNameRefresher Background refresh twoTenants).1) =
  [TaskDoc "acme" ClientData_zero NilPayload].
Proof. evaluate. Qed.

(** * Child tasks *)

Definition repoLoader : AuthzLoader := NewRepoAuthzLoader (mkCluster [("acme", "schema_acme")] ∅ false []).

Lemma child_tasks_powerless_witness :
  ∃ ctx', acts_as InternalTaskProcessingRole (Some "acme") ctx' ∧
    ∃ e, (run_op OpList ctx' RepoResourceTypeKey [] (mret tt) repoLoader).2 = inl e.
Proof.
  destruct (child_tasks_powerless NewTenantNameRefresher Background "acme" NilPayload [] ClientData_zero)
    as [_ (ctx' & Ha & _ & Hno)]; [by left|].
  exists ctx'. split; [exact Ha|].
  eapply (Hno unit OpList RepoResourceTypeKey [] (mret tt) repoLoader);
    [reflexivity|discriminate|apply surjective_pairing].
Defined.

(** * A task that is delivered again *)

(** The workflow has been carried out long ago. *)
Definition carriedOut : Workflow :=
  mkWorkflow 1 40 WorkflowStateSuccessful "alice" "" [] None WorkflowArtifactTypeKey 20 None
    WorkflowActionTypeDelete "" None None "" (Some 5%Z) 2.
Definition afterwards : Fleet :=
  mkFleet (db_public demo_db) {[ "schema_acme" := set_workflows [carriedOut] demo_db ]} 10000000 [] [] [] ∅.
Definition assign : Task :=
  mkTask TypeWorkflowAutoAssign (TaskDoc "acme" ClientData_zero (TextPayload (uuid_String 40))) [].
Definition delivered_again := WorkflowProcessor_ProcessTask worker assign afterwards.
Definition workflow_states (f : Fleet) : list string :=
  match f_schemas f !! "schema_acme" with Some d => wf_State <$> db_workflows d | None => [] end.

Example finished_then_failed :
  workflow_states afterwards = [WorkflowStateSuccessful] ∧
  workflow_states delivered_again.1 = [WorkflowStateFailed].
Proof. vm_compute. auto. Qed.

Lemma afterwards_markable : markable 40 (set_workflows [carriedOut] demo_db).
Proof.
  split; [done|by exists carriedOut; split; [left|]|..].
  - by intros x [->|[]%not_elem_of_nil]%elem_of_cons.
  - by intros x [->|[]%not_elem_of_nil]%elem_of_cons.
  - by intros x [->|[]%not_elem_of_nil]%elem_of_cons.
Qed.

Lemma assign_task_outcome_witness :
  ∃ e d', delivered_again.2 = inl (Wrap ErrRunningTask (Some e)) ∧
    f_schemas delivered_again.1 !! "schema_acme" = Some d' ∧
    ended_failed 40 (Error e) (set_workflows [carriedOut] demo_db) d'.
Proof.
  destruct (assign_task_outcome worker TypeWorkflowAutoAssign "acme" ClientData_zero (uuid_String 40) [] 40
    afterwards delivered_again.1 delivered_again.2) as [(wf & Hw & _)|(f1 & e & Ha & Hend)].
  - evaluate.
  - discriminate.
  - apply surjective_pairing.
  - apply (f_equal (λ r, r.2)) in Hw. vm_compute in Hw. discriminate Hw.
  - assert (is_error e = true ∧ f_public f1 = f_public afterwards ∧ f_faults f1 = [] ∧
      f_schemas f1 = f_schemas afterwards) as (He & Hp & Hf & Hs).
    { revert Ha. vm_compute. intros [= <- <-]. auto. }
    destruct (Hend "schema_acme" (set_workflows [carriedOut] demo_db)) as (Hr & d' & Hd & Hfail).
    + unfold schema_of. rewrite Hp. evaluate.
    + rewrite Hs. evaluate.
    + exact Hf.
    + exact afterwards_markable.
    + unfold failure_reason in Hfail. rewrite He in Hr, Hfail. exists e, d'.
      split; [exact Hr|]. split; [by rewrite Hd, lookup_insert_eq|exact Hfail].
Defined.

(** * The list of workflows *)

Definition waiting : WorkflowFilter := mkFilter WorkflowStateWaitApproval "" 0 "" "" "" 0 0 false.
Definition assignedWorkflow : Workflow := default (Workflow_ofID 0) (head (db_workflows (w_db assigned.1))).

(** The assigned workflow is in the list of bob, who approves it; carol's colleague dave, who is in
    the same group but neither initiator nor approver, does not find it, and a caller who has
    left the group does not either. *)
Lemma list_query_refines_witness :
  selectsSome WorkflowTable
    (groupFilteredQuery "bob" ["kms-admins"] (filterQuery waiting))
    (joinedRows (w_db assigned.1) assignedWorkflow) = inr true ∧
  selectsSome WorkflowTable
    (groupFilteredQuery "dave" ["kms-admins"] (filterQuery waiting))
    (joinedRows (w_db assigned.1) assignedWorkflow) = inr false ∧
  selectsSome WorkflowTable
    (groupFilteredQuery "bob" ["former-admins"] (filterQuery waiting))
    (joinedRows (w_db assigned.1) assignedWorkflow) = inr false.
Proof.
  split_and!;
    (match goal with |- selectsSome _ (groupFilteredQuery ?me ?g _) _ = _ =>
       rewrite (proj2 (list_query_refines waiting me g (w_db assigned.1) assignedWorkflow eq_refl)) end;
     by vm_compute).
Defined.
